(* ===== verification/_CoqProject ===== *)
-Q . S2P
Prelude.v
Chan.v
Bytes.v
SortSearch.v
GoStd.v
Proto.v
Replay.v
Panda.v
Vmu.v
Scanner.v
Notifier.v
Fs.v
Storage.v
Files.v
Untouched.v
Archive.v
Listen.v
Broker.v
Hdk2udp.v
Server.v
Compressed.v
Proxy.v
Relay.v
Text.v
Science.v
Mmaconv.v
Images.v
Fetch.v
Serve.v
Browse.v
Monitor.v
Tools.v
Extract.v
Plugins.v
Sender.v
Distrib.v
Roll.v
Gateway.v
Catalogue.v
Walk.v
Startup.v
Debug.v
Announce.v
Report.v
