(* ===== verification/Prelude.v ===== *)
(** * Hadock: a verification development of the high rate data broker

    Hadock receives packets of high rate data (HDK packets that carry the VMU
    packets of a facility) from relays, stores them, announces them and serves
    them.  The repository has a package with the protocol, the messages and
    the proxies (src/*.go, src/cascading), the storages (src/storage), the VMU
    encoder (src/vmu), the HTTP handlers of the archive (src/distrib), the
    converters of payloads (src/internal), plugins (src/plugins) and the
    commands (src/cmd).

    ** How the parts interact

    - [hadock replay] reads archives record by record (Scanner.v: the split
      functions; Sender.v: the walk and the loop) and writes each record to a
      broker, whole or in fragments (Replay.v).
    - [hadock listen] accepts connections (Server.v), decodes each of them
      (Proto.v; Compressed.v for the gzip mode; Proxy.v and Relay.v when the
      bytes are copied to another broker), converts the packets (Listen.v, [Convert])
      and gives every item to the storages, to the pool of subscribers and,
      when its queue has room, to the plugins (Listen.v, [runListen];
      Broker.v, the two goroutines; Plugins.v, the plugins).
    - The storages choose a directory (Storage.v) and write a file with links
      (Files.v) or an entry of an archive that rolls (Archive.v, Roll.v;
      Vmu.v for the encoding in an HRDP archive).
    - The pool groups items and announces each group as a message
      (Notifier.v); [hadock monitor] prints the messages (Gateway.v,
      Debug.v), [hdk2udp] turns them into telemetry parameters with the path
      of the stored file (Hdk2udp.v, Gateway.v), and the HTTP server keeps the
      last of them (Monitor.v).
    - [hadock distrib] serves the archive: routing (Distrib.v), listing and
      downloads (Browse.v), single files as bytes, images or CSV (Fetch.v,
      Images.v, Science.v, Text.v), behind a limiter (Monitor.v).  Serve.v,
      Catalogue.v and Walk.v compose these handlers with the files the storages
      leave.
    - [hadock dispatch] walks an archive (Sender.v); [vmucat] and [vmuzip]
      list and extract one (Tools.v: the selection and one worker; Report.v:
      what is printed; Extract.v: the workers at once); [mmaconv] converts
      files (Science.v: the conversion; Mmaconv.v: the files).
    - Every command begins with a configuration (Startup.v): what it opens,
      makes and starts before its loop, in its order.

    ** Files

    Shared: Prelude (errors, results, integers of a width, lists, tactics and
    the hint database [hadock]), Chan (a channel one does not wait for), Bytes
    (readers, encoding/binary), SortSearch (sort), GoStd (strings, fmt, path,
    time), Text (CSV, layouts of times), Fs (directories, inodes, links),
    Panda (what the program sees of the packets of the panda library).
    A definition has the name of the Go function it models, a method the name
    of its type in front ([filestore_Store] is [filestore.Store]); the state of
    a goroutine is a record, its turn a function or a step relation, and what
    the system answers (a read, a write, a connection, the clock) an argument
    or an event.

    - Proto: src/proto.go, [DecodePacket], [DecodeBinaryPackets], the modules.
    - Compressed: [DecodeCompressedPackets], with the buffer its packets share.
    - Replay, Scanner, Sender: src/cmd/hadock/replay.go and dispatch.go.
    - Server, Listen, Broker, Relay: src/cmd/hadock/listen.go.
    - Notifier, Debug: src/notifier.go; Gateway, Debug: src/cmd/hadock/misc.go.
    - Proxy: src/proxy.go and src/cascading/proxy.go.
    - Vmu: src/vmu.  Storage: src/storage/storage.go and hrdp.go.  Files,
      Untouched: files.go.  Archive, Roll: archives.go and hrdp.go.
    - Hdk2udp, Gateway: src/cmd/hdk2udp/main.go; Announce composes it with the
      pool and the files.
    - Fetch, Browse, Monitor, Distrib: src/distrib, src/cmd/hadock/distrib.go.
    - Serve, Catalogue, Walk: src/distrib on the files of src/storage.
    - Science, Images: src/internal; Science, Mmaconv: src/cmd/mmaconv.
    - Tools, Report: src/cmd/vmucat; Tools, Report, Extract: src/cmd/vmuzip.
    - Plugins: src/plugins.  Startup: src/cmd/hadock/main.go and the beginnings
      of the commands and plugins.

    ** What the theorems show

    - End to end: [broker_stores] (the bytes of a connection to what the
      storages get), [replay_reaches_broker] (archives through the client to
      what a broker decodes, for packets that can be sent), [relay_transparent] and [relay_parts] (a connection to what a
      broker behind the proxy decodes), [stored_is_served],
      [stored_table_is_exported], [stored_image_is_drawn],
      [stored_is_listed] and [stored_is_downloaded] (a stored packet to what a
      client of the HTTP server reads: bytes, rows, pixels, its entry in a
      listing and in an archive), [runMonitor_stream],
      [readMessages_multiplexed] and [channel_delivers] (messages from a
      broker to their readers), [announced_is_stored] (the path in a parameter
      finds the bytes of the packet it announces; [received_reference]).
    - Plugins: [plugins_isolated] (whatever the plugins return, the storages and
      the pool get what they get without them; a plugin that panics ends the
      broker).
    - Concurrency: step relations with traces ([listen_order],
      [listen_panics] for the queue of the connections), transition functions
      over events ([pool_conservation], [pool_drains], [Convert_delivers],
      [plugins_isolated], [cascade_parts]), interleaved workers on one file
      system ([zip_extracts]: the files do not depend on the interleaving).
    - Codecs and archives: round trips and exact results of decoders on whole,
      fragmented, mixed and cut streams (Proto, Notifier, Storage, Scanner,
      Vmu, Compressed), the exporters against the rows they mean (Science).
    - Files: [filestore_Store_keeps] (whatever fails, a store changes, removes
      and makes only names of its own, shares included),
      [filestore_Store_stores], [bad_never_replaces], the directories
      ([prepareDirectory_segs], [default_directory_distinct]), the archives
      ([tarstore_archives]: which entries of which packets in which archive;
      [nextFunc_truncates]).
    - HTTP: [requests_confined] (no request leaves the archive, but a CONNECT
      request does), [monitor_answers] (any number of groups, whose messages
      interleave and take each other's places, and the cleaning of idle rings),
      [downloads_agree], [readDir_lists], [limiter_isolated].
    - Tools: [vmucat_prints] and [report_complete] (every line of the report and
      what it counts), [process_file_converts], [extract_files].
    - Startup: [start_listen_starts], [start_listen_files],
      [start_distrib_serves].
    - What fails: the theorems and lemmas that state where the code loses
      data, panics or never returns, each with a concrete instance.

    ** Bounds and fuel

    - A loop over a reader takes a byte in every turn or ends; its fuel is the
      number of bytes plus one ([read_fragments], [export_loop],
      [writeScience_loop], [preparePacketV2_loop], [runMonitor]), and
      theorems such as [DecodeBinaryPackets_terminates] show that it is
      enough.  [DecodeBinaryPackets] takes its number of turns as an argument:
      a broken connection is read for ever ([DecodeBinaryPackets_broken]).
    - The directories are two calls deep ([prepare_fuel] and [reference_fuel]
      at 2): the composite levels call the function with plain levels only.
    - [search_loop]: the interval shrinks in every turn, its length is enough.
    - [resolve]: the 40 symbolic links after which the kernel gives up.
    - [read_full]: one turn per byte and per datagram that is left.
    - [walk_tree]: the longest path of the file system; [walk_tree_ends] shows
      that no directory is deeper.
    - [hex_digits]: sixteen digits hold a 64-bit sum.
    - Relations (Scanner, Server, Extract, Tools' workers, walk) need no fuel; existence
      of an end is proved beside what every end looks like.
    - Integers keep their width: [wrap] and [swrap] reduce unsigned and signed
      ones, [in_width] bounds them.

    ** Not modelled

    - Third-party code: panda (decoding and exporting packets), midbel/roll
      (when an archive rolls), toml, uuid, xxHash, x/time/rate, gorilla
      handlers, protobuf and the packages generated for it.  What the program
      relies on is a parameter or a named hypothesis with an instance.
    - From Go's library: compression, tar and zip beyond the errors the
      program meets, JSON and XML encoders, image codecs, MD5, floating-point
      formatting: parameters.  Sockets, signals and tickers are the inputs of the
      steps, and so is what filepath.Walk visits, but for downloads (Walk.v).
    - Parsing of the flags, and the text of the lines that are only logged.
      src/plugins/h264 and src/plugins/mma hold no code.  TcpForwardPlugin is a
      C++ plugin of another program.
    - The gzip mode is modelled up to its channel, not through the copy of a
      connection: what its reads return is given by the decompressor.
    - Data races on the counters of [Convert] are modelled as resets between
      its turns; the memory model of Go is not. *)

From stdpp Require Export prelude strings gmap sorting pretty.
From Stdlib Require Export Strings.Byte.
From Stdlib Require Import ZArith Lia.

#[global] Arguments Nat.div : simpl never.
#[global] Arguments Nat.modulo : simpl never.
#[global] Arguments Z.of_nat : simpl never.
#[global] Arguments Z.to_nat : simpl never.
#[global] Arguments Z.pow : simpl never.
#[global] Arguments Z.mul : simpl nomatch.
#[global] Arguments Z.add : simpl nomatch.

(** ** Errors

    The error values of the program.  Sentinel errors ([io.EOF],
    [ErrSkip], ...) are constructors, an error built by [fmt.Errorf] keeps
    its format and its arguments, [ErrorfWith] also the error it reports, and an error that comes from the operating
    system, from a network connection or from a third-party package is an
    [ErrExternal] that carries its text. *)
Inductive fmt_arg : Type :=
  | AInt (z : Z)
  | AStr (s : string).

Inductive error : Type :=
  | EOF
  | ErrUnexpectedEOF
  | ErrSkip
  | ErrUnsupportedProtocol
  | ErrUnsupportedVMUVersion
  | ErrFinalToken
  | ErrNotModified
  | ErrNotFound
  | ErrNotImplemented
  | Errorf (format : string) (args : list fmt_arg)
  | ErrorfWith (format : string) (args : list fmt_arg) (e : error)
  | ErrExternal (what : string).

#[global] Instance fmt_arg_eq_dec : EqDecision fmt_arg.
Proof. solve_decision. Defined.

#[global] Instance error_eq_dec : EqDecision error.
Proof. solve_decision. Defined.

(** ** Results

    A Go function that returns [(T, error)] is a function into [result T].
    [Panic] is a run-time panic (slice bounds, nil dereference, negative
    [make]), for the code that can reach one. *)
Inductive result (A : Type) : Type :=
  | Ok (a : A)
  | Err (e : error)
  | Panic (why : string).
Arguments Ok {_} _.
Arguments Err {_} _.
Arguments Panic {_} _.

#[global] Instance result_eq_dec `{EqDecision A} : EqDecision (result A).
Proof. solve_decision. Defined.

#[global] Instance result_ret : MRet result := λ A a, Ok a.
#[global] Instance result_bind : MBind result := λ A B f m,
  match m with Ok a => f a | Err e => Err e | Panic w => Panic w end.

#[global] Instance Ok_inj {A} : Inj (=) (=) (@Ok A).
Proof. by intros a b [= ->]. Qed.

Definition is_Ok {A} (r : result A) : bool :=
  match r with Ok _ => true | _ => false end.

(** The error half of the [(T, error)] pair, [None] for [nil]. *)
Definition err_of {A} (r : result A) : option error :=
  match r with Err e => Some e | _ => None end.

Lemma result_bind_ok {A B} (m : result A) (f : A → result B) b :
  m ≫= f = Ok b ↔ ∃ a, m = Ok a ∧ f a = Ok b.
Proof. destruct m; naive_solver. Qed.

(** ** Fixed-width integers *)

Definition wrap (w : Z) (z : Z) : Z := z mod 2 ^ w.

Lemma wrap_add_l w a b : wrap w (wrap w a + b) = wrap w (a + b).
Proof. unfold wrap. by rewrite Zplus_mod_idemp_l. Qed.
Lemma wrap_add_r w a b : wrap w (a + wrap w b) = wrap w (a + b).
Proof. unfold wrap. by rewrite Zplus_mod_idemp_r. Qed.

(** Sums can be taken step by step. *)
Lemma wrap_add_step w a a' b c : wrap w a' = wrap w (a + b) → wrap w (a' + c) = wrap w (a + (b + c)).
Proof. intros E. by rewrite <-wrap_add_l, E, wrap_add_l, Z.add_assoc. Qed.

(** Two's complement reading of the low [w] bits. *)
Definition swrap (w : Z) (z : Z) : Z :=
  let u := wrap w z in if decide (u < 2 ^ (w - 1))%Z then u else (u - 2 ^ w)%Z.

Definition in_width (w : Z) (z : Z) : Prop := (0 ≤ z < 2 ^ w)%Z.
Definition in_swidth (w : Z) (z : Z) : Prop := (- 2 ^ (w - 1) ≤ z < 2 ^ (w - 1))%Z.

#[global] Instance in_width_dec w z : Decision (in_width w z).
Proof. unfold in_width. apply _. Defined.
#[global] Instance in_swidth_dec w z : Decision (in_swidth w z).
Proof. unfold in_swidth. apply _. Defined.

Lemma wrap_small w z : in_width w z → wrap w z = z.
Proof. unfold in_width, wrap. intros. by apply Z.mod_small. Qed.

Lemma wrap_range w z : (0 ≤ w)%Z → in_width w (wrap w z).
Proof. intros. apply Z.mod_pos_bound, Z.pow_pos_nonneg; lia. Qed.

Lemma swrap_small w z : (0 < w)%Z → in_swidth w z → swrap w z = z.
Proof.
  unfold in_swidth, swrap, wrap. intros Hw Hz.
  assert (2 ^ w = 2 * 2 ^ (w - 1))%Z as Hpow.
  { rewrite <-Z.pow_succ_r by lia. f_equal. lia. }
  destruct (decide (0 ≤ z)%Z).
  - rewrite Z.mod_small by lia. by rewrite decide_True by lia.
  - assert (z mod 2 ^ w = z + 2 ^ w)%Z as ->.
    { rewrite <-(Z.mod_small (z + 2 ^ w) (2 ^ w)) by lia.
      replace (z + 2 ^ w)%Z with (z + 1 * 2 ^ w)%Z by lia.
      by rewrite Z_mod_plus_full. }
    rewrite decide_False; lia.
Qed.

Lemma swrap_wrap w z : (0 < w)%Z → swrap w (wrap w z) = swrap w z.
Proof. intros. unfold swrap, wrap. by rewrite Z.mod_mod by lia. Qed.

(** ** Shared list lemmas *)

Lemma take_app_len {A} (l k : list A) n : n = length l → take n (l ++ k) = l.
Proof. intros ->. by rewrite take_app_length. Qed.

Lemma drop_app_len {A} (l k : list A) n : n = length l → drop n (l ++ k) = k.
Proof. intros ->. by rewrite drop_app_length. Qed.

Lemma suffix_length_eq {A} (l k : list A) :
  l `suffix_of` k → length k ≤ length l → l = k.
Proof.
  intros [p ->] Hle. rewrite length_app in Hle.
  assert (p = []) as -> by (apply nil_length_inv; lia). done.
Qed.

Lemma StronglySorted_impl {A} (R S : relation A) (l : list A) :
  (∀ a b, R a b → S a b) → StronglySorted R l → StronglySorted S l.
Proof.
  intros HRS. induction 1 as [|a l Hl IH Ha]; constructor; [done|].
  eapply Forall_impl; [done|]. auto.
Qed.

Lemma filter_all {A} (P : A → Prop) `{∀ x, Decision (P x)} (l : list A) : Forall P l → filter P l = l.
Proof. induction 1 as [|a l Ha _ IH]; [done|]. by rewrite filter_cons, decide_True, IH. Qed.

Lemma filter_none {A} (P : A → Prop) `{∀ x, Decision (P x)} (l : list A) :
  (∀ x, x ∈ l → ¬ P x) → filter P l = [].
Proof.
  induction l as [|x l IH]; intros Hl; [done|]. rewrite filter_cons_False by (apply Hl; left).
  apply IH. intros y Hy. apply Hl. by right.
Qed.

(** ** Automation

    [hadock] collects the lemmas that close the routine side conditions:
    widths, lengths and the reader's bookkeeping.  [lengths] is the rewrite
    database for list lengths. *)
Create HintDb hadock discriminated.
#[export] Hint Resolve wrap_range : hadock.
#[export] Hint Extern 1 (_ ≤ _)%Z => lia : hadock.
#[export] Hint Extern 1 (_ < _)%Z => lia : hadock.

Create Rewrite HintDb lengths.
#[export] Hint Rewrite @length_app @length_take @length_drop @length_rev
  @length_map @length_fmap @length_cons @length_nil : lengths.

(** Split every match and conditional of the goal and clean up. *)
Ltac case_all := repeat (case_match || case_decide); simplify_eq/=.

(** Arithmetic after unfolding the width predicates. *)
Ltac width_lia := unfold in_width, in_swidth in *; lia.

(** Linear arithmetic with [/] and [mod] by constants. *)
Ltac div_lia := Z.to_euclidean_division_equations; lia.

(** A decidable goal on closed terms, by evaluation. *)
Ltac compute_decide :=
  lazymatch goal with
  | |- ?P => refine (@bool_decide_eq_true_1 P _ _); vm_compute; reflexivity
  end.

(** Decide the equations between constants of the goal. *)
Ltac decide_strings := repeat
  match goal with
  | |- context [decide (?a = ?b)] =>
      first [ rewrite (decide_True (P := a = b)) by done | rewrite (decide_False (P := a = b)) by done ]
  end.
