(* ===== verification/Chan.v ===== *)
(** * Chan: channels that a sender does not wait for

    [select { case q <- x: default: }] of Go on a channel of capacity [n]: the
    value goes to a receiver that waits, or into the buffer, or nowhere.  The
    history of what was received is kept. *)

From S2P Require Import Prelude.
From Stdlib Require Import ZArith Lia.

Section chan.
Context {A : Type}.

Record chan : Type := mkChan {
  ch_queue : list A;
  ch_received : list A;
  ch_waiting : bool;      (* a receiver is blocked *)
}.

Definition new_chan : chan := mkChan [] [] false.

(** Everything that went through, oldest first. *)
Definition passed (c : chan) : list A := ch_received c ++ ch_queue c.

(** [None] for the default branch. *)
Definition try_send (n : nat) (x : A) (c : chan) : option chan :=
  if ch_waiting c then Some (mkChan (ch_queue c) (ch_received c ++ [x]) false)
  else if decide (length (ch_queue c) < n) then Some (mkChan (ch_queue c ++ [x]) (ch_received c) false)
  else None.

(** A receive, which blocks on an empty buffer. *)
Definition receive_from (c : chan) : chan :=
  match ch_queue c with
  | [] => mkChan [] (ch_received c) true
  | x :: q => mkChan q (ch_received c ++ [x]) (ch_waiting c)
  end.

(** What it received in that call. *)
Definition received_now (c : chan) : option A := head (ch_queue c).

Record chan_ok (n : nat) (c : chan) : Prop := {
  chan_bound : length (ch_queue c) ≤ n;
  chan_idle : ch_waiting c = true → ch_queue c = [];
}.

Lemma new_chan_ok n : chan_ok n new_chan.
Proof. split; simpl; [lia|done]. Qed.

Lemma try_send_ok n x c c' : chan_ok n c → try_send n x c = Some c' → chan_ok n c'.
Proof.
  intros [Hb Hi]. unfold try_send. destruct (ch_waiting c) eqn:Ew; [intros [= <-]; by split|].
  case_decide; [|done]. intros [= <-]. split; [|done]. cbn [ch_queue]. rewrite length_app. simpl. lia.
Qed.

Lemma receive_from_ok n c : chan_ok n c → chan_ok n (receive_from c).
Proof.
  intros [Hb Hi]. unfold receive_from. destruct (ch_queue c) as [|x q] eqn:E; [split; simpl; [lia|done]|].
  split; cbn [ch_queue ch_waiting]; [simpl in Hb; lia|]. intros Hw. by specialize (Hi Hw).
Qed.

Lemma try_send_passed n x c c' : chan_ok n c → try_send n x c = Some c' → passed c' = passed c ++ [x].
Proof.
  intros [_ Hi]. unfold try_send, passed. destruct (ch_waiting c); [|case_decide; [|done]]; intros [= <-]; cbn.
  - rewrite (Hi eq_refl). by rewrite !app_nil_r.
  - by rewrite app_assoc.
Qed.

Lemma try_send_None n x c : try_send n x c = None ↔ ch_waiting c = false ∧ n ≤ length (ch_queue c).
Proof. unfold try_send. destruct (ch_waiting c); [naive_solver|]. case_decide; naive_solver lia. Qed.

Lemma receive_from_passed c : passed (receive_from c) = passed c.
Proof.
  unfold receive_from, passed. destruct (ch_queue c) as [|x q]; [done|]. cbn. by rewrite <-app_assoc.
Qed.

(** With room for one value, what is sent to an empty channel is the next value
    received. *)
Lemma try_send_receive n x c :
  0 < n → chan_ok n c → ch_queue c = [] →
  ∃ c', try_send n x c = Some c' ∧ ch_received (receive_from c') = ch_received c ++ [x] ∧
        ch_queue (receive_from c') = [].
Proof.
  intros Hn [_ _] Hq. unfold try_send. destruct (ch_waiting c).
  - eexists. split; [done|]. unfold receive_from. cbn. by rewrite Hq.
  - rewrite Hq. rewrite decide_True by (simpl; lia). eexists. split; [done|]. done.
Qed.
End chan.
Arguments chan : clear implicits.
Arguments new_chan {_}.
#[export] Hint Resolve new_chan_ok try_send_ok receive_from_ok : hadock.
