(* ===== verification/Bytes.v ===== *)
(** * Bytes: [encoding/binary], [io.Reader] and [bytes.Buffer]

    The part of Go's standard library through which every codec of the
    program goes: fixed-width integers in either byte order, the readers that
    [binary.Read] and [io.ReadFull] consume, with their [EOF] and
    [ErrUnexpectedEOF] results, and the lemmas the codecs share. *)

From S2P Require Import Prelude.
From Stdlib Require Import ZArith Lia.

(** ** Bytes *)

#[global] Instance byte_eq_dec : EqDecision byte := Byte.byte_eq_dec.

Definition byte_val (b : byte) : Z := Z.of_N (Byte.to_N b).

Definition byte_of (z : Z) : byte :=
  default Byte.x00 (Byte.of_N (Z.to_N (wrap 8 z))).

Lemma byte_val_range b : (0 ≤ byte_val b < 256)%Z.
Proof. unfold byte_val. pose proof (Byte.to_N_bounded b). lia. Qed.

Lemma byte_val_of z : byte_val (byte_of z) = wrap 8 z.
Proof.
  unfold byte_val, byte_of.
  assert (in_width 8 (wrap 8 z)) as Hr by (by apply wrap_range).
  destruct (Byte.of_N _) eqn:E; simpl.
  - apply Byte.to_of_N in E. rewrite E. width_lia.
  - apply Byte.of_N_None_iff in E. unfold in_width in Hr.
    change (2 ^ 8)%Z with 256%Z in Hr. lia.
Qed.

Lemma byte_val_inj b1 b2 : byte_val b1 = byte_val b2 → b1 = b2.
Proof.
  unfold byte_val. intros H%N2Z.inj.
  pose proof (Byte.of_to_N b1). pose proof (Byte.of_to_N b2). congruence.
Qed.

Lemma byte_of_val b : byte_of (byte_val b) = b.
Proof.
  apply byte_val_inj. rewrite byte_val_of. apply wrap_small.
  pose proof (byte_val_range b). width_lia.
Qed.

(** ** Byte orders *)

Inductive ByteOrder : Type := BigEndian | LittleEndian.

Fixpoint le_bytes (n : nat) (v : Z) : list byte :=
  match n with
  | O => []
  | S n => byte_of v :: le_bytes n (v / 256)
  end.

Fixpoint le_val (bs : list byte) : Z :=
  match bs with
  | [] => 0
  | b :: bs => byte_val b + 256 * le_val bs
  end%Z.

Definition put_uint (o : ByteOrder) (n : nat) (v : Z) : list byte :=
  match o with LittleEndian => le_bytes n v | BigEndian => rev (le_bytes n v) end.

Definition get_uint (o : ByteOrder) (bs : list byte) : Z :=
  match o with LittleEndian => le_val bs | BigEndian => le_val (rev bs) end.

#[global] Arguments put_uint _ _ _ : simpl never.
#[global] Arguments get_uint _ _ : simpl never.

Lemma length_le_bytes n v : length (le_bytes n v) = n.
Proof. revert v. induction n; intros; simpl; auto. Qed.

Lemma length_put_uint o n v : length (put_uint o n v) = n.
Proof. unfold put_uint. destruct o; by rewrite ?length_rev, length_le_bytes. Qed.
#[export] Hint Rewrite length_put_uint : lengths.

Lemma le_val_range bs : (0 ≤ le_val bs < 256 ^ Z.of_nat (length bs))%Z.
Proof.
  induction bs as [|b bs IH]; simpl le_val; simpl length; [lia|].
  rewrite Nat2Z.inj_succ, Z.pow_succ_r by lia.
  pose proof (byte_val_range b). lia.
Qed.

Lemma le_val_bytes n v : le_val (le_bytes n v) = (v mod 256 ^ Z.of_nat n)%Z.
Proof.
  revert v. induction n as [|n IH]; intros v; simpl le_bytes; simpl le_val.
  { by rewrite Z.mod_1_r. }
  rewrite IH, byte_val_of. unfold wrap. change (2 ^ 8)%Z with 256%Z.
  rewrite Nat2Z.inj_succ, Z.pow_succ_r by lia.
  rewrite Z.rem_mul_r by lia. lia.
Qed.

Lemma le_bytes_val bs : le_bytes (length bs) (le_val bs) = bs.
Proof.
  induction bs as [|b bs IH]; simpl; [done|].
  pose proof (byte_val_range b).
  replace (byte_val b + 256 * le_val bs)%Z with (le_val bs * 256 + byte_val b)%Z by lia.
  rewrite Z.div_add_l, Z.div_small, Z.add_0_r by lia. f_equal; [|done].
  apply byte_val_inj. rewrite byte_val_of. unfold wrap.
  change (2 ^ 8)%Z with 256%Z. rewrite Z.add_comm, Z_mod_plus_full.
  by apply Z.mod_small.
Qed.

Lemma pow256 n : (256 ^ Z.of_nat n = 2 ^ (8 * Z.of_nat n))%Z.
Proof. change 256%Z with (2 ^ 8)%Z. rewrite <-Z.pow_mul_r; [done|lia..]. Qed.

(** Encoding a value and decoding it gives the low [8n] bits back. *)
Lemma get_put_uint o n v : get_uint o (put_uint o n v) = wrap (8 * Z.of_nat n) v.
Proof.
  unfold wrap, get_uint, put_uint. rewrite <-pow256.
  destruct o; rewrite ?rev_involutive; apply le_val_bytes.
Qed.

Lemma get_put_uint_id o n v :
  in_width (8 * Z.of_nat n) v → get_uint o (put_uint o n v) = v.
Proof. intros. rewrite get_put_uint. by apply wrap_small. Qed.

Lemma put_get_uint o bs : put_uint o (length bs) (get_uint o bs) = bs.
Proof.
  unfold get_uint, put_uint. destruct o; [|apply le_bytes_val].
  by rewrite <-(length_rev bs), le_bytes_val, rev_involutive.
Qed.

Lemma get_uint_range o bs : in_width (8 * Z.of_nat (length bs)) (get_uint o bs).
Proof.
  unfold in_width, get_uint. rewrite <-pow256.
  destruct o; [|apply le_val_range].
  rewrite <-(length_rev bs). apply le_val_range.
Qed.

Lemma put_uint_wrap o n v : put_uint o n (wrap (8 * Z.of_nat n) v) = put_uint o n v.
Proof.
  rewrite <-(get_put_uint o n v).
  by rewrite <-(length_put_uint o n v) at 1; rewrite put_get_uint.
Qed.

Lemma put_uint_inj o n v1 v2 :
  in_width (8 * Z.of_nat n) v1 → in_width (8 * Z.of_nat n) v2 →
  put_uint o n v1 = put_uint o n v2 → v1 = v2.
Proof.
  intros H1 H2 E. rewrite <-(get_put_uint_id o n v1), E by done.
  by apply get_put_uint_id.
Qed.

(** ** Values of [binary.Write]

    A fixed-size value is a sequence of fixed-width integers (a scalar is a
    sequence of one; a struct or an array has one entry per field); it is
    written field by field in the given order.  A [bool] is one byte. *)
Record scalar : Type := Scalar { sc_width : nat; sc_value : Z }.

Definition fixed : Type := list scalar.

Definition u8 (v : Z) : fixed := [Scalar 1 v].
Definition u16 (v : Z) : fixed := [Scalar 2 v].
Definition u32 (v : Z) : fixed := [Scalar 4 v].
Definition i32 (v : Z) : fixed := [Scalar 4 v].
Definition i64 (v : Z) : fixed := [Scalar 8 v].
Definition gobool (b : bool) : fixed := [Scalar 1 (if b then 1 else 0)%Z].

Definition fixed_size (f : fixed) : nat := sum_list_with sc_width f.

Definition binary_Write (o : ByteOrder) (f : fixed) : list byte :=
  concat (map (λ s, put_uint o (sc_width s) (sc_value s)) f).

Lemma length_binary_Write o f : length (binary_Write o f) = fixed_size f.
Proof.
  unfold binary_Write, fixed_size. induction f as [|s f IH]; [done|].
  simpl. by rewrite length_app, length_put_uint, IH.
Qed.
#[export] Hint Rewrite length_binary_Write : lengths.

Lemma binary_Write_scalar o n v : binary_Write o [Scalar n v] = put_uint o n v.
Proof. unfold binary_Write; simpl. by rewrite app_nil_r. Qed.

(** ** Readers

    A reader is the bytes it still delivers and the error it returns once
    they are exhausted: [EOF] for a buffer, a file or a closed connection, a
    network error for a broken one (Go's readers return it again on every
    later call).  A computation over a reader keeps the reader it leaves
    behind on an error too, because the callers go on reading. *)
Record reader : Type := Reader { rd_data : list byte; rd_end : error }.

Definition rd (A : Type) : Type := reader → result A * reader.

#[global] Instance rd_ret : MRet rd := λ A a r, (Ok a, r).
#[global] Instance rd_bind : MBind rd := λ A B f m r,
  match m r with
  | (Ok a, r') => f a r'
  | (Err e, r') => (Err e, r')
  | (Panic w, r') => (Panic w, r')
  end.

Definition rd_fail {A} (e : error) : rd A := λ r, (Err e, r).

(** [io.ReadFull(r, buf)] with [len(buf) = n]: no bytes at all is the
    reader's own error, some bytes but not enough is [ErrUnexpectedEOF] when
    the reader ended with [EOF]. *)
Definition short_error (r : reader) : error :=
  match rd_end r with
  | EOF => if decide (rd_data r = []) then EOF else ErrUnexpectedEOF
  | e => e
  end.

Definition ReadFull (n : Z) : rd (list byte) := λ r,
  if decide (n ≤ Z.of_nat (length (rd_data r)))%Z then
    (Ok (take (Z.to_nat n) (rd_data r)), Reader (drop (Z.to_nat n) (rd_data r)) (rd_end r))
  else (Err (short_error r), Reader [] (rd_end r)).

(** [binary.Read] of an unsigned integer of [n] bytes, of a signed one and
    of a [bool] (any byte but zero is [true]). *)
Definition ReadUint (o : ByteOrder) (n : nat) : rd Z :=
  bs ← ReadFull (Z.of_nat n); mret (get_uint o bs).

Definition ReadInt (o : ByteOrder) (n : nat) : rd Z :=
  v ← ReadUint o n; mret (swrap (8 * Z.of_nat n) v).

Definition ReadBool (o : ByteOrder) : rd bool :=
  v ← ReadUint o 1; mret (bool_decide (v ≠ 0%Z)).

(** ** Lemmas on readers *)

Lemma rd_bind_ok {A B} (m : rd A) (f : A → rd B) r a r' :
  m r = (Ok a, r') → (m ≫= f) r = f a r'.
Proof. intros H. unfold mbind, rd_bind. by rewrite H. Qed.

Lemma rd_bind_err {A B} (m : rd A) (f : A → rd B) r e r' :
  m r = (Err e, r') → (m ≫= f) r = (Err e, r').
Proof. intros H. unfold mbind, rd_bind. by rewrite H. Qed.

Lemma rd_bind_inv {A B} (m : rd A) (f : A → rd B) r b r'' :
  (m ≫= f) r = (Ok b, r'') → ∃ a r', m r = (Ok a, r') ∧ f a r' = (Ok b, r'').
Proof.
  unfold mbind, rd_bind. destruct (m r) as [[a|e|w] r'] eqn:E; naive_solver.
Qed.

Lemma ReadFull_app n bs rest e :
  n = Z.of_nat (length bs) →
  ReadFull n (Reader (bs ++ rest) e) = (Ok bs, Reader rest e).
Proof.
  intros ->. unfold ReadFull; simpl. rewrite decide_True.
  - by rewrite Nat2Z.id, take_app_len, drop_app_len.
  - rewrite length_app. lia.
Qed.

Lemma ReadFull_short n r :
  (Z.of_nat (length (rd_data r)) < n)%Z →
  ReadFull n r = (Err (short_error r), Reader [] (rd_end r)).
Proof. intros. unfold ReadFull. rewrite decide_False by lia. done. Qed.

Lemma ReadUint_put o n v rest e :
  in_width (8 * Z.of_nat n) v →
  ReadUint o n (Reader (put_uint o n v ++ rest) e) = (Ok v, Reader rest e).
Proof.
  intros Hv. unfold ReadUint.
  erewrite rd_bind_ok by (apply ReadFull_app; by rewrite length_put_uint).
  by rewrite get_put_uint_id.
Qed.

Lemma ReadUint_short o n r :
  length (rd_data r) < n →
  ReadUint o n r = (Err (short_error r), Reader [] (rd_end r)).
Proof.
  intros. unfold ReadUint. apply rd_bind_err, ReadFull_short. lia.
Qed.

Lemma ReadInt_put o n v rest e :
  0 < n → in_swidth (8 * Z.of_nat n) v →
  ReadInt o n (Reader (put_uint o n v ++ rest) e) = (Ok v, Reader rest e).
Proof.
  intros Hn Hv. unfold ReadInt.
  rewrite <-put_uint_wrap.
  erewrite rd_bind_ok by (apply ReadUint_put, wrap_range; lia).
  unfold mret, rd_ret. by rewrite swrap_wrap, swrap_small by (done || lia).
Qed.

Lemma ReadBool_put o b rest e :
  ReadBool o (Reader (binary_Write o (gobool b) ++ rest) e) = (Ok b, Reader rest e).
Proof.
  unfold ReadBool, gobool. rewrite binary_Write_scalar.
  erewrite rd_bind_ok by (apply ReadUint_put; destruct b; vm_compute; split; congruence).
  by destruct b.
Qed.

(** Every computation of the program over a reader only consumes: what is
    left is a suffix of what was there, and the end of the stream does not
    change.  The class composes along the structure of a decoder. *)
Class Consuming {A} (m : rd A) : Prop :=
  consuming r : rd_data (m r).2 `suffix_of` rd_data r ∧ rd_end (m r).2 = rd_end r.

#[export] Instance consuming_ret {A} (a : A) : Consuming (mret a : rd A).
Proof. intros r. done. Qed.

#[export] Instance consuming_fail {A} e : Consuming (rd_fail e : rd A).
Proof. intros r. done. Qed.

#[export] Instance consuming_bind {A B} (m : rd A) (f : A → rd B) :
  Consuming m → (∀ a, Consuming (f a)) → Consuming (m ≫= f).
Proof.
  intros Hm Hf r. specialize (Hm r). unfold mbind, rd_bind.
  destruct (m r) as [[a|e|w] r']; simpl in *; [|done..].
  destruct Hm as [Hs He], (Hf a r') as [Hs' He'].
  split; [by etrans|congruence].
Qed.

#[export] Instance consuming_ReadFull n : Consuming (ReadFull n).
Proof.
  intros r. unfold ReadFull. case_decide; simpl.
  - split; [|done]. apply suffix_drop.
  - split; [|done]. apply suffix_nil.
Qed.

#[export] Instance consuming_ReadUint o n : Consuming (ReadUint o n).
Proof. unfold ReadUint. apply _. Qed.
#[export] Instance consuming_ReadInt o n : Consuming (ReadInt o n).
Proof. unfold ReadInt. apply _. Qed.
#[export] Instance consuming_ReadBool o : Consuming (ReadBool o).
Proof. unfold ReadBool. apply _. Qed.

#[export] Hint Extern 5 (Consuming (if _ then _ else _)) =>
  case_match : typeclass_instances.
#[export] Hint Extern 5 (Consuming (let '(_, _) := ?p in _)) =>
  destruct p : typeclass_instances.

(** Reading at least one byte from a reader that has some leaves fewer, and
    from a reader that has none fails with the reader's end. *)
Class Progressing {A} (m : rd A) : Prop :=
  progressing r : rd_data r ≠ [] → length (rd_data (m r).2) < length (rd_data r).

Lemma progressing_ReadUint o n : 0 < n → Progressing (ReadUint o n).
Proof.
  intros Hn r Hr. assert (0 < length (rd_data r)) by (destruct (rd_data r); simpl; [done|lia]).
  unfold ReadUint, mbind, rd_bind, ReadFull. case_decide; simpl; [|done].
  rewrite length_drop. lia.
Qed.
#[export] Hint Extern 1 (Progressing (ReadUint _ _)) =>
  apply progressing_ReadUint; lia : typeclass_instances.

Lemma progressing_bind {A B} (m : rd A) (f : A → rd B) :
  Progressing m → (∀ a, Consuming (f a)) → Progressing (m ≫= f).
Proof.
  intros Hm Hf r Hr. specialize (Hm r Hr). unfold mbind, rd_bind.
  destruct (m r) as [[a|e|w] r']; simpl in *; [|done..].
  destruct (Hf a r') as [Hs%suffix_length _]. lia.
Qed.

Lemma ReadUint_empty o n e :
  0 < n → ReadUint o n (Reader [] e) = (Err e, Reader [] e).
Proof. intros. rewrite ReadUint_short by (simpl; lia). by destruct e. Qed.

Lemma consuming_length {A} (m : rd A) `{!Consuming m} r :
  length (rd_data (m r).2) ≤ length (rd_data r).
Proof. apply suffix_length, consuming. Qed.

(** No computation of this file panics. *)
Class NoPanic {A} (m : rd A) : Prop := no_panic r w : (m r).1 ≠ Panic w.

#[export] Instance no_panic_ret {A} (a : A) : NoPanic (mret a : rd A).
Proof. intros r w. done. Qed.
#[export] Instance no_panic_fail {A} e : NoPanic (rd_fail e : rd A).
Proof. intros r w. done. Qed.
#[export] Instance no_panic_bind {A B} (m : rd A) (f : A → rd B) :
  NoPanic m → (∀ a, NoPanic (f a)) → NoPanic (m ≫= f).
Proof.
  intros Hm Hf r w. specialize (Hm r w). unfold mbind, rd_bind.
  destruct (m r) as [[a|e|w'] r'] eqn:E; simpl in *; [apply Hf|done|].
  intros [= ->]. done.
Qed.
#[export] Instance no_panic_ReadFull n : NoPanic (ReadFull n).
Proof. intros r w. unfold ReadFull. by case_decide. Qed.
#[export] Instance no_panic_ReadUint o n : NoPanic (ReadUint o n).
Proof. unfold ReadUint. apply _. Qed.
#[export] Instance no_panic_ReadInt o n : NoPanic (ReadInt o n).
Proof. unfold ReadInt. apply _. Qed.
#[export] Instance no_panic_ReadBool o : NoPanic (ReadBool o).
Proof. unfold ReadBool. apply _. Qed.
#[export] Hint Extern 5 (NoPanic (if _ then _ else _)) =>
  case_match : typeclass_instances.
#[export] Hint Extern 5 (NoPanic (let '(_, _) := ?p in _)) =>
  destruct p : typeclass_instances.
