(* ===== verification/SortSearch.v ===== *)
(** * SortSearch: the [sort] package

    [sort.Search] is the binary search of Go's library, step by step;
    [sort.Slice] is an interface, because Go does not fix where elements that
    compare equal end up: a client proves its theorems for every sorter that
    permutes and sorts, and [insertion_sorter] is the instance the examples
    run. *)

From S2P Require Import Prelude.
From Stdlib Require Import ZArith Lia.

(** ** [sort.Search]

    [i, j := 0, n; for i < j { h := (i+j)/2; if !f(h) { i = h+1 } else { j = h } }; return i].
    The interval shrinks on every turn, so [n] turns are enough. *)
Fixpoint search_loop (fuel : nat) (f : nat → bool) (i j : nat) : nat :=
  match fuel with
  | O => i
  | S fuel =>
      if decide (i < j) then
        let h := (i + j) / 2 in
        if f h then search_loop fuel f i h else search_loop fuel f (S h) j
      else i
  end.

Definition Search (n : nat) (f : nat → bool) : nat := search_loop n f 0 n.

Lemma half_between i j : i < j → i ≤ (i + j) / 2 < j.
Proof.
  intros. split.
  - apply Nat.div_le_lower_bound; lia.
  - apply Nat.Div0.div_lt_upper_bound; lia.
Qed.

Lemma search_loop_range fuel f i j :
  i ≤ j → i ≤ search_loop fuel f i j ≤ j.
Proof.
  revert i j. induction fuel as [|fuel IH]; intros i j Hij; simpl; [lia|].
  case_decide as Hlt; [|lia].
  pose proof (half_between i j Hlt).
  cbv zeta. destruct (f ((i + j) / 2)).
  - destruct (IH i ((i + j) / 2)); lia.
  - destruct (IH (S ((i + j) / 2)) j); lia.
Qed.

Lemma Search_le n f : Search n f ≤ n.
Proof. apply search_loop_range. lia. Qed.

(** The interval's invariant: everything below [i] is false, [j] and above
    is true. *)
Lemma search_loop_spec fuel f i j n :
  (∀ a b, a ≤ b → b < n → f a = true → f b = true) →
  i ≤ j ≤ n → j - i ≤ fuel →
  (∀ k, k < i → f k = false) → (∀ k, j ≤ k < n → f k = true) →
  ∀ k, k < n → f k = bool_decide (search_loop fuel f i j ≤ k).
Proof.
  intros Hmono. revert i j. induction fuel as [|fuel IH]; intros i j Hij Hf Hlo Hhi k Hk; simpl.
  { case_bool_decide; [apply Hhi|apply Hlo]; lia. }
  case_decide as Hlt.
  - pose proof (half_between i j Hlt). cbv zeta. destruct (f ((i + j) / 2)) eqn:E.
    + apply IH; [lia..|done| |done]. intros k' Hk'. eapply Hmono; [|lia|exact E]; lia.
    + apply IH; [lia..| |done|done]. intros k' Hk'.
      destruct (f k') eqn:E'; [|done].
      rewrite (Hmono k' ((i + j) / 2)) in E; [done|lia|lia|done].
  - case_bool_decide; [apply Hhi|apply Hlo]; lia.
Qed.

(** For a predicate that stays true once it is true, [Search] returns the
    least index where it holds. *)
Lemma Search_spec n f :
  (∀ a b, a ≤ b → b < n → f a = true → f b = true) →
  ∀ k, k < n → f k = bool_decide (Search n f ≤ k).
Proof. intros Hmono. apply search_loop_spec; [done|lia..]. Qed.

(** ** Membership by binary search

    The idiom [ix := sort.Search(len(l), func(i) { return x <= l[i] });
    ix < len(l) && l[ix] == x], for any order [le]: the program uses it with
    the order of integers, its converse and the order of strings. *)
Section membership.
Context {A : Type} `{!EqDecision A} (le : A → A → bool).

Definition search_index (l : list A) (x : A) : nat :=
  Search (length l) (λ i, match l !! i with Some y => le x y | None => false end).

Definition search_member (l : list A) (x : A) : bool :=
  bool_decide (l !! search_index l x = Some x).

(** The filters of the program: an empty list lets everything through,
    [len(l) > 0 && (ix >= len(l) || l[ix] != x)] rejects. *)
Definition search_rejects (l : list A) (x : A) : bool :=
  let ix := search_index l x in
  bool_decide (0 < length l) &&
  (bool_decide (length l ≤ ix) || bool_decide (l !! ix ≠ Some x)).

Lemma search_rejects_member l x :
  search_rejects l x = negb (bool_decide (l = []) || search_member l x).
Proof.
  unfold search_rejects, search_member. cbv zeta.
  destruct l as [|a l]; [done|]. rewrite bool_decide_true by (simpl; lia).
  rewrite (bool_decide_false (_ = [])) by done. rewrite andb_true_l, orb_false_l.
  destruct (decide (length (a :: l) ≤ search_index (a :: l) x)) as [Hle|Hlt].
  - by rewrite (lookup_ge_None_2 _ _ Hle), bool_decide_true.
  - rewrite (bool_decide_false (length _ ≤ _)) by done. by repeat case_bool_decide.
Qed.

(** Whatever the order of the list, what is found is in the list. *)
Lemma search_member_sound l x : search_member l x = true → x ∈ l.
Proof. intros H%bool_decide_eq_true. by eapply list_elem_of_lookup_2. Qed.

Hypothesis le_refl : ∀ x, le x x = true.
Hypothesis le_trans : ∀ x y z, le x y = true → le y z = true → le x z = true.
Hypothesis le_antisym : ∀ x y, le x y = true → le y x = true → x = y.

Lemma sorted_lookup_le l i j y z :
  StronglySorted (λ a b, le a b = true) l →
  i ≤ j → l !! i = Some y → l !! j = Some z → le y z = true.
Proof.
  intros Hs. revert i j. induction Hs as [|a l Hs IH Ha]; intros i j Hij Hi Hj; [done|].
  destruct i as [|i], j as [|j]; simplify_eq/=; [done| |lia|eapply IH; [|done..]; lia].
  eapply Forall_lookup_1 in Ha; done.
Qed.

(** In a list sorted by the same order, the search finds every member. *)
Lemma search_member_sorted l x :
  StronglySorted (λ a b, le a b = true) l →
  search_member l x = bool_decide (x ∈ l).
Proof.
  intros Hs. unfold search_member, search_index.
  set (f := λ i, match l !! i with Some y => le x y | None => false end).
  assert (∀ a b, a ≤ b → b < length l → f a = true → f b = true) as Hmono.
  { unfold f. intros a b Hab Hb Ha. destruct (l !! a) as [y|] eqn:Ey; [|done].
    destruct (lookup_lt_is_Some_2 l b Hb) as [z Ez]. rewrite Ez.
    eapply le_trans; [done|]. by eapply (sorted_lookup_le l a b). }
  pose proof (Search_spec _ f Hmono) as Hspec.
  apply bool_decide_ext. split; [apply list_elem_of_lookup_2|].
  intros [k Hk]%list_elem_of_lookup_1.
  pose proof (lookup_lt_Some _ _ _ Hk) as Hlt.
  assert (f k = true) as Hfk by (unfold f; by rewrite Hk).
  rewrite Hspec in Hfk by done. apply bool_decide_eq_true in Hfk.
  destruct (lookup_lt_is_Some_2 l (Search (length l) f)) as [y Hy]; [lia|].
  rewrite Hy. f_equal.
  assert (f (Search (length l) f) = true) as Hf.
  { rewrite Hspec by lia. by apply bool_decide_eq_true_2. }
  unfold f at 1 in Hf. rewrite Hy in Hf.
  apply le_antisym; [|done]. by eapply (sorted_lookup_le l _ k).
Qed.

Lemma search_rejects_sorted l x :
  StronglySorted (λ a b, le a b = true) l →
  search_rejects l x = negb (bool_decide (l = [] ∨ x ∈ l)).
Proof.
  intros. rewrite search_rejects_member, search_member_sorted by done.
  by rewrite bool_decide_or.
Qed.

(** In a list of at least two elements in the opposite order, the same search
    finds nothing. *)
Lemma search_rejects_reversed l x :
  (∀ a b, le a b = false → le b a = true) →
  StronglySorted (λ a b, le a b = false) l → 2 ≤ length l → search_rejects l x = true.
Proof.
  intros Htot Hs Hlen. unfold search_rejects. cbv zeta. rewrite bool_decide_true by lia. cbn [andb].
  destruct (decide (l !! search_index l x = Some x)) as [E|E]; [|by rewrite (bool_decide_true (_ ≠ _)), orb_true_r].
  exfalso. revert E. unfold search_index. set (f := λ i, _). set (n := length l) in *. intros Hr.
  assert (∀ i j y z, i < j → l !! i = Some y → l !! j = Some z → le y z = false) as Hlt.
  { clear -Hs. intros i j y z Hij Hi Hj. revert i j Hij Hi Hj. induction Hs as [|a l Hs IH Ha]; intros i j Hij Hi Hj; [done|].
    destruct j as [|j]; [lia|]. destruct i as [|i]; simplify_eq/=; [by eapply Forall_lookup_1 in Ha|].
    eapply (IH i j); [lia|done..]. }
  assert (∀ k, k < n → f k = bool_decide (k ≤ Search n f)) as Hf.
  { intros k Hk. destruct (lookup_lt_is_Some_2 l k Hk) as [y Hy].
    assert (f k = le x y) as -> by (unfold f; by rewrite Hy). symmetry.
    destruct (decide (k = Search n f)) as [Ek|Ek].
    - rewrite bool_decide_true by lia. rewrite Ek, Hr in Hy. injection Hy as <-. by rewrite le_refl.
    - destruct (decide (k < Search n f)) as [Hk'|Hk'].
      + rewrite bool_decide_true by lia. symmetry. by apply Htot, (Hlt k (Search n f)).
      + rewrite bool_decide_false by lia. symmetry. apply (Hlt (Search n f) k); [lia|done..]. }
  pose proof (lookup_lt_Some _ _ _ Hr) as Hrange. fold n in Hrange. remember (Search n f) as r eqn:Er. symmetry in Er.
  unfold Search in Er. destruct n as [|[|m]]; [lia..|].
  pose proof (half_between 0 (S (S m)) ltac:(lia)) as H1.
  assert (1 ≤ (0 + S (S m)) / 2) as H2 by (apply Nat.div_le_lower_bound; lia).
  change (search_loop (S (S m)) f 0 (S (S m))) with
    (if f ((0 + S (S m)) / 2) then search_loop (S m) f 0 ((0 + S (S m)) / 2)
     else search_loop (S m) f (S ((0 + S (S m)) / 2)) (S (S m))) in Er.
  set (h := (0 + S (S m)) / 2) in *. rewrite Hf in Er by lia. case_bool_decide as Hh.
  - cbn [search_loop] in Er. rewrite decide_True in Er by lia. cbv zeta in Er.
    pose proof (half_between 0 h ltac:(lia)) as H3. rewrite Hf, bool_decide_true in Er by lia.
    pose proof (search_loop_range m f 0 ((0 + h) / 2) ltac:(lia)). lia.
  - pose proof (search_loop_range (S m) f (S h) (S (S m)) ltac:(lia)). lia.
Qed.
End membership.

(** The three orders of the program: [>= x] over integers (an ascending
    list), [<= x] over integers (a descending list) and [>= x] over strings. *)
Definition Zge_search (l : list Z) (x : Z) : bool := search_member Z.leb l x.
Definition Zle_search (l : list Z) (x : Z) : bool := search_member (λ a b, Z.leb b a) l x.
Definition str_search (l : list string) (x : string) : bool := search_member String.leb l x.

Lemma Zge_search_sorted l x :
  StronglySorted (λ a b, (a <=? b)%Z = true) l → Zge_search l x = bool_decide (x ∈ l).
Proof. apply search_member_sorted; intros; lia. Qed.

Lemma Zle_search_sorted l x :
  StronglySorted (λ a b, (b <=? a)%Z = true) l → Zle_search l x = bool_decide (x ∈ l).
Proof. apply (search_member_sorted (λ a b, (b <=? a)%Z)); intros; lia. Qed.

Lemma str_leb_refl s : String.leb s s = true.
Proof. destruct (String.leb_total s s); done. Qed.

Lemma ascii_compare_nat a b : Ascii.compare a b = N.compare (Ascii.N_of_ascii a) (Ascii.N_of_ascii b).
Proof. done. Qed.

Lemma str_leb_trans a b c :
  String.leb a b = true → String.leb b c = true → String.leb a c = true.
Proof.
  unfold String.leb. revert b c. induction a as [|x a IH]; intros b c; [by destruct c|].
  destruct b as [|y b]; simpl; [done|]. destruct c as [|z c]; simpl; [by destruct (Ascii.compare x y)|].
  rewrite !ascii_compare_nat.
  destruct (N.compare_spec (Ascii.N_of_ascii x) (Ascii.N_of_ascii y)) as [E1|E1|E1],
    (N.compare_spec (Ascii.N_of_ascii y) (Ascii.N_of_ascii z)) as [E2|E2|E2],
    (N.compare_spec (Ascii.N_of_ascii x) (Ascii.N_of_ascii z)) as [E3|E3|E3];
    try done; try lia. apply IH.
Qed.

Lemma str_search_sorted l x :
  StronglySorted (λ a b, String.leb a b = true) l → str_search l x = bool_decide (x ∈ l).
Proof.
  apply search_member_sorted;
    [apply str_leb_refl|apply str_leb_trans|intros ??; apply String.leb_antisym].
Qed.

(** ** [sort.Slice]

    [sort.Slice(l, func(i, j) { return key(l[i]) < key(l[j]) })]. *)
Class SliceSorter : Type := {
  sort_slice {A : Type} (key : A → Z) : list A → list A;
  sort_slice_perm {A} (key : A → Z) (l : list A) : sort_slice key l ≡ₚ l;
  sort_slice_sorted {A} (key : A → Z) (l : list A) :
    StronglySorted (λ a b, key a ≤ key b)%Z (sort_slice key l);
}.

Section sorter.
Context {sorter : SliceSorter} {A : Type} (key : A → Z).

Lemma sort_slice_leb (l : list A) :
  StronglySorted (λ a b, (key a <=? key b)%Z = true) (sort_slice key l).
Proof. eapply StronglySorted_impl; [|apply sort_slice_sorted]. intros; simpl in *; lia. Qed.

Lemma length_sort_slice (l : list A) : length (sort_slice key l) = length l.
Proof. apply Permutation_length, sort_slice_perm. Qed.

(** Distinct keys leave the sorter no choice: any arrival order of the same
    elements gives the same slice. *)
Lemma sort_slice_unique (l k : list A) :
  l ≡ₚ k → NoDup (key <$> l) → sort_slice key l = sort_slice key k.
Proof.
  intros Hlk Hnd. apply (StronglySorted_unique_strong (λ a b, key a ≤ key b)%Z).
  - intros a b Ha Hb Hab Hba.
    rewrite sort_slice_perm in Ha. rewrite sort_slice_perm, <-Hlk in Hb.
    apply list_elem_of_lookup in Ha as [i Hi], Hb as [j Hj].
    assert (i = j) as <-; [|congruence].
    eapply (NoDup_lookup (key <$> l)); [done|rewrite list_lookup_fmap, Hi; done|].
    rewrite list_lookup_fmap, Hj. simpl. f_equal. lia.
  - apply sort_slice_sorted.
  - apply sort_slice_sorted.
  - by rewrite !sort_slice_perm.
Qed.

(** A slice that is already sorted with distinct keys does not change. *)
Lemma sort_slice_id (l : list A) :
  StronglySorted (λ a b, key a < key b)%Z l → sort_slice key l = l.
Proof.
  intros Hs. apply (StronglySorted_unique_strong (λ a b, key a ≤ key b)%Z).
  - intros a b Ha Hb Hab Hba. rewrite sort_slice_perm in Ha.
    assert (key a = key b) as Hk by lia. clear Hab Hba.
    induction Hs as [|c l Hs IH Hc]; [by apply elem_of_nil in Ha|].
    rewrite Forall_forall in Hc.
    apply elem_of_cons in Ha as [->|Ha], Hb as [->|Hb]; [done| | |by apply IH].
    + specialize (Hc _ Hb). lia.
    + specialize (Hc _ Ha). lia.
  - apply sort_slice_sorted.
  - induction Hs as [|c l Hs IH Hc]; constructor; [done|].
    eapply Forall_impl; [done|]. intros; simpl in *; lia.
  - by rewrite sort_slice_perm.
Qed.

Lemma sort_slice_head (l : list A) a k :
  sort_slice key l = a :: k → ∀ b, b ∈ l → (key a ≤ key b)%Z.
Proof.
  intros E b Hb. pose proof (sort_slice_sorted key l) as Hs. rewrite E in Hs.
  assert (b ∈ a :: k) as Hin by (by rewrite <-E, sort_slice_perm).
  apply elem_of_cons in Hin as [->|Hin]; [done|].
  apply StronglySorted_cons in Hs as [Hs _]. rewrite Forall_forall in Hs. by apply Hs.
Qed.
End sorter.

(** *** The executable instance: insertion sort *)
Section insertion.
Context {A : Type} (key : A → Z).

Fixpoint insert_by (a : A) (l : list A) : list A :=
  match l with
  | [] => [a]
  | b :: k => if decide (key a ≤ key b)%Z then a :: l else b :: insert_by a k
  end.

Fixpoint insertion_sort (l : list A) : list A :=
  match l with
  | [] => []
  | a :: l => insert_by a (insertion_sort l)
  end.

Lemma insert_by_perm a l : insert_by a l ≡ₚ a :: l.
Proof.
  induction l as [|b l IH]; simpl; [done|]. case_decide; [done|].
  rewrite IH. apply Permutation_swap.
Qed.

Lemma insertion_sort_perm l : insertion_sort l ≡ₚ l.
Proof. induction l as [|a l IH]; simpl; [done|]. by rewrite insert_by_perm, IH. Qed.

Lemma insert_by_sorted a l :
  StronglySorted (λ x y, key x ≤ key y)%Z l →
  StronglySorted (λ x y, key x ≤ key y)%Z (insert_by a l).
Proof.
  induction 1 as [|b l Hs IH Hb]; simpl; [repeat constructor|].
  case_decide as Hab.
  - constructor; [by constructor|]. constructor; [done|].
    eapply Forall_impl; [exact Hb|]. simpl; intros; lia.
  - constructor; [done|]. rewrite insert_by_perm. constructor; [lia|done].
Qed.

Lemma insertion_sort_sorted l :
  StronglySorted (λ x y, key x ≤ key y)%Z (insertion_sort l).
Proof. induction l; simpl; [constructor|by apply insert_by_sorted]. Qed.
End insertion.

#[export] Instance insertion_sorter : SliceSorter := {|
  sort_slice _ key l := insertion_sort key l;
  sort_slice_perm _ := insertion_sort_perm;
  sort_slice_sorted _ := insertion_sort_sorted;
|}.
