(* ===== verification/GoStd.v ===== *)
(** * GoStd: the parts of [strings], [fmt], [path] and [time] the program uses

    Strings are byte strings.  Paths are cleaned lexically as [path.Clean]
    does, and the lemmas describe a clean path by its segments.  A time is an
    instant with the zone offset it is shown in; the calendar is the proleptic
    Gregorian one of Go's [time] package. *)

From S2P Require Import Prelude Bytes.
From Stdlib Require Import ZArith Lia Ascii.

(** ** [strings] and [bytes] *)

Definition bytes_of (s : string) : list byte := String.list_byte_of_string s.
Definition string_of (bs : list byte) : string := String.string_of_list_byte bs.

Lemma string_of_bytes_of s : string_of (bytes_of s) = s.
Proof. apply String.string_of_list_byte_of_string. Qed.
Lemma bytes_of_string_of bs : bytes_of (string_of bs) = bs.
Proof. apply String.list_byte_of_string_of_list_byte. Qed.

Fixpoint map_string (f : ascii → ascii) (s : string) : string :=
  match s with EmptyString => EmptyString | String a s => String (f a) (map_string f s) end.

Fixpoint str_mem (c : ascii) (s : string) : bool :=
  match s with EmptyString => false | String a s => bool_decide (a = c) || str_mem c s end.

Definition lower_ascii (a : ascii) : ascii :=
  let n := N_of_ascii a in
  if decide (65 ≤ n ∧ n ≤ 90)%N then ascii_of_N (n + 32) else a.

(** [strings.ToLower] on ASCII. *)
Definition ToLower (s : string) : string := map_string lower_ascii s.

(** [strings.Replace(s, old, new, -1)] for one-byte strings. *)
Definition ReplaceByte (s : string) (old new : ascii) : string :=
  map_string (λ a, if decide (a = old) then new else a) s.

(** [bytes.Trim(bs, "\x00")]. *)
Fixpoint trim_left (bs : list byte) : list byte :=
  match bs with
  | [] => []
  | b :: bs' => if decide (b = Byte.x00) then trim_left bs' else bs
  end.
Definition TrimNul (bs : list byte) : list byte := rev (trim_left (rev (trim_left bs))).

(** [strings.Split(s, c)] for a one-byte separator. *)
Fixpoint Split (c : ascii) (s : string) : list string :=
  match s with
  | EmptyString => [EmptyString]
  | String a s =>
      if decide (a = c) then EmptyString :: Split c s
      else match Split c s with
           | [] => [String a EmptyString]
           | x :: xs => String a x :: xs
           end
  end.

Definition HasPrefix (s p : string) : bool := String.prefix p s.

(** [strings.TrimSuffix]. *)
Definition str_rev (s : string) : string := string_of (rev (bytes_of s)).
Definition HasSuffix (s x : string) : bool := String.prefix (str_rev x) (str_rev s).
Definition TrimSuffix (s x : string) : string :=
  if HasSuffix s x then String.substring 0 (String.length s - String.length x) s else s.

Lemma str_app_cons a s t : (String a s +:+ t)%string = String a (s +:+ t).
Proof. done. Qed.

Lemma str_app_nil_l s : ("" +:+ s)%string = s.
Proof. done. Qed.

Lemma str_app_nil_r s : (s +:+ "")%string = s.
Proof. induction s as [|a s IH]; [done|]. by rewrite str_app_cons, IH. Qed.

Lemma str_app_assoc a b c : (a +:+ b +:+ c)%string = ((a +:+ b) +:+ c)%string.
Proof. induction a as [|x a IH]; [done|]. by rewrite !str_app_cons, IH. Qed.

Lemma str_mem_app c a b : str_mem c (a +:+ b) = str_mem c a || str_mem c b.
Proof. induction a as [|x a IH]; [done|]. rewrite str_app_cons. simpl. by rewrite IH, orb_assoc. Qed.

Lemma str_length_app a b : String.length (a +:+ b) = String.length a + String.length b.
Proof. induction a as [|x a IH]; [done|]. rewrite str_app_cons. simpl. by rewrite IH. Qed.

Lemma Split_not_nil c s : Split c s ≠ [].
Proof. destruct s; simpl; [done|]. case_decide; [done|]. by destruct (Split c s). Qed.

Lemma Split_simple c s : str_mem c s = false → Split c s = [s].
Proof.
  induction s as [|a s IH]; simpl; [done|]. intros [Ha Hs]%orb_false_iff.
  apply bool_decide_eq_false in Ha. rewrite decide_False by done. by rewrite IH.
Qed.

Lemma Split_app c a b :
  str_mem c a = false → Split c (a +:+ String c b) = a :: Split c b.
Proof.
  induction a as [|x a IH]; rewrite ?str_app_cons, ?str_app_nil_l; simpl; [by rewrite decide_True|].
  intros [Hx Ha]%orb_false_iff. apply bool_decide_eq_false in Hx.
  rewrite decide_False by done. by rewrite IH.
Qed.

Lemma Split_app_gen c a b : Split c (a +:+ String c b) = Split c a ++ Split c b.
Proof.
  induction a as [|x a IH]; rewrite ?str_app_cons, ?str_app_nil_l; simpl; [by rewrite decide_True|].
  case_decide; [by rewrite IH|]. rewrite IH.
  destruct (Split c a) eqn:E; [by destruct (Split_not_nil c a)|done].
Qed.

Fixpoint join (sep : string) (l : list string) : string :=
  match l with
  | [] => EmptyString
  | [x] => x
  | x :: l => x +:+ sep +:+ join sep l
  end.

Lemma Split_join c l :
  l ≠ [] → Forall (λ s, str_mem c s = false) l →
  Split c (join (String c EmptyString) l) = l.
Proof.
  intros Hne Hl. induction Hl as [|x l Hx Hl IH]; [done|].
  destruct l as [|y l]; [by apply Split_simple|]. cbn [join].
  change (String c EmptyString +:+ ?s)%string with (String c s).
  rewrite Split_app by done. f_equal. by apply IH.
Qed.

(** ** [fmt] *)

Fixpoint zeros (n : nat) : string := match n with O => EmptyString | S n => String "0" (zeros n) end.

(** [%0wd]: decimal, zero-padded to [w] characters, the sign included. *)
Definition sprintf0 (w : nat) (z : Z) : string :=
  let digits := pretty (Z.abs_N z) in
  if decide (z < 0)%Z then
    String "-" (zeros (w - 1 - String.length digits)) +:+ digits
  else zeros (w - String.length digits) +:+ digits.

(** [fmt.Sprint] of an integer. *)
Definition Sprint (z : Z) : string := pretty z.

(** ** [path] *)

Definition slash : ascii := "/"%char.

Definition is_rooted (p : string) : bool :=
  match p with String a _ => bool_decide (a = slash) | EmptyString => false end.

(** The segments kept so far, innermost first. *)
Fixpoint clean_loop (rooted : bool) (stack segs : list string) : list string :=
  match segs with
  | [] => rev stack
  | s :: segs =>
      if decide (s = "" ∨ s = ".") then clean_loop rooted stack segs
      else if decide (s = "..") then
        match stack with
        | top :: stack' =>
            if decide (top = "..") then clean_loop rooted (s :: stack) segs
            else clean_loop rooted stack' segs
        | [] => clean_loop rooted (if rooted then [] else [s]) segs
        end
      else clean_loop rooted (s :: stack) segs
  end.

Definition clean_segs (p : string) : list string :=
  clean_loop (is_rooted p) [] (Split slash p).

Definition render (rooted : bool) (segs : list string) : string :=
  if rooted then String slash (join "/" segs)
  else match segs with [] => "." | _ => join "/" segs end.

Definition Clean (p : string) : string := render (is_rooted p) (clean_segs p).

Fixpoint Join (elems : list string) : string :=
  match elems with
  | [] => ""
  | e :: elems' => if decide (e = "") then Join elems' else Clean (join "/" elems)
  end.

(** [path.Ext]: from the last dot of the last element. *)
Fixpoint ext_loop (rev_s acc : string) : string :=
  match rev_s with
  | EmptyString => EmptyString
  | String a s =>
      if decide (a = slash) then EmptyString
      else if decide (a = "."%char) then String a acc
      else ext_loop s (String a acc)
  end.
Definition Ext (p : string) : string := ext_loop (str_rev p) EmptyString.

(** [path.Base]: the last element, [/] for the root and [.] for nothing. *)
Definition Base (p : string) : string :=
  match p with
  | EmptyString => "."
  | _ => match last (filter (λ s, s ≠ "") (Split slash p)) with
         | Some s => s
         | None => "/"
         end
  end.

(** *** Clean paths by their segments

    A segment that names an entry of a directory. *)
Definition simple_name (s : string) : Prop :=
  s ≠ "" ∧ s ≠ "." ∧ s ≠ ".." ∧ str_mem slash s = false.

#[global] Instance simple_name_dec s : Decision (simple_name s).
Proof. unfold simple_name. apply _. Defined.

Lemma clean_loop_simple r stack segs :
  Forall simple_name segs → clean_loop r stack segs = rev stack ++ segs.
Proof.
  intros Hs. revert stack. induction Hs as [|s segs (H1 & H2 & H3 & _) Hs IH]; intros stack; simpl.
  - by rewrite app_nil_r.
  - rewrite decide_False by naive_solver. rewrite decide_False by done.
    rewrite IH. simpl. by rewrite <-app_assoc.
Qed.

Lemma clean_loop_app r stack l1 l2 :
  clean_loop r stack (l1 ++ l2) = clean_loop r (rev (clean_loop r stack l1)) l2.
Proof.
  revert stack. induction l1 as [|s l1 IH]; intros stack; simpl; [by rewrite rev_involutive|].
  repeat case_decide; [apply IH| |apply IH]. destruct stack; [apply IH|].
  case_decide; apply IH.
Qed.

Lemma str_mem_join segs :
  Forall simple_name segs → is_rooted (join "/" segs) = false.
Proof.
  destruct 1 as [|s segs (H1 & _ & _ & H4) _]; [done|].
  destruct s as [|a s]; [done|]. simpl in H4. apply orb_false_iff in H4 as [H4 _].
  by destruct segs; cbn [join]; rewrite ?str_app_cons.
Qed.

Lemma is_rooted_render r segs : Forall simple_name segs → is_rooted (render r segs) = r.
Proof.
  intros Hs. destruct r; [done|]. pose proof (str_mem_join segs Hs) as Hj.
  by destruct segs.
Qed.

Lemma clean_segs_render r segs : Forall simple_name segs → clean_segs (render r segs) = segs.
Proof.
  intros Hs. unfold clean_segs. rewrite is_rooted_render by done.
  assert (Forall (λ s, str_mem slash s = false) segs) as Hns.
  { eapply Forall_impl; [done|]. by intros s (_ & _ & _ & ?). }
  destruct r; cbn [render].
  - change (clean_loop true [] (Split slash (join "/" segs)) = segs).
    destruct segs as [|s segs]; [done|]. rewrite (Split_join slash) by done.
    by rewrite clean_loop_simple.
  - destruct segs as [|s segs]; [done|]. rewrite (Split_join slash) by done.
    by rewrite clean_loop_simple.
Qed.

Lemma Clean_render r segs : Forall simple_name segs → Clean (render r segs) = render r segs.
Proof. intros. unfold Clean. by rewrite clean_segs_render, is_rooted_render. Qed.

Lemma render_nonempty r segs : Forall simple_name segs → ∃ a s, render r segs = String a s.
Proof.
  destruct r; simpl; [by eauto|]. destruct 1 as [|s segs (H1 & _) _]; [by eexists _, _|].
  destruct s as [|a s]; [done|]. destruct segs; cbn [join]; rewrite ?str_app_cons; eauto.
Qed.

(** Joining any string to a clean path runs the segments of the string from
    the segments of the path. *)
Lemma Join_render r segs x :
  Forall simple_name segs →
  Join [render r segs; x] = render r (clean_loop r (rev segs) (Split slash x)).
Proof.
  intros Hs. pose proof (clean_segs_render r segs Hs) as Hclean.
  pose proof (is_rooted_render r segs Hs) as Hroot.
  destruct (render_nonempty r segs Hs) as (a & p & E). cbn [Join].
  rewrite E in *. rewrite decide_False by done. cbn [join].
  change ("/" +:+ x)%string with (String slash x).
  unfold Clean. assert (is_rooted (String a p +:+ String slash x) = r) as -> by done.
  f_equal. unfold clean_segs.
  assert (is_rooted (String a p +:+ String slash x) = r) as -> by done.
  rewrite Split_app_gen, clean_loop_app. f_equal. unfold clean_segs in Hclean.
  by rewrite <-Hclean, Hroot.
Qed.

Lemma Join_simple r segs s :
  Forall simple_name segs → simple_name s → Join [render r segs; s] = render r (segs ++ [s]).
Proof.
  intros Hs Hn. rewrite Join_render by done.
  rewrite (Split_simple slash) by apply Hn. rewrite clean_loop_simple by (by constructor).
  by rewrite rev_involutive.
Qed.

Lemma Join_empty_simple s : simple_name s → Join [""; s] = render false [s].
Proof.
  intros Hs. cbn [Join]. rewrite decide_True by done.
  rewrite decide_False by apply Hs. cbn [join].
  change s with (render false [s]) at 1. apply Clean_render. by constructor.
Qed.

(** *** Segments added below a directory *)

(** [p] is the clean path with the segments [segs]. *)
Definition path_is (r : bool) (p : string) (segs : list string) : Prop :=
  Forall simple_name segs ∧ p = render r segs.

Lemma path_is_join r p segs s :
  path_is r p segs → simple_name s → path_is r (Join [p; s]) (segs ++ [s]).
Proof.
  intros [Hs ->] Hn. split; [|by apply Join_simple].
  apply Forall_app. by rewrite Forall_singleton.
Qed.

Lemma path_is_inj r p segs segs' : path_is r p segs → path_is r p segs' → segs = segs'.
Proof.
  intros [Hs ->] [Hs' E]. rewrite <-(clean_segs_render r segs), E by done.
  by apply clean_segs_render.
Qed.

(** ** [time]

    [Unix] seconds and nanoseconds of the instant, and the offset in seconds
    of the zone the time is shown in. *)
Record Time : Type := mkTime { t_sec : Z; t_nsec : Z; t_off : Z }.

#[global] Instance Time_eq_dec : EqDecision Time.
Proof. solve_decision. Defined.

(** Seconds from January 1, year 1 to the Unix epoch. *)
Definition unixToInternal : Z := 62135596800.

(** The zero time: January 1, year 1, 00:00:00 UTC. *)
Definition zero_time : Time := mkTime (- unixToInternal) 0 0.

Definition IsZero (t : Time) : bool :=
  bool_decide (t_sec t = - unixToInternal)%Z && bool_decide (t_nsec t = 0%Z).

(** [time.Unix(sec, 0)] shown in the zone [off]. *)
Definition time_Unix (off sec : Z) : Time := mkTime sec 0 off.

Definition Nanosecond : Z := 1.
Definition Second : Z := 1000000000.
Definition Minute : Z := 60 * Second.

Definition wall (t : Time) : Z := (t_sec t + t_off t)%Z.

(** [Time.date]: the year and the day of the year from 0, by the cycles of
    400, 100 and 4 years counted from year 1. *)
Definition year_yday (t : Time) : Z * Z :=
  let d := (wall t / 86400 + 719162)%Z in
  let n := (d / 146097)%Z in let y := (400 * n)%Z in let d := (d - 146097 * n)%Z in
  let n := (d / 36524)%Z in let n := (n - Z.shiftr n 2)%Z in
  let y := (y + 100 * n)%Z in let d := (d - 36524 * n)%Z in
  let n := (d / 1461)%Z in let y := (y + 4 * n)%Z in let d := (d - 1461 * n)%Z in
  let n := (d / 365)%Z in let n := (n - Z.shiftr n 2)%Z in
  ((y + n + 1)%Z, (d - 365 * n)%Z).

Definition Year (t : Time) : Z := (year_yday t).1.
Definition YearDay (t : Time) : Z := ((year_yday t).2 + 1)%Z.
Definition HourOf (t : Time) : Z := (wall t mod 86400 / 3600)%Z.
Definition MinuteOf (t : Time) : Z := (wall t mod 3600 / 60)%Z.

(** Nanoseconds since January 1, year 1, UTC. *)
Definition abs_nsec (t : Time) : Z := ((t_sec t + unixToInternal) * Second + t_nsec t)%Z.

Definition of_abs_nsec (off n : Z) : Time :=
  mkTime (n / Second - unixToInternal) (n mod Second) off.

(** [t.Truncate(d)]: down to a multiple of [d] since the zero time. *)
Definition Truncate (t : Time) (d : Z) : Time :=
  if decide (d ≤ 0)%Z then t else of_abs_nsec (t_off t) (abs_nsec t - abs_nsec t mod d)%Z.

(** [t.Sub(u)]: saturates at the bounds of a [Duration]. *)
Definition Sub (t u : Time) : Z :=
  Z.max (- 2 ^ 63) (Z.min (2 ^ 63 - 1) (abs_nsec t - abs_nsec u)).

(** [time.Second * time.Duration(g)], a 64-bit product. *)
Definition seconds (g : Z) : Z := swrap 64 (Second * g).

(** The century and year corrections: a quotient of 4 counts as 3. *)
Lemma cycle_bound d k n :
  (0 < k)%Z → (0 ≤ d ≤ 4 * k)%Z → n = (d / k - Z.shiftr (d / k) 2)%Z → (0 ≤ d - k * n ≤ k)%Z.
Proof.
  intros Hk Hd ->. rewrite Z.shiftr_div_pow2 by lia. change (2 ^ 2)%Z with 4%Z.
  pose proof (Z.div_mod d k). pose proof (Z.mod_pos_bound d k).
  assert (0 ≤ d / k < 5)%Z by (split; [apply Z.div_pos; lia|apply Z.div_lt_upper_bound; lia]).
  assert (d / k = 4 ∨ d / k ≤ 3)%Z as [E|E] by lia.
  - rewrite E in *. change (4 / 4)%Z with 1%Z. nia.
  - rewrite (Z.div_small (d / k) 4) by lia. lia.
Qed.

Lemma year_yday_bounds t : (0 ≤ (year_yday t).2 < 366)%Z.
Proof.
  unfold year_yday. cbv zeta. simpl snd.
  set (d := (wall t / 86400 + 719162)%Z). clearbody d.
  set (d1 := (d - 146097 * (d / 146097))%Z).
  assert (0 ≤ d1 ≤ 4 * 36524)%Z as H1 by (unfold d1; div_lia). clearbody d1.
  pose proof (cycle_bound d1 36524 _ ltac:(lia) H1 eq_refl) as H2.
  set (d2 := (d1 - _)%Z) in *. clearbody d2.
  set (d3 := (d2 - 1461 * (d2 / 1461))%Z).
  assert (0 ≤ d3 ≤ 4 * 365)%Z as H3 by (unfold d3; div_lia). clearbody d3.
  pose proof (cycle_bound d3 365 _ ltac:(lia) H3 eq_refl). lia.
Qed.

Lemma YearDay_bounds t : (1 ≤ YearDay t ≤ 366)%Z.
Proof. unfold YearDay. pose proof (year_yday_bounds t). lia. Qed.

Lemma HourOf_bounds t : (0 ≤ HourOf t < 24)%Z.
Proof. unfold HourOf. div_lia. Qed.

Lemma MinuteOf_bounds t : (0 ≤ MinuteOf t < 60)%Z.
Proof. unfold MinuteOf. div_lia. Qed.

(** The epoch, a leap day, the last day of a leap year, a century. *)
Example Year_epoch : (Year (mkTime 0 0 0), YearDay (mkTime 0 0 0)) = (1970, 1)%Z.
Proof. reflexivity. Qed.
Example Year_leap_day : (Year (mkTime 1582934400 0 0), YearDay (mkTime 1582934400 0 0)) = (2020, 60)%Z.
Proof. reflexivity. Qed.
Example Year_leap_end : (Year (mkTime 1609459199 0 0), YearDay (mkTime 1609459199 0 0)) = (2020, 366)%Z.
Proof. reflexivity. Qed.
Example Year_century : (Year (mkTime 4107542399 0 0), YearDay (mkTime 4107542399 0 0)) = (2100, 59)%Z.
Proof. reflexivity. Qed.

(** *** Decimal names are simple path segments *)

Definition is_digit (a : ascii) : bool :=
  let n := N_of_ascii a in bool_decide (48 ≤ n ∧ n ≤ 57)%N.

Fixpoint all_string (f : ascii → bool) (s : string) : bool :=
  match s with EmptyString => true | String a s => f a && all_string f s end.

Lemma all_string_app f a b : all_string f (a +:+ b) = all_string f a && all_string f b.
Proof.
  induction a as [|x a IH]; rewrite ?str_app_cons, ?str_app_nil_l; simpl; [done|].
  by rewrite IH, andb_assoc.
Qed.

Lemma pretty_N_char_digit x : (x < 10)%N → is_digit (pretty_N_char x) = true.
Proof.
  intros. assert (x = 0 ∨ x = 1 ∨ x = 2 ∨ x = 3 ∨ x = 4 ∨ x = 5 ∨ x = 6
    ∨ x = 7 ∨ x = 8 ∨ x = 9)%N by lia. naive_solver.
Qed.

Lemma pretty_N_go_digits x s : all_string is_digit s = true → all_string is_digit (pretty_N_go x s) = true.
Proof.
  revert s. induction (N.lt_wf_0 x) as [x _ IH]; intros s Hs.
  destruct (decide (0 < x)%N) as [Hx|Hx].
  - rewrite pretty_N_go_step by done. apply IH; [by apply N.div_lt|].
    simpl. rewrite Hs, pretty_N_char_digit; [done|]. by apply N.mod_lt.
  - assert (x = 0%N) as -> by lia. by rewrite pretty_N_go_0.
Qed.

Lemma pretty_N_nonempty (x : N) : pretty x ≠ "".
Proof.
  intros E. destruct (decide (x = 0)%N) as [->|Hx]; [done|].
  unfold pretty, pretty_N in E. rewrite decide_False in E by done.
  rewrite pretty_N_go_step in E by lia.
  assert (∀ y a s, pretty_N_go y (String a s) ≠ "") as H; [|by apply H in E].
  clear. intros y. induction (N.lt_wf_0 y) as [y _ IH]; intros a s.
  destruct (decide (0 < y)%N); [|assert (y = 0%N) as -> by lia; by rewrite pretty_N_go_0].
  rewrite pretty_N_go_step by done. apply IH. by apply N.div_lt.
Qed.

Lemma pretty_N_digits (x : N) : all_string is_digit (pretty x) = true.
Proof. unfold pretty, pretty_N. case_decide; [done|]. by apply pretty_N_go_digits. Qed.

Lemma zeros_digits n : all_string is_digit (zeros n) = true.
Proof. induction n; simpl; [done|]. done. Qed.

(** A non-empty string of letters, digits and dashes is a simple name. *)
Definition name_char (a : ascii) : bool :=
  bool_decide (a ≠ slash ∧ a ≠ "."%char).

Lemma all_name_simple s : s ≠ "" → all_string name_char s = true → simple_name s.
Proof.
  intros Hne Hs. split_and!; [done|by intros ->|by intros ->|]. clear Hne.
  induction s as [|a s IH]; simpl in *; [done|].
  apply andb_true_iff in Hs as [Ha Hs]. apply bool_decide_eq_true in Ha as [Ha _].
  rewrite bool_decide_false by done. by apply IH.
Qed.

Lemma digits_name s : all_string is_digit s = true → all_string name_char s = true.
Proof.
  induction s as [|a s IH]; simpl; [done|]. intros [Ha Hs]%andb_true_iff.
  rewrite IH by done. rewrite andb_true_r. apply bool_decide_eq_true in Ha.
  apply bool_decide_eq_true. split; intros ->; vm_compute in Ha; naive_solver.
Qed.

Lemma sprintf0_simple w z : simple_name (sprintf0 w z).
Proof.
  unfold sprintf0. apply all_name_simple.
  - case_decide; [done|]. intros E. apply (f_equal String.length) in E.
    rewrite str_length_app in E. pose proof (pretty_N_nonempty (Z.abs_N z)).
    by destruct (pretty (Z.abs_N z)); [|simpl in E; lia].
  - case_decide; rewrite ?all_string_app; simpl; rewrite ?all_string_app;
      by rewrite (digits_name (zeros _)), digits_name by (apply zeros_digits || apply pretty_N_digits).
Qed.

Lemma Sprint_name z : all_string name_char (Sprint z) = true.
Proof.
  destruct z as [|p|p]; [done|apply digits_name, (pretty_N_digits (Npos p))|].
  change (Sprint (Zneg p)) with (String "-" (pretty (Npos p))).
  simpl. by rewrite digits_name by apply pretty_N_digits.
Qed.
#[export] Hint Resolve sprintf0_simple : hadock.

(** *** Reading decimals back *)

Definition digit_val (a : ascii) : Z := (Z.of_N (N_of_ascii a) - 48)%Z.

Fixpoint dec_val (acc : Z) (s : string) : Z :=
  match s with EmptyString => acc | String a s => dec_val (acc * 10 + digit_val a) s end.

Lemma pretty_N_char_val x : (x < 10)%N → digit_val (pretty_N_char x) = Z.of_N x.
Proof.
  intros. assert (x = 0 ∨ x = 1 ∨ x = 2 ∨ x = 3 ∨ x = 4 ∨ x = 5 ∨ x = 6
    ∨ x = 7 ∨ x = 8 ∨ x = 9)%N by lia. naive_solver.
Qed.

Lemma dec_val_go x s : dec_val 0 (pretty_N_go x s) = dec_val (Z.of_N x) s.
Proof.
  revert s. induction (N.lt_wf_0 x) as [x _ IH]; intros s.
  destruct (decide (0 < x)%N) as [Hx|Hx].
  - rewrite pretty_N_go_step by done. rewrite IH by (by apply N.div_lt). cbn [dec_val].
    rewrite pretty_N_char_val by (by apply N.mod_lt). f_equal.
    rewrite N2Z.inj_div, N2Z.inj_mod. simpl Z.of_N. div_lia.
  - assert (x = 0%N) as -> by lia. by rewrite pretty_N_go_0.
Qed.

Lemma dec_val_pretty (x : N) : dec_val 0 (pretty x) = Z.of_N x.
Proof. unfold pretty, pretty_N. case_decide; [by subst|]. by rewrite dec_val_go. Qed.

Lemma dec_val_zeros n s : dec_val 0 (zeros n +:+ s) = dec_val 0 s.
Proof. induction n as [|n IH]; [done|]. simpl zeros. rewrite str_app_cons. exact IH. Qed.

Lemma sprintf0_val w z : (0 ≤ z)%Z → dec_val 0 (sprintf0 w z) = z.
Proof.
  intros Hz. unfold sprintf0. rewrite decide_False by lia.
  rewrite dec_val_zeros, dec_val_pretty. lia.
Qed.

Lemma sprintf0_nonneg_digits w z : (0 ≤ z)%Z → all_string is_digit (sprintf0 w z) = true.
Proof.
  intros Hz. unfold sprintf0. rewrite decide_False by lia.
  by rewrite all_string_app, zeros_digits, pretty_N_digits.
Qed.

(** Padded decimals tell numbers apart. *)
Lemma sprintf0_inj w z1 z2 : sprintf0 w z1 = sprintf0 w z2 → z1 = z2.
Proof.
  intros E. destruct (decide (z1 < 0)%Z) as [H1|H1], (decide (z2 < 0)%Z) as [H2|H2].
  - unfold sprintf0 in E. rewrite !decide_True in E by done. rewrite !str_app_cons in E.
    injection E as E. apply (f_equal (dec_val 0)) in E. rewrite !dec_val_zeros, !dec_val_pretty in E. lia.
  - pose proof (sprintf0_nonneg_digits w z2 ltac:(lia)) as Hd. rewrite <-E in Hd.
    unfold sprintf0 in Hd. by rewrite decide_True in Hd.
  - pose proof (sprintf0_nonneg_digits w z1 ltac:(lia)) as Hd. rewrite E in Hd.
    unfold sprintf0 in Hd. by rewrite decide_True in Hd.
  - apply (f_equal (dec_val 0)) in E. by rewrite !sprintf0_val in E by lia.
Qed.

(** *** Truncation to minutes

    [Truncate] counts from the zero time, which is the start of an hour. *)
Lemma t_sec_Truncate t g :
  (0 < g < 2 ^ 33)%Z → (0 ≤ t_nsec t < Second)%Z →
  t_sec (Truncate t (seconds g)) = (t_sec t - (t_sec t + unixToInternal) mod g)%Z.
Proof.
  intros Hg Ht. unfold seconds. rewrite swrap_small by (unfold Second; width_lia).
  unfold Truncate. rewrite decide_False by (unfold Second; lia). unfold of_abs_nsec, abs_nsec; simpl t_sec.
  set (s := (t_sec t + unixToInternal)%Z).
  assert ((s * Second + t_nsec t) mod (Second * g) = Second * (s mod g) + t_nsec t)%Z as ->.
  { rewrite Z.rem_mul_r by (unfold Second; lia).
    rewrite !(Z.add_comm (s * Second) (t_nsec t)), Z_mod_plus_full, Z.div_add by (unfold Second; lia).
    rewrite Z.mod_small, Z.div_small, Z.add_0_l by done. lia. }
  replace (s * Second + t_nsec t - (Second * (s mod g) + t_nsec t))%Z with ((s - s mod g) * Second)%Z by lia.
  rewrite Z.div_mul by (unfold Second; lia). unfold s. lia.
Qed.

(** *** Suffixes, extensions and last elements *)

Lemma bytes_of_app a b : bytes_of (a +:+ b) = bytes_of a ++ bytes_of b.
Proof.
  induction a as [|x a IH]; [done|].
  change (byte_of_ascii x :: bytes_of (a +:+ b) = byte_of_ascii x :: (bytes_of a ++ bytes_of b)). by rewrite IH.
Qed.

Lemma string_of_app a b : string_of (a ++ b) = string_of a +:+ string_of b.
Proof.
  induction a as [|x a IH]; [done|].
  change (String (ascii_of_byte x) (string_of (a ++ b)) = String (ascii_of_byte x) (string_of a +:+ string_of b)).
  by rewrite IH.
Qed.

Lemma str_rev_app a b : str_rev (a +:+ b) = str_rev b +:+ str_rev a.
Proof. unfold str_rev. by rewrite bytes_of_app, rev_app_distr, string_of_app. Qed.

Lemma prefix_app a b : String.prefix a (a +:+ b) = true.
Proof. induction a as [|x a IH]; [by destruct b|]. rewrite str_app_cons. simpl. by destruct (ascii_dec x x). Qed.

Lemma substring_app a b : String.substring 0 (String.length a) (a +:+ b) = a.
Proof. induction a as [|x a IH]; [by destruct b|]. rewrite str_app_cons. simpl. by rewrite IH. Qed.

Lemma TrimSuffix_app a x : TrimSuffix (a +:+ x) x = a.
Proof.
  unfold TrimSuffix, HasSuffix. rewrite str_rev_app, prefix_app, str_length_app.
  replace (String.length a + String.length x - String.length x) with (String.length a) by lia.
  apply substring_app.
Qed.

Lemma str_mem_rev c y : str_mem c (str_rev y) = str_mem c y.
Proof.
  induction y as [|b y IH]; [done|].
  change (String b y) with (String b "" +:+ y) at 1. rewrite str_rev_app, str_mem_app, IH.
  assert (str_rev (String b "") = String b "") as ->.
  { change (str_rev (String b "")) with (String (ascii_of_byte (byte_of_ascii b)) "").
    by rewrite ascii_of_byte_of_ascii. }
  simpl. destruct (bool_decide _), (str_mem c y); done.
Qed.

(** The extension of a name that ends in one. *)
Lemma Ext_app a x :
  str_mem slash x = false → str_mem "." x = false → Ext (a +:+ String "." x) = String "." x.
Proof.
  intros Hs Hd. unfold Ext. change (String "." x) with ("." +:+ x).
  rewrite str_app_assoc, str_rev_app, str_rev_app.
  assert (∀ y acc z, str_mem slash y = false → str_mem "." y = false →
    ext_loop (y +:+ z) acc = ext_loop z (string_of (rev (bytes_of y)) +:+ acc)) as H.
  { induction y as [|c y IH]; intros acc z Hys Hyd; [done|].
    simpl in Hys, Hyd. apply orb_false_iff in Hys as [Hc Hys], Hyd as [Hc' Hyd].
    apply bool_decide_eq_false in Hc, Hc'. rewrite str_app_cons. cbn [ext_loop].
    rewrite !decide_False by done. rewrite IH by done. f_equal.
    change (bytes_of (String c y)) with (byte_of_ascii c :: bytes_of y). cbn [rev].
    rewrite string_of_app, <-str_app_assoc. f_equal.
    change (string_of [byte_of_ascii c] +:+ acc) with (String (ascii_of_byte (byte_of_ascii c)) acc).
    by rewrite ascii_of_byte_of_ascii. }
  rewrite H by (by rewrite str_mem_rev). change (str_rev ".") with ".". rewrite str_app_cons, str_app_nil_l.
  cbn [ext_loop]. rewrite decide_False by done. rewrite decide_True by done. f_equal.
  unfold str_rev. rewrite bytes_of_string_of, rev_involutive, string_of_bytes_of. apply str_app_nil_r.
Qed.

(** Of a path it is that of the last element. *)
Lemma Ext_slash a f : str_mem slash f = false → Ext (a +:+ String slash f) = Ext f.
Proof.
  assert (∀ y acc z, str_mem slash y = false → ext_loop (y +:+ String slash z) acc = ext_loop y acc) as H.
  { induction y as [|c y IH]; intros acc z Hy; [by rewrite str_app_nil_l|].
    cbn [str_mem] in Hy. apply orb_false_iff in Hy as [Hc Hy]. apply bool_decide_eq_false in Hc.
    rewrite str_app_cons. cbn [ext_loop]. rewrite !(decide_False (P := c = slash)) by done.
    case_decide; [done|]. by apply IH. }
  intros Hf. unfold Ext. change (String slash f) with (String slash "" +:+ f).
  rewrite !str_rev_app, <-str_app_assoc. change (str_rev (String slash "") +:+ str_rev a) with (String slash (str_rev a)).
  apply H. by rewrite str_mem_rev.
Qed.

Lemma render_last segs f : ∃ pre, render true (segs ++ [f]) = pre +:+ String slash f.
Proof.
  induction segs as [|a segs [pre IH]]; [by exists ""|]. exists (String slash a +:+ pre).
  cbn [render] in *. rewrite <-str_app_assoc, <-IH, str_app_cons. f_equal.
  by destruct segs.
Qed.

Lemma Ext_join dir segs f : path_is true dir segs → simple_name f → Ext (Join [dir; f]) = Ext f.
Proof.
  intros [Hs ->] Hf. rewrite Join_simple by done. destruct (render_last segs f) as [pre ->].
  apply Ext_slash, Hf.
Qed.

(** The last element of a path below a clean directory. *)
Lemma Base_join r dir segs f : path_is r dir segs → simple_name f → Base (Join [dir; f]) = f.
Proof.
  intros [Hs ->] Hf. rewrite Join_simple by done.
  assert (Forall simple_name (segs ++ [f])) as Hsf by (apply Forall_app; by rewrite Forall_singleton).
  destruct (render_nonempty r (segs ++ [f]) Hsf) as (a & y & E). unfold Base. rewrite E, <-E.
  assert (filter (λ s, s ≠ "") (Split slash (render r (segs ++ [f]))) = segs ++ [f]) as ->.
  { assert (Forall (λ s, str_mem slash s = false) (segs ++ [f])) as Hns
      by (eapply Forall_impl; [exact Hsf|by intros s (_ & _ & _ & ?)]).
    assert (filter (λ s, s ≠ "") (segs ++ [f]) = segs ++ [f]) as Hfil.
    { clear -Hsf. induction Hsf as [|s l (Hs & _) _ IH]; [done|]. rewrite filter_cons_True by done. by rewrite IH. }
    destruct r; cbn [render].
    - change (filter (λ s, s ≠ "") (Split slash (join "/" (segs ++ [f]))) = segs ++ [f]).
      rewrite (Split_join slash) by (done || by destruct segs). done.
    - destruct (segs ++ [f]) as [|s0 l] eqn:El; [by destruct segs|]. rewrite (Split_join slash) by done. done. }
  by rewrite last_snoc.
Qed.
