(* ===== verification/Proto.v ===== *)
(** * Proto: the HDK packet protocol (src/proto.go)

    [Packet], its encoder and its decoders: [DecodePacket] reads one packet
    (protocol 0, a whole packet; protocol 1, fragments to reassemble) and
    [DecodeBinaryPackets] is the goroutine that decodes a connection until
    it ends, dropping the instances that are not wanted. *)

From S2P Require Import Prelude Bytes SortSearch.
From Stdlib Require Import ZArith Lia.

(** ** Data *)

Definition OPS : Z := 255.
Definition TEST : Z := 0.
Definition SIM1 : Z := 1.
Definition SIM2 : Z := 2.

Definition Preamble : Z := 0xf82e3553.

Definition HadockVersion1 : Z := 0.
Definition HadockVersion2 : Z := 1.

Definition PacketLength : Z := 10.

Record Packet : Type := mkPacket {
  pkt_Protocol : Z;        (* uint8 *)
  pkt_Version : Z;         (* uint8 *)
  pkt_Instance : Z;        (* uint8 *)
  pkt_Sequence : Z;        (* uint16 *)
  pkt_Length : Z;          (* uint32 *)
  pkt_Payload : list byte;
  pkt_Sum : Z;             (* uint16 *)
  pkt_Curr : Z;            (* uint16 *)
  pkt_Last : Z;            (* uint16 *)
}.

#[global] Instance Packet_eq_dec : EqDecision Packet.
Proof. solve_decision. Defined.

(** [new(Packet)]. *)
Definition new_Packet : Packet := mkPacket 0 0 0 0 0 [] 0 0 0.

(** ** Modules

    A [Module] processes a packet in some world (files, logs) and may fail, or
    panic; [multiModule] runs all of them and keeps the first error. *)
Section modules.
Context {W P : Type}.

Definition Module_ : Type := Z → P → W → result () * W.

Fixpoint multiModule_Process (ms : list Module_) (err : option error)
    (i : Z) (p : P) (w : W) : result () * W :=
  match ms with
  | [] => (match err with Some e => Err e | None => Ok () end, w)
  | m :: ms =>
      match m i p w with
      | (Ok _, w) => multiModule_Process ms err i p w
      | (Err e, w) => multiModule_Process ms (match err with None => Some e | Some _ => err end) i p w
      | (Panic why, w) => (Panic why, w)
      end
  end.

Definition Process (ms : list Module_) : Module_ := multiModule_Process ms None.
End modules.
Arguments Module_ : clear implicits.

(** ** Encoding *)

Definition EncodePacket (p : Packet) : result (list byte) :=
  if decide (pkt_Version p ≠ HadockVersion1) then Err (Errorf "not yet implemented" [])
  else Ok (
    binary_Write BigEndian (u8 (Z.lor (wrap 8 (Z.shiftl (pkt_Protocol p) 4)) (pkt_Version p))) ++
    binary_Write BigEndian (u8 (pkt_Instance p)) ++
    binary_Write BigEndian (u16 (pkt_Sequence p)) ++
    binary_Write BigEndian (u32 (pkt_Length p)) ++
    pkt_Payload p ++
    binary_Write BigEndian (u16 (pkt_Sum p))).

(** ** Decoding *)

Definition readPreamble : rd Z :=
  preamble ← ReadUint BigEndian 4;
  if decide (preamble ≠ Preamble) then rd_fail ErrSkip
  else ReadUint BigEndian 2.

(** The decoder fills the packet it is given; only the fields it reads
    change. *)
Definition readPacket (p : Packet) : rd Packet :=
  sequence ← ReadUint BigEndian 2;
  length ← ReadUint BigEndian 4;
  payload ← ReadFull length;
  sum ← ReadUint BigEndian 2;
  mret (mkPacket (pkt_Protocol p) (pkt_Version p) (pkt_Instance p)
    sequence length payload sum (pkt_Curr p) (pkt_Last p)).

Definition readFragment (p : Packet) : rd (bool * Packet) :=
  curr ← ReadUint BigEndian 2;
  last ← ReadUint BigEndian 2;
  p ← readPacket (mkPacket (pkt_Protocol p) (pkt_Version p) (pkt_Instance p)
    (pkt_Sequence p) (pkt_Length p) (pkt_Payload p) (pkt_Sum p) curr last);
  mret (bool_decide (curr = last), p).

(** The [for] loop of [DecodePacket] over the fragments: it leaves with the
    fragments read, the final one last.  Every turn reads at least one byte,
    so [S (length data)] turns are enough ([read_fragments_fuel]). *)
Fixpoint read_fragments (fuel : nat) (prefix : Z) (ps : list Packet) : rd (list Packet * Packet) :=
  match fuel with
  | O => λ r, (Panic "out of fuel", r)
  | S fuel =>
      '(final, v) ← readFragment new_Packet;
      let ps := ps ++ [v] in
      if (final : bool) then mret (ps, v)
      else
        x ← readPreamble;
        if decide (x ≠ prefix) then
          rd_fail (Errorf "version mismatched: expected: %x, got %x" [AInt prefix; AInt x])
        else read_fragments fuel prefix ps
  end.

Section decoder.
Context {sorter : SliceSorter}.

Definition DecodePacket : rd Packet :=
  prefix ← readPreamble;
  let protocol := wrap 8 (Z.shiftr prefix 12) in
  let version := Z.land (wrap 8 (Z.shiftr prefix 8)) 0x0F in
  let instance := wrap 8 (Z.land prefix 0xFF) in
  let p := mkPacket protocol version instance 0 0 [] 0 0 0 in
  if decide (protocol = HadockVersion1) then readPacket p
  else if decide (protocol = HadockVersion2) then
    '(ps, v) ← (λ r, read_fragments (S (length (rd_data r))) prefix [] r);
    mret (mkPacket protocol version instance (pkt_Sequence v) (pkt_Length v)
      (concat (map pkt_Payload (sort_slice pkt_Curr ps))) 0 0 0)
  else rd_fail ErrUnsupportedProtocol.

(** One turn of the loop of [DecodeBinaryPackets]: the goroutine returns,
    or goes on after sending at most one packet.  The checksum is compared
    with an empty body, so it has no effect. *)
Inductive turn : Type :=
  | Return
  | Continue (sent : option Packet).

(** The filter on instances: [insts] is sorted and searched. *)
Definition rejected (insts : list Z) (instance : Z) : bool :=
  search_rejects Z.leb insts instance.

Definition decode_turn (insts : list Z) (r : reader) : turn * reader :=
  match DecodePacket r with
  | (Ok p, r') => if rejected insts (pkt_Instance p) then (Continue None, r') else (Continue (Some p), r')
  | (Err EOF, r') | (Err ErrUnsupportedProtocol, r') | (Err ErrUnsupportedVMUVersion, r') => (Return, r')
  | (Err ErrSkip, r') => (Continue None, r')
  | (Err _, r') => (Continue None, r')
  | (Panic _, r') => (Return, r')
  end.

(** The goroutine after [fuel] turns: the packets it sent, and whether it
    returned (and closed the channel) or is still running. *)
Fixpoint decode_loop (fuel : nat) (insts : list Z) (r : reader) : list Packet * bool :=
  match fuel with
  | O => ([], false)
  | S fuel =>
      match decode_turn insts r with
      | (Return, _) => ([], true)
      | (Continue sent, r') =>
          let '(q, returned) := decode_loop fuel insts r' in
          (option_list sent ++ q, returned)
      end
  end.

Definition DecodeBinaryPackets (fuel : nat) (r : reader) (insts : list Z) : list Packet * bool :=
  decode_loop fuel (sort_slice id insts) r.
End decoder.

(** ** Reading one packet *)

(** The fields of a packet fit their widths and [Length] is the size of the
    payload. *)
Definition Packet_wf (p : Packet) : Prop :=
  pkt_Protocol p = HadockVersion1 ∧ in_width 4 (pkt_Version p) ∧
  in_width 8 (pkt_Instance p) ∧ in_width 16 (pkt_Sequence p) ∧
  in_width 32 (pkt_Length p) ∧ pkt_Length p = Z.of_nat (length (pkt_Payload p)) ∧
  in_width 16 (pkt_Sum p) ∧ pkt_Curr p = 0%Z ∧ pkt_Last p = 0%Z.

#[global] Instance Packet_wf_dec p : Decision (Packet_wf p).
Proof. unfold Packet_wf. apply _. Defined.

(** The wire format the decoder reads: preamble, prefix, body. *)
Definition prefix_of (protocol version instance : Z) : Z :=
  (protocol * 2 ^ 12 + version * 2 ^ 8 + instance)%Z.

Definition wire_body (seq : Z) (payload : list byte) (sum : Z) : list byte :=
  put_uint BigEndian 2 seq ++ put_uint BigEndian 4 (Z.of_nat (length payload)) ++
  payload ++ put_uint BigEndian 2 sum.

Definition wire_preamble (prefix : Z) : list byte :=
  put_uint BigEndian 4 Preamble ++ put_uint BigEndian 2 prefix.

Definition wire_packet (p : Packet) : list byte :=
  wire_preamble (prefix_of (pkt_Protocol p) (pkt_Version p) (pkt_Instance p)) ++
  wire_body (pkt_Sequence p) (pkt_Payload p) (pkt_Sum p).

#[global] Arguments wire_body _ _ _ : simpl never.
#[global] Arguments wire_preamble _ : simpl never.
#[global] Arguments wire_packet _ : simpl never.
#[global] Arguments prefix_of _ _ _ : simpl never.

Lemma Preamble_width : in_width (8 * Z.of_nat 4) Preamble.
Proof. vm_compute. split; congruence. Qed.
#[export] Hint Resolve Preamble_width : hadock.

Lemma readPreamble_ok prefix rest e :
  in_width 16 prefix →
  readPreamble (Reader (wire_preamble prefix ++ rest) e) = (Ok prefix, Reader rest e).
Proof.
  intros Hp. unfold readPreamble, wire_preamble. rewrite <-app_assoc.
  erewrite rd_bind_ok by (apply ReadUint_put; auto with hadock).
  rewrite decide_False by (by intros []). by apply ReadUint_put.
Qed.

Lemma readPacket_ok p seq payload sum rest e :
  in_width 16 seq → in_width 32 (Z.of_nat (length payload)) → in_width 16 sum →
  readPacket p (Reader (wire_body seq payload sum ++ rest) e) =
  (Ok (mkPacket (pkt_Protocol p) (pkt_Version p) (pkt_Instance p) seq
         (Z.of_nat (length payload)) payload sum (pkt_Curr p) (pkt_Last p)), Reader rest e).
Proof.
  intros Hs Hl Hsum. unfold readPacket, wire_body. rewrite <-!app_assoc.
  erewrite rd_bind_ok by (by apply ReadUint_put).
  erewrite rd_bind_ok by (by apply ReadUint_put).
  erewrite rd_bind_ok by (by apply ReadFull_app).
  by erewrite rd_bind_ok by (by apply ReadUint_put).
Qed.

(** Anything but the preamble in the next four bytes is skipped. *)
Lemma readPreamble_skip w rest e :
  length w = 4 → get_uint BigEndian w ≠ Preamble →
  readPreamble (Reader (w ++ rest) e) = (Err ErrSkip, Reader rest e).
Proof.
  intros Hw Hne. unfold readPreamble, ReadUint.
  erewrite rd_bind_ok.
  2: { erewrite rd_bind_ok by (apply ReadFull_app; by rewrite Hw). done. }
  by rewrite decide_True.
Qed.

#[export] Instance consuming_readPreamble : Consuming readPreamble.
Proof. unfold readPreamble. apply _. Qed.
#[export] Instance consuming_readPacket p : Consuming (readPacket p).
Proof. unfold readPacket. apply _. Qed.
#[export] Instance consuming_readFragment p : Consuming (readFragment p).
Proof. unfold readFragment. apply _. Qed.
#[export] Instance progressing_readFragment p : Progressing (readFragment p).
Proof. unfold readFragment. apply progressing_bind; apply _. Qed.
#[export] Instance no_panic_readPreamble : NoPanic readPreamble.
Proof. unfold readPreamble. apply _. Qed.
#[export] Instance no_panic_readFragment p : NoPanic (readFragment p).
Proof. unfold readFragment, readPacket. apply _. Qed.
#[export] Instance consuming_read_fragments fuel prefix ps :
  Consuming (read_fragments fuel prefix ps).
Proof.
  revert ps. induction fuel as [|fuel IH]; intros ps; simpl; [by intros r|].
  apply consuming_bind; [apply _|]. intros [[] v]; apply _.
Qed.

#[export] Instance consuming_all_fragments prefix :
  Consuming (λ r, read_fragments (S (length (rd_data r))) prefix [] r).
Proof. intros r. apply (consuming_read_fragments (S (length (rd_data r))) prefix []). Qed.

(** *** The prefix *)

Lemma prefix_width pr v i :
  in_width 4 pr → in_width 4 v → in_width 8 i → in_width 16 (prefix_of pr v i).
Proof. unfold in_width, prefix_of. lia. Qed.

Lemma prefix_fields pr v i :
  in_width 4 pr → in_width 4 v → in_width 8 i →
  wrap 8 (Z.shiftr (prefix_of pr v i) 12) = pr ∧
  Z.land (wrap 8 (Z.shiftr (prefix_of pr v i) 8)) 0x0F = v ∧
  wrap 8 (Z.land (prefix_of pr v i) 0xFF) = i.
Proof.
  unfold in_width, prefix_of, wrap. intros Hp Hv Hi.
  rewrite !Z.shiftr_div_pow2 by lia.
  change 0x0F%Z with (Z.ones 4). change 0xFF%Z with (Z.ones 8).
  rewrite !Z.land_ones by lia.
  change (2 ^ 12)%Z with 4096%Z. change (2 ^ 8)%Z with 256%Z in *. change (2 ^ 4)%Z with 16%Z in *.
  set (x := (pr * 4096 + v * 256 + i)%Z).
  assert (x / 4096 = pr)%Z as -> by (symmetry; eapply Z.div_unique with (r := (v * 256 + i)%Z); lia).
  assert (x / 256 = pr * 16 + v)%Z as -> by (symmetry; eapply Z.div_unique with (r := i); lia).
  assert (x mod 256 = i)%Z as -> by (symmetry; eapply Z.mod_unique with (q := (pr * 16 + v)%Z); lia).
  rewrite !(Z.mod_small _ 256) by lia. split_and!; [done| |done].
  symmetry. eapply Z.mod_unique with (q := pr); lia.
Qed.

Section decoding.
Context {sorter : SliceSorter}.

Lemma DecodePacket_prefix prefix rest e :
  in_width 16 prefix →
  DecodePacket (Reader (wire_preamble prefix ++ rest) e) =
  (let protocol := wrap 8 (Z.shiftr prefix 12) in
   let version := Z.land (wrap 8 (Z.shiftr prefix 8)) 0x0F in
   let instance := wrap 8 (Z.land prefix 0xFF) in
   if decide (protocol = HadockVersion1) then
     readPacket (mkPacket protocol version instance 0 0 [] 0 0 0) (Reader rest e)
   else if decide (protocol = HadockVersion2) then
     match read_fragments (S (length rest)) prefix [] (Reader rest e) with
     | (Ok (ps, v), r') => (Ok (mkPacket protocol version instance (pkt_Sequence v) (pkt_Length v)
          (concat (map pkt_Payload (sort_slice pkt_Curr ps))) 0 0 0), r')
     | (Err e', r') => (Err e', r')
     | (Panic w, r') => (Panic w, r')
     end
   else (Err ErrUnsupportedProtocol, Reader rest e)).
Proof.
  intros Hp. unfold DecodePacket.
  erewrite rd_bind_ok by (by apply readPreamble_ok). cbv zeta.
  case_decide; [done|]. case_decide; [|done].
  unfold mbind at 1, rd_bind at 1; simpl rd_data.
  by destruct (read_fragments _ _ _ _) as [[[ps v]|e'|w] r'].
Qed.

Lemma DecodePacket_skip w rest e :
  length w = 4 → get_uint BigEndian w ≠ Preamble →
  DecodePacket (Reader (w ++ rest) e) = (Err ErrSkip, Reader rest e).
Proof. intros. unfold DecodePacket. by apply rd_bind_err, readPreamble_skip. Qed.

(** A packet in its wire format is read back, and nothing after it. *)
Lemma DecodePacket_wire p rest e :
  Packet_wf p → DecodePacket (Reader (wire_packet p ++ rest) e) = (Ok p, Reader rest e).
Proof.
  intros (Hpr & Hv & Hi & Hs & Hl & Hlen & Hsum & Hc & Hla).
  assert (in_width 4 (pkt_Protocol p)) as Hpw by (rewrite Hpr; vm_compute; split; congruence).
  unfold wire_packet. rewrite <-app_assoc.
  rewrite DecodePacket_prefix by (by apply prefix_width).
  destruct (prefix_fields _ _ _ Hpw Hv Hi) as (-> & -> & ->). cbv zeta.
  rewrite decide_True by done. rewrite readPacket_ok by (done || by rewrite <-Hlen).
  destruct p; simpl in *; by subst.
Qed.

#[export] Instance consuming_DecodePacket : Consuming DecodePacket.
Proof. unfold DecodePacket. apply _. Qed.

#[export] Instance progressing_DecodePacket : Progressing DecodePacket.
Proof.
  unfold DecodePacket, readPreamble.
  apply progressing_bind; [apply progressing_bind|]; intros; apply _.
Qed.

Lemma DecodePacket_empty e : DecodePacket (Reader [] e) = (Err e, Reader [] e).
Proof.
  unfold DecodePacket, readPreamble.
  apply rd_bind_err, rd_bind_err, ReadUint_empty. lia.
Qed.

(** The fuel of the fragment loop is enough: it is never exhausted. *)
Lemma read_fragments_fuel fuel prefix ps r w :
  length (rd_data r) < fuel → (read_fragments fuel prefix ps r).1 ≠ Panic w.
Proof.
  revert ps r. induction fuel as [|fuel IH]; intros ps r Hf; [lia|]. simpl.
  pose proof (no_panic (m := readFragment new_Packet) r w) as Hn.
  pose proof (progressing (m := readFragment new_Packet) r) as Hp.
  unfold mbind, rd_bind.
  destruct (readFragment new_Packet r) as [[[final v]|e|w'] r'] eqn:E; simpl in *; [|done|congruence].
  destruct final; [done|].
  pose proof (no_panic (m := readPreamble) r' w) as Hn'.
  pose proof (consuming_length readPreamble r') as Hl.
  destruct (readPreamble r') as [[x|e|w'] r''] eqn:E'; simpl in *; [|done|congruence].
  case_decide; [done|]. apply IH.
  destruct (decide (rd_data r = [])) as [Hnil|Hr].
  - destruct r as [d e]; simpl in *; subst.
    unfold readFragment in E. by erewrite rd_bind_err in E by (apply ReadUint_empty; lia).
  - specialize (Hp Hr). lia.
Qed.

#[export] Instance no_panic_DecodePacket : NoPanic DecodePacket.
Proof.
  unfold DecodePacket, readPreamble. apply no_panic_bind; [apply _|]. intros prefix. cbv zeta.
  repeat case_decide; [unfold readPacket; apply _| |apply _].
  apply no_panic_bind; [|apply _].
  intros r w. apply read_fragments_fuel. lia.
Qed.
End decoding.

#[global] Arguments DecodePacket {_} _ : simpl never.
#[global] Arguments decode_turn {_} _ _ : simpl never.

(** ** The loop of [DecodeBinaryPackets] *)

Definition allowed (insts : list Z) (i : Z) : bool := bool_decide (insts = [] ∨ i ∈ insts).

Lemma filter_allowed insts (l : list Packet) :
  filter (λ p, allowed insts (pkt_Instance p) = true) l =
  filter (λ p, insts = [] ∨ pkt_Instance p ∈ insts) l.
Proof.
  induction l as [|p l IH]; [done|]. rewrite !filter_cons, IH. unfold allowed.
  case_bool_decide; repeat case_decide; naive_solver.
Qed.

(** A stream as the broker's clients write it: packets, and junk that falls
    on whole words. *)
Inductive chunk : Type :=
  | Junk (w : list byte)
  | Wire (p : Packet).

Definition chunk_wf (c : chunk) : Prop :=
  match c with
  | Junk w => length w = 4 ∧ get_uint BigEndian w ≠ Preamble
  | Wire p => Packet_wf p
  end.

Definition chunk_bytes (c : chunk) : list byte :=
  match c with Junk w => w | Wire p => wire_packet p end.

Definition chunk_packets (cs : list chunk) : list Packet :=
  omap (λ c, match c with Junk _ => None | Wire p => Some p end) cs.

#[global] Instance chunk_wf_dec c : Decision (chunk_wf c).
Proof. destruct c; simpl; apply _. Defined.

Section loop.
Context {sorter : SliceSorter}.
Implicit Types insts : list Z.

(** Once sorted, the search of the filter decides membership. *)
Lemma rejected_spec insts i : rejected (sort_slice id insts) i = negb (allowed insts i).
Proof.
  unfold rejected, allowed. rewrite search_rejects_sorted by (try (intros; lia); apply sort_slice_leb).
  f_equal. apply bool_decide_ext.
  assert (sort_slice id insts = [] ↔ insts = []) as ->; [|by rewrite sort_slice_perm].
  split; intros E; [|subst]; apply Permutation_nil; [by rewrite <-E, sort_slice_perm|].
  by rewrite sort_slice_perm.
Qed.

Lemma decode_turn_chunk insts c rest e :
  chunk_wf c →
  decode_turn (sort_slice id insts) (Reader (chunk_bytes c ++ rest) e) =
  (Continue (match c with
             | Junk _ => None
             | Wire p => if allowed insts (pkt_Instance p) then Some p else None
             end), Reader rest e).
Proof.
  destruct c as [w|p]; cbn [chunk_bytes chunk_wf]; intros Hc; unfold decode_turn.
  - by rewrite DecodePacket_skip by naive_solver.
  - rewrite DecodePacket_wire by done. rewrite rejected_spec. by destruct (allowed _ _).
Qed.

Lemma decode_loop_chunks insts cs rest e n :
  Forall chunk_wf cs →
  decode_loop (length cs + n) (sort_slice id insts) (Reader (concat (map chunk_bytes cs) ++ rest) e) =
  let '(q, returned) := decode_loop n (sort_slice id insts) (Reader rest e) in
  (filter (λ p, allowed insts (pkt_Instance p) = true) (chunk_packets cs) ++ q, returned).
Proof.
  induction 1 as [|c cs Hc Hcs IH]; simpl; [by destruct (decode_loop _ _ _)|].
  rewrite <-app_assoc, decode_turn_chunk, IH by done.
  destruct (decode_loop n _ _) as [q returned]. f_equal.
  destruct c as [w|p]; simpl; [done|]. rewrite filter_cons.
  by destruct (allowed _ _).
Qed.

(** Bytes that are read as one packet, whatever follows them. *)
Definition decodes_as (bs : list byte) (p : Packet) : Prop :=
  ∀ rest e, DecodePacket (Reader (bs ++ rest) e) = (Ok p, Reader rest e).

Lemma decode_loop_packets insts bss ps rest e n :
  Forall2 decodes_as bss ps →
  decode_loop (length bss + n) (sort_slice id insts) (Reader (concat bss ++ rest) e) =
  let '(q, returned) := decode_loop n (sort_slice id insts) (Reader rest e) in
  (filter (λ p, insts = [] ∨ pkt_Instance p ∈ insts) ps ++ q, returned).
Proof.
  rewrite <-filter_allowed. induction 1 as [|bs p bss ps Hp _ IH]; simpl; [by destruct (decode_loop _ _ _)|].
  rewrite <-app_assoc. unfold decode_turn. rewrite (Hp _ e), rejected_spec.
  rewrite filter_cons. destruct (allowed insts (pkt_Instance p)); simpl; rewrite IH; by destruct (decode_loop n _ _).
Qed.

Lemma decode_loop_end insts n : decode_loop (S n) insts (Reader [] EOF) = ([], true).
Proof. done. Qed.

Lemma decode_loop_broken insts n what :
  decode_loop n insts (Reader [] (ErrExternal what)) = ([], false).
Proof.
  induction n as [|n IH]; cbn [decode_loop]; [done|].
  unfold decode_turn. rewrite DecodePacket_empty. by rewrite IH.
Qed.

(** What one turn leaves behind: the same stream, shorter when the loop
    goes on with bytes left. *)
Lemma decode_turn_continues insts r sent r' :
  decode_turn insts r = (Continue sent, r') →
  rd_end r' = rd_end r ∧
  (rd_data r ≠ [] → length (rd_data r') < length (rd_data r)) ∧
  (rd_data r = [] → rd_end r ≠ EOF).
Proof.
  intros H.
  assert (r' = (DecodePacket r).2 ∧ (DecodePacket r).1 ≠ Err EOF) as [-> Hne].
  { unfold decode_turn in H. destruct (DecodePacket r) as [[p|e|w] r'']; simpl in *;
      [destruct (rejected _ _)|destruct e|]; naive_solver. }
  split_and!.
  - apply consuming.
  - apply progressing.
  - intros Hr E. destruct r as [d e]; simpl in *; subst. by rewrite DecodePacket_empty in Hne.
Qed.

Lemma decode_loop_terminates insts r n :
  rd_end r = EOF → length (rd_data r) < n → (decode_loop n insts r).2 = true.
Proof.
  revert r. induction n as [|n IH]; intros r Hend Hlt; [lia|]. simpl.
  destruct (decode_turn insts r) as [[|sent] r'] eqn:E; [done|].
  destruct (decode_turn_continues _ _ _ _ E) as (He & Hp & Hn).
  specialize (IH r'). destruct (decode_loop n insts r') as [q d]. simpl in *.
  apply IH; [congruence|].
  destruct (decide (rd_data r = [])) as [Hnil|Hr]; [by destruct Hn|].
  specialize (Hp Hr). lia.
Qed.
End loop.

(** ** Fragmented packets (protocol 1) *)

Record fragment : Type := mkFragment {
  fr_Curr : Z; fr_Last : Z; fr_Sequence : Z; fr_Payload : list byte; fr_Sum : Z;
}.

Definition fragment_wf (f : fragment) : Prop :=
  in_width 16 (fr_Curr f) ∧ in_width 16 (fr_Last f) ∧ in_width 16 (fr_Sequence f) ∧
  in_width 32 (Z.of_nat (length (fr_Payload f))) ∧ in_width 16 (fr_Sum f).

#[global] Instance fragment_wf_dec f : Decision (fragment_wf f).
Proof. unfold fragment_wf. apply _. Defined.

Definition fragment_bytes (f : fragment) : list byte :=
  put_uint BigEndian 2 (fr_Curr f) ++ put_uint BigEndian 2 (fr_Last f) ++
  wire_body (fr_Sequence f) (fr_Payload f) (fr_Sum f).

#[global] Arguments fragment_bytes _ : simpl never.

Definition fragment_packet (f : fragment) : Packet :=
  mkPacket 0 0 0 (fr_Sequence f) (Z.of_nat (length (fr_Payload f))) (fr_Payload f)
    (fr_Sum f) (fr_Curr f) (fr_Last f).

(** What follows the first preamble: the fragments [fs], then [final], each
    after the first behind a preamble of its own. *)
Fixpoint fragments_tail (prefix : Z) (fs : list fragment) (final : fragment) : list byte :=
  match fs with
  | [] => fragment_bytes final
  | f :: fs => fragment_bytes f ++ wire_preamble prefix ++ fragments_tail prefix fs final
  end.

Definition fragments_bytes (prefix : Z) (fs : list fragment) (final : fragment) : list byte :=
  wire_preamble prefix ++ fragments_tail prefix fs final.

Lemma readFragment_ok f rest e :
  fragment_wf f →
  readFragment new_Packet (Reader (fragment_bytes f ++ rest) e) =
  (Ok (bool_decide (fr_Curr f = fr_Last f), fragment_packet f), Reader rest e).
Proof.
  intros (Hc & Hl & Hs & Hp & Hsum). unfold readFragment, fragment_bytes. rewrite <-!app_assoc.
  erewrite rd_bind_ok by (by apply ReadUint_put).
  erewrite rd_bind_ok by (by apply ReadUint_put).
  by erewrite rd_bind_ok by (by apply readPacket_ok).
Qed.

Lemma length_fragment_bytes f : length (fragment_bytes f) = 12 + length (fr_Payload f).
Proof. unfold fragment_bytes, wire_body. autorewrite with lengths. lia. Qed.
#[export] Hint Rewrite length_fragment_bytes : lengths.

Lemma fragments_tail_length prefix fs final :
  length fs < length (fragments_tail prefix fs final).
Proof.
  induction fs as [|f fs IH]; cbn [fragments_tail]; autorewrite with lengths; cbn [length]; lia.
Qed.

Lemma read_fragments_ok fuel prefix ps fs final rest e :
  in_width 16 prefix → length fs < fuel →
  Forall (λ f, fragment_wf f ∧ fr_Curr f ≠ fr_Last f) fs →
  fragment_wf final → fr_Curr final = fr_Last final →
  read_fragments fuel prefix ps (Reader (fragments_tail prefix fs final ++ rest) e) =
  (Ok (ps ++ map fragment_packet (fs ++ [final]), fragment_packet final), Reader rest e).
Proof.
  intros Hpre Hfuel Hfs Hfin Hlast. revert fuel ps Hfuel.
  induction Hfs as [|f fs [Hf Hne] Hfs IH]; intros [|fuel] ps Hfuel; cbn [length] in Hfuel; [lia| |lia|];
    cbn [read_fragments fragments_tail app map].
  - erewrite rd_bind_ok by (by apply readFragment_ok). by rewrite bool_decide_true.
  - rewrite <-!app_assoc. erewrite rd_bind_ok by (by apply readFragment_ok).
    rewrite bool_decide_false by done.
    erewrite rd_bind_ok by (by apply readPreamble_ok).
    rewrite decide_False by (by intros []). rewrite IH by lia. by rewrite <-app_assoc.
Qed.

(** Fragments that are never final use the whole stream up and end with the
    stream's own error. *)
Lemma read_fragments_never_final fuel prefix ps f fs e :
  in_width 16 prefix → length fs < fuel →
  Forall (λ f, fragment_wf f ∧ fr_Curr f ≠ fr_Last f) (f :: fs) →
  read_fragments fuel prefix ps
    (Reader (fragment_bytes f ++ concat (map (λ f, wire_preamble prefix ++ fragment_bytes f) fs)) e) =
  (Err e, Reader [] e).
Proof.
  intros Hpre. revert fuel ps f. induction fs as [|g fs IH];
    intros [|fuel] ps f Hfuel [[Hf Hne] Hfs]%Forall_cons; cbn [length] in Hfuel; [lia| |lia|];
    cbn [read_fragments concat map].
  - erewrite rd_bind_ok by (by apply readFragment_ok). rewrite bool_decide_false by done.
    apply rd_bind_err. unfold readPreamble. apply rd_bind_err, ReadUint_empty. lia.
  - erewrite rd_bind_ok by (by apply readFragment_ok). rewrite bool_decide_false by done.
    rewrite <-!app_assoc. erewrite rd_bind_ok by (by apply readPreamble_ok).
    rewrite decide_False by (by intros []). apply IH; [lia|done].
Qed.

Section fragments.
Context {sorter : SliceSorter}.

Definition v2_prefix (version instance : Z) : Z := prefix_of HadockVersion2 version instance.

Lemma DecodePacket_v2 version instance rest e :
  in_width 4 version → in_width 8 instance →
  DecodePacket (Reader (wire_preamble (v2_prefix version instance) ++ rest) e) =
  match read_fragments (S (length rest)) (v2_prefix version instance) [] (Reader rest e) with
  | (Ok (ps, v), r') => (Ok (mkPacket HadockVersion2 version instance (pkt_Sequence v) (pkt_Length v)
       (concat (map pkt_Payload (sort_slice pkt_Curr ps))) 0 0 0), r')
  | (Err e', r') => (Err e', r')
  | (Panic w, r') => (Panic w, r')
  end.
Proof.
  intros Hv Hi.
  assert (in_width 4 HadockVersion2) as Hp by (vm_compute; split; congruence).
  unfold v2_prefix. rewrite DecodePacket_prefix by (by apply prefix_width).
  by destruct (prefix_fields _ _ _ Hp Hv Hi) as (-> & -> & ->).
Qed.

Lemma DecodePacket_fragments version instance fs final rest e :
  in_width 4 version → in_width 8 instance →
  Forall (λ f, fragment_wf f ∧ fr_Curr f ≠ fr_Last f) fs →
  fragment_wf final → fr_Curr final = fr_Last final →
  DecodePacket (Reader (fragments_bytes (v2_prefix version instance) fs final ++ rest) e) =
  (Ok (mkPacket HadockVersion2 version instance (fr_Sequence final)
        (Z.of_nat (length (fr_Payload final)))
        (concat (map pkt_Payload (sort_slice pkt_Curr (map fragment_packet (fs ++ [final])))))
        0 0 0), Reader rest e).
Proof.
  intros Hv Hi Hfs Hfin Hlast. unfold fragments_bytes. rewrite <-app_assoc.
  rewrite DecodePacket_v2 by done.
  pose proof (fragments_tail_length (v2_prefix version instance) fs final).
  rewrite read_fragments_ok; [done|..|done|done|done].
  - by apply prefix_width; [vm_compute; split; congruence|..].
  - autorewrite with lengths. lia.
Qed.

(** Sorting fragments with distinct numbers restores the order of their
    numbers, whatever the order of arrival. *)
Lemma sorted_payloads gs fs :
  StronglySorted (λ f g, fr_Curr f < fr_Curr g)%Z gs → fs ≡ₚ gs →
  concat (map pkt_Payload (sort_slice pkt_Curr (map fragment_packet fs))) =
  concat (map fr_Payload gs).
Proof.
  intros Hs Hperm.
  assert (StronglySorted (λ p q, pkt_Curr p < pkt_Curr q)%Z (map fragment_packet gs)) as Hs'.
  { clear Hperm. induction Hs as [|g gs Hs IH Hg]; simpl; constructor; [done|].
    by apply Forall_map. }
  rewrite <-(sort_slice_unique pkt_Curr (map fragment_packet gs)).
  - rewrite sort_slice_id by done. f_equal. rewrite map_map. by apply map_ext.
  - by apply Permutation_map.
  - clear Hperm Hs. remember (map fragment_packet gs) as l eqn:E. clear E.
    induction Hs' as [|p l Hs IH Hp]; csimpl; constructor; [|done].
    intros (q & Hq & Hin)%list_elem_of_fmap.
    rewrite Forall_forall in Hp. specialize (Hp _ Hin). lia.
Qed.
End fragments.

(** ** Encoding then decoding *)

Lemma put_uint_2 v : put_uint BigEndian 2 v = [byte_of (v / 256); byte_of v].
Proof. done. Qed.

Lemma byte_of_wrap z z' : wrap 8 z = wrap 8 z' → byte_of z = byte_of z'.
Proof. unfold byte_of. by intros ->. Qed.

(** The encoder writes the wire format without its preamble. *)
Lemma EncodePacket_wire p bs :
  Packet_wf p → EncodePacket p = Ok bs → put_uint BigEndian 4 Preamble ++ bs = wire_packet p.
Proof.
  intros (Hpr & Hv & Hi & Hs & Hl & Hlen & Hsum & Hc & Hla). unfold EncodePacket.
  case_decide as Hv0; [done|]. intros [= <-].
  unfold wire_packet, wire_preamble, wire_body, u8, u16, u32.
  rewrite !binary_Write_scalar, <-!app_assoc. f_equal. rewrite put_uint_2.
  rewrite <-Hlen, Hv0, Hpr. unfold HadockVersion1, prefix_of. simpl Z.lor. simpl.
  f_equal. apply byte_of_wrap. rewrite Z.div_small; [done|].
  unfold in_width in Hi. by change (2 ^ 8)%Z with 256%Z in Hi.
Qed.


Definition sample_packet (instance : Z) (payload : list byte) : Packet :=
  mkPacket HadockVersion1 0 instance 7 (Z.of_nat (length payload)) payload 0x1234 0 0.


(** Fact: what [EncodePacket] returns carries no preamble, and its first byte
    (protocol and version 0) can never start one, so the program's own decoder
    skips every packet its encoder writes. *)
Theorem EncodePacket_skipped {sorter : SliceSorter} p bs rest e :
  EncodePacket p = Ok bs →
  DecodePacket (Reader (bs ++ rest) e) = (Err ErrSkip, Reader (drop 4 bs ++ rest) e).
Proof.
  intros Hbs. pose proof Hbs as He. unfold EncodePacket in He.
  case_decide as Hv0; [done|]. injection He as He.
  unfold u8, u16, u32 in He. rewrite !binary_Write_scalar, Hv0, Z.lor_0_r in He.
  assert (∃ a w, bs = a :: w ∧ 3 ≤ length w ∧ byte_val a ≠ 0xf8%Z) as (a & w & -> & Hw & Ha).
  { eexists _, _. split; [symmetry; exact He|]. split.
    - autorewrite with lengths. simpl. lia.
    - rewrite byte_val_of. unfold wrap. rewrite Z.shiftl_mul_pow2 by lia.
      change (2 ^ 8)%Z with 256%Z. change (2 ^ 4)%Z with 16%Z. rewrite Z.mod_mod by lia.
      pose proof (Z.div_mod (pkt_Protocol p * 16) 256). lia. }
  clear He Hbs. rewrite <-(take_drop 3 w). simpl drop.
  assert (length (take 3 w) = 3) as Ht by (rewrite length_take; lia).
  change (a :: take 3 w ++ drop 3 w) with ((a :: take 3 w) ++ drop 3 w).
  rewrite <-app_assoc, DecodePacket_skip; [|simpl; by rewrite Ht|].
  { by rewrite (drop_app_len (take 3 w)). }
  destruct (take 3 w) as [|b [|c [|d [|]]]]; simplify_eq/=.
  unfold get_uint. simpl. pose proof (byte_val_range a). pose proof (byte_val_range b).
  pose proof (byte_val_range c). pose proof (byte_val_range d).
  unfold Preamble. change 0xf8%Z with 248%Z in Ha. lia.
Qed.

Lemma EncodePacket_skipped_witness :
  ∃ bs, EncodePacket (sample_packet 1 [x41]) = Ok bs ∧
    DecodePacket (Reader (bs ++ []) EOF) = (Err ErrSkip, Reader (drop 4 bs ++ []) EOF).
Proof. eexists. split; [reflexivity|]. apply (EncodePacket_skipped (sample_packet 1 [x41])). reflexivity. Defined.

(** ** Decoding a connection *)

Lemma decode_stream {sorter : SliceSorter} cs insts n :
  Forall chunk_wf cs →
  DecodeBinaryPackets (length cs + S n) (Reader (concat (map chunk_bytes cs)) EOF) insts =
  (filter (λ p, insts = [] ∨ pkt_Instance p ∈ insts) (chunk_packets cs), true).
Proof.
  intros Hcs. unfold DecodeBinaryPackets.
  rewrite <-(app_nil_r (concat (map chunk_bytes cs))), decode_loop_chunks by done.
  by rewrite decode_loop_end, app_nil_r, filter_allowed.
Qed.

(** C13: a connection that carries packets, junk words between them, and then
    closes: the goroutine sends exactly the packets of the wanted instances,
    in order, and returns. *)
Theorem DecodeBinaryPackets_stream {sorter : SliceSorter} cs insts :
  Forall chunk_wf cs →
  DecodeBinaryPackets (length cs + 1) (Reader (concat (map chunk_bytes cs)) EOF) insts =
  (filter (λ p, insts = [] ∨ pkt_Instance p ∈ insts) (chunk_packets cs), true).
Proof. apply (decode_stream cs insts 0). Qed.

Lemma DecodeBinaryPackets_stream_witness :
  let a := sample_packet 255 [x01] in
  let b := sample_packet 1 [x02; x03] in
  let cs := [Wire a; Junk [x00; x00; x00; x01]; Wire b] in
  DecodeBinaryPackets 4 (Reader (concat (map chunk_bytes cs)) EOF) [2; 1]%Z = ([b], true).
Proof.
  intros a b cs. rewrite (DecodeBinaryPackets_stream cs [2; 1]%Z); [reflexivity|].
  compute_decide.
Defined.

(** C27: whatever bytes a connection carries, once it is closed the goroutine
    returns after at most one turn per byte left, and one more. *)
Theorem DecodeBinaryPackets_terminates {sorter : SliceSorter} data insts n :
  length data < n → (DecodeBinaryPackets n (Reader data EOF) insts).2 = true.
Proof. intros. by apply decode_loop_terminates. Qed.

Lemma DecodeBinaryPackets_terminates_witness :
  (DecodeBinaryPackets 4 (Reader [xf8; x2e; x35] EOF) []).2 = true.
Proof. apply DecodeBinaryPackets_terminates. simpl. lia. Defined.

(** Fact: when the connection breaks with any error but [EOF], the goroutine has
    sent the packets that came before and then never returns: it is still
    turning after any number of further turns, on an error that never ends. *)
Theorem DecodeBinaryPackets_broken {sorter : SliceSorter} cs insts what n :
  Forall chunk_wf cs →
  DecodeBinaryPackets (length cs + n) (Reader (concat (map chunk_bytes cs)) (ErrExternal what)) insts =
  (filter (λ p, insts = [] ∨ pkt_Instance p ∈ insts) (chunk_packets cs), false).
Proof.
  intros Hcs. unfold DecodeBinaryPackets.
  rewrite <-(app_nil_r (concat (map chunk_bytes cs))), decode_loop_chunks by done.
  by rewrite decode_loop_broken, app_nil_r, filter_allowed.
Qed.

Lemma DecodeBinaryPackets_broken_witness :
  let a := sample_packet 0 [x01] in
  DecodeBinaryPackets 1001 (Reader (wire_packet a ++ []) (ErrExternal "connection reset by peer")) [] = ([a], false).
Proof.
  intros a. apply (DecodeBinaryPackets_broken [Wire a] [] "connection reset by peer" 1000).
  compute_decide.
Defined.

(** C28: the fragments of a packet, the final one last and the others in any
    order of arrival, give one packet whose payload is the fragments' payloads
    in the order of their numbers. *)
Theorem DecodePacket_reassembles {sorter : SliceSorter} version instance fs final gs rest e :
  in_width 4 version → in_width 8 instance →
  Forall fragment_wf (fs ++ [final]) →
  Forall (λ f, fr_Curr f ≠ fr_Last f) fs → fr_Curr final = fr_Last final →
  fs ++ [final] ≡ₚ gs → StronglySorted (λ f g, fr_Curr f < fr_Curr g)%Z gs →
  DecodePacket (Reader (fragments_bytes (v2_prefix version instance) fs final ++ rest) e) =
  (Ok (mkPacket HadockVersion2 version instance (fr_Sequence final)
        (Z.of_nat (length (fr_Payload final))) (concat (map fr_Payload gs)) 0 0 0), Reader rest e).
Proof.
  intros Hv Hi [Hfs Hfin]%Forall_app Hne Hlast Hperm Hsort. rewrite Forall_singleton in Hfin.
  rewrite DecodePacket_fragments; [|done|done|by rewrite Forall_and|done|done].
  by rewrite (sorted_payloads gs).
Qed.

Definition sample_fragment (curr last : Z) (payload : list byte) : fragment :=
  mkFragment curr last 9 payload 0.

Lemma DecodePacket_reassembles_witness :
  let f0 := sample_fragment 0 2 [x41] in
  let f1 := sample_fragment 1 2 [x42; x43] in
  let f2 := sample_fragment 2 2 [x44] in
  DecodePacket (Reader (fragments_bytes (v2_prefix 2 255) [f1; f0] f2 ++ []) EOF) =
  (Ok (mkPacket HadockVersion2 2 255 9 1 [x41; x42; x43; x44] 0 0 0), Reader [] EOF).
Proof.
  intros f0 f1 f2. apply (DecodePacket_reassembles 2 255 [f1; f0] f2 [f0; f1; f2]).
  - compute_decide.
  - compute_decide.
  - compute_decide.
  - compute_decide.
  - reflexivity.
  - apply Permutation_swap.
  - compute_decide.
Defined.

(** ** Modules *)

(** What each module returns, run in the world the ones before it left. *)
Fixpoint module_results {W P} (ms : list (Module_ W P)) (i : Z) (p : P) (w : W) : list (result ()) :=
  match ms with
  | [] => []
  | m :: ms => (m i p w).1 :: module_results ms i p (m i p w).2
  end.

Definition returns {A} (r : result A) : Prop := match r with Panic _ => False | _ => True end.

Lemma multiModule_Process_spec {W P} (ms : list (Module_ W P)) err i p w :
  Forall returns (module_results ms i p w) →
  multiModule_Process ms err i p w =
  (match match err with Some e => Some e | None => head (omap err_of (module_results ms i p w)) end with
   | Some e => Err e
   | None => Ok ()
   end,
   foldl (λ w m, (m i p w).2) w ms).
Proof.
  revert err w. induction ms as [|m ms IH]; intros err w; simpl; [by destruct err|].
  destruct (m i p w) as [[[]|e|why] w'] eqn:E; cbn [fst snd]; intros [Hm Hms]%Forall_cons; [|..|done].
  - by rewrite IH.
  - rewrite IH by done. by destruct err.
Qed.

(** Fact: a multi-module runs every module, also after one failed, each in the
    world the one before left, and returns the first error of all of them
    (none when no module fails); a panic ends it there. *)
Theorem Process_runs_all {W P} (ms ms' : list (Module_ W P)) m i p w :
  Forall returns (module_results ms i p w) →
  let w' := foldl (λ w m, (m i p w).2) w ms in
  Process ms i p w =
    (match head (omap err_of (module_results ms i p w)) with Some e => Err e | None => Ok () end, w') ∧
  ∀ why, (m i p w').1 = Panic why → Process (ms ++ m :: ms') i p w = (Panic why, (m i p w').2).
Proof.
  intros Hms. cbv zeta. split; [by apply (multiModule_Process_spec ms None)|]. unfold Process.
  generalize (@None error). revert w Hms.
  induction ms as [|m1 ms IH]; intros w Hms err why; simpl.
  - destruct (m i p w) as [[]]; by intros [= ->].
  - cbn [module_results] in Hms. apply Forall_cons in Hms as [H1 Hms].
    destruct (m1 i p w) as [[[]|e|y] w1] eqn:E; cbn [fst snd] in *; [by apply IH..|done].
Qed.
