(* ===== verification/Replay.v ===== *)
(** * Replay: the client side of the protocol (src/cmd/hadock/replay.go)

    [replay] sends the packets of an archive to a broker, whole (protocol 0)
    or cut into fragments (protocol 1), with a 16-bit counter as sequence.
    The checksum [sum.Sum1071Bis] is third-party code: a parameter of the
    section, of which only the 16-bit result is used. *)

From S2P Require Import Prelude Bytes SortSearch Proto.
From Stdlib Require Import ZArith Lia.

Record replay : Type := mkReplay {
  rp_size : Z;      (* int *)
  rp_counter : Z;   (* uint16 *)
  rp_version : Z;   (* uint16 *)
}.

(** [Replay(a, s, t, m, z)] once the connection is made. *)
Definition Replay (s t m : Z) : replay :=
  let p := if decide (s ≤ 0)%Z then HadockVersion1 else HadockVersion2 in
  mkReplay s 0
    (Z.lor (Z.lor (wrap 16 (Z.shiftl (wrap 16 p) 12)) (wrap 16 (Z.shiftl (wrap 16 t) 8))) (wrap 16 m)).

Section replay.
Context (Sum1071Bis : list byte → Z).

Definition preparePacketV1 (r : replay) (bs : list byte) : list byte :=
  let digest :=
    binary_Write BigEndian (u32 Preamble) ++
    binary_Write BigEndian (u16 (rp_version r)) ++
    binary_Write BigEndian (u16 (rp_counter r)) ++
    binary_Write BigEndian (u32 (wrap 32 (Z.of_nat (length bs)))) ++
    bs in
  digest ++ binary_Write BigEndian (u16 (Sum1071Bis digest)).

(** One fragment: [re.Next(r.size)], its header and its checksum. *)
Definition fragmentV2 (r : replay) (c i : Z) (vs : list byte) : list byte :=
  binary_Write BigEndian (u32 Preamble) ++
  binary_Write BigEndian (u16 (rp_version r)) ++
  binary_Write BigEndian (u16 (wrap 16 i)) ++
  binary_Write BigEndian (u16 (wrap 16 c)) ++
  binary_Write BigEndian (u16 (rp_counter r)) ++
  binary_Write BigEndian (u32 (wrap 32 (Z.of_nat (length vs)))) ++
  vs ++
  binary_Write BigEndian (u16 (Sum1071Bis vs)).

(** The loop [for i := 0; re.Len() > 0; i++]; every turn takes at least one
    byte when [0 < size], the only case [writePacket] calls it in. *)
Fixpoint preparePacketV2_loop (fuel : nat) (r : replay) (c i : Z) (re : list byte) : list (list byte) :=
  match fuel with
  | O => []
  | S fuel =>
      if decide (re = []) then []
      else
        fragmentV2 r c i (take (Z.to_nat (rp_size r)) re) ::
        preparePacketV2_loop fuel r c (i + 1) (drop (Z.to_nat (rp_size r)) re)
  end.

Definition preparePacketV2 (r : replay) (bs : list byte) : list (list byte) :=
  let c := (Z.of_nat (length bs) / rp_size r)%Z in
  preparePacketV2_loop (length bs) r c 0 bs.


(** The connection: a world, and [io.Copy] into it, which reports the bytes
    it wrote and an error. *)
Section writer.
Context {W : Type} (Copy : list byte → W → (Z * option error) * W).

(** [total] is declared inside the loop, so an error reports only the
    bytes of the reader it happened in. *)
Fixpoint write_fragments (n : Z) (ws : list (list byte)) (w : W) : (Z * option error) * W :=
  match ws with
  | [] => ((n, None), w)
  | x :: ws =>
      let total := 0%Z in
      match Copy x w with
      | ((c, Some err), w) => (((total + c)%Z, Some err), w)
      | ((c, None), w) => write_fragments n ws w
      end
  end.

Definition writePacket (r : replay) (bs : list byte) (w : W) : (Z * option error) * W :=
  if decide (rp_size r ≤ 0)%Z then
    let '((_, err), w) := Copy (preparePacketV1 r bs) w in ((Z.of_nat (length bs), err), w)
  else write_fragments (Z.of_nat (length bs)) (preparePacketV2 r bs) w.

(** [Write] increments the counter when it returns, on an error too. *)
Definition replay_Write (r : replay) (bs : list byte) (w : W) : ((Z * option error) * W) * replay :=
  (writePacket r bs w, mkReplay (rp_size r) (wrap 16 (rp_counter r + 1)) (rp_version r)).
End writer.
End replay.

(** ** The version word *)

Lemma lor_shifted a b n :
  (0 ≤ n)%Z → (0 ≤ b < 2 ^ n)%Z → Z.lor (a * 2 ^ n) b = (a * 2 ^ n + b)%Z.
Proof.
  intros Hn Hb. rewrite <-Z.add_lor_land.
  assert (Z.land (a * 2 ^ n) b = 0)%Z as ->; [|lia].
  rewrite <-(Z.mod_small b (2 ^ n)), <-Z.land_ones, (Z.land_comm b), Z.land_assoc by done.
  by rewrite Z.land_ones, Z_mod_mult, Z.land_0_l by done.
Qed.

Lemma Replay_version s t m :
  in_width 4 t → in_width 8 m →
  rp_version (Replay s t m) =
  prefix_of (if decide (s ≤ 0)%Z then HadockVersion1 else HadockVersion2) t m.
Proof.
  unfold in_width, Replay, prefix_of. intros Ht Hm. simpl rp_version.
  set (p := if decide (s ≤ 0)%Z then HadockVersion1 else HadockVersion2).
  assert (0 ≤ p < 2)%Z as Hp by (unfold p; case_decide; vm_compute; split; congruence).
  rewrite !Z.shiftl_mul_pow2 by lia. rewrite (wrap_small 16 p), (wrap_small 16 t) by width_lia.
  rewrite (wrap_small 16 (p * _)), (wrap_small 16 (t * _)), (wrap_small 16 m) by width_lia.
  replace (p * 2 ^ 12)%Z with ((p * 2 ^ 4) * 2 ^ 8)%Z by lia.
  rewrite <-Z.lor_assoc, (lor_shifted t m) by lia.
  replace ((p * 2 ^ 4) * 2 ^ 8)%Z with (p * 2 ^ 12)%Z by lia.
  rewrite lor_shifted by lia. lia.
Qed.

(** ** Fragments *)

Section roundtrip.
Context {sorter : SliceSorter} (Sum1071Bis : list byte → Z).

(** The fragments behind the readers of [preparePacketV2]. *)
Definition make_fragment (r : replay) (c i : Z) (vs : list byte) : fragment :=
  mkFragment (wrap 16 i) (wrap 16 c) (rp_counter r) vs (wrap 16 (Sum1071Bis vs)).

Fixpoint make_fragments (fuel : nat) (r : replay) (c i : Z) (re : list byte) : list fragment :=
  match fuel with
  | O => []
  | S fuel =>
      if decide (re = []) then []
      else make_fragment r c i (take (Z.to_nat (rp_size r)) re) ::
        make_fragments fuel r c (i + 1) (drop (Z.to_nat (rp_size r)) re)
  end.

Lemma fragmentV2_bytes r c i vs :
  in_width 32 (Z.of_nat (length vs)) →
  fragmentV2 Sum1071Bis r c i vs =
  wire_preamble (rp_version r) ++ fragment_bytes (make_fragment r c i vs).
Proof.
  intros Hl. unfold fragmentV2, wire_preamble, fragment_bytes, wire_body, u16, u32. simpl fr_Sum.
  rewrite (put_uint_wrap BigEndian 2), !binary_Write_scalar, (wrap_small 32) by done.
  by rewrite <-!app_assoc.
Qed.

Lemma preparePacketV2_fragments fuel r c i re :
  in_width 32 (Z.of_nat (length re)) →
  preparePacketV2_loop Sum1071Bis fuel r c i re =
  map (λ f, wire_preamble (rp_version r) ++ fragment_bytes f) (make_fragments fuel r c i re).
Proof.
  revert i re. induction fuel as [|fuel IH]; intros i re Hl; simpl; [done|].
  case_decide; [done|]. cbn [map]. rewrite fragmentV2_bytes, IH; [done|..];
    rewrite ?length_drop, ?length_take; width_lia.
Qed.

Lemma make_fragments_wf fuel r c i re :
  in_width 32 (Z.of_nat (length re)) → in_width 16 (rp_counter r) →
  Forall fragment_wf (make_fragments fuel r c i re).
Proof.
  intros Hl Hc. revert i re Hl. induction fuel as [|fuel IH]; intros i re Hl; simpl; [done|].
  case_decide; [done|]. constructor.
  - unfold fragment_wf, make_fragment; simpl. split_and!; auto; try (by apply wrap_range).
    rewrite length_take. width_lia.
  - apply IH. rewrite length_drop. width_lia.
Qed.

Lemma make_fragments_sequence fuel r c i re :
  Forall (λ f, fr_Sequence f = rp_counter r) (make_fragments fuel r c i re).
Proof.
  revert i re. induction fuel as [|fuel IH]; intros i re; simpl; [done|].
  case_decide; [done|]. by constructor.
Qed.

Lemma make_fragments_payload fuel r c i re :
  (0 < rp_size r)%Z → length re ≤ fuel →
  concat (map fr_Payload (make_fragments fuel r c i re)) = re.
Proof.
  intros Hsz. revert i re. induction fuel as [|fuel IH]; intros i re Hl; simpl.
  { by destruct re; [|simpl in Hl; lia]. }
  case_decide as Hre; [done|]. simpl. rewrite IH, take_drop; [done|].
  rewrite length_drop. destruct re; [done|]. simpl in *. lia.
Qed.

(** The numbering: fragment [i] onwards, all below [c] but possibly the last. *)
Lemma make_fragments_numbers fuel r c i re :
  (0 < rp_size r)%Z → length re ≤ fuel → (0 ≤ i)%Z → in_width 16 c →
  c = ((i * rp_size r + Z.of_nat (length re)) / rp_size r)%Z →
  let m := ((i * rp_size r + Z.of_nat (length re)) mod rp_size r)%Z in
  let fs := make_fragments fuel r c i re in
  Forall (λ f, i ≤ fr_Curr f ∧ fr_Last f = c)%Z fs ∧
  StronglySorted (λ f g, fr_Curr f < fr_Curr g)%Z fs ∧
  (m = 0%Z → Forall (λ f, fr_Curr f < c)%Z fs) ∧
  (m ≠ 0%Z → re ≠ [] → ∃ fs' final, fs = fs' ++ [final] ∧
     fr_Curr final = c ∧ Z.of_nat (length (fr_Payload final)) = m ∧ Forall (λ f, fr_Curr f < c)%Z fs').
Proof.
  intros Hsz. revert i re. induction fuel as [|fuel IH]; intros i re Hl Hi Hc Hceq; cbv zeta; simpl.
  { destruct re; [|simpl in Hl; lia]. split_and!; [done|constructor|done|done]. }
  case_decide as Hre; [split_and!; [done|constructor|done|done]|].
  set (n := rp_size r) in *. set (L := Z.of_nat (length re)) in *.
  assert (0 < L)%Z as HL by (unfold L; destruct re; simpl; [done|lia]).
  assert (c = i + L / n)%Z as Hci by (by rewrite Hceq, Z.div_add_l by lia).
  assert ((i * n + L) mod n = L mod n)%Z as Hm by (by rewrite Z.add_comm, Z_mod_plus_full).
  pose proof (Z.div_pos L n) as Hdp. pose proof (Z.div_mod L n) as Hdm. pose proof (Z.mod_pos_bound L n) as Hmb.
  assert (wrap 16 i = i) as Hwi by (apply wrap_small; width_lia).
  assert (wrap 16 c = c) as Hwc by (by apply wrap_small).
  rewrite Hm. destruct (decide (L ≤ n)%Z) as [Hle|Hgt].
  - assert (drop (Z.to_nat n) re = []) as -> by (apply drop_ge; lia).
    assert (make_fragments fuel r c (i + 1) [] = []) as -> by (by destruct fuel).
    assert (L mod n ≠ 0 → c = i ∧ L mod n = L)%Z as Hlast.
    { intros Hne. destruct (decide (L = n)) as [->|]; [by rewrite Z_mod_same_full in Hne|].
      rewrite Hci, Z.div_small, Z.mod_small; lia. }
    split_and!.
    + constructor; [|done]. simpl. rewrite Hwi, Hwc. lia.
    + repeat constructor.
    + intros H0. constructor; [|done]. simpl. rewrite Hwi.
      assert (1 ≤ L / n)%Z; [|lia]. apply Z.div_le_lower_bound; [lia|].
      destruct (decide (L = n)); [lia|]. rewrite Z.mod_small in H0; lia.
    + intros H0 _. eexists [], _. split; [done|]. simpl. rewrite Hwi.
      destruct (Hlast H0) as [-> ->]. split_and!; [done| |done]. rewrite take_ge by lia. done.
  - destruct (IH (i + 1)%Z (drop (Z.to_nat n) re)) as (Hcur & Hsort & Hz & Hnz);
      [rewrite length_drop; lia|lia|done| |].
    { rewrite Hceq, length_drop. f_equal. lia. }
    assert (((i + 1) * n + Z.of_nat (length (drop (Z.to_nat n) re))) mod n = L mod n)%Z as Hm'.
    { rewrite <-Hm, length_drop. f_equal. lia. }
    fold n in Hz, Hnz. rewrite Hm' in Hz, Hnz.
    assert (1 ≤ L / n)%Z by (apply Z.div_le_lower_bound; lia).
    split_and!.
    + constructor; [simpl; rewrite Hwi, Hwc; lia|]. eapply Forall_impl; [exact Hcur|]. simpl; lia.
    + constructor; [done|]. eapply Forall_impl; [exact Hcur|]. simpl. rewrite Hwi. lia.
    + intros H0. constructor; [simpl; rewrite Hwi; lia|auto].
    + intros H0 _. destruct Hnz as (fs' & final & -> & Hfin & Hlen & Hfs'); [done| |].
      { intros E. apply (f_equal length) in E. rewrite length_drop in E. simpl in E. lia. }
      eexists (_ :: fs'), final. split_and!; [done..|].
      constructor; [simpl; rewrite Hwi; lia|done].
Qed.

(** The bytes of a list of fragments, each behind its preamble. *)
Lemma concat_fragments prefix fs final :
  concat (map (λ f, wire_preamble prefix ++ fragment_bytes f) (fs ++ [final])) =
  fragments_bytes prefix fs final.
Proof.
  unfold fragments_bytes. induction fs as [|f fs IH]; cbn [app map concat fragments_tail].
  - by rewrite app_nil_r.
  - by rewrite IH, <-app_assoc.
Qed.

(** [r] is a replay made by [Replay s t m], after some packets. *)
Definition replay_of (s t m : Z) (r : replay) : Prop :=
  rp_size r = s ∧ rp_version r = rp_version (Replay s t m) ∧ in_width 16 (rp_counter r).

#[global] Instance replay_of_dec s t m r : Decision (replay_of s t m r).
Proof. unfold replay_of. apply _. Defined.

Lemma v1_bytes r bs :
  in_width 32 (Z.of_nat (length bs)) →
  ∃ sum, in_width 16 sum ∧
    preparePacketV1 Sum1071Bis r bs = wire_preamble (rp_version r) ++ wire_body (rp_counter r) bs sum.
Proof.
  intros Hl. unfold preparePacketV1. set (digest := _ ++ _ ++ _ ++ _ ++ bs).
  exists (wrap 16 (Sum1071Bis digest)). split; [by apply wrap_range|].
  unfold wire_body, wire_preamble. rewrite (put_uint_wrap BigEndian 2).
  unfold digest, u16, u32. rewrite !binary_Write_scalar, (wrap_small 32) by done.
  by rewrite <-!app_assoc.
Qed.
End roundtrip.

Lemma length_concat_ge {A B} (f : A → list B) (l : list A) :
  (∀ a, f a ≠ []) → length l ≤ length (concat (map f l)).
Proof.
  intros Hf. induction l as [|a l IH]; simpl; [done|]. rewrite length_app.
  specialize (Hf a). destruct (f a); simpl in *; [done|lia].
Qed.

(** A connection that takes every byte. *)
Definition sink (bs : list byte) (w : list byte) : (Z * option error) * list byte :=
  ((Z.of_nat (length bs), None), w ++ bs).

Lemma write_fragments_sink n ws w :
  write_fragments sink n ws w = ((n, None), w ++ concat ws).
Proof.
  revert w. induction ws as [|x ws IH]; intros w; simpl; [by rewrite app_nil_r|].
  by rewrite IH, <-app_assoc.
Qed.

(** ** What the broker decodes of what [replay] sends *)

Section properties.
Context {sorter : SliceSorter} (Sum1071Bis : list byte → Z).

(** The bytes that one [Write] puts on a connection that takes them all. *)
Definition sent (r : replay) (bs : list byte) : list byte :=
  (writePacket Sum1071Bis sink r bs []).2.

Lemma sent_v2 r bs :
  (0 < rp_size r)%Z → in_width 32 (Z.of_nat (length bs)) →
  sent r bs = concat (map (λ f, wire_preamble (rp_version r) ++ fragment_bytes f)
    (make_fragments Sum1071Bis (length bs) r (Z.of_nat (length bs) / rp_size r) 0 bs)).
Proof.
  intros Hs Hl. unfold sent, writePacket. rewrite decide_False by lia.
  rewrite write_fragments_sink. unfold preparePacketV2. by rewrite preparePacketV2_fragments.
Qed.

Lemma sent_v1_decoded s t m r bs :
  replay_of s t m r → (s ≤ 0)%Z → in_width 4 t → in_width 8 m →
  in_width 32 (Z.of_nat (length bs)) →
  ∃ sum, decodes_as (sent r bs) (mkPacket HadockVersion1 t m (rp_counter r) (Z.of_nat (length bs)) bs sum 0 0).
Proof.
  intros (Hsz & Hv & Hc) Hs Ht Hm Hl.
  destruct (v1_bytes Sum1071Bis r bs Hl) as (sum & Hsum & E). exists sum. intros rest e.
  unfold sent, writePacket. rewrite decide_True by lia. unfold sink. cbn [fst snd app].
  rewrite E, Hv, Replay_version, decide_True by done.
  apply (DecodePacket_wire (mkPacket HadockVersion1 t m (rp_counter r) _ bs sum 0 0)).
  unfold Packet_wf; simpl. by split_and!.
Qed.

Lemma sent_v2_decoded s t m r bs :
  replay_of s t m r → (0 < s)%Z → in_width 4 t → in_width 8 m →
  in_width 32 (Z.of_nat (length bs)) →
  in_width 16 (Z.of_nat (length bs) / s) → (Z.of_nat (length bs) mod s ≠ 0)%Z →
  decodes_as (sent r bs) (mkPacket HadockVersion2 t m (rp_counter r) (Z.of_nat (length bs) mod s) bs 0 0 0).
Proof.
  intros (Hsz & Hv & Hc) Hs Ht Hm Hl Hd Hmod rest e. subst s. rewrite sent_v2 by done.
  set (c := (Z.of_nat (length bs) / rp_size r)%Z) in *.
  pose proof (make_fragments_wf Sum1071Bis (length bs) r c 0 bs Hl Hc) as Hwf.
  pose proof (make_fragments_payload Sum1071Bis (length bs) r c 0 bs Hs (le_n _)) as Hpay.
  destruct (make_fragments_numbers Sum1071Bis (length bs) r c 0 bs) as (Hcur & Hsort & _ & Hnz); [done..|].
  destruct Hnz as (fs & final & E & Hfin & Hlen & Hfs); [done| |].
  { by intros ->. }
  rewrite E in *. rewrite concat_fragments, Hv, Replay_version, decide_False by (done || lia).
  apply Forall_app in Hwf as [Hwf Hwfin]. apply Forall_app in Hcur as [Hcur Hcurfin].
  rewrite Forall_singleton in Hwfin, Hcurfin. fold (v2_prefix t m).
  rewrite (DecodePacket_fragments t m fs final).
  - rewrite (sorted_payloads (fs ++ [final])), Hpay, Hlen by done. do 3 f_equal.
    pose proof (make_fragments_sequence Sum1071Bis (length bs) r c 0 bs) as Hseq.
    rewrite E in Hseq. apply Forall_app in Hseq as [_ Hseq]. by rewrite Forall_singleton in Hseq.
  - done.
  - done.
  - rewrite Forall_forall in *. intros f Hf.
    specialize (Hcur f Hf). specialize (Hfs f Hf). split; [by apply Hwf|simpl in *; lia].
  - done.
  - lia.
Qed.

(** The packets that the client can send: whole, or in fragments the last of
    which is shorter than the others. *)
Definition sendable (s : Z) (bs : list byte) : Prop :=
  in_width 32 (Z.of_nat (length bs)) ∧
  ((s ≤ 0)%Z ∨ (0 < s)%Z ∧ in_width 16 (Z.of_nat (length bs) / s) ∧ (Z.of_nat (length bs) mod s ≠ 0)%Z).

#[global] Instance sendable_dec s bs : Decision (sendable s bs).
Proof. unfold sendable. apply _. Defined.

Lemma sent_decoded s t m r bs :
  replay_of s t m r → in_width 4 t → in_width 8 m → sendable s bs →
  ∃ p, decodes_as (sent r bs) p ∧ pkt_Version p = t ∧ pkt_Instance p = m ∧
       pkt_Sequence p = rp_counter r ∧ pkt_Payload p = bs.
Proof.
  intros Hr Ht Hm [Hl [Hs|(Hs & Hd & Hmod)]].
  - destruct (sent_v1_decoded s t m r bs) as (sum & H); [done..|]. by eexists.
  - eexists. split; [by apply (sent_v2_decoded s t m)|done].
Qed.

(** Fact: a packet that [replay] sends whole is decoded by the broker to the
    same payload under the configured version and instance, with the
    replay's counter as its sequence. *)
Theorem replay_V1_decoded s t m r bs rest e :
  replay_of s t m r → (s ≤ 0)%Z → in_width 4 t → in_width 8 m →
  in_width 32 (Z.of_nat (length bs)) →
  ∃ sum, DecodePacket (Reader (sent r bs ++ rest) e) =
    (Ok (mkPacket HadockVersion1 t m (rp_counter r) (Z.of_nat (length bs)) bs sum 0 0), Reader rest e).
Proof.
  intros Hr Hs Ht Hm Hl. destruct (sent_v1_decoded s t m r bs) as (sum & H); [done..|]. exists sum. apply H.
Qed.

(** Fact: a packet that [replay] cuts into fragments, the last one shorter than
    the others, is reassembled by the broker to the same payload (with the
    length of the last fragment as its [Length]). *)
Theorem replay_V2_decoded s t m r bs rest e :
  replay_of s t m r → (0 < s)%Z → in_width 4 t → in_width 8 m →
  in_width 32 (Z.of_nat (length bs)) →
  in_width 16 (Z.of_nat (length bs) / s) → (Z.of_nat (length bs) mod s ≠ 0)%Z →
  DecodePacket (Reader (sent r bs ++ rest) e) =
  (Ok (mkPacket HadockVersion2 t m (rp_counter r) (Z.of_nat (length bs) mod s) bs 0 0 0), Reader rest e).
Proof. intros. by apply sent_v2_decoded. Qed.

End properties.

Definition sample_replay (size counter : Z) : replay :=
  mkReplay size counter (rp_version (Replay size 2 255)).

(** A 16-bit sum of the bytes, to run the section on. *)
Definition sample_sum (bs : list byte) : Z := wrap 16 (foldr (λ b s, byte_val b + s)%Z 0%Z bs).

Lemma replay_V1_decoded_witness :
  ∃ sum, DecodePacket (Reader (sent sample_sum (sample_replay 0 41) [x61; x62; x63] ++ []) EOF) =
    (Ok (mkPacket 0 2 255 41 3 [x61; x62; x63] sum 0 0), Reader [] EOF).
Proof. apply (replay_V1_decoded sample_sum 0); compute_decide. Defined.

Lemma replay_V2_decoded_witness :
  DecodePacket (Reader (sent sample_sum (sample_replay 2 41) [x61; x62; x63; x64; x65] ++ []) EOF) =
  (Ok (mkPacket 1 2 255 41 1 [x61; x62; x63; x64; x65] 0 0 0), Reader [] EOF).
Proof. apply (replay_V2_decoded sample_sum 2); compute_decide. Defined.

