(* ===== verification/Panda.v ===== *)
(** * Panda: the interface of github.com/busoc/panda

    The decoded VMU packets come from a third-party library.  A packet is
    represented by what its accessors return, one field per method the
    program calls, and by its concrete type (table or image), because the
    program dispatches on it; the library's constants and functions are a
    class that the rest of the development is parameterised by.

    Header fields that the program only copies to the wire are [fixed]
    values: whatever fixed-size type they have, their encoding is the one of
    [encoding/binary].  A [panda.Channel] is one byte (hrdp.go and the
    header lengths of the package vmu count it as one). *)

From S2P Require Import Prelude Bytes GoStd.
From Stdlib Require Import ZArith Lia.

(** ** Packets *)

Record VMUHeader : Type := mkVMUHeader {
  vh_Channel : fixed;
  vh_Source : fixed;
  vh_Sequence : Z;          (* uint32 *)
  vh_Coarse : fixed;
  vh_Fine : fixed;
  vh_Timestamp : Time;      (* Timestamp() *)
}.

Record SDHv2 : Type := mkSDHv2 {
  s2_Properties : fixed; s2_Sequence : fixed; s2_Originator : fixed;
  s2_Acquisition : fixed; s2_Auxiliary : fixed; s2_Id : fixed;
  s2_Info : list byte;      (* [32]byte *)
}.

Record IDHv2 : Type := mkIDHv2 {
  i2_Properties : fixed; i2_Sequence : fixed; i2_Originator : fixed;
  i2_Acquisition : fixed; i2_Auxiliary : fixed; i2_Id : fixed;
  i2_Type : fixed; i2_Pixels : fixed; i2_Region : fixed;
  i2_Dropping : fixed; i2_Scaling : fixed; i2_Ratio : fixed;
  i2_Info : list byte;      (* [32]byte *)
}.

(** The dynamic type of the [SDH] and [IDH] fields, with the methods of the
    interfaces [panda.Four] and [panda.Bitmap] when the value has them. *)
Inductive SDH_type : Type :=
  | IsSDHv1
  | IsSDHv2 (s : SDHv2)
  | OtherSDH.

Record SDH : Type := mkSDH {
  sdh_type : SDH_type;
  sdh_Four : option fixed;                       (* FCC() *)
}.

Inductive IDH_type : Type :=
  | IsIDHv1 (info : list byte)
  | IsIDHv2 (i : IDHv2)
  | OtherIDH.

Record IDH : Type := mkIDH {
  idh_type : IDH_type;
  idh_Bitmap : option (fixed * fixed * fixed);   (* FCC(), X(), Y() *)
}.

Record HRInfo : Type := mkHRInfo {
  hr_Version : Z;
  hr_Origin : string;
  hr_Stream : Z;                    (* panda.Channel *)
  hr_Sequence : Z;                  (* uint32 *)
  hr_IsRealtime : bool;
  hr_Timestamp : Time;
  hr_Generated : option Time;       (* when the packet has a Generated() *)
  hr_Filename : string;
  hr_Format : string;
  hr_Payload : list byte;
  hr_Export : result (list byte);
  hr_ExportRaw : result (list byte);
  hr_Bytes : result (list byte);
}.

Inductive HRPacket : Type :=
  | Table (h : HRInfo) (v : VMUHeader) (s : SDH)
  | Image (h : HRInfo) (v : VMUHeader) (i : IDH)
  | OtherPacket (h : HRInfo).

Definition info (p : HRPacket) : HRInfo :=
  match p with Table h _ _ | Image h _ _ | OtherPacket h => h end.

Definition Origin (p : HRPacket) : string := hr_Origin (info p).
Definition Stream (p : HRPacket) : Z := hr_Stream (info p).
Definition Sequence (p : HRPacket) : Z := hr_Sequence (info p).
Definition IsRealtime (p : HRPacket) : bool := hr_IsRealtime (info p).
Definition Timestamp (p : HRPacket) : Time := hr_Timestamp (info p).
Definition Filename (p : HRPacket) : string := hr_Filename (info p).
Definition Payload (p : HRPacket) : list byte := hr_Payload (info p).

(** ** Constants and functions *)
Class PandaLib : Type := {
  Video1 : Z;
  Video2 : Z;
  Science : Z;
  Channel_String : Z → string;
  VMUProtocol1 : Z;
  VMUProtocol2 : Z;
  AdjustGenerationTime : Z → Time;
  GenerationTimeFromEpoch : Z → Z;
  AcquisitionTimeFromEpoch : Z → Z;
}.

(** A concrete library, to run the examples on. *)
#[export] Instance sample_panda : PandaLib := {|
  Video1 := 1; Video2 := 2; Science := 3;
  Channel_String c := if decide (c = 1)%Z then "vic1" else if decide (c = 2)%Z then "vic2" else "lrsd";
  VMUProtocol1 := 1; VMUProtocol2 := 2;
  AdjustGenerationTime s := time_Unix 0 (s + 315964800);
  GenerationTimeFromEpoch s := ((s + 315964800) * 1000)%Z;
  AcquisitionTimeFromEpoch s := (s * 1000)%Z;
|}.

(** Concrete packets, to run the examples on. *)
Definition pad32 (s : string) : list byte :=
  take 32 (bytes_of s ++ replicate 32 Byte.x00).

Definition sample_vmu (channel : Z) : VMUHeader :=
  mkVMUHeader (u8 channel) (u8 0x51) 17 (u32 1000) (u16 5) (time_Unix 0 1262304000).

Definition sample_info (channel seq : Z) (realtime : bool) (filename : string) (payload : list byte) : HRInfo :=
  mkHRInfo 2 "51" channel seq realtime (time_Unix 0 1577836800) None filename "mma"
    payload (Ok payload) (Ok payload) (Ok payload).

Definition sample_table (upi : string) (seq : Z) (realtime : bool) (payload : list byte) : HRPacket :=
  Table (sample_info 3 seq realtime "0051_mma_1_7_20200101_000000.dat" payload) (sample_vmu 3)
    (mkSDH (IsSDHv2 (mkSDHv2 (u8 1) (u32 7) (u8 0x51) (i64 100) (i64 200) (u16 3) (pad32 upi)))
       (Some (u32 0x4d4d4120))).

Definition sample_image (upi : string) (seq : Z) (realtime : bool) (payload : list byte) : HRPacket :=
  Image (sample_info 1 seq realtime "0051_y800_1_7_20200101_000000.dat" payload) (sample_vmu 1)
    (mkIDH (IsIDHv2 (mkIDHv2 (u8 1) (u32 7) (u8 0x51) (i64 100) (i64 200) (u16 3) (u8 4)
       [Scalar 2 320; Scalar 2 240] [Scalar 2 0; Scalar 2 320; Scalar 2 0; Scalar 2 240]
       (u16 1) [Scalar 2 320; Scalar 2 240] (u8 1) (pad32 upi)))
       (Some (u32 0x59383030, u16 320, u16 240))).
