(* ===== verification/Vmu.v ===== *)
(** * Vmu: re-encoding of VMU packets (src/vmu)

    The HRDL checksum and the encoder that writes a decoded packet back as a
    VMU packet, with the HRDP header in front of it when it goes to an
    archive.  The clock and the split of a time into coarse and fine parts
    ([timutil]) are parameters. *)

From S2P Require Import Prelude Bytes GoStd Panda.
From Stdlib Require Import ZArith Lia.

(** ** Constants (vmu.go) *)

Definition HRDLMagic : Z := 0xf82e3553.
Definition FSLMagic : Z := 2.

Definition HRDPHeaderLen : Z := 14.
Definition HRDLSyncLen : Z := 8.
Definition VMUHLen : Z := 16.
Definition SDHLenV1 : Z := 8.
Definition IDHLenV1 : Z := 72.
Definition SDHLenV2 : Z := 56.
Definition IDHLenV2 : Z := 76.

(** ** The checksum (crc.go)

    The state is the running sum; [Write] adds every byte modulo 2^32. *)
Record hrdlSum : Type := mkSum { hs_sum : Z }.

Definition hrdlSum_Write (h : hrdlSum) (bs : list byte) : hrdlSum :=
  foldl (λ h b, mkSum (wrap 32 (hs_sum h + byte_val b))) h bs.

Definition hrdlSum_Sum32 (h : hrdlSum) : Z := hs_sum h.
Definition hrdlSum_Reset (h : hrdlSum) : hrdlSum := mkSum 0.
Definition hrdlSum_Size : nat := 4.
Definition hrdlSum_BlockSize : nat := 32.

(** [Sum] writes its argument to the state and returns the new sum alone. *)
Definition hrdlSum_Sum (h : hrdlSum) (bs : list byte) : list byte * hrdlSum :=
  let h := hrdlSum_Write h bs in (put_uint LittleEndian hrdlSum_Size (hs_sum h), h).

Definition SumHRDL : hrdlSum := mkSum 0.

Definition SumHRD (bs : list byte) : Z := hrdlSum_Sum32 (hrdlSum_Write SumHRDL bs).

(** ** The encoder (encode.go) *)

Section encode.
Context {panda : PandaLib}.

(** [time.Now()], the same instant as GPS time, and [timutil.Split5], which
    gives a [uint32] and a [uint8]. *)
Context (Now GPSNow : Time) (Split5 : Time → Z * Z).

Definition encodeHRDPHeader (p : HRPacket) : result (list byte) :=
  let size := (HRDPHeaderLen + HRDLSyncLen + VMUHLen + 4)%Z in
  size ← (if decide (Stream p = Science) then Ok (wrap 32 (size + SDHLenV2))
          else if decide (Stream p = Video1 ∨ Stream p = Video2) then Ok (wrap 32 (size + IDHLenV2))
          else Err (Errorf "unknown channel %d" [AInt (Stream p)]));
  let size := wrap 32 (size + wrap 32 (Z.of_nat (length (Payload p)))) in
  let acq := match hr_Generated (info p) with Some g => g | None => Now end in
  let '(fine, coarse) := Split5 acq in
  let '(fine', coarse') := Split5 GPSNow in
  Ok (binary_Write LittleEndian (u32 size) ++
      binary_Write BigEndian (u16 0) ++
      binary_Write BigEndian (u8 FSLMagic) ++
      binary_Write BigEndian (u8 (Stream p)) ++
      binary_Write BigEndian (u32 fine) ++
      binary_Write BigEndian (u8 coarse) ++
      binary_Write BigEndian (u32 fine') ++
      binary_Write BigEndian (u8 coarse')).

Definition encodeVMUHeader (v : VMUHeader) : list byte :=
  binary_Write LittleEndian (vh_Channel v) ++
  binary_Write LittleEndian (vh_Source v) ++
  binary_Write LittleEndian (u16 0) ++
  binary_Write LittleEndian (u32 (vh_Sequence v)) ++
  binary_Write LittleEndian (vh_Coarse v) ++
  binary_Write LittleEndian (vh_Fine v) ++
  binary_Write LittleEndian (u16 0).

#[global] Arguments encodeVMUHeader _ : simpl never.

(** What both encoders write around the digested bytes: the HRDL header, the
    bytes that also go to the digest, and the digest. *)
Definition encodeTable (h : HRInfo) (v : VMUHeader) (sdh : SDH) : result (list byte) :=
  let body := hr_Payload h in
  let size := wrap 32 (VMUHLen + SDHLenV2 + Z.of_nat (length body) - 4) in
  match sdh_type sdh with
  | IsSDHv2 s =>
      let digested :=
        encodeVMUHeader v ++
        binary_Write LittleEndian (s2_Properties s) ++
        binary_Write LittleEndian (s2_Sequence s) ++
        binary_Write LittleEndian (s2_Originator s) ++
        binary_Write LittleEndian (s2_Acquisition s) ++
        binary_Write LittleEndian (s2_Auxiliary s) ++
        binary_Write LittleEndian (s2_Id s) ++
        s2_Info s ++ body in
      let digest := hrdlSum_Write SumHRDL digested in
      Ok (binary_Write BigEndian (u32 HRDLMagic) ++
          binary_Write LittleEndian (u32 size) ++
          digested ++
          binary_Write LittleEndian (u32 (hrdlSum_Sum32 digest)))
  | _ => Err (Errorf "invalid SDH version" [])
  end.

Definition encodeImage (h : HRInfo) (v : VMUHeader) (idh : IDH) : result (list byte) :=
  let body := hr_Payload h in
  let size := wrap 32 (VMUHLen + SDHLenV2 + Z.of_nat (length body) - 4) in
  match idh_type idh with
  | IsIDHv2 i =>
      let digested :=
        encodeVMUHeader v ++
        binary_Write LittleEndian (i2_Properties i) ++
        binary_Write LittleEndian (i2_Sequence i) ++
        binary_Write LittleEndian (i2_Originator i) ++
        binary_Write LittleEndian (i2_Acquisition i) ++
        binary_Write LittleEndian (i2_Auxiliary i) ++
        binary_Write LittleEndian (i2_Id i) ++
        binary_Write LittleEndian (i2_Type i) ++
        binary_Write LittleEndian (i2_Pixels i) ++
        binary_Write LittleEndian (i2_Region i) ++
        binary_Write LittleEndian (i2_Dropping i) ++
        binary_Write LittleEndian (i2_Scaling i) ++
        binary_Write LittleEndian (i2_Ratio i) ++
        i2_Info i ++ body in
      let digest := hrdlSum_Write SumHRDL digested in
      Ok (binary_Write BigEndian (u32 HRDLMagic) ++
          binary_Write LittleEndian (u32 size) ++
          digested ++
          binary_Write LittleEndian (u32 (hrdlSum_Sum32 digest)))
  | _ => Err (Errorf "invalid IDH version" [])
  end.

(** Nothing is written to [ws] unless the whole packet is encoded. *)
Definition EncodePacket (p : HRPacket) (hrdp : bool) : result (list byte) :=
  header ← (if hrdp then encodeHRDPHeader p else Ok []);
  body ← match p with
         | Table h v s => encodeTable h v s
         | Image h v i => encodeImage h v i
         | OtherPacket _ => Err (Errorf "unsupported packet type %T" [])
         end;
  Ok (header ++ body).
End encode.

(** ** The checksum is the sum of the bytes *)

Definition byte_sum (bs : list byte) : Z := foldr (λ b s, byte_val b + s)%Z 0%Z bs.

Lemma byte_sum_app a b : byte_sum (a ++ b) = (byte_sum a + byte_sum b)%Z.
Proof. unfold byte_sum. induction a as [|x a IH]; simpl; [done|]. rewrite IH. lia. Qed.

Lemma hrdlSum_Write_sum bs h :
  in_width 32 (hs_sum h) → hs_sum (hrdlSum_Write h bs) = wrap 32 (hs_sum h + byte_sum bs).
Proof.
  unfold hrdlSum_Write. revert h. induction bs as [|b bs IH]; intros h Hh; simpl.
  - rewrite Z.add_0_r. by rewrite wrap_small.
  - rewrite IH by (apply wrap_range; lia). simpl. unfold wrap.
    rewrite Zplus_mod_idemp_l. f_equal. lia.
Qed.

Lemma SumHRD_sum bs : SumHRD bs = wrap 32 (byte_sum bs).
Proof. unfold SumHRD, hrdlSum_Sum32. rewrite hrdlSum_Write_sum; [done|vm_compute; split; congruence]. Qed.

(** Writing in pieces is writing at once. *)
Lemma hrdlSum_Write_app h a b : hrdlSum_Write h (a ++ b) = hrdlSum_Write (hrdlSum_Write h a) b.
Proof. unfold hrdlSum_Write. apply foldl_app. Qed.

(** C36: the HRDL checksum tells two byte strings that differ in one byte
    apart. *)
Theorem SumHRD_detects_one_byte l1 b b' l2 :
  SumHRD (l1 ++ b :: l2) = SumHRD (l1 ++ b' :: l2) ↔ b = b'.
Proof.
  split; [|by intros ->]. rewrite !SumHRD_sum, !byte_sum_app. simpl.
  intros H. apply byte_val_inj.
  pose proof (byte_val_range b). pose proof (byte_val_range b').
  unfold wrap in H. change (2 ^ 32)%Z with 4294967296%Z in H. div_lia.
Qed.

(** ** The layout of an encoded packet *)

(** The sizes the package counts on: [VMUHLen], [SDHLenV2] and [IDHLenV2] are
    the sizes of the third-party headers as they go to the wire. *)
Definition vmu_layout (v : VMUHeader) : Prop :=
  Z.of_nat (length (encodeVMUHeader v)) = VMUHLen.

Definition sdh_layout (s : SDHv2) : Prop :=
  Z.of_nat (fixed_size (s2_Properties s) + fixed_size (s2_Sequence s) + fixed_size (s2_Originator s) +
    fixed_size (s2_Acquisition s) + fixed_size (s2_Auxiliary s) + fixed_size (s2_Id s) +
    length (s2_Info s)) = SDHLenV2.

Definition idh_layout (i : IDHv2) : Prop :=
  Z.of_nat (fixed_size (i2_Properties i) + fixed_size (i2_Sequence i) + fixed_size (i2_Originator i) +
    fixed_size (i2_Acquisition i) + fixed_size (i2_Auxiliary i) + fixed_size (i2_Id i) +
    fixed_size (i2_Type i) + fixed_size (i2_Pixels i) + fixed_size (i2_Region i) +
    fixed_size (i2_Dropping i) + fixed_size (i2_Scaling i) + fixed_size (i2_Ratio i) +
    length (i2_Info i)) = IDHLenV2.

(** A version 2 packet on a channel of its type. *)
Definition packet_layout `{PandaLib} (p : HRPacket) : Prop :=
  match p with
  | Table h v sdh => vmu_layout v ∧ hr_Stream h = Science ∧
      match sdh_type sdh with IsSDHv2 s => sdh_layout s | _ => False end
  | Image h v idh => vmu_layout v ∧ hr_Stream h ≠ Science ∧ (hr_Stream h = Video1 ∨ hr_Stream h = Video2) ∧
      match idh_type idh with IsIDHv2 i => idh_layout i | _ => False end
  | OtherPacket _ => False
  end.

#[global] Instance packet_layout_dec `{PandaLib} p : Decision (packet_layout p).
Proof.
  destruct p as [h v [[|s|] f]|h v [[i|i|] f]|h]; simpl;
    unfold vmu_layout, sdh_layout, idh_layout; apply _.
Defined.

(** The size of the version 2 secondary header of the packet's type. *)
Definition secondary_len (p : HRPacket) : Z :=
  match p with Image _ _ _ => IDHLenV2 | _ => SDHLenV2 end.

(** What follows the HRDP header: the sync word, a size, the digested bytes
    and their sum. *)
Definition hrdl_packet (size : Z) (digested : list byte) : list byte :=
  put_uint BigEndian 4 HRDLMagic ++ put_uint LittleEndian 4 size ++
  digested ++ put_uint LittleEndian 4 (SumHRD digested).

(** The HRDP header after its size. *)
Definition hrdp_header (stream fine coarse fine' coarse' : Z) : list byte :=
  put_uint BigEndian 2 0 ++ put_uint BigEndian 1 FSLMagic ++ put_uint BigEndian 1 stream ++
  put_uint BigEndian 4 fine ++ put_uint BigEndian 1 coarse ++
  put_uint BigEndian 4 fine' ++ put_uint BigEndian 1 coarse'.

Section layout.
Context {panda : PandaLib} (Now GPSNow : Time) (Split5 : Time → Z * Z).
Local Abbreviation EncodePacket := (EncodePacket Now GPSNow Split5).

Lemma encode_body_layout p bs :
  packet_layout p → EncodePacket p false = Ok bs →
  ∃ digested,
    bs = hrdl_packet (wrap 32 (VMUHLen + SDHLenV2 + Z.of_nat (length (Payload p)) - 4)) digested ∧
    Z.of_nat (length digested) = (VMUHLen + secondary_len p + Z.of_nat (length (Payload p)))%Z.
Proof.
  unfold EncodePacket, hrdl_packet.
  destruct p as [h v [[|s|] f]|h v [[i|i|] f]|h]; unfold encodeTable, encodeImage;
    cbn [packet_layout sdh_type idh_type mbind result_bind app]; intros Hlay; try (by naive_solver).
  all: intros [= <-]; unfold u32; rewrite !binary_Write_scalar; eexists; split; [reflexivity|].
  all: destruct_and! Hlay; unfold vmu_layout, sdh_layout, idh_layout, VMUHLen, SDHLenV2, IDHLenV2 in *.
  all: autorewrite with lengths; unfold Payload; cbn [info secondary_len]; unfold SDHLenV2, IDHLenV2; lia.
Qed.

Lemma Stream_of_layout p :
  packet_layout p →
  (if decide (Stream p = Science) then Ok (wrap 32 (HRDPHeaderLen + HRDLSyncLen + VMUHLen + 4 + SDHLenV2))
   else if decide (Stream p = Video1 ∨ Stream p = Video2)
   then Ok (wrap 32 (HRDPHeaderLen + HRDLSyncLen + VMUHLen + 4 + IDHLenV2))
   else Err (Errorf "unknown channel %d" [AInt (Stream p)])) =
  Ok (HRDPHeaderLen + HRDLSyncLen + VMUHLen + 4 + secondary_len p)%Z.
Proof.
  unfold Stream. destruct p as [h v s|h v i|h]; cbn [packet_layout info secondary_len]; [..|done].
  - intros (_ & Hs & _). by rewrite decide_True.
  - intros (_ & Hs & Hv & _). by rewrite decide_False, decide_True.
Qed.

(** An archive record: the size of what follows, 14 bytes of HRDP header, and
    the HRDL packet. *)
Lemma encode_record_layout p bs :
  packet_layout p → EncodePacket p true = Ok bs →
  in_width 32 (HRDPHeaderLen + HRDLSyncLen + VMUHLen + 4 + secondary_len p + Z.of_nat (length (Payload p))) →
  ∃ header body,
    EncodePacket p false = Ok body ∧
    bs = put_uint LittleEndian 4 (Z.of_nat (length header + length body)) ++ header ++ body ∧
    Z.of_nat (length header) = HRDPHeaderLen.
Proof.
  intros Hlay He Hsize. unfold EncodePacket in He.
  apply result_bind_ok in He as (header & Hh & (body & Hb & [= <-])%result_bind_ok).
  unfold encodeHRDPHeader in Hh. rewrite Stream_of_layout in Hh by done.
  assert (EncodePacket p false = Ok body) as Hbody by (unfold EncodePacket; simpl; by rewrite Hb).
  destruct (encode_body_layout p body Hlay Hbody) as (digested & E & Hd).
  assert (0 ≤ secondary_len p ≤ 76)%Z as Hsec by (destruct p; vm_compute; split; congruence).
  unfold mbind, result_bind in Hh. unfold HRDPHeaderLen, HRDLSyncLen, VMUHLen in *.
  rewrite (wrap_small 32 (Z.of_nat _)), (wrap_small 32 (_ + _)) in Hh by width_lia.
  destruct (Split5 _) as [fine coarse], (Split5 GPSNow) as [fine' coarse'].
  apply (inj Ok) in Hh as <-. unfold u8, u16, u32. rewrite !binary_Write_scalar.
  exists (hrdp_header (Stream p) fine coarse fine' coarse'), body.
  split_and!; unfold hrdp_header; [done|rewrite <-!app_assoc|].
  - do 2 f_equal. subst body. unfold hrdl_packet. autorewrite with lengths. lia.
  - autorewrite with lengths. lia.
Qed.

(** C37: in an archive record, the leading word is the number of bytes that
    follow it, for tables and for images alike. *)
Theorem EncodePacket_record_size p bs :
  packet_layout p → EncodePacket p true = Ok bs →
  in_width 32 (HRDPHeaderLen + HRDLSyncLen + VMUHLen + 4 + secondary_len p + Z.of_nat (length (Payload p))) →
  get_uint LittleEndian (take 4 bs) = (Z.of_nat (length bs) - 4)%Z.
Proof.
  intros Hlay He Hsize.
  destruct (encode_record_layout p bs Hlay He Hsize) as (header & body & Hb & -> & Hh).
  destruct (encode_body_layout p body Hlay Hb) as (digested & E & Hd).
  rewrite take_app_len by (by rewrite length_put_uint).
  autorewrite with lengths. rewrite get_put_uint_id; [lia|].
  assert (length body = length digested + 12) as Hbl by (subst body; unfold hrdl_packet; autorewrite with lengths; lia).
  unfold HRDPHeaderLen, HRDLSyncLen, VMUHLen in *. width_lia.
Qed.

(** Fact: the last word of an encoded packet is the HRDL checksum of everything
    between the HRDL header and it, so a decoder that sums the same bytes
    accepts it. *)
Theorem EncodePacket_checksum p bs :
  packet_layout p → EncodePacket p false = Ok bs →
  get_uint LittleEndian (drop (length bs - 4) bs) =
  SumHRD (take (length bs - 12) (drop 8 bs)).
Proof.
  intros Hlay He. destruct (encode_body_layout p bs Hlay He) as (digested & -> & Hd).
  unfold hrdl_packet. set (size := wrap 32 _). clearbody size.
  rewrite app_assoc. set (hd := put_uint BigEndian 4 HRDLMagic ++ put_uint LittleEndian 4 size).
  assert (length hd = 8) as Hhd by (unfold hd; by autorewrite with lengths).
  rewrite (drop_app_len hd _ 8) by done.
  rewrite (take_app_len digested) by (autorewrite with lengths; lia).
  rewrite (app_assoc hd), drop_app_len by (autorewrite with lengths; lia).
  apply get_put_uint_id. rewrite SumHRD_sum. by apply wrap_range.
Qed.

(** Fact: the HRDL header of an encoded table gives the number of digested bytes
    less 4; the one of an image, computed with the length of a science header,
    gives 20 bytes less than the same rule. *)
Theorem EncodePacket_hrdl_size p bs :
  packet_layout p → EncodePacket p false = Ok bs →
  in_width 32 (VMUHLen + SDHLenV2 + Z.of_nat (length (Payload p)) - 4) →
  get_uint LittleEndian (take 4 (drop 4 bs)) =
  (Z.of_nat (length bs) - 12 - 4 - match p with Image _ _ _ => 20 | _ => 0 end)%Z.
Proof.
  intros Hlay He Hsize. destruct (encode_body_layout p bs Hlay He) as (digested & -> & Hd).
  unfold hrdl_packet. rewrite drop_app_len, take_app_len by (by rewrite length_put_uint).
  rewrite get_put_uint_id by (by apply wrap_range). rewrite wrap_small by done.
  autorewrite with lengths. destruct p; unfold secondary_len, VMUHLen, SDHLenV2, IDHLenV2 in *; lia.
Qed.
End layout.

(** ** Examples *)

Definition sample_now : Time := time_Unix 0 1577836800.
Definition sample_split5 (t : Time) : Z * Z := (wrap 32 (t_sec t), 0%Z).

Lemma EncodePacket_record_size_witness :
  ∃ bs, EncodePacket sample_now sample_now sample_split5 (sample_image "OPS" 1 true [x01; x02]) true = Ok bs ∧
    get_uint LittleEndian (take 4 bs) = (Z.of_nat (length bs) - 4)%Z.
Proof.
  eexists. split; [reflexivity|].
  apply (EncodePacket_record_size sample_now sample_now sample_split5 (sample_image "OPS" 1 true [x01; x02]));
    [compute_decide|reflexivity|compute_decide].
Defined.

Lemma EncodePacket_checksum_witness :
  ∃ bs, EncodePacket sample_now sample_now sample_split5 (sample_table "OPS" 1 true [x01; x02]) false = Ok bs ∧
    get_uint LittleEndian (drop (length bs - 4) bs) = SumHRD (take (length bs - 12) (drop 8 bs)).
Proof.
  eexists. split; [reflexivity|].
  apply (EncodePacket_checksum sample_now sample_now sample_split5 (sample_table "OPS" 1 true [x01; x02]));
    [compute_decide|reflexivity].
Defined.

Lemma EncodePacket_hrdl_size_witness :
  ∃ bs, EncodePacket sample_now sample_now sample_split5 (sample_image "OPS" 1 true [x01; x02]) false = Ok bs ∧
    get_uint LittleEndian (take 4 (drop 4 bs)) = (Z.of_nat (length bs) - 12 - 4 - 20)%Z.
Proof.
  eexists. split; [reflexivity|].
  apply (EncodePacket_hrdl_size sample_now sample_now sample_split5 (sample_image "OPS" 1 true [x01; x02]));
    [compute_decide|reflexivity|compute_decide].
Defined.
