(* ===== verification/Scanner.v ===== *)
(** * Scanner: cutting an archive into packets

    [bufio.Scanner] as a step relation, because how many bytes a read
    delivers is not determined, with the two split functions of the program:
    [scanVMUPackets] (src/cmd/hadock/replay.go) for HRDP archives and
    [scanPackets] (src/cmd/hadock/dispatch.go) for the broker's own ones. *)

From S2P Require Import Prelude Bytes GoStd Panda Vmu.
From Stdlib Require Import ZArith Lia.

(** ** Split functions

    A split function is given the unconsumed bytes and whether the input
    ended; it returns how far to advance, a token ([None] for [nil]) and an
    error ([None] for [nil]).  It may panic. *)
Definition SplitFunc : Type := list byte → bool → result (Z * option (list byte) * option error).

(** [bs[low:]], a panic out of range. *)
Definition slice_from (bs : list byte) (low : Z) : result (list byte) :=
  if decide (0 ≤ low ≤ Z.of_nat (length bs))%Z then Ok (drop (Z.to_nat low) bs)
  else Panic "slice bounds out of range".

(** [vs := make([]byte, n); copy(vs, src)]. *)
Definition make_copy (n : Z) (src : list byte) : result (list byte) :=
  if decide (0 ≤ n)%Z then
    let k := take (Z.to_nat n) src in Ok (k ++ replicate (Z.to_nat n - length k) Byte.x00)
  else Panic "makeslice: len out of range".

(** [panda.HRDPHeaderLength] and [panda.HRDLSyncLength] are third-party
    constants. *)
Definition scanVMUPackets (HRDPHeaderLength HRDLSyncLength : Z) : SplitFunc := λ bs ateof,
  if ateof then Ok (Z.of_nat (length bs), Some bs, Some ErrFinalToken)
  else if decide (length bs < 4) then Ok (0%Z, None, None)
  else
    let size := get_uint LittleEndian (take 4 bs) in
    if decide (Z.of_nat (length bs) < size + 4)%Z then Ok (0%Z, None, None)
    else
      if decide (size - HRDPHeaderLength - HRDLSyncLength < 0)%Z then Panic "makeslice: len out of range"
      else
        src ← slice_from bs (4 + HRDPHeaderLength + HRDLSyncLength);
        vs ← make_copy (size - HRDPHeaderLength - HRDLSyncLength) src;
        Ok ((size + 4)%Z, Some vs, None).

Definition scanPackets : SplitFunc := λ bs ateof,
  if ateof then Ok (Z.of_nat (length bs), Some bs, Some ErrFinalToken)
  else if decide (length bs < 4) then Ok (0%Z, None, None)
  else
    let size := (get_uint BigEndian (take 4 bs) + 4)%Z in
    if decide (Z.of_nat (length bs) < size)%Z then Ok (0%Z, None, None)
    else
      src ← slice_from bs 4;
      xs ← make_copy (size - 4) src;
      Ok (size, Some xs, None).

(** ** [bufio.Scanner]

    [sc_buf] is the window of bytes read and not consumed, [sc_input] what the
    file still holds, [sc_eof] whether a read reported the end, and
    [sc_tokens] the tokens of the calls to [Scan] that returned [true]. *)
Inductive scan_end : Type :=
  | Finished (err : option error)
  | Panicked (why : string).

Record scanner : Type := mkScanner {
  sc_buf : list byte;
  sc_input : list byte;
  sc_eof : bool;
  sc_tokens : list (list byte);
  sc_end : option scan_end;
}.

Definition new_scanner (file : list byte) : scanner := mkScanner [] file false [] None.

Section scanner.
Context (split : SplitFunc) (max : nat).

(** The scanner calls [split] when it has bytes or saw the end. *)
Definition calls (b : list byte) (eof : bool) : Prop := b ≠ [] ∨ eof = true.

(** The split function asks for more, or is not called for lack of bytes. *)
Definition wants_more (b : list byte) (eof : bool) : Prop :=
  (b = [] ∧ eof = false) ∨ (calls b eof ∧ split b eof = Ok (0%Z, None, None)).

Inductive scan_step : scanner → scanner → Prop :=
  | scan_token b i e ts adv tok :
      calls b e → split b e = Ok (adv, Some tok, None) →
      (0 ≤ adv ≤ Z.of_nat (length b))%Z →
      scan_step (mkScanner b i e ts None) (mkScanner (drop (Z.to_nat adv) b) i e (ts ++ [tok]) None)
  | scan_final b i e ts adv tok :
      calls b e → split b e = Ok (adv, Some tok, Some ErrFinalToken) →
      scan_step (mkScanner b i e ts None) (mkScanner b i e (ts ++ [tok]) (Some (Finished None)))
  | scan_error b i e ts adv tok err :
      calls b e → split b e = Ok (adv, tok, Some err) → err ≠ ErrFinalToken →
      scan_step (mkScanner b i e ts None) (mkScanner b i e ts (Some (Finished (Some err))))
  | scan_panic b i e ts w :
      calls b e → split b e = Panic w →
      scan_step (mkScanner b i e ts None) (mkScanner b i e ts (Some (Panicked w)))
  | scan_stop b i ts :
      wants_more b true →
      scan_step (mkScanner b i true ts None) (mkScanner b i true ts (Some (Finished None)))
  | scan_read b k i ts :
      wants_more b false → k ≠ [] → length b + length k ≤ max →
      scan_step (mkScanner b (k ++ i) false ts None) (mkScanner (b ++ k) i false ts None)
  | scan_read_eof b ts :
      wants_more b false → length b < max →
      scan_step (mkScanner b [] false ts None) (mkScanner b [] true ts None)
  | scan_full b i ts :
      wants_more b false → max ≤ length b →
      scan_step (mkScanner b i false ts None)
        (mkScanner b i false ts (Some (Finished (Some (ErrExternal "bufio.Scanner: token too long"))))).

(** A complete scan: the caller's loop [for s.Scan() { ... s.Bytes() }]. *)
Definition scans (file : list byte) (tokens : list (list byte)) (how : scan_end) : Prop :=
  ∃ s, rtc scan_step (new_scanner file) s ∧ sc_tokens s = tokens ∧ sc_end s = Some how.
End scanner.

(** ** Archives made of records

    A record is framed by a split function when, at the head of the window,
    it is cut off whole as soon as it is there, and asked for otherwise. *)
Record framing (split : SplitFunc) (frame : list byte) (tok : list byte) : Prop := {
  framing_nonempty : frame ≠ [];
  framing_whole rest : split (frame ++ rest) false = Ok (Z.of_nat (length frame), Some tok, None);
  framing_partial b : b ≠ [] → b `prefix_of` frame → length b < length frame →
    split b false = Ok (0%Z, None, None);
}.

Section archive.
Context (split : SplitFunc) (max : nat).
Context (split_eof : ∀ b, split b true = Ok (Z.of_nat (length b), Some b, Some ErrFinalToken)).

(** The invariant of a scan: the window and the input are the records that
    have not been returned yet. *)
Inductive scanning (frames toks : list (list byte)) : scanner → Prop :=
  | scanning_at n b i :
      n ≤ length frames → b ++ i = concat (drop n frames) → length b ≤ max →
      scanning frames toks (mkScanner b i false (take n toks) None)
  | scanning_end :
      scanning frames toks (mkScanner [] [] true toks None)
  | scanning_done e :
      scanning frames toks (mkScanner [] [] e (toks ++ [[]]) (Some (Finished None))).

Context (frames toks : list (list byte)).
Context (Hframes : Forall2 (framing split) frames toks).
Context (Hsmall : Forall (λ f, length f ≤ max) frames) (Hmax : 0 < max).

(** What a window of the archive can be: nothing left, a whole record at its
    head, or a proper part of one. *)
Lemma window_cases n b i :
  n ≤ length frames → b ++ i = concat (drop n frames) →
  (n = length frames ∧ b = [] ∧ i = []) ∨
  (∃ frame tok b', frames !! n = Some frame ∧ toks !! n = Some tok ∧ b = frame ++ b' ∧
     b' ++ i = concat (drop (S n) frames) ∧
     split b false = Ok (Z.of_nat (length frame), Some tok, None)) ∨
  (wants_more split b false ∧ length b < max ∧ i ≠ []).
Proof.
  intros Hn E. destruct (decide (n = length frames)) as [->|Hne].
  { left. rewrite drop_all in E. apply app_eq_nil in E as [-> ->]. done. }
  right. destruct (lookup_lt_is_Some_2 frames n) as [frame Hf]; [lia|].
  destruct (Forall2_lookup_l _ _ _ _ _ Hframes Hf) as (tok & Ht & [Hne' Hw Hp]).
  pose proof (Forall_lookup_1 _ _ _ _ Hsmall Hf) as Hlen. simpl in Hlen.
  rewrite (drop_S _ _ _ Hf) in E. cbn [concat] in E.
  destruct (decide (length frame ≤ length b)) as [Hle|Hlt].
  - left. apply app_eq_inv in E as [(k & -> & Ek)|(k & -> & Ek)].
    + exists frame, tok, k. by rewrite Hw.
    + rewrite length_app in Hle. assert (k = []) as -> by (apply nil_length_inv; lia).
      rewrite app_nil_r in *. exists b, tok, []. rewrite app_nil_r. split_and!; try done.
      specialize (Hw []). by rewrite app_nil_r in Hw.
  - right. split_and!; [|lia|].
    + destruct b as [|x b]; [by left|]. right. split; [by left|]. apply Hp; [done| |lia].
      apply app_eq_inv in E as [(k & E & _)|(k & -> & _)]; [|by exists k].
      apply (f_equal length) in E. rewrite length_app in E. lia.
    + intros ->. apply (f_equal length) in E. autorewrite with lengths in E. lia.
Qed.

Lemma wants_more_not_token b e adv tok err :
  wants_more split b e → calls b e → split b e ≠ Ok (adv, Some tok, err).
Proof. intros [[-> ->]|[_ ->]]; [by intros [?|?]|done]. Qed.

Lemma wants_more_not_error b e adv tok err :
  wants_more split b e → calls b e → split b e ≠ Ok (adv, tok, Some err).
Proof. intros [[-> ->]|[_ ->]]; [by intros [?|?]|done]. Qed.

Lemma wants_more_not_panic b e w :
  wants_more split b e → calls b e → split b e ≠ Panic w.
Proof. intros [[-> ->]|[_ ->]]; [by intros [?|?]|done]. Qed.

(** What remains to be done: every step of a scan of the archive makes it
    smaller. *)
Definition scan_measure (s : scanner) : nat :=
  match sc_end s with
  | Some _ => 0
  | None => S (if sc_eof s then 0 else S (2 * length (sc_input s) + length (sc_buf s)))
  end.

Lemma step_exhausted ts s' :
  scan_step split max (mkScanner [] [] false ts None) s' → s' = mkScanner [] [] true ts None.
Proof.
  inversion 1; subst; try (by match goal with H : calls [] false |- _ => destruct H as [?|?] end).
  - match goal with H : _ ++ _ = [] |- _ => by apply app_eq_nil in H as [-> ->] end.
  - done.
  - match goal with H : max ≤ _ |- _ => simpl in H; lia end.
Qed.

Lemma step_token b i ts adv tok s' :
  split b false = Ok (adv, Some tok, None) → b ≠ [] →
  scan_step split max (mkScanner b i false ts None) s' →
  s' = mkScanner (drop (Z.to_nat adv) b) i false (ts ++ [tok]) None.
Proof.
  intros Hs Hb. inversion 1; subst;
    try (match goal with H : split b false = _, H' : split b false = _ |- _ => rewrite H in H'; simplify_eq end); try done.
  all: exfalso; eapply wants_more_not_token; [eassumption|by left|exact Hs].
Qed.

Lemma step_more b i ts s' :
  wants_more split b false → length b < max →
  scan_step split max (mkScanner b i false ts None) s' →
  (∃ k i', i = k ++ i' ∧ k ≠ [] ∧ length b + length k ≤ max ∧ s' = mkScanner (b ++ k) i' false ts None) ∨
  i = [].
Proof.
  intros Hw Hlt. inversion 1; subst; try (by right); try lia.
  all: try by edestruct wants_more_not_token.
  all: try by edestruct wants_more_not_error.
  all: try by edestruct wants_more_not_panic.
  left. eauto 10.
Qed.

Lemma step_eof b ts s' :
  scan_step split max (mkScanner b [] true ts None) s' →
  s' = mkScanner b [] true (ts ++ [b]) (Some (Finished None)).
Proof.
  inversion 1; subst;
    repeat match goal with
    | H : split _ true = _ |- _ => rewrite split_eof in H; simplify_eq
    | H : wants_more _ _ true |- _ => destruct H as [[_ ?]|[_ H]]; [done|]; rewrite split_eof in H; simplify_eq
    end; done.
Qed.

Lemma scan_step_archive s s' :
  scanning frames toks s → scan_step split max s s' →
  scanning frames toks s' ∧ scan_measure s' < scan_measure s.
Proof.
  assert (length frames = length toks) as Hlen by (by eapply Forall2_length).
  intros [n b i Hn E Hb| |e] Hst.
  - destruct (window_cases n b i Hn E) as
      [(-> & -> & ->)|[(frame & tok & b' & Hf & Ht & -> & E' & Hs)|(Hw & Hlt & Hi)]].
    + apply step_exhausted in Hst as ->. split; [|unfold scan_measure; simpl; lia].
      rewrite Hlen, take_ge by lia. constructor.
    + destruct (Forall2_lookup_l _ _ _ _ _ Hframes Hf) as (? & _ & [Hne _ _]).
      apply step_token with (1 := Hs) in Hst as ->; [|by destruct frame].
      rewrite Nat2Z.id, drop_app_length, <-(take_S_r _ _ _ Ht).
      rewrite length_app in Hb. split.
      * apply lookup_lt_Some in Hf. constructor; [lia|done|lia].
      * unfold scan_measure; simpl. rewrite length_app. destruct frame; [done|simpl; lia].
    + apply step_more in Hst as [(k & i' & -> & Hk & Hle & ->)|?]; [|done..].
      split.
      * constructor; [done| |rewrite length_app; lia]. by rewrite <-app_assoc.
      * unfold scan_measure; simpl. autorewrite with lengths. destruct k; [done|simpl; lia].
  - apply step_eof in Hst as ->. split; [constructor|unfold scan_measure; simpl; lia].
  - inversion Hst.
Qed.

(** A scan of the archive that has not ended goes on. *)
Lemma scan_progress s :
  scanning frames toks s → sc_end s = None → ∃ s', scan_step split max s s'.
Proof.
  intros [n b i Hn E Hb| |e] He; [|by eexists; eapply scan_final; [by right|apply split_eof]|done].
  destruct (window_cases n b i Hn E) as
    [(-> & -> & ->)|[(frame & tok & b' & Hf & Ht & -> & E' & Hs)|(Hw & Hlt & Hi)]].
  - eexists. apply scan_read_eof; [by left|simpl; lia].
  - destruct (Forall2_lookup_l _ _ _ _ _ Hframes Hf) as (? & _ & [Hne _ _]).
    eexists. eapply scan_token; [left; by destruct frame|done|rewrite length_app; lia].
  - destruct i as [|x i]; [done|]. eexists. apply (scan_read split max b [x]); [done|done|simpl; lia].
Qed.

Lemma scanning_new : scanning frames toks (new_scanner (concat frames)).
Proof. apply (scanning_at frames toks 0 [] (concat frames)); simpl; [lia|done|lia]. Qed.

Lemma scanning_rtc s s' :
  scanning frames toks s → rtc (scan_step split max) s s' → scanning frames toks s'.
Proof. intros Hs Hr. induction Hr as [|s s1 s2 Hst _ IH]; [done|]. apply IH. by eapply scan_step_archive. Qed.

Lemma scan_run_exists s :
  scanning frames toks s → ∃ s', rtc (scan_step split max) s s' ∧ sc_end s' ≠ None.
Proof.
  induction s as [s IH] using (induction_ltof1 _ scan_measure). intros Hs.
  destruct (sc_end s) eqn:He; [exists s; by rewrite He|].
  destruct (scan_progress s Hs He) as [s' Hst].
  destruct (scan_step_archive s s' Hs Hst) as [Hs' Hlt].
  destruct (IH s') as (s'' & Hr & Hend); [done..|].
  exists s''. split; [by eapply rtc_l|done].
Qed.

Lemma scan_all :
  (∃ ts how, scans split max (concat frames) ts how) ∧
  ∀ ts how, scans split max (concat frames) ts how → ts = toks ++ [[]] ∧ how = Finished None.
Proof.
  pose proof scanning_new as Hnew. split.
  - destruct (scan_run_exists _ Hnew) as (s & Hr & He).
    destruct (sc_end s) as [how|] eqn:E; [|done]. exists (sc_tokens s), how, s. done.
  - intros ts how (s & Hr & <- & He). eapply scanning_rtc in Hr; [|done].
    by destruct Hr; simplify_eq/=.
Qed.

(** Fact: however the reads deliver an archive of records, its scan ends without
    error and returns the packets of the records in order, and one empty token
    after them (the split functions return what is left at the end of the
    input, which is nothing). *)
Theorem scan_archive :
  (∃ ts how, scans split max (concat frames) ts how) ∧
  (∀ s, rtc (scan_step split max) (new_scanner (concat frames)) s → sn (scan_step split max) s) ∧
  ∀ ts how, scans split max (concat frames) ts how → ts = toks ++ [[]] ∧ how = Finished None.
Proof.
  destruct scan_all as [Hex Hall]. split; [done|]. split; [|done].
  intros s Hr. apply scanning_rtc in Hr; [|apply scanning_new].
  induction s as [s IH] using (induction_ltof1 _ scan_measure).
  constructor. intros s' Hst. destruct (scan_step_archive s s' Hr Hst) as [Hs' Hlt].
  by apply IH.
Qed.
End archive.

(** ** The two split functions *)

Lemma make_copy_exact (src rest : list byte) :
  make_copy (Z.of_nat (length src)) (src ++ rest) = Ok src.
Proof.
  unfold make_copy. rewrite decide_True by lia. rewrite Nat2Z.id, take_app_length.
  by rewrite Nat.sub_diag, app_nil_r.
Qed.

Lemma slice_from_app (l k : list byte) n : n = Z.of_nat (length l) → slice_from (l ++ k) n = Ok k.
Proof.
  intros ->. unfold slice_from. rewrite decide_True by (rewrite length_app; lia).
  by rewrite Nat2Z.id, drop_app_length.
Qed.

Lemma prefix_take (b frame : list byte) n :
  b `prefix_of` frame → n ≤ length b → take n b = take n frame.
Proof. intros [k ->] Hn. by rewrite take_app_le. Qed.

(** A record of an HRDP archive: its size, the HRDP header, the HRDL sync
    word and size, and the VMU packet. *)
Definition hrdp_record (header sync body : list byte) : list byte :=
  put_uint LittleEndian 4 (Z.of_nat (length header + length sync + length body)) ++ header ++ sync ++ body.

Lemma scanVMUPackets_framing hl sl header sync body :
  Z.of_nat (length header) = hl → Z.of_nat (length sync) = sl →
  in_width 32 (Z.of_nat (length header + length sync + length body)) →
  framing (scanVMUPackets hl sl) (hrdp_record header sync body) body.
Proof.
  intros <- <- Hw. unfold hrdp_record. set (n := Z.of_nat _) in *.
  split.
  - by intros E%(f_equal length); autorewrite with lengths in E; simpl in E.
  - intros rest. unfold scanVMUPackets. rewrite <-app_assoc, take_app_len by (by rewrite length_put_uint).
    rewrite get_put_uint_id by done. autorewrite with lengths.
    rewrite !decide_False by lia.
    replace ((put_uint LittleEndian 4 n ++ (header ++ sync ++ body) ++ rest))
      with ((put_uint LittleEndian 4 n ++ header ++ sync) ++ body ++ rest) by (by rewrite <-!app_assoc).
    rewrite slice_from_app by (autorewrite with lengths; lia). cbn [mbind result_bind].
    replace (n - _ - _)%Z with (Z.of_nat (length body)) by lia.
    rewrite make_copy_exact. cbn [mbind result_bind]. repeat f_equal. lia.
  - intros b _ Hp Hlt. unfold scanVMUPackets. case_decide; [done|].
    rewrite (prefix_take _ _ _ Hp) by lia. rewrite take_app_len by (by rewrite length_put_uint).
    rewrite get_put_uint_id by done. autorewrite with lengths in Hlt. by rewrite decide_True by lia.
Qed.

(** A record of the broker's own format: its size and the packet. *)
Definition hadock_record (body : list byte) : list byte :=
  put_uint BigEndian 4 (Z.of_nat (length body)) ++ body.

Lemma scanPackets_framing body :
  in_width 32 (Z.of_nat (length body)) → framing scanPackets (hadock_record body) body.
Proof.
  intros Hw. unfold hadock_record. set (n := Z.of_nat _) in *.
  split.
  - by intros E%(f_equal length); autorewrite with lengths in E; simpl in E.
  - intros rest. unfold scanPackets. rewrite <-app_assoc, take_app_len by (by rewrite length_put_uint).
    rewrite get_put_uint_id by done. autorewrite with lengths.
    rewrite !decide_False by lia.
    rewrite slice_from_app by (autorewrite with lengths; lia). cbn [mbind result_bind].
    replace (n + 4 - 4)%Z with n by lia.
    change (make_copy n) with (make_copy (Z.of_nat (length body))).
    rewrite make_copy_exact. cbn [mbind result_bind]. repeat f_equal. lia.
  - intros b _ Hp Hlt. unfold scanPackets. case_decide; [done|].
    rewrite (prefix_take _ _ _ Hp) by lia. rewrite take_app_len by (by rewrite length_put_uint).
    rewrite get_put_uint_id by done. autorewrite with lengths in Hlt. by rewrite decide_True by lia.
Qed.

(** Fact: a record whose size word is less than the headers it should count
    stops the walk over an archive with a panic: the split function makes a
    slice of negative length. *)
Theorem scanVMUPackets_short_panics hl sl size body :
  in_width 32 size → (size < hl + sl)%Z → (size ≤ Z.of_nat (length body))%Z →
  ∃ w, scanVMUPackets hl sl (put_uint LittleEndian 4 size ++ body) false = Panic w.
Proof.
  intros Hw Hlt Hle. unfold scanVMUPackets. rewrite take_app_len by (by rewrite length_put_uint).
  rewrite get_put_uint_id by done. autorewrite with lengths.
  rewrite 2!decide_False by lia. rewrite decide_True by lia. eauto.
Qed.

(** C17: an archive of encoded packets, read back by the client's walk,
    gives for each packet the bytes a broker is sent: the VMU packet behind
    the HRDP header and the HRDL header, up to the checksum. *)
Theorem walk_encoded_archive `{PandaLib} Now GPSNow Split5 max ps rs bs :
  Forall2 (λ p r, packet_layout p ∧ EncodePacket Now GPSNow Split5 p true = Ok r) ps rs →
  Forall2 (λ p b, EncodePacket Now GPSNow Split5 p false = Ok b) ps bs →
  Forall (λ p, in_width 32
    (HRDPHeaderLen + HRDLSyncLen + VMUHLen + 4 + secondary_len p + Z.of_nat (length (Payload p)))) ps →
  Forall (λ r, length r ≤ max) rs → 0 < max →
  (∃ ts how, scans (scanVMUPackets HRDPHeaderLen HRDLSyncLen) max (concat rs) ts how) ∧
  ∀ ts how, scans (scanVMUPackets HRDPHeaderLen HRDLSyncLen) max (concat rs) ts how →
    ts = (drop 8 <$> bs) ++ [[]] ∧ how = Finished None.
Proof.
  intros Hrs Hbs Hps Hmax Hpos.
  assert (Forall2 (framing (scanVMUPackets HRDPHeaderLen HRDLSyncLen)) rs (drop 8 <$> bs)) as Hf.
  { clear Hmax. revert rs Hrs. induction Hbs as [|p b ps bs Hb _ IH]; intros rs Hrs;
      apply Forall2_cons_inv_l in Hrs as (r & rs' & [Hl Hr] & Hrs & ->) || apply Forall2_nil_inv_l in Hrs as ->;
      [constructor|].
    apply Forall_cons in Hps as [Hp Hps]. cbn. constructor; [|by apply IH].
    destruct (encode_record_layout Now GPSNow Split5 p r Hl Hr Hp) as (header & body & Hb' & -> & Hh).
    rewrite Hb in Hb'. apply (inj Ok) in Hb' as <-.
    destruct (encode_body_layout Now GPSNow Split5 p b Hl Hb) as (digested & E & Hd).
    assert (length b = length digested + 12) as Hbl.
    { subst b. unfold hrdl_packet. autorewrite with lengths. lia. }
    rewrite <-(take_drop 8 b) at 2.
    replace (length header + length b) with (length header + length (take 8 b) + length (drop 8 b))
      by (autorewrite with lengths; lia).
    apply scanVMUPackets_framing; [done|autorewrite with lengths; unfold HRDLSyncLen; lia|].
    autorewrite with lengths. unfold HRDPHeaderLen, HRDLSyncLen, VMUHLen in *. width_lia. }
  by apply scan_all.
Qed.

(** ** Examples *)

Lemma scan_archive_witness :
  let records := [hadock_record [x01; x02]; hadock_record [x03]] in
  let S := scan_step scanPackets 16 in
  (∃ ts how, scans scanPackets 16 (concat records) ts how) ∧
  (∀ s, rtc S (new_scanner (concat records)) s → sn S s) ∧
  ∀ ts how, scans scanPackets 16 (concat records) ts how →
    ts = [[x01; x02]; [x03]; []] ∧ how = Finished None.
Proof.
  apply (scan_archive scanPackets 16 (λ b, eq_refl)
    [hadock_record [x01; x02]; hadock_record [x03]] [[x01; x02]; [x03]]).
  - repeat constructor; try apply scanPackets_framing; compute_decide.
  - repeat constructor; compute_decide.
  - lia.
Defined.

Lemma scanVMUPackets_short_panics_witness :
  ∃ w, scanVMUPackets 14 8 (put_uint LittleEndian 4 3 ++ [x01; x02; x03]) false = Panic w.
Proof. apply scanVMUPackets_short_panics; [compute_decide|lia|simpl; lia]. Defined.

Lemma walk_encoded_archive_witness :
  let p := sample_image "OPS" 1 true [x01; x02] in
  let enc b := match EncodePacket sample_now sample_now sample_split5 p b with Ok r => r | _ => [] end in
  (∃ ts how, scans (scanVMUPackets HRDPHeaderLen HRDLSyncLen) 1024 (concat [enc true; enc true]) ts how) ∧
  ∀ ts how, scans (scanVMUPackets HRDPHeaderLen HRDLSyncLen) 1024 (concat [enc true; enc true]) ts how →
    ts = [drop 8 (enc false); drop 8 (enc false); []] ∧ how = Finished None.
Proof.
  set (p := sample_image "OPS" 1 true [x01; x02]). cbv zeta.
  apply (walk_encoded_archive sample_now sample_now sample_split5 1024 [p; p] _ [_; _]).
  - repeat constructor; compute_decide.
  - repeat constructor; compute_decide.
  - repeat constructor; compute_decide.
  - repeat constructor; compute_decide.
  - lia.
Defined.
