(* ===== verification/Notifier.v ===== *)
(** * Notifier: messages about stored packets (src/notifier.go)

    The codec of the messages sent to subscribers, the filter of a
    subscriber, and the pool that gathers packets between two ticks of its
    clock and announces each group with one message.  The loop of the pool is
    a transition function over the events its goroutine selects on, so a
    theorem about every list of events is one about every interleaving. *)

From S2P Require Import Prelude Bytes SortSearch GoStd Panda.
From Stdlib Require Import ZArith Lia.

(** ** Messages *)

Record Item : Type := mkItem { it_Instance : Z; it_HRPacket : HRPacket }.

Record Message : Type := mkMessage {
  m_Origin : string;
  m_Sequence : Z;        (* uint32 *)
  m_Instance : Z;        (* int32 *)
  m_Channel : Z;         (* panda.Channel *)
  m_Realtime : bool;
  m_Count : Z;           (* uint32 *)
  m_Elapsed : Z;         (* time.Duration *)
  m_Generated : Z;       (* int64 *)
  m_Acquired : Z;        (* int64 *)
  m_Reference : string;
  m_UPI : string;
}.

#[global] Instance Message_eq_dec : EqDecision Message.
Proof. solve_decision. Defined.

Definition readString : rd string :=
  z ← ReadUint BigEndian 2;
  bs ← ReadFull z;
  mret (string_of bs).

(** A [binary.Read] whose error is dropped: the field keeps its zero value,
    and what the failed read consumed is lost. *)
Definition read_or {A} (zero : A) (m : rd A) : rd A := λ r,
  match m r with (Err _, r') => (Ok zero, r') | x => x end.

Definition DecodeMessage : rd Message :=
  Origin ← readString;
  Sequence ← read_or 0%Z (ReadUint BigEndian 4);
  Instance ← read_or 0%Z (ReadInt BigEndian 4);
  Channel ← read_or 0%Z (ReadUint BigEndian 1);
  Realtime ← read_or false (ReadBool BigEndian);
  Count ← read_or 0%Z (ReadUint BigEndian 4);
  Elapsed ← read_or 0%Z (ReadInt BigEndian 8);
  Generated ← read_or 0%Z (ReadInt BigEndian 8);
  Acquired ← read_or 0%Z (ReadInt BigEndian 8);
  Reference ← readString;
  UPI ← readString;
  mret (mkMessage Origin Sequence Instance Channel Realtime Count Elapsed Generated Acquired Reference UPI).

(** The loop of [runMonitor] (src/cmd/hadock/misc.go): the messages it prints,
    and the error it exits with ([None] when the fuel ran out). *)
Fixpoint runMonitor (fuel : nat) (r : reader) : list Message * option error :=
  match fuel with
  | O => ([], None)
  | S fuel =>
      match DecodeMessage r with
      | (Ok m, r') => let '(ms, er) := runMonitor fuel r' in (m :: ms, er)
      | (Err er, _) => ([], Some er)
      | (Panic _, _) => ([], None)
      end
  end.

Definition write_string (s : string) : list byte :=
  let bs := bytes_of s in
  binary_Write BigEndian (u16 (wrap 16 (Z.of_nat (length bs)))) ++ bs.

(** The bytes [notifier.Notify] copies to the connection. *)
Definition encodeMessage (m : Message) : list byte :=
  write_string (m_Origin m) ++
  binary_Write BigEndian (u32 (m_Sequence m)) ++
  binary_Write BigEndian (i32 (m_Instance m)) ++
  binary_Write BigEndian (u8 (m_Channel m)) ++
  binary_Write BigEndian (gobool (m_Realtime m)) ++
  binary_Write BigEndian (u32 (m_Count m)) ++
  binary_Write BigEndian (i64 (m_Elapsed m)) ++
  binary_Write BigEndian (i64 (m_Generated m)) ++
  binary_Write BigEndian (i64 (m_Acquired m)) ++
  write_string (m_Reference m) ++
  write_string (m_UPI m).

(** ** Subscribers *)

Record Options : Type := mkOptions {
  o_Source : string;
  o_Instance : Z;
  o_Channels : list Z;
}.

(** [Options.Accept]: [None] for a nil error. *)
Definition Accept (o : option Options) (msg : Message) : option error :=
  match o with
  | None => None
  | Some o =>
      if decide (0 ≤ o_Instance o ∧ o_Instance o ≠ m_Instance msg)%Z then
        Some (Errorf "instance %d not accepted" [AInt (m_Instance msg)])
      else if search_rejects (λ a b, Z.leb b a) (o_Channels o) (m_Channel msg) then
        Some (Errorf "channel %d not accepted" [AInt (m_Channel msg)])
      else
        let ok :=
          if decide (o_Source o = "realtime") then m_Realtime msg
          else if decide (o_Source o = "playback") then negb (m_Realtime msg)
          else bool_decide (o_Source o = "") in
        if ok then None else Some (Errorf "source not accepted" [])
  end.

(** [notifier.Notify]: the bytes handed to the connection, with [send] the
    copy to it; a message that is not accepted is dropped without error. *)
Definition notifier_Notify (o : option Options) (send : list byte → option error) (m : Message) :
    list byte * option error :=
  match Accept o m with
  | Some _ => ([], None)
  | None => (encodeMessage m, send (encodeMessage m))
  end.

(** ** The pool *)

(** [extractUserInfo] *)
Definition extractUserInfo (p : HRPacket) : string :=
  let finish bs alt :=
    let upi := TrimNul bs in if decide (0 < length upi) then string_of upi else alt in
  let zero := replicate 32 Byte.x00 in
  match p with
  | Table _ _ sdh =>
      let alt := "SCIENCE" in
      if IsRealtime p then alt else
      match sdh_type sdh with
      | IsSDHv2 s => finish (s2_Info s) alt
      | _ => finish zero alt
      end
  | Image _ _ idh =>
      let alt := "IMAGE" in
      if IsRealtime p then alt else
      match idh_type idh with
      | IsIDHv2 v => finish (i2_Info v) alt
      | IsIDHv1 inf => finish inf alt
      | OtherIDH => finish zero alt
      end
  | OtherPacket _ => finish zero ""
  end.

(** [key]: realtime, origin, instance. *)
Definition key : Type := bool * string * Z.

Definition key_of (i : Item) : key :=
  (IsRealtime (it_HRPacket i), Origin (it_HRPacket i), it_Instance i).

Section pool.
Context {sorter : SliceSorter} {N : Type}.

Record Pool : Type := mkPool {
  p_notifiers : list N;
  p_limit : Z;
  p_queue : option (list Item);      (* nil, or a channel of capacity 1000 *)
}.

(** Whether the goroutine of the pool runs is whether it has a queue. *)
Definition NewPool (ns : list N) (a e : Z) : Pool :=
  mkPool ns a (if decide (0 < e)%Z then Some [] else None).

Definition queue_capacity : nat := 1000.

(** [Pool.Notify], with [now] the clock that [time.Since] reads: never
    blocks; a packet that is too old or that finds the queue full is dropped.
    A nil pool is dereferenced. *)
Definition Pool_Notify (now : Time) (p : option Pool) (i : Item) : result Pool :=
  match p with
  | None => Panic "invalid memory address or nil pointer dereference"
  | Some p =>
      match p_queue p with
      | None => Ok p
      | Some q =>
          let push (t : Time) :=
            if decide (0 < p_limit p ∧ p_limit p < Sub now t)%Z then p
            else if decide (length q < queue_capacity)
            then mkPool (p_notifiers p) (p_limit p) (Some (q ++ [i])) else p in
          match it_HRPacket i with
          | Image _ v _ | Table _ v _ => Ok (push (vh_Timestamp v))
          | OtherPacket _ => Ok p
          end
      end
  end.

(** The message of a group: the goroutine started for each group at a tick. *)
Definition group_message (k : key) (ps : list HRPacket) : result Message :=
  let ps := sort_slice Sequence ps in
  match ps, last ps with
  | first :: _, Some lst =>
      let g := match hr_Generated (info first) with Some g => g | None => Timestamp first end in
      Ok (mkMessage k.1.2 (Sequence first) (swrap 32 k.2) (Stream first) k.1.1
            (wrap 32 (Z.of_nat (length ps)))
            (Sub (Timestamp lst) (Timestamp first))
            (t_sec g) (t_sec (Timestamp first)) (Filename first) (extractUserInfo first))
  | _, _ => Panic "index out of range [0] with length 0"
  end.

(** [for _, n := range p.notifiers { go n.Notify(m) }] *)
Definition announce (p : Pool) (m : Message) : list (N * Message) :=
  (λ n, (n, m)) <$> p_notifiers p.

(** The goroutine [Pool.notify]: its cache and the groups it has started a
    goroutine for. *)
Record pool_state : Type := mkState {
  ps_pool : Pool;
  ps_cache : gmap key (list HRPacket);
  ps_groups : list (key * list HRPacket);
}.

Definition new_state (p : Pool) : pool_state := mkState p ∅ [].

Inductive event : Type :=
  | Arrives (now : Time) (i : Item)   (* a call of Pool.Notify *)
  | Receives                          (* p := <-p.queue *)
  | Ticks.                            (* <-t.C *)

Definition cache_append (k : key) (p : HRPacket) (c : gmap key (list HRPacket)) : gmap key (list HRPacket) :=
  <[k := default [] (c !! k) ++ [p]]> c.

(** A receive waits while the queue is empty: the step is then idle. *)
Definition receive (s : pool_state) : pool_state :=
  match p_queue (ps_pool s) with
  | Some (i :: q) =>
      let k := key_of i in
      mkState (mkPool (p_notifiers (ps_pool s)) (p_limit (ps_pool s)) (Some q))
        (cache_append k (it_HRPacket i) (ps_cache s)) (ps_groups s)
  | _ => s
  end.

Definition tick (s : pool_state) : pool_state :=
  mkState (ps_pool s)
    (filter (λ '(_, ps), ps = []) (ps_cache s))
    (ps_groups s ++ filter (λ '(_, ps), ps ≠ []) (map_to_list (ps_cache s))).

Definition notify_step (s : pool_state) (ev : event) : pool_state :=
  match ev with
  | Arrives now i =>
      match Pool_Notify now (Some (ps_pool s)) i with
      | Ok p => mkState p (ps_cache s) (ps_groups s)
      | _ => s
      end
  | Receives => receive s
  | Ticks => match p_queue (ps_pool s) with Some _ => tick s | None => s end
  end.

Definition notify (s : pool_state) (evs : list event) : pool_state := foldl notify_step s evs.
End pool.
Arguments Pool : clear implicits.
Arguments pool_state : clear implicits.

(** ** The codec *)

(** Every field has the width of its Go type, and the strings fit their
    16-bit length. *)
Definition message_fits (m : Message) : Prop :=
  in_width 16 (Z.of_nat (length (bytes_of (m_Origin m)))) ∧
  in_width 32 (m_Sequence m) ∧ in_swidth 32 (m_Instance m) ∧ in_width 8 (m_Channel m) ∧
  in_width 32 (m_Count m) ∧ in_swidth 64 (m_Elapsed m) ∧ in_swidth 64 (m_Generated m) ∧
  in_swidth 64 (m_Acquired m) ∧
  in_width 16 (Z.of_nat (length (bytes_of (m_Reference m)))) ∧
  in_width 16 (Z.of_nat (length (bytes_of (m_UPI m)))).

#[global] Instance message_fits_dec m : Decision (message_fits m).
Proof. unfold message_fits. apply _. Defined.

Lemma readString_put s rest e :
  in_width 16 (Z.of_nat (length (bytes_of s))) →
  readString (Reader (write_string s ++ rest) e) = (Ok s, Reader rest e).
Proof.
  intros Hs. unfold readString, write_string, u16. rewrite binary_Write_scalar, wrap_small, <-app_assoc by done.
  erewrite rd_bind_ok by (by apply ReadUint_put).
  erewrite rd_bind_ok by (by apply ReadFull_app). by rewrite string_of_bytes_of.
Qed.

Lemma read_or_ok {A} (zero : A) m r a r' : m r = (Ok a, r') → read_or zero m r = (Ok a, r').
Proof. intros H. unfold read_or. by rewrite H. Qed.

Lemma decode_encode_message m rest e :
  message_fits m → DecodeMessage (Reader (encodeMessage m ++ rest) e) = (Ok m, Reader rest e).
Proof.
  intros (H1 & H2 & H3 & H4 & H5 & H6 & H7 & H8 & H9 & H10).
  unfold DecodeMessage, encodeMessage, u32, i32, u8, i64. rewrite !binary_Write_scalar, <-!app_assoc.
  erewrite rd_bind_ok by (by apply readString_put).
  erewrite rd_bind_ok by (by apply read_or_ok, ReadUint_put).
  erewrite rd_bind_ok by (apply read_or_ok, ReadInt_put; [lia|done]).
  erewrite rd_bind_ok by (by apply read_or_ok, ReadUint_put).
  erewrite rd_bind_ok by (by apply read_or_ok, ReadBool_put).
  erewrite rd_bind_ok by (by apply read_or_ok, ReadUint_put).
  do 3 (erewrite rd_bind_ok by (apply read_or_ok, ReadInt_put; [lia|done])).
  erewrite rd_bind_ok by (by apply readString_put).
  erewrite rd_bind_ok by (by apply readString_put). by destruct m.
Qed.

(** *** Truncated messages

    A computation is [Stable] when more input does not change what it
    returned, and [Lossy] when that holds unless it ran out of input. *)
Definition extends {A} (m : rd A) d e a d' : Prop :=
  ∀ k, m (Reader (d ++ k) e) = (Ok a, Reader (d' ++ k) e).

Class Stable {A} (m : rd A) : Prop :=
  stable d e a r' : m (Reader d e) = (Ok a, r') → rd_end r' = e ∧ extends m d e a (rd_data r').

Class Lossy {A} (m : rd A) : Prop :=
  lossy d e a r' : m (Reader d e) = (Ok a, r') →
    rd_end r' = e ∧ (rd_data r' = [] ∨ extends m d e a (rd_data r')).

(** With nothing to read it fails. *)
Class Starving {A} (m : rd A) : Prop := starving e a r' : m (Reader [] e) ≠ (Ok a, r').

#[export] Instance stable_ret {A} (a : A) : Stable (mret a : rd A).
Proof. intros d e b r' [= <- <-]. done. Qed.

#[export] Instance stable_ReadFull n : Stable (ReadFull n).
Proof.
  intros d e a r' H. unfold ReadFull in H. case_decide as Hd; simplify_eq/=.
  split; [done|]. intros k. unfold ReadFull; simpl.
  rewrite length_app, decide_True by lia.
  by rewrite take_app_le, drop_app_le by lia.
Qed.

Lemma extends_bind {A B} (m : rd A) (f : A → rd B) d e a d' b d'' :
  extends m d e a d' → extends (f a) d' e b d'' → extends (m ≫= f) d e b d''.
Proof. intros Hm Hf k. by erewrite rd_bind_ok. Qed.

#[export] Instance stable_bind {A B} (m : rd A) (f : A → rd B) :
  Stable m → (∀ a, Stable (f a)) → Stable (m ≫= f).
Proof.
  intros Hm Hf d e b r'' (a & [d' e'] & H1 & H2)%rd_bind_inv.
  apply Hm in H1 as [<- H1]. apply Hf in H2 as [? H2]. split; [done|].
  by eapply extends_bind.
Qed.

#[export] Instance stable_ReadUint o n : Stable (ReadUint o n).
Proof. unfold ReadUint. apply _. Qed.
#[export] Instance stable_ReadInt o n : Stable (ReadInt o n).
Proof. unfold ReadInt. apply _. Qed.
#[export] Instance stable_ReadBool o : Stable (ReadBool o).
Proof. unfold ReadBool. apply _. Qed.
#[export] Instance stable_readString : Stable readString.
Proof. unfold readString. apply _. Qed.

(** A dropped error leaves nothing to read, because every failing read of the
    codec consumes what was there. *)
Class Draining {A} (m : rd A) : Prop := draining d e er r' :
  m (Reader d e) = (Err er, r') → r' = Reader [] e.

#[export] Instance draining_ReadUint o n : Draining (ReadUint o n).
Proof.
  intros d e er r'. unfold ReadUint, mbind, rd_bind, ReadFull. case_decide; simpl; naive_solver.
Qed.

#[export] Instance draining_bind {A B} (m : rd A) (f : A → B) : Draining m → Draining (m ≫= λ a, mret (f a)).
Proof.
  intros Hm d e er r'. unfold mbind, rd_bind.
  destruct (m (Reader d e)) as [[a|er'|w] r] eqn:E; intros [= <- <-]. by eapply Hm.
Qed.

#[export] Instance draining_ReadInt o n : Draining (ReadInt o n).
Proof. unfold ReadInt. apply _. Qed.
#[export] Instance draining_ReadBool o : Draining (ReadBool o).
Proof. unfold ReadBool. apply _. Qed.

Lemma lossy_read_or {A} (zero : A) (m : rd A) : Stable m → Draining m → Lossy (read_or zero m).
Proof.
  intros Hs Hd d e a r' H. unfold read_or in H.
  destruct (m (Reader d e)) as [[b|er|w] r] eqn:E; simplify_eq.
  - destruct (Hs _ _ _ _ E) as [? Hx]. split; [done|]. right. intros k. by apply read_or_ok.
  - apply Hd in E as ->. simpl. auto.
Qed.

(** Once a lossy read ran dry, the reads behind it do too, up to one that
    fails on an empty reader. *)
Class Closing {A} (m : rd A) : Prop := {
  #[global] closing_stable :: Stable m;
  #[global] closing_starving :: Starving m;
}.

Lemma closing_bind {A B} (m : rd A) (f : A → rd B) :
  Lossy m → Consuming m → (∀ a, Closing (f a)) → Closing (m ≫= f).
Proof.
  intros Hm Hc Hf. split.
  - intros d e b r'' (a & [d' e'] & H1 & H2)%rd_bind_inv.
    apply Hm in H1 as [<- [Hd|H1]]; simpl in *.
    + subst. by apply closing_starving in H2.
    + apply closing_stable in H2 as [? H2]. split; [done|]. by eapply extends_bind.
  - intros e b r'' (a & [d' e'] & H1 & H2)%rd_bind_inv.
    pose proof (Hc (Reader [] e)) as [Hs _]. rewrite H1 in Hs. simpl in Hs.
    apply suffix_nil_inv in Hs as ->. by apply closing_starving in H2.
Qed.

Lemma starving_bind {A B} (m : rd A) (f : A → rd B) : Starving m → Starving (m ≫= f).
Proof. intros Hm e b r'' (a & r' & H1 & H2)%rd_bind_inv. by apply Hm in H1. Qed.

#[export] Instance starving_readString : Starving readString.
Proof.
  unfold readString. apply starving_bind. intros e a r'. by rewrite ReadUint_empty by lia.
Qed.

Lemma closing_string {B} (f : string → rd B) : (∀ s, Stable (f s)) → Closing (readString ≫= f).
Proof. intros. split; [apply _|]. apply starving_bind, _. Qed.

#[export] Instance consuming_read_or {A} (zero : A) (m : rd A) : Consuming m → Consuming (read_or zero m).
Proof. intros Hm r. specialize (Hm r). unfold read_or. by destruct (m r) as [[| |] ?]. Qed.

#[export] Instance no_panic_read_or {A} (zero : A) (m : rd A) : NoPanic m → NoPanic (read_or zero m).
Proof. intros Hm r w. specialize (Hm r w). unfold read_or. by destruct (m r) as [[| |] ?]. Qed.

#[export] Instance no_panic_DecodeMessage : NoPanic DecodeMessage.
Proof. unfold DecodeMessage, readString. repeat apply no_panic_bind; intros; apply _. Qed.

#[export] Instance stable_DecodeMessage : Stable DecodeMessage.
Proof.
  unfold DecodeMessage. apply stable_bind; [apply _|]. intros. eapply @closing_stable.
  repeat (apply closing_bind; [apply lossy_read_or; apply _|apply _|]; intros).
  apply closing_string. apply _.
Qed.

#[export] Instance consuming_DecodeMessage : Consuming DecodeMessage.
Proof. unfold DecodeMessage, readString. repeat (apply consuming_bind; intros); apply _. Qed.

Lemma decode_truncated m b k e :
  message_fits m → encodeMessage m = b ++ k → k ≠ [] →
  ∃ er r, DecodeMessage (Reader b e) = (Err er, r).
Proof.
  intros Hm E Hk. destruct (DecodeMessage (Reader b e)) as [[m'|er|w] r] eqn:Hd; [|by eauto|].
  - destruct (stable b e m' r Hd) as [_ Hx]. specialize (Hx k).
    rewrite <-E, <-(app_nil_r (encodeMessage m)), decode_encode_message in Hx by done.
    injection Hx as _ Hx. symmetry in Hx. by apply app_eq_nil in Hx as [_ ?].
  - by edestruct (no_panic_DecodeMessage (Reader b e) w); rewrite Hd.
Qed.

Lemma decode_cut b e :
  (b = [] ∨ ∃ m k, message_fits m ∧ encodeMessage m = b ++ k ∧ k ≠ []) →
  ∃ er r, DecodeMessage (Reader b e) = (Err er, r).
Proof.
  intros [->|(m & k & ? & ? & ?)]; [|by eapply decode_truncated].
  exists e, (Reader [] e). apply rd_bind_err. unfold readString. apply rd_bind_err.
  by rewrite ReadUint_empty by lia.
Qed.

Lemma run_stream ms b fuel e :
  Forall message_fits ms →
  (b = [] ∨ ∃ m k, message_fits m ∧ encodeMessage m = b ++ k ∧ k ≠ []) →
  length (concat (encodeMessage <$> ms) ++ b) < fuel →
  ∃ er, runMonitor fuel (Reader (concat (encodeMessage <$> ms) ++ b) e) = (ms, Some er).
Proof.
  intros Hms Hb. revert fuel. induction Hms as [|m ms Hm Hms IH]; intros fuel Hf; (destruct fuel as [|fuel]; [lia|]).
  - cbn [fmap list_fmap concat app runMonitor].
    destruct (decode_cut b e Hb) as (er & r & ->). eauto.
  - cbn [fmap list_fmap concat runMonitor] in *. rewrite <-app_assoc in *.
    rewrite decode_encode_message by done.
    assert (0 < length (encodeMessage m)).
    { unfold encodeMessage, write_string, u16. rewrite binary_Write_scalar. autorewrite with lengths. lia. }
    destruct (IH fuel) as (er & ->); [rewrite length_app in Hf; unfold encodeMessage in *; lia|]. eauto.
Qed.

(** C16: the monitor that reads a connection prints exactly the messages that
    were sent, in order, and stops with an error where the connection ends,
    also in the middle of a message; no fuel beyond one turn per byte is
    needed. *)
Theorem runMonitor_stream ms b fuel e :
  Forall message_fits ms →
  (b = [] ∨ ∃ m k, message_fits m ∧ encodeMessage m = b ++ k ∧ k ≠ []) →
  length (concat (encodeMessage <$> ms) ++ b) < fuel →
  ∃ er, runMonitor fuel (Reader (concat (encodeMessage <$> ms) ++ b) e) = (ms, Some er).
Proof. apply run_stream. Qed.

(** ** The filter of a subscriber *)

Definition source_accepts (source : string) (realtime : bool) : bool :=
  if decide (source = "realtime") then realtime
  else if decide (source = "playback") then negb realtime
  else bool_decide (source = "").

(** What the configuration of a subscriber means. *)
Definition wants (o : Options) (msg : Message) : Prop :=
  ((o_Instance o < 0)%Z ∨ o_Instance o = m_Instance msg) ∧
  (o_Channels o = [] ∨ m_Channel msg ∈ o_Channels o) ∧
  source_accepts (o_Source o) (m_Realtime msg) = true.

(** Fact: when its channels are listed in descending order, a subscriber accepts
    exactly the messages of its instance, its channels and its source; no
    options accept everything. *)
Theorem Accept_wants o msg :
  StronglySorted (λ a b, (b <=? a)%Z = true) (o_Channels o) →
  (Accept (Some o) msg = None ↔ wants o msg) ∧ Accept None msg = None.
Proof.
  intros Hs. split; [|done]. unfold wants, Accept.
  rewrite (search_rejects_sorted (λ a b, (b <=? a)%Z)) by (done || (intros; lia)).
  change (if decide (o_Source o = "realtime") then _ else _) with
    (source_accepts (o_Source o) (m_Realtime msg)).
  repeat case_decide; try case_bool_decide; simpl;
    try destruct (source_accepts _ _); naive_solver lia.
Qed.

(** Fact: a subscriber with two or more channels in ascending order, the order of
    the binary search of the other filters, is refused every message. *)
Theorem Accept_ascending source inst chs msg :
  StronglySorted Z.lt chs → 2 ≤ length chs → ∃ er, Accept (Some (mkOptions source inst chs)) msg = Some er.
Proof.
  intros Hs Hl. unfold Accept; cbn [o_Instance o_Channels o_Source].
  rewrite (search_rejects_reversed (λ a b, (b <=? a)%Z)); [|intros; lia|intros; lia| |done].
  - case_decide; eauto.
  - eapply StronglySorted_impl; [|done]. intros; simpl in *; lia.
Qed.

(** ** The pool: nothing is lost between the queue and the messages *)

Definition flat (l : list (key * list HRPacket)) : list (key * HRPacket) :=
  l ≫= λ kps, (kps.1,.) <$> kps.2.

Definition packet_of (i : Item) : key * HRPacket := (key_of i, it_HRPacket i).

Section pool_theorems.
Context {sorter : SliceSorter} {N : Type}.
Implicit Types (p : Pool N) (s : pool_state N).

Definition queued s : list Item := default [] (p_queue (ps_pool s)).

(** Everything the pool holds or has announced. *)
Definition held s : list (key * HRPacket) :=
  (packet_of <$> queued s) ++ flat (map_to_list (ps_cache s)) ++ flat (ps_groups s).

(** Whether a call of [Pool.Notify] puts its item in the queue. *)
Definition too_old (now : Time) (limit : Z) (t : Time) : bool :=
  bool_decide (0 < limit)%Z && bool_decide (limit < Sub now t)%Z.

Definition enqueues (now : Time) p (i : Item) : bool :=
  match it_HRPacket i, p_queue p with
  | (Image _ v _ | Table _ v _), Some q =>
      negb (too_old now (p_limit p) (vh_Timestamp v)) && bool_decide (length q < queue_capacity)
  | _, _ => false
  end.

Fixpoint accepted s (evs : list event) : list Item :=
  match evs with
  | [] => []
  | ev :: evs =>
      match ev with
      | Arrives now i => if enqueues now (ps_pool s) i then [i] else []
      | _ => []
      end ++ accepted (notify_step s ev) evs
  end.

Lemma Pool_Notify_enqueues now p i :
  Pool_Notify now (Some p) i =
  Ok (if enqueues now p i then mkPool (p_notifiers p) (p_limit p) ((.++ [i]) <$> p_queue p) else p).
Proof.
  unfold Pool_Notify, enqueues, too_old. destruct p as [ns l [q|]]; simpl; destruct (it_HRPacket i); try done.
  all: repeat case_decide; repeat case_bool_decide; simpl; try done; naive_solver.
Qed.

Lemma flat_app l k : flat (l ++ k) = flat l ++ flat k.
Proof. apply bind_app. Qed.

Lemma flat_perm l k : l ≡ₚ k → flat l ≡ₚ flat k.
Proof. unfold flat. by intros ->. Qed.

Lemma flat_filter l : flat (filter (λ '(_, ps), ps ≠ []) l) = flat l.
Proof.
  induction l as [|[k ps] l IH]; [done|]. rewrite filter_cons. case_decide as Hps; simpl.
  - unfold flat in *. simpl. by rewrite IH.
  - by subst ps.
Qed.

Lemma flat_empty l : Forall (λ kps, kps.2 = []) l → flat l = [].
Proof. induction 1 as [|[k ps] l H _ IH]; [done|]. simpl in H. subst. done. Qed.

Lemma flat_cache_append (k : key) (q : HRPacket) (c : gmap key (list HRPacket)) :
  flat (map_to_list (cache_append k q c)) ≡ₚ (k, q) :: flat (map_to_list c).
Proof.
  unfold cache_append. rewrite <-insert_delete_eq.
  rewrite (flat_perm (map_to_list (<[k:=_]> _)) _ (map_to_list_insert _ _ _ (lookup_delete_eq _ _))).
  destruct (c !! k) as [ps|] eqn:E; simpl.
  - rewrite (flat_perm (map_to_list c) _ (symmetry (map_to_list_delete _ _ _ E))).
    unfold flat; simpl. rewrite fmap_app. simpl. solve_Permutation.
  - by rewrite delete_id.
Qed.

Lemma flat_flushed (c : gmap key (list HRPacket)) :
  flat (map_to_list (filter (λ '(_, ps), ps = []) c)) = [].
Proof.
  apply flat_empty, Forall_forall. intros [k ps] H%elem_of_map_to_list. simpl.
  by apply map_lookup_filter_Some in H as [_ ?].
Qed.

Lemma held_step s ev :
  held (notify_step s ev) ≡ₚ
  held s ++ (packet_of <$> match ev with
                           | Arrives now i => if enqueues now (ps_pool s) i then [i] else []
                           | _ => [] end).
Proof.
  destruct ev as [now i| |]; unfold held; cbn [notify_step].
  - rewrite Pool_Notify_enqueues. cbn [ps_pool ps_cache ps_groups]. unfold queued. destruct (enqueues _ _ _) eqn:E; simpl.
    + unfold enqueues in E. destruct (p_queue (ps_pool s)) as [q|]; [|by destruct (it_HRPacket i)].
      simpl. rewrite fmap_app. simpl. solve_Permutation.
    + by rewrite app_nil_r.
  - rewrite app_nil_r. unfold receive, queued. destruct (p_queue (ps_pool s)) as [[|i q]|] eqn:E;
      rewrite ?E; try done. simpl.
    rewrite flat_cache_append. unfold packet_of at 3. solve_Permutation.
  - rewrite app_nil_r. destruct (p_queue (ps_pool s)) as [q|] eqn:E; [|done].
    unfold tick, queued; simpl. rewrite E. rewrite flat_flushed, flat_app, flat_filter. simpl. solve_Permutation.
Qed.

Lemma held_notify s evs : held (notify s evs) ≡ₚ held s ++ (packet_of <$> accepted s evs).
Proof.
  revert s. induction evs as [|ev evs IH]; intros s; cbn [accepted].
  - by rewrite app_nil_r.
  - change (notify s (ev :: evs)) with (notify (notify_step s ev) evs).
    rewrite IH, held_step, fmap_app. by rewrite <-app_assoc.
Qed.

Lemma held_new ns a e : held (new_state (NewPool (N:=N) ns a e)) = [].
Proof.
  unfold held, new_state, NewPool, queued. simpl. rewrite map_to_list_empty.
  by case_decide.
Qed.

Lemma queue_step s ev :
  length (queued s) ≤ queue_capacity → length (queued (notify_step s ev)) ≤ queue_capacity.
Proof.
  unfold queued. destruct ev as [now i| |]; cbn [notify_step].
  - rewrite Pool_Notify_enqueues. cbn [ps_pool]. destruct (enqueues _ _ _) eqn:E; [|done].
    unfold enqueues in E. destruct (p_queue (ps_pool s)) as [q|]; [|done]. simpl.
    intros _. rewrite length_app. simpl.
    destruct (it_HRPacket i); [..|done]; apply andb_true_iff in E as [_ E%bool_decide_eq_true]; lia.
  - unfold receive. destruct (p_queue (ps_pool s)) as [[|i q]|] eqn:E; simpl; rewrite ?E; simpl; lia.
  - destruct (p_queue (ps_pool s)) eqn:E; simpl; by rewrite ?E.
Qed.

(** C12: whatever the interleaving of the program's calls with the pool's
    goroutine, every packet the pool accepted is at every moment in exactly
    one place, as often as it was accepted: in its queue, in its cache, or in
    the group of one message; and the queue never exceeds its capacity. *)
Theorem pool_conservation ns a e evs :
  let s := notify (new_state (NewPool ns a e)) evs in
  held s ≡ₚ packet_of <$> accepted (new_state (NewPool ns a e)) evs ∧
  length (queued s) ≤ queue_capacity.
Proof.
  cbv zeta. split.
  - by rewrite held_notify, held_new.
  - assert (length (queued (new_state (NewPool ns a e))) ≤ queue_capacity) as H0.
    { unfold queued, NewPool. simpl. case_decide; simpl; lia. }
    revert H0. generalize (new_state (NewPool ns a e)).
    induction evs as [|ev evs IH]; intros s Hs; [done|].
    apply IH. by apply queue_step.
Qed.

Lemma receive_all s q :
  p_queue (ps_pool s) = Some q →
  p_queue (ps_pool (notify s (replicate (length q) Receives))) = Some [] ∧
  held (notify s (replicate (length q) Receives)) ≡ₚ held s.
Proof.
  revert s. induction q as [|i q IH]; intros s Hq; [done|].
  simpl length. simpl replicate.
  change (notify s (Receives :: ?l)) with (notify (receive s) l).
  destruct (IH (receive s)) as [H1 H2].
  { unfold receive. by rewrite Hq. }
  split; [done|]. rewrite H2. change (receive s) with (notify_step s Receives).
  by rewrite held_step, app_nil_r.
Qed.

(** C30: once the goroutine has received what is queued, its next tick
    announces everything: the queue and the cache are empty, and the groups
    hold what the pool held. *)
Theorem pool_drains s q :
  p_queue (ps_pool s) = Some q →
  let s' := notify s (replicate (length q) Receives ++ [Ticks]) in
  queued s' = [] ∧ flat (map_to_list (ps_cache s')) = [] ∧ flat (ps_groups s') ≡ₚ held s.
Proof.
  intros Hq. cbv zeta. destruct (receive_all s q Hq) as [H1 H2].
  unfold notify in *. rewrite foldl_app. cbn [foldl].
  set (s1 := foldl notify_step s _) in *.
  assert (queued (notify_step s1 Ticks) = []) as Hq'.
  { unfold queued. simpl. rewrite H1. simpl. by rewrite H1. }
  assert (flat (map_to_list (ps_cache (notify_step s1 Ticks))) = []) as Hc.
  { simpl. rewrite H1. simpl. apply flat_flushed. }
  split_and!; [done..|]. rewrite <-H2.
  transitivity (held (notify_step s1 Ticks)); [unfold held; by rewrite Hq', Hc|].
  by rewrite held_step, app_nil_r.
Qed.

(** Fact: the message of a group takes its place in the sequence, its time and
    its reference from a packet of the group with the least sequence number,
    its source from the group, and counts the packets. *)
Theorem group_message_least k ps :
  ps ≠ [] →
  ∃ m first, group_message k ps = Ok m ∧ first ∈ ps ∧
    (∀ hp, hp ∈ ps → (Sequence first ≤ Sequence hp)%Z) ∧
    m_Sequence m = Sequence first ∧ m_Reference m = Filename first ∧
    m_Acquired m = t_sec (Timestamp first) ∧ m_Channel m = Stream first ∧
    m_Realtime m = k.1.1 ∧ m_Origin m = k.1.2 ∧ m_Instance m = swrap 32 k.2 ∧
    m_Count m = wrap 32 (Z.of_nat (length ps)).
Proof.
  intros Hne. unfold group_message. pose proof (length_sort_slice Sequence ps) as Hlen.
  destruct (sort_slice Sequence ps) as [|first l] eqn:E.
  { destruct ps; [done|]. by simpl in Hlen. }
  destruct (last (first :: l)) as [lst|] eqn:El; [|by apply last_None in El].
  eexists _, first. split; [done|]. split_and!; simpl in *; try done.
  - by rewrite <-(sort_slice_perm Sequence ps), E; left.
  - by eapply sort_slice_head.
  - by rewrite <-Hlen.
Qed.

(** Fact: packets of a group with distinct sequence numbers are announced by the
    same message in whatever order they arrived. *)
Theorem group_message_order k ps qs :
  ps ≡ₚ qs → NoDup (Sequence <$> ps) → group_message k ps = group_message k qs.
Proof. intros Hp Hd. unfold group_message. by rewrite (sort_slice_unique Sequence ps qs). Qed.
End pool_theorems.

(** ** Examples *)

Definition sample_message : Message :=
  mkMessage "51" 17 255 1 false 3 2000000000 1262304000 1577836800 "0051_y800_1_7_20200101_000000.dat" "OPS".

Lemma runMonitor_stream_witness :
  ∃ er, runMonitor 256 (Reader (concat (encodeMessage <$> [sample_message]) ++ take 20 (encodeMessage sample_message)) EOF)
    = ([sample_message], Some er).
Proof.
  apply (runMonitor_stream [sample_message] (take 20 (encodeMessage sample_message)) 256 EOF).
  - repeat constructor; compute_decide.
  - right. exists sample_message, (drop 20 (encodeMessage sample_message)).
    split; [compute_decide|]. by rewrite take_drop.
  - compute_decide.
Defined.

Lemma Accept_wants_witness :
  (Accept (Some (mkOptions "playback" (-1) [3; 1]%Z)) sample_message = None ↔
   wants (mkOptions "playback" (-1) [3; 1]%Z) sample_message) ∧ Accept None sample_message = None.
Proof. apply Accept_wants. repeat constructor. Defined.

Lemma Accept_ascending_witness :
  ∃ er, Accept (Some (mkOptions "playback" (-1) [1; 3]%Z)) sample_message = Some er.
Proof. apply Accept_ascending; [repeat constructor; lia|simpl; lia]. Defined.

Definition sample_time : Time := time_Unix 0 1577836800.

Definition sample_items : list Item :=
  [mkItem 255 (sample_table "OPS" 12 true [x01]); mkItem 255 (sample_table "OPS" 11 true [x02]);
   mkItem 1 (sample_image "TEST" 7 true [x03])].

Definition sample_state : pool_state string :=
  notify (new_state (NewPool ["udp"] 0 1)) (Arrives sample_time <$> sample_items).

Lemma pool_drains_witness :
  let s' := notify sample_state [Receives; Receives; Receives; Ticks] in
  queued s' = [] ∧ flat (map_to_list (ps_cache s')) = [] ∧ flat (ps_groups s') ≡ₚ held sample_state.
Proof. by apply (pool_drains sample_state sample_items). Defined.

Definition sample_group : list HRPacket :=
  [sample_table "OPS" 12 true [x01]; sample_table "OPS" 11 true [x02]].

Lemma group_message_least_witness :
  ∃ m first, group_message (true, "51", 255%Z) sample_group = Ok m ∧ first ∈ sample_group ∧
    (∀ hp, hp ∈ sample_group → (Sequence first ≤ Sequence hp)%Z) ∧
    m_Sequence m = Sequence first ∧ m_Reference m = Filename first ∧
    m_Acquired m = t_sec (Timestamp first) ∧ m_Channel m = Stream first ∧
    m_Realtime m = true ∧ m_Origin m = "51" ∧ m_Instance m = swrap 32 255 ∧
    m_Count m = wrap 32 2.
Proof. by apply (group_message_least (true, "51", 255%Z) sample_group). Defined.

Lemma group_message_order_witness :
  group_message (true, "51", 255%Z) sample_group = group_message (true, "51", 255%Z) (reverse sample_group).
Proof.
  apply group_message_order; [by rewrite reverse_Permutation|compute_decide].
Defined.
