(* ===== verification/Fs.v ===== *)
(** * Fs: the files the program reads and writes

    The operations of [os] and [io/ioutil] the storages use, on a file system
    of directories, regular files that share their content through inodes
    (hard links), and symbolic links.  What the operating system refuses for
    reasons of its own (permissions, a full disk) is the parameter [denied]:
    an operation on a denied path fails and changes nothing. *)

From S2P Require Import Prelude Bytes GoStd.
From Stdlib Require Import ZArith Lia.

(** ** State *)

Inductive entry : Type :=
  | Regular (ino : nat)
  | Symbolic (target : string).

#[global] Instance entry_eq_dec : EqDecision entry.
Proof. solve_decision. Defined.

Record fs : Type := mkFs {
  fs_dirs : gset string;
  fs_entries : gmap string entry;
  fs_inodes : gmap nat (list byte);
  fs_next : nat;
}.

Definition empty_fs : fs := mkFs ∅ ∅ ∅ 0.

(** The directory a path is in. *)
Definition parent (p : string) : string :=
  render (is_rooted p) (removelast (clean_segs p)).

(** The directories on the way to a path, the path included. *)
Definition ancestors (p : string) : list string :=
  (λ n, render (is_rooted p) (take n (clean_segs p))) <$> seq 0 (S (length (clean_segs p))).

#[global] Arguments ancestors _ : simpl never.

(** ** Effects: an error keeps the state reached. *)
Definition io (A : Type) : Type := fs → result A * fs.

#[global] Instance io_ret : MRet io := λ A a s, (Ok a, s).
#[global] Instance io_bind : MBind io := λ A B f m s,
  match m s with
  | (Ok a, s') => f a s'
  | (Err e, s') => (Err e, s')
  | (Panic w, s') => (Panic w, s')
  end.

Definition io_fail {A} (e : error) : io A := λ s, (Err e, s).

(** A call whose error is dropped. *)
Definition ignore {A} (m : io A) : io unit := λ s,
  match m s with (Panic w, s') => (Panic w, s') | (_, s') => (Ok (), s') end.

(** [err] as a value: [None] for nil. *)
Definition try_io {A} (m : io A) : io (option A) := λ s,
  match m s with (Ok a, s') => (Ok (Some a), s') | (Err _, s') => (Ok None, s') | (Panic w, s') => (Panic w, s') end.

Section os.
Context (denied : string → option error).

Definition guarded {A} (p : string) (m : io A) : io A := λ s,
  match denied p with Some e => (Err e, s) | None => m s end.

Definition ErrNotExist (p : string) : error := Errorf "%s: no such file or directory" [AStr p].
Definition ErrExist (p : string) : error := Errorf "%s: file exists" [AStr p].
Definition ErrNotDir (p : string) : error := Errorf "%s: not a directory" [AStr p].

(** [os.MkdirAll] *)
Definition MkdirAll (p : string) : io unit := guarded p (λ s,
  if decide (Exists (λ d, is_Some (fs_entries s !! d)) (ancestors p)) then (Err (ErrNotDir p), s)
  else (Ok (), mkFs (fs_dirs s ∪ list_to_set (ancestors p)) (fs_entries s) (fs_inodes s) (fs_next s))).

(** Where a symbolic link leads: a relative target starts at the directory of
    the link. *)
Definition link_target (p target : string) : string :=
  if is_rooted target then Clean target else Join [parent p; target].

(** The regular file a path denotes; the kernel gives up after a number of
    symbolic links. *)
Fixpoint resolve (fuel : nat) (s : fs) (p : string) : option nat :=
  match fuel with
  | O => None
  | S fuel =>
      match fs_entries s !! p with
      | Some (Regular ino) => Some ino
      | Some (Symbolic t) => resolve fuel s (link_target p t)
      | None => None
      end
  end.

Definition max_links : nat := 40.

(** What a stat tells the program. *)
Inductive mode : Type := IsDir | IsRegular.

#[global] Instance mode_eq_dec : EqDecision mode.
Proof. solve_decision. Defined.

(** [os.Stat] *)
Definition Stat (p : string) : io mode := guarded p (λ s,
  if decide (p ∈ fs_dirs s) then (Ok IsDir, s)
  else match resolve max_links s p with
       | Some _ => (Ok IsRegular, s)
       | None => (Err (ErrNotExist p), s)
       end).

(** [ioutil.ReadFile] *)
Definition read_file (s : fs) (p : string) : option (list byte) :=
  resolve max_links s p ≫= λ ino, fs_inodes s !! ino.

(** [ioutil.WriteFile] creates the file or truncates the one that is there,
    whose inode stays. *)
Definition WriteFile (p : string) (bs : list byte) : io unit := guarded p (λ s,
  match fs_entries s !! p with
  | None =>
      if decide (parent p ∈ fs_dirs s ∧ p ∉ fs_dirs s) then
        (Ok (), mkFs (fs_dirs s) (<[p := Regular (fs_next s)]> (fs_entries s))
                  (<[fs_next s := bs]> (fs_inodes s)) (S (fs_next s)))
      else (Err (ErrNotExist p), s)
  | Some _ =>
      match resolve max_links s p with
      | Some ino => (Ok (), mkFs (fs_dirs s) (fs_entries s) (<[ino := bs]> (fs_inodes s)) (fs_next s))
      | None => (Err (ErrNotExist p), s)
      end
  end).

(** [os.Remove] of a file or a link. *)
Definition Remove (p : string) : io unit := guarded p (λ s,
  match fs_entries s !! p with
  | Some _ => (Ok (), mkFs (fs_dirs s) (delete p (fs_entries s)) (fs_inodes s) (fs_next s))
  | None => (Err (ErrNotExist p), s)
  end).

Definition add_entry (p : string) (e : entry) : io unit := λ s,
  if decide (fs_entries s !! p = None ∧ p ∉ fs_dirs s) then
    if decide (parent p ∈ fs_dirs s) then
      (Ok (), mkFs (fs_dirs s) (<[p := e]> (fs_entries s)) (fs_inodes s) (fs_next s))
    else (Err (ErrNotExist p), s)
  else (Err (ErrExist p), s).

(** [os.Link] *)
Definition Link (old new : string) : io unit := guarded new (λ s,
  match fs_entries s !! old with
  | Some e => add_entry new e s
  | None => (Err (ErrNotExist old), s)
  end).

(** [os.Symlink] *)
Definition Symlink (old new : string) : io unit := guarded new (add_entry new (Symbolic old)).
End os.

(** ** Well-formed file systems

    Inodes are allocated below [fs_next], every entry has one, and nothing is
    both a directory and a file. *)
Record fs_wf (s : fs) : Prop := {
  wf_inodes i : is_Some (fs_inodes s !! i) → i < fs_next s;
  wf_entries p i : fs_entries s !! p = Some (Regular i) → is_Some (fs_inodes s !! i);
  wf_dirs p : p ∈ fs_dirs s → fs_entries s !! p = None;
}.

Lemma empty_fs_wf : fs_wf empty_fs.
Proof. split; simpl; [by intros i [? [=]]|by intros p i|set_solver]. Qed.

Lemma io_bind_inv {A B} (m : io A) (f : A → io B) s b s'' :
  (m ≫= f) s = (Ok b, s'') → ∃ a s', m s = (Ok a, s') ∧ f a s' = (Ok b, s'').
Proof. unfold mbind, io_bind. destruct (m s) as [[a|e|w] s'] eqn:E; naive_solver. Qed.

(** An operation preserves an invariant whether it fails or not. *)
Definition preserves {A} (P : fs → Prop) (m : io A) : Prop := ∀ s, P s → P (m s).2.

Lemma preserves_ret {A} P (a : A) : preserves P (mret a).
Proof. by intros s. Qed.
Lemma preserves_fail {A} P e : preserves P (io_fail (A:=A) e).
Proof. by intros s. Qed.
Lemma preserves_bind {A B} P (m : io A) (f : A → io B) :
  preserves P m → (∀ a, preserves P (f a)) → preserves P (m ≫= f).
Proof.
  intros Hm Hf s Hs. specialize (Hm s Hs). unfold mbind, io_bind.
  destruct (m s) as [[a|e|w] s']; simpl in *; [by apply Hf|done..].
Qed.
Lemma preserves_ignore {A} P (m : io A) : preserves P m → preserves P (ignore m).
Proof. intros Hm s Hs. specialize (Hm s Hs). unfold ignore. by destruct (m s) as [[| |] ?]. Qed.
Lemma preserves_try {A} P (m : io A) : preserves P m → preserves P (try_io m).
Proof. intros Hm s Hs. specialize (Hm s Hs). unfold try_io. by destruct (m s) as [[| |] ?]. Qed.

Create HintDb fs discriminated.
#[export] Hint Resolve preserves_ret preserves_fail preserves_bind preserves_ignore preserves_try : fs.

Section os_lemmas.
Context (denied : string → option error).

Lemma preserves_guarded {A} P p (m : io A) : preserves P m → preserves P (guarded denied p m).
Proof. intros Hm s Hs. unfold guarded. destruct (denied p); [done|by apply Hm]. Qed.

Lemma MkdirAll_wf p : preserves fs_wf (MkdirAll denied p).
Proof.
  apply preserves_guarded. intros s Hs. case_decide as Hd; [done|]. destruct Hs as [H1 H2 H3].
  split; cbn [snd fs_dirs fs_entries fs_inodes fs_next]; [done..|].
  intros q [Hq|Hq]%elem_of_union; [by apply H3|].
  apply elem_of_list_to_set in Hq. rewrite <-Forall_Exists_neg, Forall_forall in Hd.
  apply eq_None_not_Some. by apply Hd.
Qed.

Lemma resolve_Some fuel s p i :
  fs_wf s → resolve fuel s p = Some i → is_Some (fs_inodes s !! i).
Proof.
  intros Hs. revert p. induction fuel as [|fuel IH]; intros p; simpl; [done|].
  destruct (fs_entries s !! p) as [[j|t]|] eqn:E; [|by apply IH|done].
  intros [= <-]. by eapply wf_entries.
Qed.

Lemma WriteFile_wf p bs : preserves fs_wf (WriteFile denied p bs).
Proof.
  apply preserves_guarded. intros s Hs. pose proof Hs as [H1 H2 H3].
  destruct (fs_entries s !! p) as [e|] eqn:E.
  - destruct (resolve max_links s p) as [i|] eqn:Er; [|done]. apply resolve_Some in Er; [|done].
    split; simpl; [|intros q j Hq; rewrite lookup_insert_is_Some'; right; by eapply H2|done].
    intros j [<-|Hj]%lookup_insert_is_Some'; by apply H1.
  - case_decide as Hp; [|done]. split; simpl.
    + intros j [<-|Hj]%lookup_insert_is_Some'; [lia|]. apply H1 in Hj. lia.
    + intros q j. rewrite lookup_insert_is_Some', lookup_insert_Some.
      intros [[_ [= <-]]|[_ Hq]]; [by left|right; by eapply H2].
    + intros q Hq. rewrite lookup_insert_ne; [by apply H3|]. intros ->. naive_solver.
Qed.

Lemma Remove_wf p : preserves fs_wf (Remove denied p).
Proof.
  apply preserves_guarded. intros s Hs. pose proof Hs as [H1 H2 H3].
  destruct (fs_entries s !! p) as [e|] eqn:E; [|done]. split; simpl; [done| |].
  - intros q j [_ Hq]%lookup_delete_Some. by eapply H2.
  - intros q Hq. apply lookup_delete_None. right. by apply H3.
Qed.

Lemma add_entry_wf p e :
  ∀ s, fs_wf s → (∀ i, e = Regular i → is_Some (fs_inodes s !! i)) → fs_wf (add_entry p e s).2.
Proof.
  intros s Hs He. pose proof Hs as [H1 H2 H3]. unfold add_entry. do 2 (case_decide; [|done]).
  split; simpl; [done| |].
  - intros q j [[_ [= ->]]|[_ Hq]]%lookup_insert_Some; [by apply He|by eapply H2].
  - intros q Hq. rewrite lookup_insert_ne; [by apply H3|]. intros ->. naive_solver.
Qed.

Lemma Link_wf old new : preserves fs_wf (Link denied old new).
Proof.
  apply preserves_guarded. intros s Hs. destruct (fs_entries s !! old) as [e|] eqn:E; [|done].
  apply add_entry_wf; [done|]. intros i ->. by eapply wf_entries.
Qed.

Lemma Symlink_wf old new : preserves fs_wf (Symlink denied old new).
Proof. apply preserves_guarded. intros s Hs. by apply add_entry_wf. Qed.

Lemma Stat_wf p : preserves fs_wf (Stat denied p).
Proof.
  apply preserves_guarded. intros s Hs. case_decide; [done|]. by destruct (resolve _ _ _).
Qed.
End os_lemmas.
#[export] Hint Resolve MkdirAll_wf WriteFile_wf Remove_wf Link_wf Symlink_wf Stat_wf : fs.

(** ** A system that refuses nothing *)

Definition healthy : string → option error := λ _, None.

Lemma MkdirAll_healthy p s :
  Forall (λ d, fs_entries s !! d = None) (ancestors p) →
  MkdirAll healthy p s =
  (Ok (), mkFs (fs_dirs s ∪ list_to_set (ancestors p)) (fs_entries s) (fs_inodes s) (fs_next s)).
Proof.
  intros H. unfold MkdirAll, guarded, healthy. rewrite decide_False; [done|].
  rewrite <-Forall_Exists_neg. eapply Forall_impl; [exact H|]. simpl. intros d ->. by intros [? ?].
Qed.

Lemma Remove_healthy p s :
  ignore (Remove healthy p) s = (Ok (), mkFs (fs_dirs s) (delete p (fs_entries s)) (fs_inodes s) (fs_next s)).
Proof.
  unfold ignore, Remove, guarded, healthy. destruct (fs_entries s !! p) eqn:E; [done|].
  rewrite delete_id by done. by destruct s.
Qed.

(** A path that can be written: no directory, no symbolic link. *)
Definition writable (s : fs) (p : string) : Prop :=
  parent p ∈ fs_dirs s ∧ p ∉ fs_dirs s ∧ ∀ t, fs_entries s !! p ≠ Some (Symbolic t).

(** What a write of a writable path does. *)
Definition write_to (p : string) (bs : list byte) (s : fs) : fs :=
  match fs_entries s !! p with
  | Some (Regular i) => mkFs (fs_dirs s) (fs_entries s) (<[i := bs]> (fs_inodes s)) (fs_next s)
  | _ => mkFs (fs_dirs s) (<[p := Regular (fs_next s)]> (fs_entries s)) (<[fs_next s := bs]> (fs_inodes s)) (S (fs_next s))
  end.

Lemma WriteFile_healthy p bs s : writable s p → WriteFile healthy p bs s = (Ok (), write_to p bs s).
Proof.
  intros (Hpar & Hd & Hsym). unfold WriteFile, guarded, healthy, write_to.
  destruct (fs_entries s !! p) as [[i|t]|] eqn:E; [|by destruct (Hsym t)|].
  - unfold resolve, max_links. by rewrite E.
  - by rewrite decide_True.
Qed.

(** The content of a regular file. *)
Definition content (s : fs) (p : string) : option (list byte) :=
  match fs_entries s !! p with Some (Regular i) => fs_inodes s !! i | _ => None end.

Lemma read_file_content s p bs : content s p = Some bs → read_file s p = Some bs.
Proof.
  unfold content, read_file, max_links. simpl. destruct (fs_entries s !! p) as [[i|t]|]; naive_solver.
Qed.

(** Two paths that are not names of one file. *)
Definition unaliased (s : fs) (p q : string) : Prop :=
  ∀ i, fs_entries s !! p = Some (Regular i) → fs_entries s !! q ≠ Some (Regular i).

Lemma write_to_content p bs s : content (write_to p bs s) p = Some bs.
Proof.
  unfold write_to, content. destruct (fs_entries s !! p) as [[i|t]|] eqn:E; simpl;
    rewrite ?E, ?lookup_insert_eq; by rewrite ?lookup_insert_eq.
Qed.

Lemma write_to_other p q bs s :
  fs_wf s → p ≠ q → unaliased s p q → content (write_to p bs s) q = content s q.
Proof.
  intros Hs Hne Ha. unfold write_to, content.
  destruct (fs_entries s !! p) as [[i|t]|] eqn:E; simpl.
  - destruct (fs_entries s !! q) as [[j|t]|] eqn:Eq; [|done..].
    rewrite lookup_insert_ne; [done|]. intros ->. by apply (Ha j).
  - rewrite lookup_insert_ne by done. destruct (fs_entries s !! q) as [[j|u]|] eqn:Eq; [|done..].
    rewrite lookup_insert_ne; [done|]. intros <-.
    pose proof (wf_inodes s Hs _ (wf_entries s Hs _ _ Eq)). lia.
  - rewrite lookup_insert_ne by done. destruct (fs_entries s !! q) as [[j|u]|] eqn:Eq; [|done..].
    rewrite lookup_insert_ne; [done|]. intros <-.
    pose proof (wf_inodes s Hs _ (wf_entries s Hs _ _ Eq)). lia.
Qed.

Lemma write_to_entries p q bs s : p ≠ q → fs_entries (write_to p bs s) !! q = fs_entries s !! q.
Proof.
  intros Hne. unfold write_to. destruct (fs_entries s !! p) as [[i|t]|]; simpl; [done|..]; by rewrite lookup_insert_ne.
Qed.

Lemma write_to_dirs p bs s : fs_dirs (write_to p bs s) = fs_dirs s.
Proof. unfold write_to. by destruct (fs_entries s !! p) as [[i|t]|]. Qed.

Lemma write_to_regular p q bs s i :
  fs_wf s → fs_entries (write_to p bs s) !! p = Some (Regular i) → unaliased s p q →
  p ≠ q → fs_entries s !! q ≠ Some (Regular i).
Proof.
  intros Hs Hp Ha Hne Hq. unfold write_to in Hp.
  destruct (fs_entries s !! p) as [[j|t]|] eqn:E; simpl in Hp.
  - rewrite E in Hp. simplify_eq. by apply (Ha i).
  - rewrite lookup_insert_eq in Hp. simplify_eq.
    pose proof (wf_inodes s Hs _ (wf_entries s Hs _ _ Hq)). lia.
  - rewrite lookup_insert_eq in Hp. simplify_eq.
    pose proof (wf_inodes s Hs _ (wf_entries s Hs _ _ Hq)). lia.
Qed.

Lemma write_to_wf p bs s : fs_wf s → writable s p → fs_wf (write_to p bs s).
Proof.
  intros Hs Hw. pose proof (WriteFile_wf healthy p bs s Hs) as H. by rewrite WriteFile_healthy in H.
Qed.

(** ** Paths below a clean directory *)

Lemma parent_join r dir segs f :
  path_is r dir segs → simple_name f → parent (Join [dir; f]) = dir.
Proof.
  intros [Hs ->] Hf. unfold parent. rewrite Join_simple by done.
  assert (Forall simple_name (segs ++ [f])) as Hsf by (apply Forall_app; by rewrite Forall_singleton).
  rewrite is_rooted_render, clean_segs_render by done.
  by rewrite removelast_last.
Qed.

Lemma ancestors_self r dir segs : path_is r dir segs → dir ∈ ancestors dir.
Proof.
  intros [Hs ->]. unfold ancestors. rewrite clean_segs_render, is_rooted_render by done.
  apply list_elem_of_fmap. exists (length segs). rewrite take_ge by done. split; [done|].
  apply elem_of_seq. lia.
Qed.

Lemma join_name_inj r dir segs f g :
  path_is r dir segs → simple_name f → simple_name g → Join [dir; f] = Join [dir; g] → f = g.
Proof.
  intros Hd Hf Hg E. pose proof (path_is_join r dir segs f Hd Hf) as H1.
  pose proof (path_is_join r dir segs g Hd Hg) as H2. rewrite <-E in H2.
  pose proof (path_is_inj _ _ _ _ H1 H2) as Es. by apply app_inj_tail in Es as [_ ?].
Qed.

Lemma suffixed_name f x : simple_name f → 3 ≤ String.length x → str_mem slash x = false → simple_name (f +:+ x).
Proof.
  intros (H1 & H2 & H3 & H4) Hl Hx.
  assert (3 < String.length (f +:+ x)) as Hlen.
  { rewrite str_length_app. destruct f; [done|simpl; lia]. }
  split_and!; [intros E; rewrite E in Hlen; simpl in Hlen; lia..|].
  by rewrite str_mem_app, H4, Hx.
Qed.
