(* ===== verification/Storage.v ===== *)
(** * Storage: where packets go and how they are written (src/storage)

    The access control of a storage, the directories built from a packet and
    a list of levels, the broker's own packet encodings, the composition of
    storages ([storage.go]), and the record format of its archives
    ([hrdp.go]). *)

From S2P Require Import Prelude Bytes SortSearch GoStd Panda Vmu Scanner Fs.
From S2P Require Proto.
From Stdlib Require Import ZArith Lia Ascii.

(** ** Control *)

Record Control : Type := mkControl {
  ct_Type : string;
  ct_Accept : list string;
  ct_Reject : list string;
}.

(** [sort.SearchStrings] and the test behind it. *)
Definition checkOrigin (o : string) (vs : list string) : bool :=
  if decide (length vs = 0) then true else str_search vs o.

Section control.
Context {panda : PandaLib}.

Definition Can (c : option Control) (p : HRPacket) : bool :=
  match c with
  | None => true
  | Some c =>
      let o :=
        if decide (ct_Type c = "" ∨ ct_Type c = "channel") then Some (Channel_String (Stream p))
        else if decide (ct_Type c = "origin" ∨ ct_Type c = "source") then Some (Origin p)
        else None in
      match o with
      | None => false
      | Some o =>
          if decide (length (ct_Accept c) = 0 ∧ length (ct_Reject c) = 0) then true
          else if decide (length (ct_Accept c) = 0) then negb (checkOrigin o (ct_Reject c))
          else checkOrigin o (ct_Accept c) || negb (checkOrigin o (ct_Reject c))
      end
  end.
End control.

(** ** Options *)

Inductive Options : Type := mkOptions {
  so_Scheme : string; so_Location : string; so_Format : string;
  so_Compress : bool; so_KeepBad : bool;
  so_Control : Control;
  so_Interval : Z; so_Timeout : Z; so_MaxSize : Z; so_MaxCount : Z;
  so_Epoch : string; so_Levels : list string;
  so_Shares : list Options;
  so_Link : string;
}.

Definition LevelClassic : string := "classic".
Definition LevelUPI : string := "upi".
Definition LevelSource : string := "source".
Definition LevelInstance : string := "instance".
Definition LevelType : string := "type".
Definition LevelMode : string := "mode".
Definition LevelYear : string := "year".
Definition LevelDay : string := "doy".
Definition LevelHour : string := "hour".
Definition LevelMin : string := "minute".
Definition LevelVMUTime : string := "vmu".
Definition LevelACQTime : string := "acq".

(** ** Composition of storages

    A storage acts on a world of type [W] (files, archives, connections); it
    may have a [Close]. *)
Record Storage (W : Type) : Type := mkStorage {
  st_Store : Z → HRPacket → W → option error * W;
  st_Close : option (W → option error * W);
}.
Arguments mkStorage {_} _ _.
Arguments st_Store {_} _ _ _ _.
Arguments st_Close {_} _.

Section multistore.
Context {W : Type}.

Definition multistore_Close (ms : list (Storage W)) (w : W) : option error * W :=
  foldl (λ '(err, w) s,
    match st_Close s with
    | Some close =>
        let '(e, w) := close w in
        (match e, err with Some _, None => e | _, _ => err end, w)
    | None => (err, w)
    end) (None, w) ms.

Definition multistore_Store (ms : list (Storage W)) (i : Z) (p : HRPacket) (w : W) : option error * W :=
  foldl (λ '(err, w) s,
    let '(e, w) := st_Store s i p w in
    (match e with Some _ => e | None => err end, w)) (None, w) ms.

Definition Multistore (s : list (Storage W)) : Storage W :=
  match s with
  | [s] => s
  | _ => mkStorage (multistore_Store s) (Some (multistore_Close s))
  end.
End multistore.

(** ** Directories *)

Record dirmaker : Type := mkDirmaker {
  dm_Levels : list string;
  dm_Base : string;
  dm_Time : string;
  dm_Interval : Z;
}.

Definition checkLevels (ls ds : list string) : list string :=
  let vs := filter (λ s, s ≠ "") ls in
  if decide (length vs = 0) then ds else vs.

Definition NewDirectory (base time : string) (levels : list string) (interval : Z) : dirmaker :=
  mkDirmaker (checkLevels levels [LevelClassic; LevelVMUTime]) base time interval.

Section directories.
Context {panda : PandaLib}.

Definition getVMUTime (p : HRPacket) : Time :=
  let t := match p with
           | Table _ v _ => vh_Timestamp v
           | Image _ v _ => vh_Timestamp v
           | OtherPacket _ => zero_time
           end in
  AdjustGenerationTime (t_sec t).

Definition getACQTime (p : HRPacket) : Time := Timestamp p.

Definition upi_trim (bs : list byte) : string :=
  let bs := TrimNul bs in
  if decide (0 < length bs) then ReplaceByte (string_of bs) " " "-" else "".

Definition getUPI (p : HRPacket) : string :=
  let '(upi, u) :=
    match p with
    | Table _ _ sdh =>
        ("SCIENCES", match sdh_type sdh with IsSDHv2 v => upi_trim (s2_Info v) | _ => "" end)
    | Image _ _ idh =>
        ("IMAGES", match idh_type idh with
                   | IsIDHv1 inf => upi_trim inf
                   | IsIDHv2 v => upi_trim (i2_Info v)
                   | OtherIDH => ""
                   end)
    | OtherPacket _ => ("", "")
    end in
  if decide (0 < String.length u) then u else upi.

Definition modeDir (base : string) (p : HRPacket) : string :=
  if IsRealtime p then Join [base; "realtime"] else Join [base; "playback"].

Definition typeDir (base : string) (p : HRPacket) : string :=
  match p with
  | Table _ _ _ => Join [base; "sciences"]
  | Image _ _ _ => Join [base; "images"]
  | OtherPacket _ => Join [base; "unknown"]
  end.

Definition instanceDir (base : string) (i : Z) : string :=
  if decide (i = Proto.TEST) then Join [base; "TEST"]
  else if decide (i = Proto.SIM1 ∨ i = Proto.SIM2) then Join [base; "SIM" +:+ Sprint i]
  else if decide (i = Proto.OPS) then Join [base; "OPS"]
  else Join [base; "DATA-" +:+ Sprint i].

(** One turn of the loop of [prepareDirectory], with [recur] for its calls of
    itself. *)
Definition level_step (recur : string → list string → Time → string) (g i : Z) (p : HRPacket) (t : Time)
    (base n : string) : string :=
  let l := ToLower n in
  if decide (l = LevelClassic) then recur base [LevelInstance; LevelType; LevelMode; LevelSource] t
  else if decide (l = LevelUPI) then Join [base; getUPI p]
  else if decide (l = LevelInstance) then instanceDir base i
  else if decide (l = LevelType) then typeDir base p
  else if decide (l = LevelMode) then modeDir base p
  else if decide (l = LevelSource) then Join [base; Origin p]
  else if decide (l = LevelYear) then Join [base; sprintf0 4 (Year t)]
  else if decide (l = LevelDay) then Join [base; sprintf0 3 (YearDay t)]
  else if decide (l = LevelHour) then Join [base; sprintf0 2 (HourOf t)]
  else if decide (l = LevelMin) then
    let m := Truncate t (seconds g) in
    if decide (0 < g)%Z then Join [base; sprintf0 2 (MinuteOf m)] else base
  else if decide (l = LevelVMUTime) then recur base [LevelYear; LevelDay; LevelHour; LevelMin] (getVMUTime p)
  else if decide (l = LevelACQTime) then recur base [LevelYear; LevelDay; LevelHour; LevelMin] (getACQTime p)
  else Join [base; n].

(** [prepareDirectory] calls itself for the composite levels, with lists that
    have none, so two levels of calls are enough ([prepare_fuel_enough]). *)
Fixpoint prepare_fuel (fuel : nat) (base : string) (levels : list string) (g i : Z) (p : HRPacket) (t : Time) : string :=
  match fuel with
  | O => base
  | S fuel => foldl (level_step (λ base ns t, prepare_fuel fuel base ns g i p t) g i p t) base levels
  end.

Definition prepareDirectory : string → list string → Z → Z → HRPacket → Time → string :=
  prepare_fuel 2.

(** The directory of a packet; [Prepare] creates it. *)
Definition directory_of (d : dirmaker) (i : Z) (p : HRPacket) : string :=
  let l := ToLower (dm_Time d) in
  let t := if decide (l = "vmu" ∨ l = "") then getVMUTime p
           else if decide (l = "acq") then getACQTime p else zero_time in
  let t := if IsZero t then Timestamp p else t in
  prepareDirectory (dm_Base d) (dm_Levels d) (dm_Interval d) i p t.

Definition Prepare (denied : string → option error) (d : dirmaker) (i : Z) (p : HRPacket) : io string :=
  let base := directory_of d i p in
  MkdirAll denied base;; mret base.

(** ** Encodings *)

(** The bytes [encodeRawPacket] writes; the error is the one of a failed
    [ExportRaw], the only source of one. *)
Definition encodeRawPacket (p : HRPacket) : result (list byte) :=
  match p with
  | Table h _ sdh =>
      match sdh_Four sdh with
      | None => hr_ExportRaw h
      | Some FCC =>
          Ok (binary_Write BigEndian FCC ++
              binary_Write BigEndian (u32 (Sequence p)) ++
              match sdh_type sdh with
              | IsSDHv2 s => binary_Write BigEndian (s2_Acquisition s)
              | _ => binary_Write BigEndian (i64 (t_sec (Timestamp p)))
              end ++ Payload p)
      end
  | Image h _ idh =>
      match idh_Bitmap idh with
      | None => hr_ExportRaw h
      | Some (FCC, X, Y) =>
          Ok (binary_Write BigEndian FCC ++
              binary_Write BigEndian (u32 (Sequence p)) ++
              match idh_type idh with
              | IsIDHv2 i => binary_Write BigEndian (i2_Acquisition i)
              | _ => binary_Write BigEndian (i64 (t_sec (Timestamp p)))
              end ++
              binary_Write BigEndian X ++ binary_Write BigEndian Y ++ Payload p)
      end
  | OtherPacket _ => Ok []
  end.

(** [strconv.ParseUint(s, 16, 8)] *)
Definition hex_digit (a : ascii) : option Z :=
  let n := Z.of_N (N_of_ascii a) in
  if decide (48 ≤ n ≤ 57)%Z then Some (n - 48)%Z
  else if decide (97 ≤ n ≤ 102)%Z then Some (n - 87)%Z
  else if decide (65 ≤ n ≤ 70)%Z then Some (n - 55)%Z
  else None.

Fixpoint hex_digits (acc : Z) (s : string) : option Z :=
  match s with
  | EmptyString => Some acc
  | String a s => d ← hex_digit a; hex_digits (acc * 16 + d) s
  end.

(** A syntax error anywhere wins over a value out of range only when it comes
    first; both are errors to the program. *)
Definition ParseUint16_8 (s : string) : result Z :=
  match s with
  | EmptyString => Err (Errorf "strconv.ParseUint: parsing %q: invalid syntax" [AStr s])
  | _ => match hex_digits 0 s with
         | Some v => if decide (v < 256)%Z then Ok v
                     else Err (Errorf "strconv.ParseUint: parsing %q: value out of range" [AStr s])
         | None => Err (Errorf "strconv.ParseUint: parsing %q: invalid syntax" [AStr s])
         end
  end.

Definition hrdpHeaderSize : Z := 44.

(** [upi := make([]byte, 32); copy(upi, s)] *)
Definition upi_field (s : string) : list byte :=
  let bs := take 32 (bytes_of s) in bs ++ replicate (32 - length bs) Byte.x00.

(** The record [encodeHadock] builds. *)
Definition hadock_bytes (i : Z) (p : HRPacket) : result (list byte) :=
  o ← ParseUint16_8 (Origin p);
  b ← encodeRawPacket p;
  Ok (binary_Write BigEndian (u32 (wrap 32 (Z.of_nat (length b) + hrdpHeaderSize))) ++
      binary_Write BigEndian (u8 i) ++
      binary_Write BigEndian (u8 (Stream p)) ++
      binary_Write BigEndian (gobool (IsRealtime p)) ++
      binary_Write BigEndian (u8 o) ++
      binary_Write BigEndian (u32 (Sequence p)) ++
      binary_Write BigEndian (u32 (wrap 32 (t_sec (Timestamp p)))) ++
      upi_field (getUPI p) ++ b).

(** A writer takes bytes and a world to an error and a world. *)
Definition writer (W : Type) : Type := list byte → W → option error * W.

(** The error of the write is assigned and not returned. *)
Definition encodeHadock {W} (ws : writer W) (i : Z) (p : HRPacket) (w : W) : result (option error) * W :=
  match hadock_bytes i p with
  | Ok bs => let '(_, w) := ws bs w in (Ok None, w)
  | Err e => (Ok (Some e), w)
  | Panic why => (Panic why, w)
  end.

(** [encodeHRDP]: [vmu.EncodePacket(w, p, true)]. *)
Definition encodeHRDP {W} (Now GPSNow : Time) (Split5 : Time → Z * Z) (ws : writer W) (p : HRPacket) (w : W) : result (option error) * W :=
  match Vmu.EncodePacket Now GPSNow Split5 p true with
  | Ok bs => let '(e, w) := ws bs w in (Ok e, w)
  | Err e => (Ok (Some e), w)
  | Panic why => (Panic why, w)
  end.

(** [hrdpstore]: the encoding chosen by the options, on its writer. *)
Definition hrdp_format (format : string) : result bool :=
  let f := ToLower format in
  if decide (f = "hrdp" ∨ f = "vmu") then Ok true
  else if decide (f = "hadock" ∨ f = "hdk") then Ok false
  else Err (Errorf "unknown format %q" [AStr format]).

Definition hrdpstore_Store {W} (Now GPSNow : Time) (Split5 : Time → Z * Z) (vmu : bool) (ws : writer W)
    (i : Z) (p : HRPacket) (w : W) : result (option error) * W :=
  if vmu then encodeHRDP Now GPSNow Split5 ws p w else encodeHadock ws i p w.

(** [hrdpstore.Open]: the file an archive rolls to at time [w], whose clock is
    [clock] ([w.Format("150405")]). *)
Definition hrdp_datadir (datadir : string) (w : Time) : string :=
  Join [datadir; sprintf0 4 (Year w); sprintf0 3 (YearDay w); sprintf0 2 (HourOf w)].

Definition hrdp_file (datadir : string) (w : Time) (clock : string) : string :=
  Join [hrdp_datadir datadir w; "hdk_" +:+ clock +:+ ".dat"].

(** ** Archives (archives.go) *)

Definition cacheKey (i : Z) (p : HRPacket) : string :=
  let base := instanceDir "" i in
  let base := modeDir base p in
  let base := typeDir base p in
  Join [base; Origin p].
End directories.

(** ** Access control *)

Lemma checkOrigin_sorted o vs :
  StronglySorted (λ a b, String.leb a b = true) vs →
  checkOrigin o vs = bool_decide (vs = [] ∨ o ∈ vs).
Proof.
  intros Hs. unfold checkOrigin. case_decide as Hl.
  - destruct vs; [|done]. symmetry. apply bool_decide_eq_true. by left.
  - rewrite str_search_sorted by done. apply bool_decide_ext.
    destruct vs; [done|]. naive_solver.
Qed.

(** What a control is about: the channel's name or the packet's origin. *)
Definition subject `{PandaLib} (c : Control) (p : HRPacket) : option string :=
  if decide (ct_Type c = "" ∨ ct_Type c = "channel") then Some (Channel_String (Stream p))
  else if decide (ct_Type c = "origin" ∨ ct_Type c = "source") then Some (Origin p)
  else None.

(** Fact: with sorted lists, a storage takes a packet when its control has no
    list, or when the packet's subject is accepted, or when there is a list
    of rejections that does not name it; a control of unknown type takes
    nothing, no control takes everything. *)
Theorem Can_sorted `{PandaLib} c p :
  StronglySorted (λ a b, String.leb a b = true) (ct_Accept c) →
  StronglySorted (λ a b, String.leb a b = true) (ct_Reject c) →
  (Can (Some c) p = true ↔
   ∃ o, subject c p = Some o ∧
     (ct_Accept c = [] ∧ ct_Reject c = [] ∨ o ∈ ct_Accept c ∨ ct_Reject c ≠ [] ∧ o ∉ ct_Reject c)) ∧
  Can None p = true.
Proof.
  intros Ha Hr. split; [|done]. unfold Can, subject.
  destruct (if decide _ then _ else _) as [o|]; [|naive_solver].
  rewrite !checkOrigin_sorted by done.
  destruct (ct_Accept c) as [|a la], (ct_Reject c) as [|r lr];
    repeat (case_decide || case_bool_decide); simpl in *; naive_solver (try lia; set_solver).
Qed.

(** ** Composition *)

Section multistore_theorems.
Context {W : Type}.

(** The world after the stores ran one after the other. *)
Definition run_all (ops : list (W → option error * W)) (w : W) : W :=
  foldl (λ w f, (f w).2) w ops.

(** The errors they reported, in order. *)
Fixpoint errors_of (ops : list (W → option error * W)) (w : W) : list error :=
  match ops with
  | [] => []
  | f :: ops => option_list (f w).1 ++ errors_of ops (f w).2
  end.

Lemma store_fold (ops : list (W → option error * W)) err w :
  foldl (λ '(err, w) f, let '(e, w) := f w in (match e with Some _ => e | None => err end, w)) (err, w) ops
  = (match last (errors_of ops w) with Some e => Some e | None => err end, run_all ops w).
Proof.
  revert err w. induction ops as [|f ops IH]; intros err w; [done|].
  cbn [foldl errors_of run_all]. destruct (f w) as [e w'] eqn:E. cbn [fst snd]. rewrite IH.
  f_equal. rewrite last_app. destruct (last (errors_of ops w')); [done|]. by destruct e.
Qed.

Lemma close_fold (ops : list (W → option error * W)) err w :
  foldl (λ '(err, w) f, let '(e, w) := f w in (match e, err with Some _, None => e | _, _ => err end, w)) (err, w) ops
  = (match err with Some e => Some e | None => head (errors_of ops w) end, run_all ops w).
Proof.
  revert err w. induction ops as [|f ops IH]; intros err w; [by destruct err|].
  cbn [foldl errors_of run_all]. destruct (f w) as [e w'] eqn:E. cbn [fst snd]. rewrite IH.
  by destruct e, err.
Qed.

(** Fact: every storage of a broker is given every packet, in order, whatever
    the storages before it return, and is closed when it can be; [Store]
    reports the last error, [Close] the first. *)
Theorem Multistore_all (ms : list (Storage W)) i p w :
  length ms ≠ 1 →
  let stores := (λ s, st_Store s i p) <$> ms in
  let closes := omap st_Close ms in
  st_Store (Multistore ms) i p w = (last (errors_of stores w), run_all stores w) ∧
  ∃ close, st_Close (Multistore ms) = Some close ∧
    close w = (head (errors_of closes w), run_all closes w).
Proof.
  intros Hl stores closes.
  assert (st_Store (Multistore ms) i p w = multistore_Store ms i p w ∧
          st_Close (Multistore ms) = Some (multistore_Close ms)) as [-> ->].
  { destruct ms as [|s [|s' ms]]; [done|done|done]. }
  split.
  - transitivity (match last (errors_of stores w) with Some e => Some e | None => None end, run_all stores w);
      [|by destruct (last _)].
    rewrite <-store_fold. unfold multistore_Store, stores. clear. generalize (@None error).
    revert w. induction ms as [|s ms IH]; intros w e; [done|]. cbn.
    destruct (st_Store s i p w). apply IH.
  - eexists. split; [done|].
    change (head (errors_of closes w)) with
      (match @None error with Some e => Some e | None => head (errors_of closes w) end).
    rewrite <-close_fold. unfold multistore_Close, closes. clear. generalize (@None error).
    revert w. induction ms as [|s ms IH]; intros w e; [done|]. cbn.
    destruct (st_Close s) as [c|]; cbn; [|apply IH]. destruct (c w). apply IH.
Qed.
End multistore_theorems.

(** ** Directories: the segments of a packet *)

Section segments.
Context {panda : PandaLib}.
Implicit Types (p : HRPacket) (t : Time).

Definition instance_seg (i : Z) : string :=
  if decide (i = Proto.TEST) then "TEST"
  else if decide (i = Proto.SIM1 ∨ i = Proto.SIM2) then "SIM" +:+ Sprint i
  else if decide (i = Proto.OPS) then "OPS"
  else "DATA-" +:+ Sprint i.

Definition type_seg p : string :=
  match p with Table _ _ _ => "sciences" | Image _ _ _ => "images" | OtherPacket _ => "unknown" end.

Definition mode_seg p : string := if IsRealtime p then "realtime" else "playback".

Definition minute_segs (g : Z) t : list string :=
  if decide (0 < g)%Z then [sprintf0 2 (MinuteOf (Truncate t (seconds g)))] else [].

Definition time_segs (g : Z) t : list string :=
  [sprintf0 4 (Year t); sprintf0 3 (YearDay t); sprintf0 2 (HourOf t)] ++ minute_segs g t.

Definition classic_segs (i : Z) p : list string :=
  [instance_seg i; type_seg p; mode_seg p; Origin p].

(** What a level adds to the directory. *)
Definition level_segs (g i : Z) p t (n : string) : list string :=
  let l := ToLower n in
  if decide (l = LevelClassic) then classic_segs i p
  else if decide (l = LevelUPI) then [getUPI p]
  else if decide (l = LevelInstance) then [instance_seg i]
  else if decide (l = LevelType) then [type_seg p]
  else if decide (l = LevelMode) then [mode_seg p]
  else if decide (l = LevelSource) then [Origin p]
  else if decide (l = LevelYear) then [sprintf0 4 (Year t)]
  else if decide (l = LevelDay) then [sprintf0 3 (YearDay t)]
  else if decide (l = LevelHour) then [sprintf0 2 (HourOf t)]
  else if decide (l = LevelMin) then minute_segs g t
  else if decide (l = LevelVMUTime) then time_segs g (getVMUTime p)
  else if decide (l = LevelACQTime) then time_segs g (getACQTime p)
  else [n].

Definition known_levels : list string :=
  [LevelClassic; LevelUPI; LevelInstance; LevelType; LevelMode; LevelSource; LevelYear;
   LevelDay; LevelHour; LevelMin; LevelVMUTime; LevelACQTime].

(** A level of the configuration names a known level or one directory. *)
Definition level_ok (n : string) : Prop := ToLower n ∈ known_levels ∨ simple_name n.

(** The strings of the packet that become names do not reach elsewhere. *)
Definition packet_names_ok p : Prop := simple_name (Origin p) ∧ simple_name (getUPI p).

Lemma prefix_name_simple (x : string) z :
  x ≠ "" → all_string name_char x = true → simple_name (x +:+ Sprint z).
Proof.
  intros Hne Hx. apply all_name_simple; [by destruct x|].
  by rewrite all_string_app, Hx, Sprint_name.
Qed.

Lemma instance_seg_simple i : simple_name (instance_seg i).
Proof.
  unfold instance_seg. repeat case_decide; try (by apply prefix_name_simple); by compute_decide.
Qed.

Lemma type_seg_simple p : simple_name (type_seg p).
Proof. by destruct p; compute_decide. Qed.

Lemma mode_seg_simple p : simple_name (mode_seg p).
Proof. unfold mode_seg. by destruct (IsRealtime p); compute_decide. Qed.

Lemma instanceDir_seg base i : instanceDir base i = Join [base; instance_seg i].
Proof. unfold instanceDir, instance_seg. by repeat case_decide. Qed.
Lemma typeDir_seg base p : typeDir base p = Join [base; type_seg p].
Proof. by destruct p. Qed.
Lemma modeDir_seg base p : modeDir base p = Join [base; mode_seg p].
Proof. unfold modeDir, mode_seg. by destruct (IsRealtime p). Qed.

(** The turn of the loop for each simple level. *)
Section steps.
Context (recur : string → list string → Time → string) (g i : Z) (p : HRPacket) (t : Time) (base : string).
Lemma step_upi : level_step recur g i p t base LevelUPI = Join [base; getUPI p].
Proof. reflexivity. Qed.
Lemma step_instance : level_step recur g i p t base LevelInstance = Join [base; instance_seg i].
Proof. apply instanceDir_seg. Qed.
Lemma step_type : level_step recur g i p t base LevelType = Join [base; type_seg p].
Proof. apply typeDir_seg. Qed.
Lemma step_mode : level_step recur g i p t base LevelMode = Join [base; mode_seg p].
Proof. apply modeDir_seg. Qed.
Lemma step_source : level_step recur g i p t base LevelSource = Join [base; Origin p].
Proof. reflexivity. Qed.
Lemma step_year : level_step recur g i p t base LevelYear = Join [base; sprintf0 4 (Year t)].
Proof. reflexivity. Qed.
Lemma step_day : level_step recur g i p t base LevelDay = Join [base; sprintf0 3 (YearDay t)].
Proof. reflexivity. Qed.
Lemma step_hour : level_step recur g i p t base LevelHour = Join [base; sprintf0 2 (HourOf t)].
Proof. reflexivity. Qed.
Lemma step_minute : level_step recur g i p t base LevelMin =
  (let m := Truncate t (seconds g) in if decide (0 < g)%Z then Join [base; sprintf0 2 (MinuteOf m)] else base).
Proof. reflexivity. Qed.
End steps.

Create HintDb seg discriminated.
#[local] Hint Resolve instance_seg_simple type_seg_simple mode_seg_simple sprintf0_simple : seg.

(** One turn of the loop, and the loop on levels that all behave. *)
Lemma path_is_fold r (f : string → string → string) (segs_of : string → list string) levels base segs :
  (∀ base segs n, n ∈ levels → path_is r base segs → path_is r (f base n) (segs ++ segs_of n)) →
  path_is r base segs → path_is r (foldl f base levels) (segs ++ concat (segs_of <$> levels)).
Proof.
  revert base segs. induction levels as [|n levels IH]; intros base segs Hf Hb; simpl.
  - by rewrite app_nil_r.
  - rewrite app_assoc. apply IH; [intros *; set_solver|]. apply Hf; [left|done].
Qed.

Lemma path_is_minute r base segs g t :
  path_is r base segs →
  path_is r (let m := Truncate t (seconds g) in
             if decide (0 < g)%Z then Join [base; sprintf0 2 (MinuteOf m)] else base)
    (segs ++ minute_segs g t).
Proof.
  intros Hb. unfold minute_segs. cbv zeta. case_decide; [by apply path_is_join; auto with seg|].
  by rewrite app_nil_r.
Qed.

Lemma prepare_time r base segs fuel g i p t :
  path_is r base segs →
  path_is r (prepare_fuel (S fuel) base [LevelYear; LevelDay; LevelHour; LevelMin] g i p t)
    (segs ++ time_segs g t).
Proof.
  intros Hb. unfold time_segs. rewrite app_assoc. cbn [prepare_fuel foldl].
  rewrite step_year, step_day, step_hour, step_minute. apply path_is_minute.
  change [?a; ?b; ?c] with ([a] ++ [b] ++ [c]). rewrite !app_assoc.
  repeat (apply path_is_join; [|by auto with seg]). done.
Qed.

Lemma prepare_classic r base segs fuel g i p t :
  simple_name (Origin p) → path_is r base segs →
  path_is r (prepare_fuel (S fuel) base [LevelInstance; LevelType; LevelMode; LevelSource] g i p t)
    (segs ++ classic_segs i p).
Proof.
  intros Ho Hb. unfold classic_segs. cbn [prepare_fuel foldl].
  rewrite step_instance, step_type, step_mode, step_source.
  change [?a; ?b; ?c; ?d] with ([a] ++ [b] ++ [c] ++ [d]). rewrite !app_assoc.
  repeat (apply path_is_join; [|by auto with seg]). done.
Qed.

Lemma prepare_level r fuel g i p t base segs n :
  packet_names_ok p → level_ok n → path_is r base segs →
  path_is r (prepare_fuel (S (S fuel)) base [n] g i p t) (segs ++ level_segs g i p t n).
Proof.
  intros [Ho Hu] Hn Hb. unfold level_segs.
  cbn [prepare_fuel foldl]. fold prepare_fuel. unfold level_step at 1. cbv zeta.
  rewrite ?instanceDir_seg, ?typeDir_seg, ?modeDir_seg.
  repeat match goal with |- context [decide (ToLower n = ?x)] => destruct (decide (ToLower n = x)) end;
    first [ by apply prepare_classic | by apply prepare_time | by apply path_is_minute
          | by apply path_is_join; auto with seg | idtac ].
  apply path_is_join; [done|]. destruct Hn as [Hn|Hn]; [|done].
  exfalso. revert Hn. unfold known_levels. set_solver.
Qed.
End segments.

(** ** Directories: the theorems *)

Section directory_theorems.
Context {panda : PandaLib}.
Implicit Types (p : HRPacket) (t : Time).

Lemma prepare_levels r fuel g i p t base segs levels :
  packet_names_ok p → Forall level_ok levels → path_is r base segs →
  path_is r (prepare_fuel (S (S fuel)) base levels g i p t) (segs ++ concat (level_segs g i p t <$> levels)).
Proof.
  intros Hp Hl Hb.
  exact (path_is_fold r (λ base n, prepare_fuel (S (S fuel)) base [n] g i p t) (level_segs g i p t)
    levels base segs (λ base segs n Hn, prepare_level r fuel g i p t base segs n Hp
      (proj1 (Forall_forall _ _) Hl n Hn)) Hb).
Qed.

(** C23: the directory of a packet whose origin and user packet information are
    names (not empty, without a separator, neither [.] nor [..];
    [prepareDirectory_escapes] shows what others do), under levels that are
    known or names themselves, is the base directory, a clean path, followed by
    the segments of the levels, one after the other; in particular it lies
    under the base, however deep the recursion of the composite levels is
    allowed to go. *)
Theorem prepareDirectory_segs r base segs fuel levels g i p t :
  path_is r base segs → packet_names_ok p → Forall level_ok levels →
  prepareDirectory base levels g i p t = render r (segs ++ concat (level_segs g i p t <$> levels)) ∧
  prepare_fuel (2 + fuel) base levels g i p t = prepareDirectory base levels g i p t.
Proof.
  intros Hb Hp Hl.
  destruct (prepare_levels r 0 g i p t base segs levels Hp Hl Hb) as [_ H0].
  destruct (prepare_levels r fuel g i p t base segs levels Hp Hl Hb) as [_ H].
  split; [exact H0|]. exact (eq_trans H (eq_sym H0)).
Qed.

Lemma instance_seg_inj i j : instance_seg i = instance_seg j → i = j.
Proof.
  unfold instance_seg. assert (Inj (=) (=) Sprint) as Hinj by apply pretty_Z_inj.
  revert Hinj. generalize Sprint. intros f Hf. rewrite !str_app_cons, !str_app_nil_l.
  destruct (decide (i = Proto.TEST)), (decide (j = Proto.TEST)); try congruence;
  destruct (decide (i = Proto.SIM1 ∨ i = Proto.SIM2)), (decide (j = Proto.SIM1 ∨ j = Proto.SIM2)); try discriminate;
  destruct (decide (i = Proto.OPS)), (decide (j = Proto.OPS)); try discriminate; try congruence;
  intros E; injection E as E; by apply Hf.
Qed.

Lemma type_seg_inj p q : type_seg p = type_seg q →
  match p, q with
  | Table _ _ _, Table _ _ _ | Image _ _ _, Image _ _ _ | OtherPacket _, OtherPacket _ => True
  | _, _ => False
  end.
Proof. by destruct p, q. Qed.

Lemma mode_seg_inj p q : mode_seg p = mode_seg q → IsRealtime p = IsRealtime q.
Proof. unfold mode_seg. by destruct (IsRealtime p), (IsRealtime q). Qed.

Lemma default_directory r base segs time g i p :
  path_is r base segs → packet_names_ok p →
  path_is r (directory_of (NewDirectory base time [] g) i p)
    (segs ++ classic_segs i p ++ time_segs g (getVMUTime p)).
Proof.
  intros Hb Hp. unfold directory_of, NewDirectory; cbn [dm_Time dm_Base dm_Levels dm_Interval].
  set (t := if IsZero _ then _ else _). clearbody t. unfold checkLevels. rewrite decide_True by done.
  unfold prepareDirectory.
  pose proof (prepare_levels r 0 g i p t base segs [LevelClassic; LevelVMUTime] Hp) as H.
  cbn [fmap list_fmap concat] in H. rewrite app_nil_r in H. apply H; [|done].
  repeat constructor; unfold level_ok, known_levels; set_solver.
Qed.

(** C25: under the default levels, packets that differ in instance, kind,
    mode, origin, or in the year, day or hour of their VMU time go to
    different directories. *)
Theorem default_directory_distinct r base segs time g i j p q :
  path_is r base segs → packet_names_ok p → packet_names_ok q →
  let dir := directory_of (NewDirectory base time [] g) in
  dir i p = dir j q →
  i = j ∧ type_seg p = type_seg q ∧ IsRealtime p = IsRealtime q ∧ Origin p = Origin q ∧
  Year (getVMUTime p) = Year (getVMUTime q) ∧ YearDay (getVMUTime p) = YearDay (getVMUTime q) ∧
  HourOf (getVMUTime p) = HourOf (getVMUTime q).
Proof.
  intros Hb Hp Hq dir E.
  pose proof (default_directory r base segs time g i p Hb Hp) as H1.
  pose proof (default_directory r base segs time g j q Hb Hq) as H2.
  fold dir in H1, H2. rewrite <-E in H2. pose proof (path_is_inj _ _ _ _ H1 H2) as Es.
  apply app_inv_head in Es. unfold classic_segs, time_segs in Es. cbn [app] in Es.
  apply cons_eq_inj in Es as [E1 Es]. apply cons_eq_inj in Es as [E2 Es]. apply cons_eq_inj in Es as [E3 Es].
  apply cons_eq_inj in Es as [E4 Es]. apply cons_eq_inj in Es as [E5 Es]. apply cons_eq_inj in Es as [E6 Es].
  apply cons_eq_inj in Es as [E7 _].
  apply instance_seg_inj in E1. apply (mode_seg_inj p q) in E3.
  apply sprintf0_inj in E5, E6, E7. split_and!; assumption.
Qed.

(** The key of a packet in an archive. *)
Lemma cacheKey_path i p :
  simple_name (Origin p) → path_is false (cacheKey i p) [instance_seg i; mode_seg p; type_seg p; Origin p].
Proof.
  intros Ho. unfold cacheKey. rewrite instanceDir_seg, modeDir_seg, typeDir_seg.
  pose proof (instance_seg_simple i). pose proof (type_seg_simple p). pose proof (mode_seg_simple p).
  change [?a; ?b; ?c; ?d] with ((([a] ++ [b]) ++ [c]) ++ [d]).
  do 3 (apply path_is_join; [|done]). rewrite Join_empty_simple by done. split; [|done].
  by rewrite Forall_singleton.
Qed.

(** It tells instance, mode, kind and origin apart, and nothing else. *)
Lemma cacheKey_iff i j p q :
  simple_name (Origin p) → simple_name (Origin q) →
  cacheKey i p = cacheKey j q ↔ i = j ∧ type_seg p = type_seg q ∧ IsRealtime p = IsRealtime q ∧ Origin p = Origin q.
Proof.
  intros Hp Hq. pose proof (cacheKey_path i p Hp) as H1. pose proof (cacheKey_path j q Hq) as H2. split.
  - intros E. rewrite <-E in H2. pose proof (path_is_inj _ _ _ _ H1 H2) as Es. injection Es as E1 E3 E2 E4.
    apply instance_seg_inj in E1. apply (mode_seg_inj p q) in E3. done.
  - intros (-> & E2 & E3 & E4). destruct H1 as [_ ->], H2 as [_ ->]. unfold mode_seg. by rewrite E2, E3, E4.
Qed.

(** Fact: an archive's key tells instance, mode, kind and origin apart. *)
Theorem cacheKey_distinct i j p q :
  simple_name (Origin p) → simple_name (Origin q) → cacheKey i p = cacheKey j q →
  i = j ∧ type_seg p = type_seg q ∧ IsRealtime p = IsRealtime q ∧ Origin p = Origin q.
Proof. intros Hp Hq. by apply cacheKey_iff. Qed.

(** Fact: the user packet information of a packet goes into its path as it is:
    one that climbs leaves the base directory. *)
Theorem prepareDirectory_escapes r base segs s x g i p t :
  path_is r base (segs ++ [s]) → simple_name x → getUPI p = "../" +:+ x →
  prepareDirectory base [LevelUPI] g i p t = render r (segs ++ [x]).
Proof.
  intros [Hs ->] Hx Hu. unfold prepareDirectory. cbn [prepare_fuel foldl]. rewrite step_upi, Hu.
  change ("../" +:+ x) with (".." +:+ String slash x).
  rewrite Join_render by done. rewrite Split_app by done. rewrite (Split_simple slash x) by apply Hx.
  rewrite rev_app_distr. cbn [rev app clean_loop].
  rewrite (decide_False (P := ".." = "" ∨ ".." = ".")) by (by intros [?|?]).
  rewrite decide_True by done.
  apply Forall_app in Hs as [Hs Hs1]. apply Forall_singleton in Hs1 as (_ & _ & Hs1 & _).
  rewrite decide_False by done.
  f_equal. change (clean_loop r (rev segs) [x] = segs ++ [x]).
  rewrite clean_loop_simple by (by constructor). by rewrite rev_involutive.
Qed.

(** The minute and the hour of a second within an hour. *)
Lemma minute_in_hour a x : (0 ≤ x < 3600)%Z → ((3600 * a + x) mod 3600 / 60 = x / 60)%Z.
Proof.
  intros Hx. f_equal. replace (3600 * a + x)%Z with (x + a * 3600)%Z by lia.
  rewrite Z_mod_plus_full. by apply Z.mod_small.
Qed.

Lemma hour_in_day a x : (0 ≤ x < 3600)%Z → ((3600 * a + x) mod 86400 / 3600 = a mod 24)%Z.
Proof.
  intros Hx. assert ((3600 * a + x) mod 86400 = 3600 * (a mod 24) + x)%Z as ->.
  { symmetry. apply Z.mod_unique with (a / 24)%Z; [|div_lia].
    left. pose proof (Z.mod_pos_bound a 24). lia. }
  rewrite (Z.mul_comm 3600), Z.div_add_l by lia. rewrite Z.div_small by lia. lia.
Qed.

(** Fact: with an interval of [k] minutes that divides the hour, the minute
    directory is the minute of the packet rounded down to the interval, and
    the truncated time is in the hour of the hour directory. *)
Theorem minute_level k t :
  (0 < k)%Z → (60 mod k = 0)%Z → (t_off t mod 3600 = 0)%Z → (0 ≤ t_nsec t < Second)%Z →
  minute_segs (60 * k) t = [sprintf0 2 (k * (MinuteOf t / k))] ∧
  HourOf (Truncate t (seconds (60 * k))) = HourOf t.
Proof.
  intros Hk H60 Hoff Hns.
  assert (k ≤ 60)%Z as Hk60.
  { destruct (decide (k ≤ 60)%Z); [done|]. rewrite Z.mod_small in H60 by lia. lia. }
  pose proof (t_sec_Truncate t (60 * k) ltac:(lia) Hns) as Hs.
  assert (t_off (Truncate t (seconds (60 * k))) = t_off t) as Ho by (unfold Truncate; by case_decide).
  apply Z.mod_divide in H60 as [m Hm]; [|lia].
  unfold minute_segs. rewrite decide_True by lia.
  set (T := Truncate t (seconds (60 * k))) in *. clearbody T.
  unfold MinuteOf, HourOf, wall. rewrite Hs, Ho.
  unfold unixToInternal. set (s := t_sec t) in *. set (o := t_off t) in *. clearbody s o.
  apply Z.mod_divide in Hoff as [c ->]; [|lia].
  (* everything in terms of the second of the hour *)
  assert (∃ h w, s = 3600 * h + w ∧ 0 ≤ w < 3600)%Z as (h & w & -> & Hw)
    by (exists (s / 3600)%Z, (s mod 3600)%Z; div_lia).
  assert ((3600 * h + w + 62135596800) mod (60 * k) = w mod (60 * k))%Z as ->.
  { replace (3600 * h + w + 62135596800)%Z with (w + (m * (h + 17259888)) * (60 * k))%Z; [by rewrite Z_mod_plus_full|].
    replace (m * (h + 17259888) * (60 * k))%Z with (m * k * (60 * (h + 17259888)))%Z by ring.
    rewrite <-Hm. ring. }
  pose proof (Z.div_mod w (60 * k) ltac:(lia)) as Hdm.
  pose proof (Z.mod_pos_bound w (60 * k) ltac:(lia)) as Hr.
  assert (0 ≤ 60 * k * (w / (60 * k)))%Z as Hq.
  { apply Z.mul_nonneg_nonneg; [lia|]. apply Z.div_pos; lia. }
  set (q := (w / (60 * k))%Z) in *. set (r := (w mod (60 * k))%Z) in *. clearbody q r.
  split.
  - do 2 f_equal.
    replace (3600 * h + w - r + c * 3600)%Z with (3600 * (h + c) + 60 * k * q)%Z by lia.
    replace (3600 * h + w + c * 3600)%Z with (3600 * (h + c) + w)%Z by lia.
    rewrite !minute_in_hour by lia.
    replace (60 * k * q)%Z with ((k * q) * 60)%Z by lia. rewrite Z.div_mul by lia. f_equal.
    rewrite Z.div_div by lia. apply Z.div_unique with r; lia.
  - replace (3600 * h + w - r + c * 3600)%Z with (3600 * (h + c) + (w - r))%Z by lia.
    replace (3600 * h + w + c * 3600)%Z with (3600 * (h + c) + w)%Z by lia.
    by rewrite !hour_in_day by lia.
Qed.

(** An interval that does not divide the hour puts packets under a minute that
    their hour directory does not have: 00:02 is filed as
    minute 57 of its own hour. *)
Example minute_level_odd :
  let t := mkTime 1577836920 0 0 in
  (HourOf t, MinuteOf t, minute_segs 420 t) = (0%Z, 2%Z, ["57"]).
Proof. vm_compute. reflexivity. Qed.
End directory_theorems.

(** ** The broker's own records *)

Section records.
Context {panda : PandaLib}.

Lemma length_upi_field s : length (upi_field s) = 32.
Proof. unfold upi_field. rewrite length_app, length_replicate, length_take. lia. Qed.

(** The record after its size: 44 bytes of header and the data. *)
Definition hadock_body (i o : Z) (p : HRPacket) (raw : list byte) : list byte :=
  put_uint BigEndian 1 i ++ put_uint BigEndian 1 (Stream p) ++
  put_uint BigEndian 1 (if IsRealtime p then 1 else 0)%Z ++ put_uint BigEndian 1 o ++
  put_uint BigEndian 4 (Sequence p) ++ put_uint BigEndian 4 (t_sec (Timestamp p)) ++
  upi_field (getUPI p) ++ raw.

Lemma length_hadock_body i o p raw :
  Z.of_nat (length (hadock_body i o p raw)) = (hrdpHeaderSize + Z.of_nat (length raw))%Z.
Proof. unfold hadock_body, hrdpHeaderSize. autorewrite with lengths. rewrite length_upi_field. lia. Qed.

Lemma hadock_bytes_record i p r :
  hadock_bytes i p = Ok r →
  ∃ o raw, ParseUint16_8 (Origin p) = Ok o ∧ encodeRawPacket p = Ok raw ∧
    (in_width 32 (Z.of_nat (length raw) + hrdpHeaderSize) → r = hadock_record (hadock_body i o p raw)).
Proof.
  unfold hadock_bytes. intros (o & Ho & (raw & Hraw & E)%result_bind_ok)%result_bind_ok.
  exists o, raw. split_and!; [done..|]. intros Hw. apply (inj Ok) in E as <-.
  unfold hadock_record. rewrite length_hadock_body. unfold hadock_body, u8, u32, gobool.
  rewrite !binary_Write_scalar, wrap_small by done.
  change (wrap 32 ?v) with (wrap (8 * Z.of_nat 4) v). rewrite put_uint_wrap.
  by rewrite (Z.add_comm hrdpHeaderSize).
Qed.

(** C22: an archive in the broker's format, written packet after packet, is
    cut by the scanner of the distributor into the records that were written,
    each with its header of 44 bytes. *)
Theorem hadock_archive_scanned max items rs :
  Forall2 (λ '(i, p) r, hadock_bytes i p = Ok r) items rs →
  Forall (λ r, in_width 32 (Z.of_nat (length r)) ∧ length r ≤ max) rs → 0 < max →
  (∃ ts how, scans scanPackets max (concat rs) ts how) ∧
  ∀ ts how, scans scanPackets max (concat rs) ts how →
    ts = (drop 4 <$> rs) ++ [[]] ∧ how = Finished None ∧
    Forall2 (λ '(i, p) t, ∃ o raw, ParseUint16_8 (Origin p) = Ok o ∧ encodeRawPacket p = Ok raw ∧
      t = hadock_body i o p raw) items (drop 4 <$> rs).
Proof.
  intros Hrs Hlen Hmax.
  assert (Forall2 (λ '(i, p) r, ∃ o raw, ParseUint16_8 (Origin p) = Ok o ∧ encodeRawPacket p = Ok raw ∧
    r = hadock_record (hadock_body i o p raw) ∧ in_width 32 (Z.of_nat (length (hadock_body i o p raw)))) items rs) as H.
  { induction Hrs as [|[i p] r items rs Hr _ IH]; [constructor|].
    apply Forall_cons in Hlen as [[Hw _] Hlen]. constructor; [|by apply IH].
    pose proof Hr as (o & raw & Ho & Hraw & E)%hadock_bytes_record. exists o, raw.
    assert (length r = 48 + length raw) as Hl.
    { unfold hadock_bytes in Hr. rewrite Ho, Hraw in Hr. cbn [mbind result_bind] in Hr.
      apply (inj Ok) in Hr as <-. autorewrite with lengths. by rewrite length_upi_field. }
    rewrite Hl in Hw. rewrite E by (unfold hrdpHeaderSize; width_lia). split_and!; [done..|].
    rewrite length_hadock_body. unfold hrdpHeaderSize. width_lia. }
  assert (Forall2 (framing scanPackets) rs (drop 4 <$> rs) ∧
    Forall2 (λ '(i, p) t, ∃ o raw, ParseUint16_8 (Origin p) = Ok o ∧ encodeRawPacket p = Ok raw ∧
      t = hadock_body i o p raw) items (drop 4 <$> rs)) as [Hf Hb].
  { clear Hrs Hlen. induction H as [|[i p] r items rs (o & raw & Ho & Hraw & -> & Hw) _ [IH1 IH2]]; [by split; constructor|].
    cbn. unfold hadock_record. rewrite drop_app_len by (by rewrite length_put_uint).
    split; constructor; [by apply scanPackets_framing|done|by eauto|done]. }
  destruct (scan_all scanPackets max (λ b, eq_refl) rs (drop 4 <$> rs) Hf) as [Hex Hall];
    [|done|].
  { eapply Forall_impl; [done|]. simpl. naive_solver. }
  split; [done|]. intros ts how Hs. by destruct (Hall ts how Hs) as [-> ->].
Qed.

(** Fact: an archive in the broker's format never reports a failed write, one in
    the VMU format always does. *)
Theorem hrdpstore_write_errors {W} Now GPSNow Split5 (ws : writer W) i p w r r' e :
  hadock_bytes i p = Ok r → Vmu.EncodePacket Now GPSNow Split5 p true = Ok r' →
  (ws r' w).1 = Some e →
  (hrdpstore_Store Now GPSNow Split5 false ws i p w).1 = Ok None ∧
  (hrdpstore_Store Now GPSNow Split5 true ws i p w).1 = Ok (Some e).
Proof.
  intros Hr Hr' He. unfold hrdpstore_Store, encodeHadock, encodeHRDP. rewrite Hr, Hr'.
  destruct (ws r w), (ws r' w). simpl in *. by subst.
Qed.
End records.

(** ** Examples *)

Definition sample_p : HRPacket := sample_image "OPS" 1 true [x01; x02].
Definition sample_q : HRPacket := sample_table "OPS" 2 true [x03].

Lemma sample_base : path_is true "/data" ["data"].
Proof. split; [|done]. rewrite Forall_singleton. by compute_decide. Qed.

Lemma sample_names : packet_names_ok sample_p ∧ packet_names_ok sample_q.
Proof. by repeat split; compute_decide. Qed.

Lemma Can_sorted_witness :
  (Can (Some (mkControl "channel" ["lrsd"; "vic1"] [])) sample_p = true ↔
   ∃ o, subject (mkControl "channel" ["lrsd"; "vic1"] []) sample_p = Some o ∧
     (["lrsd"; "vic1"] = [] ∧ @nil string = [] ∨ o ∈ ["lrsd"; "vic1"] ∨ @nil string ≠ [] ∧ o ∉ @nil string)) ∧
  Can None sample_p = true.
Proof. apply (Can_sorted (mkControl "channel" ["lrsd"; "vic1"] [])); repeat constructor. Defined.

Definition sample_store (fails : bool) : Storage (list Z) :=
  mkStorage (λ i p w, (if fails then Some (ErrExternal "disk full") else None, w ++ [i])) None.

Lemma Multistore_all_witness :
  let ms := [sample_store true; sample_store false] in
  let stores := (λ s, st_Store s 7 sample_p) <$> ms in
  let closes := omap st_Close ms in
  st_Store (Multistore ms) 7 sample_p [] = (last (errors_of stores []), run_all stores []) ∧
  ∃ close, st_Close (Multistore ms) = Some close ∧
    close [] = (head (errors_of closes []), run_all closes []).
Proof. by apply (Multistore_all [sample_store true; sample_store false]). Defined.

Lemma prepareDirectory_segs_witness :
  let levels := ["upi"; "Hour"; "raw"] in
  let t := sample_now in
  prepareDirectory "/data" levels 0 255 sample_p t =
    render true (["data"] ++ concat (level_segs 0 255 sample_p t <$> levels)) ∧
  prepare_fuel (2 + 3) "/data" levels 0 255 sample_p t = prepareDirectory "/data" levels 0 255 sample_p t.
Proof.
  apply prepareDirectory_segs; [apply sample_base|apply sample_names|].
  do 2 (constructor; [left; by compute_decide|]). constructor; [right; by compute_decide|constructor].
Defined.

Definition sample_p' : HRPacket := sample_image "OPS" 9 true [x07].

Lemma default_directory_distinct_witness :
  let dir := directory_of (NewDirectory "/data" "" [] 0) in
  dir 255%Z sample_p = dir 255%Z sample_p' ∧
  255%Z = 255%Z ∧ type_seg sample_p = type_seg sample_p' ∧ IsRealtime sample_p = IsRealtime sample_p' ∧
  Origin sample_p = Origin sample_p' ∧
  Year (getVMUTime sample_p) = Year (getVMUTime sample_p') ∧
  YearDay (getVMUTime sample_p) = YearDay (getVMUTime sample_p') ∧
  HourOf (getVMUTime sample_p) = HourOf (getVMUTime sample_p').
Proof.
  cbv zeta. split; [by vm_compute|].
  apply (default_directory_distinct true "/data" ["data"] "" 0 255 255 sample_p sample_p' sample_base);
    [apply sample_names|split; by compute_decide|by vm_compute].
Defined.

Lemma cacheKey_distinct_witness :
  cacheKey 255 sample_p = cacheKey 255 sample_p' ∧
  255%Z = 255%Z ∧ type_seg sample_p = type_seg sample_p' ∧ IsRealtime sample_p = IsRealtime sample_p' ∧
  Origin sample_p = Origin sample_p'.
Proof.
  split; [by vm_compute|].
  apply (cacheKey_distinct 255 255 sample_p sample_p'); [by compute_decide|by compute_decide|by vm_compute].
Defined.

Lemma prepareDirectory_escapes_witness :
  prepareDirectory "/data/hadock" [LevelUPI] 0 255 (sample_table "../etc" 1 true []) sample_now = "/data/etc".
Proof.
  apply (prepareDirectory_escapes true "/data/hadock" ["data"] "hadock" "etc");
    [|by compute_decide|by vm_compute].
  split; [|done]. repeat constructor; by compute_decide.
Defined.

Lemma minute_level_witness :
  minute_segs (60 * 5) sample_now = [sprintf0 2 (5 * (MinuteOf sample_now / 5))] ∧
  HourOf (Truncate sample_now (seconds (60 * 5))) = HourOf sample_now.
Proof. apply minute_level; [lia|done|done|by vm_compute; split]. Defined.

Lemma hadock_archive_scanned_witness :
  let rec p := match hadock_bytes 255 p with Ok r => r | _ => [] end in
  let rs := [rec sample_p; rec sample_q] in
  (∃ ts how, scans scanPackets 4096 (concat rs) ts how) ∧
  ∀ ts how, scans scanPackets 4096 (concat rs) ts how →
    ts = (drop 4 <$> rs) ++ [[]] ∧ how = Finished None ∧
    Forall2 (λ '(i, p) t, ∃ o raw, ParseUint16_8 (Origin p) = Ok o ∧ encodeRawPacket p = Ok raw ∧
      t = hadock_body i o p raw) [(255%Z, sample_p); (255%Z, sample_q)] (drop 4 <$> rs).
Proof.
  cbv zeta. apply hadock_archive_scanned; [|do 2 (apply Forall_cons; split; [by compute_decide|]); by apply Forall_nil|lia].
  apply Forall2_cons; split; [by vm_compute|]. apply Forall2_cons; split; [by vm_compute|apply Forall2_nil; done].
Defined.

Lemma hrdpstore_write_errors_witness :
  let ws : writer nat := λ bs w, (Some (ErrExternal "disk full"), S w) in
  (hrdpstore_Store sample_now sample_now sample_split5 false ws 255 sample_p 0).1 = Ok None ∧
  (hrdpstore_Store sample_now sample_now sample_split5 true ws 255 sample_p 0).1 = Ok (Some (ErrExternal "disk full")).
Proof. eapply hrdpstore_write_errors; by vm_compute. Defined.
