(* ===== verification/Files.v ===== *)
(** * Files: packets as files, and the shares that link to them
      (src/storage/files.go)

    [filestore] writes a packet below its directory, with the metadata of an
    image next to it, and links both into its shares.  A corrupted packet has
    a name that ends in [.bad]: unless the storage keeps them, it never
    replaces a good copy and goes when one arrives.

    [encodeMetadata] is the XML of a third-party header, written by
    [encoding/xml]: a parameter. *)

From S2P Require Import Prelude Bytes GoStd Panda Fs Storage.
From Stdlib Require Import ZArith Lia.

Definition BAD : string := ".bad".
Definition XML : string := ".xml".

Record linkstore : Type := mkLinkstore {
  lk_link : string;
  lk_rembad : bool;
  lk_data : dirmaker;
}.

Record filestore : Type := mkFilestore {
  fl_Control : Control;
  fl_data : dirmaker;
  fl_rembad : bool;
  fl_raw : bool;                  (* encode: raw, or the packet's own Export *)
  fl_links : list linkstore;
}.

Section files.
Context {panda : PandaLib} (denied : string → option error).
Context (encodeMetadata : HRPacket → result (list byte)).

(** A pure result inside the effects. *)
Definition lift {A} (r : result A) : io A := λ s, (r, s).

Definition newLinkStorage (o : Options) : io linkstore :=
  i ← Stat denied (so_Location o);
  match i with
  | IsRegular => io_fail (ErrNotDir (so_Location o))
  | IsDir =>
      let levels := checkLevels (so_Levels o) [LevelClassic; LevelACQTime] in
      let dm := NewDirectory (so_Location o) (so_Epoch o) levels (so_Interval o) in
      if decide (so_Link o = "" ∨ so_Link o = "hard" ∨ so_Link o = "soft") then
        mret (mkLinkstore (so_Link o) (negb (so_KeepBad o)) dm)
      else io_fail (Errorf "invalid link type %s" [AStr (so_Link o)])
  end.

Fixpoint newLinks (os : list Options) : io (list linkstore) :=
  match os with
  | [] => mret []
  | o :: os => k ← newLinkStorage o; ks ← newLinks os; mret (k :: ks)
  end.

Definition NewLocalStorage (o : Options) : io filestore :=
  i ← Stat denied (so_Location o);
  match i with
  | IsRegular => io_fail (ErrNotDir (so_Location o))
  | IsDir =>
      let dm := NewDirectory (so_Location o) (so_Epoch o) (so_Levels o) (so_Interval o) in
      links ← newLinks (so_Shares o);
      mret (mkFilestore (so_Control o) dm (negb (so_KeepBad o)) (bool_decide (so_Format o = "raw")) links)
  end.

(** [linkstore.Link] *)
Definition Link (s : linkstore) (link : string) (i : Z) (p : HRPacket) : io () :=
  dir ← Prepare denied (lk_data s) i p;
  let filename := Base link in
  let badname := filename +:+ BAD in
  ignore (Remove denied (Join [dir; filename]));;
  (if negb (IsRealtime p) && lk_rembad s then ignore (Remove denied (Join [dir; badname])) else mret ());;
  if decide (lk_link s = "hard" ∨ lk_link s = "") then Fs.Link denied link (Join [dir; filename])
  else if decide (lk_link s = "soft") then Symlink denied link (Join [dir; filename])
  else mret ().

Fixpoint linkToShare (links : list linkstore) (link : string) (i : Z) (p : HRPacket) : io () :=
  match links with
  | [] => mret ()
  | s :: links => Link s link i p;; linkToShare links link i p
  end.

Definition encode (f : filestore) (p : HRPacket) : result (list byte) :=
  if fl_raw f then encodeRawPacket p else hr_Export (info p).

Definition writeMetadata (f : filestore) (dir : string) (i : Z) (p : HRPacket) : io () :=
  w ← lift (encodeMetadata p);
  if decide (length w = 0) then mret ()
  else
    let filename := Filename p +:+ XML in
    let badname := filename +:+ BAD in
    (if negb (IsRealtime p) && fl_rembad f then ignore (Remove denied (Join [dir; badname])) else mret ());;
    let file := Join [dir; filename] in
    WriteFile denied file w;;
    linkToShare (fl_links f) file i p.

(** The error of [encode] is wrapped with the name of the file. *)
Definition encode_error (filename : string) (r : result (list byte)) : result (list byte) :=
  match r with
  | Err e => Err (ErrorfWith "%s not written: %s" [AStr filename] e)
  | r => r
  end.

Definition filestore_Store (f : filestore) (i : Z) (p : HRPacket) : io () :=
  if negb (Can (Some (fl_Control f)) p) then mret () else
  dir ← Prepare denied (fl_data f) i p;
  let filename := Filename p in
  good ← (if fl_rembad f && bool_decide (Ext filename = BAD)
          then try_io (Stat denied (Join [dir; TrimSuffix filename BAD]))
          else mret None);
  if decide (good = Some IsRegular) then mret ()
  else
    let badname := filename +:+ BAD in
    w ← lift (encode_error filename (encode f p));
    (if fl_rembad f then ignore (Remove denied (Join [dir; badname])) else mret ());;
    let file := Join [dir; filename] in
    WriteFile denied file w;;
    linkToShare (fl_links f) file i p;;
    match p with
    | Image _ _ _ => writeMetadata f dir i p
    | _ => mret ()
    end.

(** ** Every operation keeps the file system well-formed *)

Lemma lift_wf {A} (r : result A) : preserves fs_wf (lift r).
Proof. by intros s. Qed.
#[local] Hint Resolve lift_wf : fs.

Lemma Prepare_wf d i p : preserves fs_wf (Prepare denied d i p).
Proof. unfold Prepare. apply preserves_bind; auto with fs. Qed.
#[local] Hint Resolve Prepare_wf : fs.

Lemma Link_store_wf s link i p : preserves fs_wf (Link s link i p).
Proof.
  unfold Link. repeat (apply preserves_bind; intros; [auto with fs|] || apply preserves_bind; intros);
    repeat case_match; auto with fs.
Qed.

Lemma linkToShare_wf links link i p : preserves fs_wf (linkToShare links link i p).
Proof.
  induction links; simpl; [auto with fs|].
  apply preserves_bind; [apply Link_store_wf|auto].
Qed.
#[local] Hint Resolve linkToShare_wf : fs.

Lemma writeMetadata_wf f dir i p : preserves fs_wf (writeMetadata f dir i p).
Proof.
  unfold writeMetadata. apply preserves_bind; [auto with fs|]. intros w.
  case_decide; [auto with fs|]. cbv zeta.
  apply preserves_bind; [case_match; auto with fs|]. intros _.
  apply preserves_bind; auto with fs.
Qed.
#[local] Hint Resolve writeMetadata_wf : fs.

(** Whatever fails on the way, storing a packet keeps the file system
    well-formed: every name is for a file that is there, and no name is for a
    file and a directory.  What a store leaves alone is in Untouched.v. *)
Lemma filestore_Store_wf f i p : preserves fs_wf (filestore_Store f i p).
Proof.
  unfold filestore_Store. case_match; [auto with fs|].
  apply preserves_bind; [auto with fs|]. intros dir. cbv zeta.
  apply preserves_bind; [case_match; auto with fs|]. intros good.
  case_decide; [auto with fs|]. apply preserves_bind; [auto with fs|]. intros w.
  apply preserves_bind; [case_match; auto with fs|]. intros _.
  apply preserves_bind; [auto with fs|]. intros _.
  apply preserves_bind; [auto with fs|]. intros _. destruct p; auto with fs.
Qed.
End files.

(** ** What a store leaves behind *)

Definition is_image (p : HRPacket) : bool := match p with Image _ _ _ => true | _ => false end.

Lemma match_image {A} (p : HRPacket) (a b : A) :
  (match p with Image _ _ _ => a | _ => b end) = if is_image p then a else b.
Proof. by destruct p. Qed.

Section stored.
Context {panda : PandaLib}.
Context (encodeMetadata : HRPacket → result (list byte)).
Context (f : filestore) (i : Z) (p : HRPacket) (r : bool) (dir : string) (segs : list string).
Context (Hcan : Can (Some (fl_Control f)) p = true).
Context (Hdir : directory_of (fl_data f) i p = dir) (Hpath : path_is r dir segs).
Context (Hname : simple_name (Filename p)).

Let file := Join [dir; Filename p].
Let bad := Join [dir; Filename p +:+ BAD].
Let xml := Join [dir; Filename p +:+ XML].
Let xmlbad := Join [dir; (Filename p +:+ XML) +:+ BAD].

Lemma names_simple :
  simple_name (Filename p +:+ BAD) ∧ simple_name (Filename p +:+ XML) ∧ simple_name ((Filename p +:+ XML) +:+ BAD).
Proof. split_and!; repeat apply suffixed_name; done || (simpl; lia). Qed.

Lemma names_distinct :
  file ≠ bad ∧ file ≠ xml ∧ file ≠ xmlbad ∧ bad ≠ xml ∧ xml ≠ xmlbad.
Proof.
  destruct names_simple as (Hb & Hx & Hxb). unfold file, bad, xml, xmlbad.
  assert (∀ g h, simple_name g → simple_name h → g ≠ h → Join [dir; g] ≠ Join [dir; h]) as Hj.
  { intros g h Hg Hh Hne E. apply Hne. by eapply join_name_inj. }
  assert (∀ g x, x ≠ "" → g ≠ g +:+ x) as Hlen.
  { intros g x Hx' E. apply (f_equal String.length) in E. rewrite str_length_app in E.
    destruct x; [done|simpl in E; lia]. }
  split_and!; apply Hj; try done; try (by apply Hlen).
  - rewrite <-str_app_assoc. by apply Hlen.
  - intros E. assert (∀ g : string, g +:+ BAD ≠ g +:+ XML) as H; [|by apply (H (Filename p))].
    clear. intros g. induction g as [|a g IH]; [done|]. rewrite !str_app_cons. by intros [= ?].
Qed.

(** The directories the store needs are there or can be made, and what it
    writes to is a file or nothing, under one name. *)
Record ready (s : fs) : Prop := {
  ready_wf : fs_wf s;
  ready_dirs : Forall (λ d, fs_entries s !! d = None) (ancestors dir);
  ready_file : file ∉ fs_dirs s ∪ list_to_set (ancestors dir) ∧ ∀ t, fs_entries s !! file ≠ Some (Symbolic t);
  ready_xml : xml ∉ fs_dirs s ∪ list_to_set (ancestors dir) ∧ ∀ t, fs_entries s !! xml ≠ Some (Symbolic t);
  ready_alias : unaliased s file xml;
}.

Definition with_dirs (s : fs) : fs :=
  mkFs (fs_dirs s ∪ list_to_set (ancestors dir)) (fs_entries s) (fs_inodes s) (fs_next s).

Lemma Prepare_ready s : ready s → Prepare healthy (fl_data f) i p s = (Ok dir, with_dirs s).
Proof.
  intros Hs. unfold Prepare. rewrite Hdir. unfold mbind, io_bind.
  by rewrite MkdirAll_healthy by apply Hs.
Qed.

Lemma with_dirs_wf s : ready s → fs_wf (with_dirs s).
Proof.
  intros Hs. pose proof (MkdirAll_wf healthy dir s (ready_wf s Hs)) as H.
  by rewrite MkdirAll_healthy in H by apply Hs.
Qed.

Definition drop_entry (q : string) (s : fs) : fs :=
  mkFs (fs_dirs s) (delete q (fs_entries s)) (fs_inodes s) (fs_next s).

Lemma drop_entry_wf q s : fs_wf s → fs_wf (drop_entry q s).
Proof. intros Hs. pose proof (preserves_ignore _ _ (Remove_wf healthy q) s Hs) as H. by rewrite Remove_healthy in H. Qed.

Lemma drop_entry_content q q' s : q ≠ q' → content (drop_entry q s) q' = content s q'.
Proof. intros. unfold content, drop_entry; simpl. by rewrite lookup_delete_ne. Qed.

Lemma drop_entry_lookup_ne q q' s : q ≠ q' → fs_entries (drop_entry q s) !! q' = fs_entries s !! q'.
Proof. intros. simpl. by rewrite lookup_delete_ne. Qed.

(** Dropping the name of the corrupted copy, when the storage does. *)
Definition maybe_drop (c : bool) (q : string) (s : fs) : fs := if c then drop_entry q s else s.

Lemma maybe_drop_ne c q q' s : q ≠ q' → fs_entries (maybe_drop c q s) !! q' = fs_entries s !! q'.
Proof. intros. destruct c; [by apply drop_entry_lookup_ne|done]. Qed.
Lemma maybe_drop_dirs c q s : fs_dirs (maybe_drop c q s) = fs_dirs s.
Proof. by destruct c. Qed.
Lemma maybe_drop_wf c q s : fs_wf s → fs_wf (maybe_drop c q s).
Proof. destruct c; [apply drop_entry_wf|done]. Qed.
Lemma maybe_drop_content c q q' s : q ≠ q' → content (maybe_drop c q s) q' = content s q'.
Proof. intros. destruct c; [by apply drop_entry_content|done]. Qed.
Lemma maybe_drop_run (c : bool) q s :
  (if c then ignore (Remove healthy q) else mret ()) s = (Ok (), maybe_drop c q s).
Proof. destruct c; [apply Remove_healthy|done]. Qed.
Lemma maybe_drop_alias c q s a b : q ≠ a → q ≠ b → unaliased s a b → unaliased (maybe_drop c q s) a b.
Proof. intros Ha Hb H j. rewrite !maybe_drop_ne by done. apply H. Qed.

Lemma dir_on_way s : dir ∈ fs_dirs (with_dirs s).
Proof.
  cbn [with_dirs fs_dirs]. apply elem_of_union_r, elem_of_list_to_set. by eapply ancestors_self.
Qed.

(** The state after the packet itself is written. *)
Definition after_file (bs : list byte) (s : fs) : fs :=
  write_to file bs (maybe_drop (fl_rembad f) bad (with_dirs s)).

Lemma after_file_writable s :
  ready s → writable (maybe_drop (fl_rembad f) bad (with_dirs s)) file.
Proof.
  intros Hs. destruct names_distinct as (H1 & _). split_and!.
  - unfold file. rewrite (parent_join r dir segs) by done. rewrite maybe_drop_dirs. apply dir_on_way.
  - rewrite maybe_drop_dirs. apply Hs.
  - intros t. rewrite maybe_drop_ne by done. apply Hs.
Qed.

Lemma after_file_spec bs s :
  ready s →
  fs_wf (after_file bs s) ∧ content (after_file bs s) file = Some bs ∧
  fs_dirs (after_file bs s) = fs_dirs (with_dirs s) ∧
  (fl_rembad f = true → fs_entries (after_file bs s) !! bad = None) ∧
  (∀ q, q ≠ file → q ≠ bad → fs_entries (after_file bs s) !! q = fs_entries s !! q) ∧
  unaliased (after_file bs s) file xml.
Proof.
  intros Hs. destruct names_distinct as (H1 & H2 & _ & H4 & _). unfold after_file.
  pose proof (maybe_drop_wf (fl_rembad f) bad _ (with_dirs_wf s Hs)) as Hwf.
  assert (unaliased (maybe_drop (fl_rembad f) bad (with_dirs s)) file xml) as Ha.
  { apply maybe_drop_alias; [done..|apply Hs]. }
  split_and!.
  - apply write_to_wf; [done|]. by apply after_file_writable.
  - apply write_to_content.
  - by rewrite write_to_dirs, maybe_drop_dirs.
  - intros Hb. rewrite write_to_entries by done. rewrite Hb. simpl. by rewrite lookup_delete_eq.
  - intros q Hq1 Hq2. by rewrite write_to_entries, maybe_drop_ne by done.
  - intros j Hj. rewrite write_to_entries by done. by eapply write_to_regular.
Qed.

(** The state after the metadata is written. *)
Definition after_meta (ms : list byte) (s : fs) : fs :=
  write_to xml ms (maybe_drop (negb (IsRealtime p) && fl_rembad f) xmlbad s).

Lemma writeMetadata_run bs ms s :
  ready s → fl_links f = [] → encodeMetadata p = Ok ms → ms ≠ [] →
  writeMetadata healthy encodeMetadata f dir i p (after_file bs s) = (Ok (), after_meta ms (after_file bs s)).
Proof.
  intros Hs Hl Hm Hne. destruct names_distinct as (_ & H2 & _ & H4 & H5).
  destruct names_simple as (_ & Hx & _).
  destruct (after_file_spec bs s Hs) as (_ & _ & Hd & _ & Hother & _).
  unfold writeMetadata, lift, mbind, io_bind. rewrite Hm, decide_False by (by destruct ms). cbv zeta.
  rewrite maybe_drop_run. fold xml xmlbad. rewrite WriteFile_healthy; [by rewrite Hl|].
  split_and!.
  - unfold xml. rewrite (parent_join r dir segs) by done. rewrite maybe_drop_dirs, Hd. apply dir_on_way.
  - rewrite maybe_drop_dirs, Hd. apply Hs.
  - intros t. rewrite maybe_drop_ne by done. rewrite Hother by done. apply Hs.
Qed.

(** The whole of a store, on every branch of the packet's kind. *)
Lemma stores_packet s bs ms :
  ready s → fl_links f = [] → Ext (Filename p) ≠ BAD → encode f p = Ok bs →
  encodeMetadata p = Ok ms → ms ≠ [] →
  ∃ s', filestore_Store healthy encodeMetadata f i p s = (Ok (), s') ∧
    read_file s' file = Some bs ∧
    match p with Image _ _ _ => read_file s' xml = Some ms | _ => True end ∧
    (fl_rembad f = true → fs_entries s' !! bad = None) ∧
    (∀ q, q ∉ [file; bad; xml; xmlbad] → fs_entries s' !! q = fs_entries s !! q) ∧
    fs_dirs s' = fs_dirs (with_dirs s) ∧ fs_wf s' ∧ content s' file = Some bs.
Proof.
  intros Hs Hl Hext He Hm Hne. destruct names_distinct as (H1 & H2 & H3 & H4 & H5).
  destruct (after_file_spec bs s Hs) as (Hwf & Hc & Hd & Hbad & Hother & Ha).
  assert (filestore_Store healthy encodeMetadata f i p s =
    match p with Image _ _ _ => writeMetadata healthy encodeMetadata f dir i p | _ => mret () end (after_file bs s)) as ->.
  { unfold filestore_Store. rewrite Hcan. cbn [negb]. cbv zeta. unfold mbind at 1, io_bind at 1.
    rewrite (Prepare_ready s Hs), (bool_decide_false (Ext _ = BAD)), andb_false_r by done.
    unfold mbind, io_bind, lift. cbn [mret io_ret]. rewrite He. cbn [encode_error].
    rewrite decide_False by done. rewrite maybe_drop_run. fold bad file.
    rewrite WriteFile_healthy by (by apply after_file_writable). rewrite Hl. done. }
  assert (∀ q, q ∉ [file; bad; xml; xmlbad] → fs_entries (after_file bs s) !! q = fs_entries s !! q) as Hfr.
  { intros q Hq. apply Hother; set_solver. }
  rewrite match_image.
  assert (∃ s', (if is_image p then writeMetadata healthy encodeMetadata f dir i p else mret ())
      (after_file bs s) = (Ok (), s') ∧ fs_wf s' ∧ (s' = after_file bs s ∧ is_image p = false
        ∨ s' = after_meta ms (after_file bs s))) as (s' & -> & Hwf' & Hs').
  { destruct (is_image p); [|by exists (after_file bs s); auto]. pose proof (writeMetadata_wf healthy encodeMetadata f dir i p _ Hwf) as Hw.
    erewrite writeMetadata_run in Hw by done. eexists. split; [by apply writeMetadata_run|]. split; [exact Hw|by right]. }
  eexists. split; [done|]. rewrite match_image. destruct Hs' as [[-> Hp]| ->].
  - rewrite Hp. split_and!; [by apply read_file_content|done..].
  - unfold after_meta. set (s1 := maybe_drop _ xmlbad _).
    assert (fs_wf s1) as Hwf1 by (by apply maybe_drop_wf).
    assert (content s1 file = Some bs) as Hc1 by (unfold s1; by rewrite maybe_drop_content).
    assert (unaliased s1 xml file) as Ha1.
    { intros j Hx Hf. unfold s1 in *. rewrite maybe_drop_ne in Hx, Hf by done. by apply (Ha j). }
    split_and!.
    + apply read_file_content. by rewrite write_to_other.
    + case_match; [|done]. apply read_file_content, write_to_content.
    + intros Hb. rewrite write_to_entries by done. unfold s1. destruct (decide (xmlbad = bad)) as [E|Hnb].
      * rewrite E. unfold maybe_drop, drop_entry. case_match; [|by apply Hbad]. simpl. by rewrite lookup_delete_eq.
      * rewrite maybe_drop_ne by done. by apply Hbad.
    + intros q Hq. rewrite write_to_entries by set_solver. unfold s1. rewrite maybe_drop_ne by set_solver. by apply Hfr.
    + rewrite write_to_dirs. unfold s1. by rewrite maybe_drop_dirs.
    + done.
    + by rewrite write_to_other.
Qed.

(** C9: on a file system that refuses nothing and has room for it, a storage
    without shares puts a packet that it accepts and can encode (and, of an
    image, has metadata for), and that is not a corrupted copy, into its file,
    and the metadata of an image into the file next to it; the corrupted copy
    is gone when the storage drops those, and every name but these four (the
    packet's, its metadata's and their corrupted copies') keeps its file.  With
    shares, their names change too ([filestore_Store_keeps] of Untouched.v). *)
Theorem filestore_Store_stores s bs ms :
  ready s → fl_links f = [] → Ext (Filename p) ≠ BAD → encode f p = Ok bs →
  encodeMetadata p = Ok ms → ms ≠ [] →
  ∃ s', filestore_Store healthy encodeMetadata f i p s = (Ok (), s') ∧
    read_file s' file = Some bs ∧
    match p with Image _ _ _ => read_file s' xml = Some ms | _ => True end ∧
    (fl_rembad f = true → fs_entries s' !! bad = None) ∧
    ∀ q, q ∉ [file; bad; xml; xmlbad] → fs_entries s' !! q = fs_entries s !! q.
Proof.
  intros Hs Hl Hext He Hm Hne. destruct (stores_packet s bs ms) as (s' & ? & ? & ? & ? & ? & _); try done. by exists s'.
Qed.

(** C20: in a storage that drops corrupted copies (not in one that keeps them), a
    corrupted packet whose good copy is a file there never replaces it: the
    store reports success and no file changes, at most its directories are
    made. *)
Theorem bad_never_replaces s g j :
  ready s → fl_rembad f = true → Filename p = g +:+ BAD → simple_name g →
  fs_entries s !! Join [dir; g] = Some (Regular j) → Join [dir; g] ∉ fs_dirs (with_dirs s) →
  filestore_Store healthy encodeMetadata f i p s = (Ok (), with_dirs s).
Proof.
  intros Hs Hr Hf Hg Hgood Hnd. unfold filestore_Store. rewrite Hcan. cbn [negb]. cbv zeta.
  unfold mbind at 1, io_bind at 1. rewrite (Prepare_ready s Hs), Hr, Hf.
  assert (Ext (g +:+ BAD) = BAD) as Hext by (by apply (Ext_app g "bad")).
  rewrite Hext, bool_decide_true, TrimSuffix_app by done. cbn [andb].
  unfold mbind at 1, io_bind at 1. unfold try_io, Stat, guarded, healthy.
  rewrite decide_False by done. unfold resolve, max_links. cbn [with_dirs fs_entries] in *.
  rewrite Hgood. rewrite decide_True by done. done.
Qed.
End stored.

(** ** Shares *)

Section shares.
Context {panda : PandaLib}.

(** Fact: a hard link gives the shared name to the very file of the storage: the
    share shows its content, also after the storage writes the file again. *)
Theorem Link_shares k i p r d segs r' sdir ssegs name s j bs :
  path_is r d segs → path_is r' sdir ssegs → simple_name name → fs_wf s →
  lk_link k = "hard" ∨ lk_link k = "" →
  directory_of (lk_data k) i p = sdir →
  Forall (λ q, fs_entries s !! q = None) (ancestors sdir) →
  let link := Join [d; name] in
  let shared := Join [sdir; name] in
  link ≠ shared → link ≠ Join [sdir; name +:+ BAD] → shared ∉ fs_dirs s ∪ list_to_set (ancestors sdir) →
  fs_entries s !! link = Some (Regular j) →
  ∃ s', Link healthy k link i p s = (Ok (), s') ∧
    fs_entries s' !! shared = Some (Regular j) ∧ fs_entries s' !! link = Some (Regular j) ∧
    content s' shared = content s link ∧
    content (write_to link bs s') shared = Some bs.
Proof.
  intros Hd Hsd Hn Hs Hk Hdir Hanc link shared Hne Hneb Hnd Hl.
  unfold Link, Prepare. rewrite Hdir. unfold mbind, io_bind.
  rewrite MkdirAll_healthy by done. cbn [mret io_ret]. cbv zeta.
  unfold link. rewrite (Base_join r d segs) by done. fold link. fold shared.
  rewrite Remove_healthy. set (s1 := mkFs _ _ _ _).
  rewrite (maybe_drop_run (negb (IsRealtime p) && lk_rembad k) (Join [sdir; name +:+ BAD]) s1).
  set (bad := Join [sdir; name +:+ BAD]). set (s2 := maybe_drop _ bad s1).
  rewrite decide_True by done.
  assert (shared ≠ bad) as Hsb.
  { intros E. assert (name = name +:+ BAD) as E'.
    { eapply (join_name_inj r' sdir ssegs); [done|done|apply suffixed_name; done || (simpl; lia)|exact E]. }
    apply (f_equal String.length) in E'. rewrite str_length_app in E'. simpl in E'. lia. }
  assert (fs_entries s2 !! link = Some (Regular j)) as Hl2.
  { unfold s2. rewrite maybe_drop_ne by done. unfold s1; simpl. by rewrite lookup_delete_ne. }
  assert (fs_entries s2 !! shared = None) as Hsh2.
  { unfold s2. rewrite maybe_drop_ne by done. unfold s1; simpl. by rewrite lookup_delete_eq. }
  assert (fs_dirs s2 = fs_dirs s ∪ list_to_set (ancestors sdir)) as Hdirs by (unfold s2; by rewrite maybe_drop_dirs).
  assert (fs_inodes s2 = fs_inodes s) as Hino by (unfold s2; by destruct (negb _ && _)).
  unfold Fs.Link, guarded, healthy. rewrite Hl2. unfold add_entry.
  rewrite decide_True by (by rewrite Hdirs). rewrite decide_True.
  2: { unfold shared. rewrite (parent_join r' sdir ssegs), Hdirs by done.
       apply elem_of_union_r, elem_of_list_to_set. by eapply ancestors_self. }
  eexists. split; [done|]. cbn [fs_entries fs_inodes].
  rewrite lookup_insert_eq, lookup_insert_ne by done. split_and!; [done|done| |].
  - unfold content; cbn [fs_entries fs_inodes]. by rewrite lookup_insert_eq, Hino, Hl.
  - unfold write_to, content; cbn [fs_entries fs_inodes]. rewrite lookup_insert_ne, Hl2 by done.
    cbn [fs_entries fs_inodes]. by rewrite !lookup_insert_eq.
Qed.
End shares.

(** ** Examples *)

Definition no_control : Control := mkControl "" [] [].

Definition sample_filestore (base : string) (links : list linkstore) : filestore :=
  mkFilestore no_control (NewDirectory base "" [] 0) true true links.

Definition sample_metadata (p : HRPacket) : result (list byte) := Ok [x3c; x3e].

Definition sample_good : HRPacket := sample_image "OPS" 1 true [x01; x02].

Definition sample_dir : string := "/data/OPS/images/realtime/51/2020/006/00".

(** The directory of the storage is there. *)
Definition sample_fs : fs := (MkdirAll healthy "/data" empty_fs).2.

Lemma sample_dir_path : path_is true sample_dir ["data"; "OPS"; "images"; "realtime"; "51"; "2020"; "006"; "00"].
Proof. by split; [compute_decide|]. Qed.

Lemma sample_ready s (p : HRPacket) :
  fs_wf s → fs_dirs s = fs_dirs sample_fs ∪ list_to_set (ancestors sample_dir) ∨ s = sample_fs →
  Forall (λ d, fs_entries s !! d = None) (ancestors sample_dir) →
  Forall (λ q, q ∉ fs_dirs sample_fs ∪ list_to_set (ancestors sample_dir) ∧
               match fs_entries s !! q with Some (Symbolic _) => False | _ => True end)
    [Join [sample_dir; Filename p]; Join [sample_dir; Filename p +:+ XML]] →
  (fs_entries s !! Join [sample_dir; Filename p] = None ∨ fs_entries s !! Join [sample_dir; Filename p +:+ XML] = None) →
  ready p sample_dir s.
Proof.
  intros Hwf Hd Hanc Hq Ha. rewrite !Forall_cons in Hq. destruct Hq as ([Hf1 Hf2] & [Hx1 Hx2] & _).
  assert (∀ q, q ∉ fs_dirs sample_fs ∪ list_to_set (ancestors sample_dir) →
    q ∉ fs_dirs s ∪ list_to_set (ancestors sample_dir)) as Hdd by 
    (intros q; destruct Hd as [-> | ->]; [by rewrite <-(assoc_L (∪)), union_idemp_L|done]).
  split; [done|done| | |].
  - split; [by apply Hdd|]. intros t E. by rewrite E in Hf2.
  - split; [by apply Hdd|]. intros t E. by rewrite E in Hx2.
  - intros j H1 H2. destruct Ha as [E|E]; by rewrite E in *.
Qed.

Lemma sample_fs_wf : fs_wf sample_fs.
Proof. apply (MkdirAll_wf healthy "/data" empty_fs), empty_fs_wf. Qed.

Lemma filestore_Store_stores_witness :
  let f := sample_filestore "/data" [] in
  let file := Join [sample_dir; Filename sample_good] in
  let bad := Join [sample_dir; Filename sample_good +:+ BAD] in
  let xml := Join [sample_dir; Filename sample_good +:+ XML] in
  let xmlbad := Join [sample_dir; (Filename sample_good +:+ XML) +:+ BAD] in
  let bs := match encodeRawPacket sample_good with Ok bs => bs | _ => [] end in
  ∃ s', filestore_Store healthy sample_metadata f 255 sample_good sample_fs = (Ok (), s') ∧
    read_file s' file = Some bs ∧ read_file s' xml = Some [x3c; x3e] ∧
    (fl_rembad f = true → fs_entries s' !! bad = None) ∧
    ∀ q, q ∉ [file; bad; xml; xmlbad] → fs_entries s' !! q = fs_entries sample_fs !! q.
Proof.
  cbv zeta.
  apply (filestore_Store_stores sample_metadata (sample_filestore "/data" []) 255 sample_good true sample_dir
    ["data"; "OPS"; "images"; "realtime"; "51"; "2020"; "006"; "00"]).
  - by vm_compute.
  - by vm_compute.
  - apply sample_dir_path.
  - by compute_decide.
  - apply sample_ready; [apply sample_fs_wf|by right|by compute_decide| |by left; vm_compute].
    do 2 (apply Forall_cons; split; [split; [by compute_decide|by vm_compute]|]). constructor.
  - done.
  - by vm_compute.
  - by vm_compute.
  - done.
  - done.
Defined.

Definition sample_bad : HRPacket :=
  match sample_good with
  | Image _ v i => Image (sample_info 1 2 true (Filename sample_good +:+ BAD) [x09]) v i
  | q => q
  end.

Definition sample_file : string := Join [sample_dir; Filename sample_good].

(** The good packet is stored. *)
Definition sample_stored : fs :=
  (WriteFile healthy sample_file [x01] (MkdirAll healthy sample_dir sample_fs).2).2.

Lemma sample_stored_wf : fs_wf sample_stored.
Proof. apply WriteFile_wf, MkdirAll_wf, sample_fs_wf. Qed.

Lemma bad_never_replaces_witness :
  filestore_Store healthy sample_metadata (sample_filestore "/data" []) 255 sample_bad sample_stored
  = (Ok (), with_dirs sample_dir sample_stored).
Proof.
  apply (bad_never_replaces sample_metadata (sample_filestore "/data" []) 255 sample_bad sample_dir) with (g := Filename sample_good) (j := 0).
  - by vm_compute.
  - by vm_compute.
  - apply sample_ready; [apply sample_stored_wf|left; by compute_decide|by compute_decide| |left; by compute_decide].
    do 2 (apply Forall_cons; split; [split; [by compute_decide|by vm_compute]|]). constructor.
  - done.
  - done.
  - by compute_decide.
  - by vm_compute.
  - by compute_decide.
Defined.

Definition sample_share (kind : string) : linkstore :=
  mkLinkstore kind true (NewDirectory "/share" "" [] 0).

Lemma Link_shares_witness :
  ∃ s', Link healthy (sample_share "hard") sample_file 255 sample_good sample_stored = (Ok (), s') ∧
    let shared := "/share/OPS/images/realtime/51/2020/006/00/0051_y800_1_7_20200101_000000.dat" in
    fs_entries s' !! shared = Some (Regular 0) ∧ fs_entries s' !! sample_file = Some (Regular 0) ∧
    content s' shared = content sample_stored sample_file ∧
    content (write_to sample_file [x07] s') shared = Some [x07].
Proof.
  apply (Link_shares (sample_share "hard") 255 sample_good true sample_dir
    ["data"; "OPS"; "images"; "realtime"; "51"; "2020"; "006"; "00"]
    true "/share/OPS/images/realtime/51/2020/006/00"
    ["share"; "OPS"; "images"; "realtime"; "51"; "2020"; "006"; "00"]
    (Filename sample_good) sample_stored 0 [x07]).
  - apply sample_dir_path.
  - by split; [compute_decide|].
  - by compute_decide.
  - apply sample_stored_wf.
  - by left.
  - by vm_compute.
  - by compute_decide.
  - by compute_decide.
  - by compute_decide.
  - by compute_decide.
  - by vm_compute.
Defined.

(** A soft link from a storage with a relative location leads nowhere: its
    target is taken from the directory of the link. *)
Example soft_link_relative :
  let d := "data/OPS" in
  let s := (WriteFile healthy (Join [d; "f.dat"]) [x01] (MkdirAll healthy d empty_fs).2).2 in
  let s' := (Link healthy (mkLinkstore "soft" true (NewDirectory "share" "" ["instance"] 0))
               (Join [d; "f.dat"]) 255 sample_good s).2 in
  fs_entries s' !! "share/OPS/f.dat" = Some (Symbolic "data/OPS/f.dat") ∧
  read_file s' (Join [d; "f.dat"]) = Some [x01] ∧ read_file s' "share/OPS/f.dat" = None.
Proof. by vm_compute. Qed.
