(* ===== verification/Untouched.v ===== *)
(** * Untouched: what storing a packet leaves alone (src/storage/files.go)

    The names a store may create, replace or remove, and the directories it may
    make, are those of its packet, in the storage and in its shares.  The
    theorem says that nothing else changes, however the store ends: no other
    name and no other file's bytes, although names share files by hard links
    and lead to each other by symbolic ones. *)

From S2P Require Import Prelude Bytes GoStd Panda Fs Storage Files.
From Stdlib Require Import ZArith Lia.

(** ** The names of a store *)
Section names.
Context {panda : PandaLib} (i : Z) (p : HRPacket).

Definition share_names (k : linkstore) (link : string) : list string :=
  let dir := directory_of (lk_data k) i p in
  Join [dir; Base link] :: (if negb (IsRealtime p) && lk_rembad k then [Join [dir; Base link +:+ BAD]] else []).

Definition file_of (f : filestore) : string := Join [directory_of (fl_data f) i p; Filename p].
Definition xml_of (f : filestore) : string := Join [directory_of (fl_data f) i p; Filename p +:+ XML].

(** The files that are written: of an image also its metadata. *)
Definition written (f : filestore) : list string := file_of f :: (if is_image p then [xml_of f] else []).

(** The names that are removed before: of the corrupted copies, and in the
    shares. *)
Definition removed (f : filestore) : list string :=
  let dir := directory_of (fl_data f) i p in
  ((if fl_rembad f then [Join [dir; Filename p +:+ BAD]] else []) ++
   concat ((λ k, share_names k (file_of f)) <$> fl_links f)) ++
  (if is_image p then
     (if negb (IsRealtime p) && fl_rembad f then [Join [dir; (Filename p +:+ XML) +:+ BAD]] else []) ++
     concat ((λ k, share_names k (xml_of f)) <$> fl_links f)
   else []).

(** The directories that are made. *)
Definition made (f : filestore) : list string :=
  ancestors (directory_of (fl_data f) i p) ++ concat ((λ k, ancestors (directory_of (lk_data k) i p)) <$> fl_links f).
End names.

(** ** Keeping the rest of a file system *)
Section kept.
Context (denied : string → option error).
(** The names that are written to, those that may be removed, the directories
    that may be made, and the file system before. *)
Context (F R D : list string) (s0 : fs).

Let T : list string := F ++ R.

Lemma written_touched q : q ∈ F → q ∈ T.
Proof. intros. apply elem_of_app. by left. Qed.

Lemma removed_touched q : q ∈ R → q ∈ T.
Proof. intros. apply elem_of_app. by right. Qed.

(** A file none of whose names may change. *)
Definition safe (j : nat) : Prop := is_Some (fs_inodes s0 !! j) ∧ ∀ q, q ∈ T → fs_entries s0 !! q ≠ Some (Regular j).

Record kept (s : fs) : Prop := {
  kp_wf : fs_wf s;
  kp_entries q : q ∉ T → fs_entries s !! q = fs_entries s0 !! q;
  kp_dirs : fs_dirs s0 ⊆ fs_dirs s;
  kp_made q : q ∈ fs_dirs s → q ∈ fs_dirs s0 ∨ q ∈ D;
  kp_inodes j : safe j → fs_inodes s !! j = fs_inodes s0 !! j;
  kp_apart q j : q ∈ T → safe j → fs_entries s !! q ≠ Some (Regular j);
  kp_there q : q ∉ R → is_Some (fs_entries s0 !! q) → is_Some (fs_entries s !! q);
  kp_written q t : q ∈ F → fs_entries s !! q ≠ Some (Symbolic t);
}.

Lemma kept_start : fs_wf s0 → (∀ q t, q ∈ F → fs_entries s0 !! q ≠ Some (Symbolic t)) → kept s0.
Proof. intros Hwf Hsym. split; [done..|by left|done| |done|done]. intros q j Hq [_ H]. by apply H. Qed.

(** Steps that change entries of [T] only, and no inode. *)
Lemma kept_entries s s' :
  kept s → fs_wf s' → fs_dirs s' = fs_dirs s → fs_inodes s' = fs_inodes s →
  (∀ q, q ∉ T → fs_entries s' !! q = fs_entries s !! q) →
  (∀ q j, q ∈ T → safe j → fs_entries s' !! q ≠ Some (Regular j)) →
  (∀ q, q ∉ R → is_Some (fs_entries s !! q) → is_Some (fs_entries s' !! q)) →
  (∀ q t, q ∈ F → fs_entries s' !! q ≠ Some (Symbolic t)) → kept s'.
Proof.
  intros [H1 H2 H3 H4 H5 H6 H7 H8] Hwf Hd Hi Hn Ha Ht Hs. split; [done| |by rewrite Hd|by rewrite Hd|by rewrite Hi|done|by auto|done].
  intros q Hq. by rewrite Hn, H2.
Qed.

Lemma MkdirAll_kept d : ancestors d ⊆ D → preserves kept (MkdirAll denied d).
Proof.
  intros Hd s Hs. pose proof (MkdirAll_wf denied d s (kp_wf s Hs)) as Hwf. revert Hwf. unfold MkdirAll, guarded.
  destruct (denied d); [done|]. case_decide; [done|]. cbn [snd]. intros Hwf. destruct Hs as [H1 H2 H3 H4 H5 H6 H7 H8].
  split; cbn [fs_dirs fs_entries fs_inodes]; [done|done|set_solver| |done..].
  intros q [Hq|Hq]%elem_of_union; [by apply H4|]. apply elem_of_list_to_set in Hq. right. by apply Hd.
Qed.

Lemma Remove_kept q : q ∈ R → preserves kept (Remove denied q).
Proof.
  intros Hq s Hs. pose proof (Remove_wf denied q s (kp_wf s Hs)) as Hwf. revert Hwf. unfold Remove, guarded.
  destruct (denied q); [done|]. destruct (fs_entries s !! q) as [e|] eqn:E; [|done]. cbn [snd]. intros Hwf.
  apply (kept_entries s); cbn [fs_dirs fs_entries fs_inodes]; try done.
  - intros q' Hq'. rewrite lookup_delete_ne; [done|]. intros ->. by apply Hq', removed_touched.
  - intros q' j Hq' Hj [_ Hx]%lookup_delete_Some. by eapply kp_apart.
  - intros q' Hq' Hx. rewrite lookup_delete_ne; [done|]. by intros ->.
  - intros q' t Hq' [_ Hx]%lookup_delete_Some. by eapply kp_written.
Qed.

Lemma WriteFile_kept q bs : q ∈ F → preserves kept (WriteFile denied q bs).
Proof.
  intros Hq s Hs. pose proof (WriteFile_wf denied q bs s (kp_wf s Hs)) as Hwf. revert Hwf. unfold WriteFile, guarded.
  destruct (denied q); [done|]. destruct (fs_entries s !! q) as [[j|t]|] eqn:E; [| |].
  - unfold resolve, max_links. rewrite E. cbn [snd]. intros Hwf. destruct Hs as [H1 H2 H3 H4 H5 H6 H7 H8].
    split; cbn [fs_dirs fs_entries fs_inodes]; try done. intros j' Hj'. rewrite lookup_insert_ne; [by apply H5|].
    intros ->. by apply (H6 q j' (written_touched _ Hq)).
  - by destruct (kp_written s Hs q t).
  - case_decide as Hd; [|done]. cbn [snd]. intros Hwf. destruct Hs as [H1 H2 H3 H4 H5 H6 H7 H8].
    assert (∀ j, safe j → j ≠ fs_next s) as Hfresh.
    { intros j Hj ->. pose proof Hj as [Hin _]. rewrite <-H5 in Hin by done. apply (wf_inodes s H1) in Hin. lia. }
    split; cbn [fs_dirs fs_entries fs_inodes]; try done.
    + intros q' Hq'. rewrite lookup_insert_ne; [by apply H2|]. intros ->. by apply Hq', written_touched.
    + intros j Hj. rewrite lookup_insert_ne; [by apply H5|]. intros <-. by apply (Hfresh _ Hj).
    + intros q' j Hq' Hj [[_ [= <-]]|[_ Hx]]%lookup_insert_Some; [by apply (Hfresh _ Hj)|by eapply H6].
    + intros q' Hq' Hx. apply lookup_insert_is_Some'. right. by apply H7.
    + intros q' t Hq' [[_ [=]]|[_ Hx]]%lookup_insert_Some. by eapply H8.
Qed.

Lemma add_entry_kept q e s :
  q ∈ R → kept s → (∀ j, e = Regular j → is_Some (fs_inodes s !! j) ∧ ¬ safe j) → (∀ t, e = Symbolic t → q ∉ F) →
  kept (add_entry q e s).2.
Proof.
  intros Hq Hs Hreg Hsym. pose proof (add_entry_wf q e s (kp_wf s Hs) (λ j E, proj1 (Hreg j E))) as Hwf. revert Hwf.
  unfold add_entry. do 2 (case_decide; [|done]). cbn [snd]. intros Hwf.
  apply (kept_entries s); cbn [fs_dirs fs_entries fs_inodes]; try done.
  - intros q' Hq'. rewrite lookup_insert_ne; [done|]. intros ->. by apply Hq', removed_touched.
  - intros q' j Hq' Hj [[_ ->]|[_ Hx]]%lookup_insert_Some; [by destruct (Hreg j eq_refl)|by eapply kp_apart].
  - intros q' Hq' Hx. apply lookup_insert_is_Some'. by right.
  - intros q' t Hq' [[<- ->]|[_ Hx]]%lookup_insert_Some; [by apply (Hsym t)|by eapply kp_written].
Qed.

Lemma Link_kept old q : old ∈ F → q ∈ R → preserves kept (Fs.Link denied old q).
Proof.
  intros Ho Hq s Hs. unfold Fs.Link, guarded. destruct (denied q); [done|].
  destruct (fs_entries s !! old) as [e|] eqn:E; [|done]. apply add_entry_kept; [done..| |].
  - intros j ->. split; [by eapply wf_entries; [apply Hs|]|]. intros Hj. by apply (kp_apart s Hs old j (written_touched _ Ho) Hj).
  - intros t ->. by destruct (kp_written s Hs old t).
Qed.

Lemma Symlink_kept old q : q ∈ R → q ∉ F → preserves kept (Symlink denied old q).
Proof. intros Hq Hn s Hs. unfold Symlink, guarded. destruct (denied q); [done|]. by apply add_entry_kept. Qed.

Lemma Stat_kept q : preserves kept (Stat denied q).
Proof. intros s Hs. unfold Stat, guarded. destruct (denied q); [done|]. case_decide; [done|]. by destruct (resolve _ _ _). Qed.

Lemma lift_kept {A} (r : result A) : preserves kept (lift r).
Proof. by intros s. Qed.

(** ** The steps of a store *)

Lemma Prepare_kept {panda : PandaLib} {A} d i p (k : string → io A) :
  ancestors (directory_of d i p) ⊆ D → preserves kept (k (directory_of d i p)) →
  preserves kept (dir ← Prepare denied d i p; k dir).
Proof.
  intros Hd Hk s Hs. pose proof (MkdirAll_kept _ Hd s Hs) as H. unfold Prepare, mbind, io_bind.
  destruct (MkdirAll denied _ s) as [[[]|e|w] s1]; [by apply Hk|done..].
Qed.

#[local] Hint Resolve Remove_kept WriteFile_kept Stat_kept lift_kept Link_kept Symlink_kept : fs.

(** Dropping a corrupted copy, when that is done. *)
Lemma drop_kept (c : bool) q :
  (c = true → q ∈ R) → preserves kept (if c then ignore (Remove denied q) else mret ()).
Proof. destruct c; intros Hq; [|auto with fs]. apply preserves_ignore, Remove_kept. by apply Hq. Qed.

Lemma share_kept {panda : PandaLib} k link i p :
  link ∈ F → ancestors (directory_of (lk_data k) i p) ⊆ D → share_names i p k link ⊆ R →
  (lk_link k = "soft" → Join [directory_of (lk_data k) i p; Base link] ∉ F) →
  preserves kept (Files.Link denied k link i p).
Proof.
  intros Hl Hd Hr Hs. unfold share_names in Hr. apply Prepare_kept; [done|]. cbv zeta.
  assert (Join [directory_of (lk_data k) i p; Base link] ∈ R) as Hn by set_solver.
  apply preserves_bind; [by apply preserves_ignore, Remove_kept|]. intros _.
  apply preserves_bind. { apply drop_kept. intros E. rewrite E in Hr. set_solver. }
  intros _. case_decide; [by apply Link_kept|]. case_decide; [|auto with fs]. by apply Symlink_kept; [|apply Hs].
Qed.

Lemma shares_kept {panda : PandaLib} ks link i p :
  link ∈ F → (∀ k, k ∈ ks → ancestors (directory_of (lk_data k) i p) ⊆ D ∧ share_names i p k link ⊆ R ∧
    (lk_link k = "soft" → Join [directory_of (lk_data k) i p; Base link] ∉ F)) →
  preserves kept (linkToShare denied ks link i p).
Proof.
  intros Hl. induction ks as [|k ks IH]; intros H; [apply preserves_ret|]. cbn [linkToShare].
  destruct (H k ltac:(left)) as (? & ? & ?).
  apply preserves_bind; [by apply share_kept|]. intros _. apply IH. intros k' Hk'. apply H. by right.
Qed.

(** What is kept of a name that may not change: its entry, and the bytes of the
    file it is for, unless a name that may change is for the same file. *)
Lemma kept_content s q bs :
  kept s → fs_wf s0 → q ∉ T → content s0 q = Some bs →
  (∀ t j, t ∈ T → fs_entries s0 !! q = Some (Regular j) → fs_entries s0 !! t ≠ Some (Regular j)) →
  content s q = Some bs.
Proof.
  intros Hs Hwf Hq Hc Ha. unfold content in *. rewrite (kp_entries s Hs) by done.
  destruct (fs_entries s0 !! q) as [[j|t]|] eqn:E; [|done..]. rewrite (kp_inodes s Hs); [done|].
  split; [by eexists|]. intros t Ht. by apply (Ha t j).
Qed.
End kept.

(** ** Storing *)
Section store.
Context {panda : PandaLib} (denied : string → option error) (encodeMetadata : HRPacket → result (list byte)).
Context (f : filestore) (i : Z) (p : HRPacket) (s0 : fs).

(** A soft link of a share is not made where the store writes its files. *)
Definition shares_apart : Prop := ∀ k link,
  k ∈ fl_links f → lk_link k = "soft" → link ∈ written i p f →
  Join [directory_of (lk_data k) i p; Base link] ∉ written i p f.

Context (Hsoft : shares_apart).

#[local] Abbreviation keeps := (kept (written i p f) (removed i p f) (made i p f) s0).

Lemma made_share k : k ∈ fl_links f → ancestors (directory_of (lk_data k) i p) ⊆ made i p f.
Proof.
  intros Hk q Hq. apply elem_of_app. right. apply list_elem_of_In, in_concat. eexists. split; [|by apply list_elem_of_In].
  apply list_elem_of_In, list_elem_of_fmap. by eexists.
Qed.

Lemma removed_share link k : k ∈ fl_links f → link ∈ written i p f → share_names i p k link ⊆ removed i p f.
Proof.
  assert (∀ l, k ∈ fl_links f → share_names i p k l ⊆ concat ((λ k, share_names i p k l) <$> fl_links f)) as H.
  { intros l Hk q Hq. apply list_elem_of_In, in_concat. eexists. split; [|by apply list_elem_of_In].
    apply list_elem_of_In, list_elem_of_fmap. by eexists. }
  intros Hk Hl. unfold removed. unfold written in Hl. pose proof (H link Hk) as Hi.
  destruct (is_image p).
  - apply elem_of_cons in Hl as [E|Hl]; [|apply list_elem_of_singleton in Hl as E]; rewrite E in *; set_solver.
  - apply list_elem_of_singleton in Hl as E. rewrite E in *. set_solver.
Qed.

Lemma links_kept link : link ∈ written i p f → preserves keeps (linkToShare denied (fl_links f) link i p).
Proof.
  intros Hl. apply shares_kept; [done|]. intros k Hk. split_and!; [by apply made_share|by apply removed_share|].
  intros E. by apply (Hsoft k link).
Qed.

Lemma writeMetadata_kept :
  is_image p = true → preserves keeps (writeMetadata denied encodeMetadata f (directory_of (fl_data f) i p) i p).
Proof.
  intros Hi. unfold writeMetadata. apply preserves_bind; [apply lift_kept|]. intros w.
  case_decide; [apply preserves_ret|]. cbv zeta.
  assert (xml_of i p f ∈ written i p f) as Hx by (unfold written; rewrite Hi; set_solver).
  apply preserves_bind; [apply drop_kept|intros _; apply preserves_bind].
  - intros E. unfold removed. rewrite Hi, E. set_solver.
  - by apply WriteFile_kept.
  - intros _. by apply links_kept.
Qed.

Lemma filestore_Store_kept : preserves keeps (filestore_Store denied encodeMetadata f i p).
Proof.
  unfold filestore_Store. destruct (negb _); [apply preserves_ret|].
  apply Prepare_kept; [intros q Hq; apply elem_of_app; by left|]. cbv zeta.
  apply preserves_bind; [destruct (_ && _); auto using preserves_ret, preserves_try, Stat_kept|]. intros good.
  case_decide; [apply preserves_ret|]. apply preserves_bind; [apply lift_kept|]. intros w.
  assert (file_of i p f ∈ written i p f) as Hf by (unfold written; set_solver).
  apply preserves_bind; [apply drop_kept|intros _; apply preserves_bind; [by apply WriteFile_kept|]].
  - intros E. unfold removed. rewrite E. set_solver.
  - intros _. apply preserves_bind; [by apply links_kept|]. intros _. rewrite match_image.
    destruct (is_image p) eqn:E; [by apply writeMetadata_kept|apply preserves_ret].
Qed.
End store.


(** A corrupted copy and a file of someone else in the packet's directory, and a
    share to link to. *)
Definition sample_note : string := Join [sample_dir; "note.txt"].
Definition sample_busy : fs :=
  (WriteFile healthy sample_note [x2a] (WriteFile healthy (sample_file +:+ BAD) [x09] sample_stored).2).2.

Lemma sample_busy_wf : fs_wf sample_busy.
Proof. apply WriteFile_wf, WriteFile_wf, sample_stored_wf. Qed.

(** The share refuses the link. *)
Definition sample_denied (q : string) : option error :=
  if decide (q = "/share/OPS/images/realtime/51/2020/006/00/0051_y800_1_7_20200101_000000.dat") then Some (ErrNotExist q) else None.

