(* ===== verification/Archive.v ===== *)
(** * Archive: packets in rolling tar archives (src/storage/archives.go)

    One roller per kind of packet, opened the first time a packet of the kind
    arrives.  The roller ([github.com/midbel/roll]) is third-party: opening
    one and writing an entry to it are parameters that only tell whether they
    fail; the entries that were written are the state. *)

From S2P Require Import Prelude Bytes GoStd Panda Vmu Fs Storage Files.
From Stdlib Require Import ZArith Lia.

(** The fields of the [tar.Header] that depend on the packet. *)
Record tar_header : Type := mkHeader {
  th_Name : string;
  th_Size : Z;
  th_ModTime : Time;
}.

Record tar_entry : Type := mkEntry {
  te_roller : string;
  te_header : tar_header;
  te_data : list byte;
}.

Record tarstore : Type := mkTarstore {
  ts_Control : Control;
  ts_datadir : string;
  ts_tardir : dirmaker;
}.

(** [caches], what the rollers hold, the rollers opened, and the file system
    [Prepare] makes directories in. *)
Record tar_state : Type := mkTarState {
  ts_caches : gset string;
  ts_entries : list tar_entry;
  ts_opened : list string;
  ts_fs : fs;
}.

Definition new_tar_state (s : fs) : tar_state := mkTarState ∅ [] [] s.

Section archive.
Context {panda : PandaLib} (denied : string → option error).
Context (encodeMetadata : HRPacket → result (list byte)).
Context (Roll : string → option error) (WriteData : string → tar_header → list byte → option error).

(** [NewArchiveStorage]: the options of the roller go to the third party. *)
Definition NewArchiveStorage (o : Options) : io tarstore :=
  i ← Stat denied (so_Location o);
  match i with
  | IsRegular => io_fail (ErrNotDir (so_Location o))
  | IsDir => mret (mkTarstore (so_Control o) (so_Location o)
                    (NewDirectory "" (so_Epoch o) (so_Levels o) (so_Interval o)))
  end.

(** [WriteData] with the callback that writes the header: the callback makes
    the packet's directory, and drops the error of it. *)
Definition write_entry (t : tarstore) (k : string) (i : Z) (p : HRPacket) (name : string) (data : list byte)
    (st : tar_state) : option error * tar_state :=
  let '(dir, s) := Prepare denied (ts_tardir t) i p (ts_fs st) in
  let dir := match dir with Ok dir => dir | _ => "" end in
  let h := mkHeader (Join [dir; name]) (Z.of_nat (length data)) (Timestamp p) in
  match WriteData k h data with
  | Some e => (Some e, mkTarState (ts_caches st) (ts_entries st) (ts_opened st) s)
  | None => (None, mkTarState (ts_caches st) (ts_entries st ++ [mkEntry k h data]) (ts_opened st) s)
  end.

Definition storeMetadata (t : tarstore) (k : string) (i : Z) (p : HRPacket) (st : tar_state) : result (option error * tar_state) :=
  match encodeMetadata p with
  | Ok buf => Ok (write_entry t k i p (Filename p +:+ XML) buf st)
  | Err e => Ok (Some e, st)
  | Panic w => Panic w
  end.

(** The roller of the key, opened when it is not in the cache. *)
Definition roller_of (t : tarstore) (k : string) (st : tar_state) : option error * tar_state :=
  if decide (k ∈ ts_caches st) then (None, st)
  else match Roll (Join [ts_datadir t; k]) with
       | Some e => (Some e, st)
       | None => (None, mkTarState ({[k]} ∪ ts_caches st) (ts_entries st) (ts_opened st ++ [k]) (ts_fs st))
       end.

Definition tarstore_Store (t : tarstore) (i : Z) (p : HRPacket) (st : tar_state) : result (option error * tar_state) :=
  if negb (Can (Some (ts_Control t)) p) then Ok (None, st) else
  let k := cacheKey i p in
  match roller_of t k st with
  | (Some e, st) => Ok (Some e, st)
  | (None, st) =>
      match encodeRawPacket p with
      | Panic w => Panic w
      | Err e => Ok (Some e, st)
      | Ok buf =>
          match write_entry t k i p (Filename p) buf st with
          | (Some e, st) => Ok (Some e, st)
          | (None, st) =>
              match p with
              | Image _ _ _ => storeMetadata t k i p st
              | _ => Ok (None, st)
              end
          end
      end
  end.

(** Storing packets one after the other, whatever they return. *)
Fixpoint store_all (t : tarstore) (items : list (Z * HRPacket)) (st : tar_state) : result tar_state :=
  match items with
  | [] => Ok st
  | (i, p) :: items => match tarstore_Store t i p st with
                       | Ok (_, st) => store_all t items st
                       | Err e => Err e
                       | Panic w => Panic w
                       end
  end.

(** [NewHRDPStorage] (hrdp.go): the directory is checked, the format chosen,
    and a roller opened on the directory. *)
Record hrdpstore : Type := mkHrdpstore { hp_datadir : string; hp_vmu : bool }.

Definition NewHRDPStorage (o : Options) : io hrdpstore :=
  i ← Stat denied (so_Location o);
  match i with
  | IsRegular => io_fail (ErrNotDir (so_Location o))
  | IsDir =>
      vmu ← lift (hrdp_format (so_Format o));
      match Roll (so_Location o) with
      | Some e => io_fail e
      | None => mret (mkHrdpstore (so_Location o) vmu)
      end
  end.

(** ** Every item behind its own roller, in the order of the items *)

(** What the archive is meant to have of an item. *)
Definition entry_for (t : tarstore) (i : Z) (p : HRPacket) (name : string) (data : list byte) : tar_entry :=
  mkEntry (cacheKey i p) (mkHeader (Join [directory_of (ts_tardir t) i p; name]) (Z.of_nat (length data)) (Timestamp p)) data.

Definition entries_for (t : tarstore) '((i, p) : Z * HRPacket) : list tar_entry :=
  if Can (Some (ts_Control t)) p then
    match encodeRawPacket p with
    | Ok buf =>
        entry_for t i p (Filename p) buf ::
        (if is_image p then match encodeMetadata p with Ok ms => [entry_for t i p (Filename p +:+ XML) ms] | _ => [] end
         else [])
    | _ => []
    end
  else [].

(** An entry but for its name, which has no directory when that cannot be
    made. *)
Definition same_entry (e e' : tar_entry) : Prop :=
  te_roller e = te_roller e' ∧ th_Size (te_header e) = th_Size (te_header e') ∧
  th_ModTime (te_header e) = th_ModTime (te_header e') ∧ te_data e = te_data e'.

(** Nothing fails: the rollers open and take what they are given, and the
    directory of the item can be made. *)
Definition nothing_fails (t : tarstore) (s : fs) '((i, p) : Z * HRPacket) : Prop :=
  (∀ q, denied q = None) ∧ (∀ k, Roll k = None) ∧ (∀ k h data, WriteData k h data = None) ∧
  Forall (λ d, fs_entries s !! d = None) (ancestors (directory_of (ts_tardir t) i p)).

(** What one store does. *)
Record stored_one (t : tarstore) (x : Z * HRPacket) (st st' : tar_state) : Prop := {
  so_files : fs_entries (ts_fs st') = fs_entries (ts_fs st);
  so_rollers : ts_opened st' = ts_opened st ∧ ts_caches st' = ts_caches st ∨
    ∃ k, k ∉ ts_caches st ∧ ts_opened st' = ts_opened st ++ [k] ∧ ts_caches st' = {[k]} ∪ ts_caches st;
  so_entries : ∃ new, ts_entries st' = ts_entries st ++ new ∧
    (∃ l, l `sublist_of` entries_for t x ∧ Forall2 same_entry l new) ∧
    Forall (λ e, te_roller e ∈ ts_caches st') new ∧
    (nothing_fails t (ts_fs st) x → new = entries_for t x);
}.

Lemma roller_of_spec t k st e st' :
  roller_of t k st = (e, st') →
  ts_fs st' = ts_fs st ∧ ts_entries st' = ts_entries st ∧
  (ts_opened st' = ts_opened st ∧ ts_caches st' = ts_caches st ∨
   k ∉ ts_caches st ∧ ts_opened st' = ts_opened st ++ [k] ∧ ts_caches st' = {[k]} ∪ ts_caches st) ∧
  (e = None → k ∈ ts_caches st') ∧ ((∀ k, Roll k = None) → e = None).
Proof.
  unfold roller_of. case_decide as Hk; [intros [= <- <-]; split_and!; by auto|].
  destruct (Roll _) eqn:E; intros [= <- <-].
  - split_and!; [done|done|by left|done|intros H; by rewrite H in E].
  - split_and!; [done|done|by right|intros _; set_solver|done].
Qed.

Lemma write_entry_spec t i p name data st e st' :
  write_entry t (cacheKey i p) i p name data st = (e, st') →
  fs_entries (ts_fs st') = fs_entries (ts_fs st) ∧ ts_opened st' = ts_opened st ∧ ts_caches st' = ts_caches st ∧
  match e with
  | None => ∃ en, ts_entries st' = ts_entries st ++ [en] ∧ te_roller en = cacheKey i p ∧ same_entry (entry_for t i p name data) en ∧
      (nothing_fails t (ts_fs st) (i, p) → en = entry_for t i p name data)
  | Some _ => ts_entries st' = ts_entries st ∧ ¬ nothing_fails t (ts_fs st) (i, p)
  end.
Proof.
  unfold write_entry. destruct (Prepare _ _ _ _ _) as [dir s] eqn:Ep.
  assert (fs_entries s = fs_entries (ts_fs st) ∧ (nothing_fails t (ts_fs st) (i, p) → dir = Ok (directory_of (ts_tardir t) i p))) as [Hs Hdir].
  { unfold Prepare, mbind, io_bind, MkdirAll, guarded in Ep. destruct (denied _) as [er|] eqn:Ed.
    - injection Ep as <- <-. split; [done|]. intros (H & _). by rewrite H in Ed.
    - case_decide as Hx; injection Ep as <- <-; (split; [done|]); [|done]. intros (_ & _ & _ & H). exfalso.
      apply Exists_exists in Hx as (x & Hx & [y Hy]). rewrite Forall_forall in H. by rewrite (H x Hx) in Hy. }
  destruct (WriteData _ _ _) eqn:Ew; intros [= <- <-]; cbn; (do 3 (split; [done|])).
  - split; [done|]. intros (_ & _ & H & _). by rewrite H in Ew.
  - eexists. split_and!; [done..|]. intros H. by rewrite (Hdir H).
Qed.

Lemma nothing_fails_ext t s s' x : fs_entries s = fs_entries s' → nothing_fails t s x → nothing_fails t s' x.
Proof. destruct x as [i p]. unfold nothing_fails. by intros ->. Qed.

(** What is written behind a roller that is open. *)
Lemma stored_behind t x st st1 :
  ts_fs st1 = ts_fs st → ts_entries st1 = ts_entries st →
  (ts_opened st1 = ts_opened st ∧ ts_caches st1 = ts_caches st ∨
   ∃ k, k ∉ ts_caches st ∧ ts_opened st1 = ts_opened st ++ [k] ∧ ts_caches st1 = {[k]} ∪ ts_caches st) →
  ∀ st2 new l, fs_entries (ts_fs st2) = fs_entries (ts_fs st) → ts_opened st2 = ts_opened st1 → ts_caches st2 = ts_caches st1 →
    ts_entries st2 = ts_entries st1 ++ new → l `sublist_of` entries_for t x → Forall2 same_entry l new →
    Forall (λ e, te_roller e ∈ ts_caches st1) new → (nothing_fails t (ts_fs st) x → new = entries_for t x) →
    stored_one t x st st2.
Proof.
  intros Hf He Hro st2 new l H1 H2 H3 H4 H5 H6 H7 H8. split; [done|by rewrite H2, H3|].
  exists new. rewrite H4, He, H3. split_and!; [done|by exists l|done|done].
Qed.

Lemma tarstore_Store_spec t i p st e st' :
  tarstore_Store t i p st = Ok (e, st') → stored_one t (i, p) st st'.
Proof.
  unfold tarstore_Store. destruct (Can _ p) eqn:Hcan; cbn [negb].
  2: { intros [= <- <-]. split; [done|by left|]. exists []. rewrite app_nil_r. unfold entries_for. rewrite Hcan.
       split_and!; [done|by exists []|done|done]. }
  destruct (roller_of t _ st) as [e1 st1] eqn:Er. apply roller_of_spec in Er as (Hf & He & Hro & Hk & Hok).
  pose proof (stored_behind t (i, p) st st1 Hf He) as Hone.
  specialize (Hone ltac:(destruct Hro as [?|(? & ? & ?)]; [by left|right; by eexists])).
  destruct e1 as [e1|].
  { intros [= <- <-]. eapply (Hone st1 [] []); [by rewrite Hf|done..|by rewrite app_nil_r|apply sublist_nil_l|done|done|].
    intros (_ & H & _). by specialize (Hok H). }
  specialize (Hk eq_refl). unfold entries_for in Hone. rewrite Hcan in Hone.
  destruct (encodeRawPacket p) as [buf|er|w] eqn:Eb; [| |done].
  2: { intros [= <- <-]. eapply (Hone st1 [] []); [by rewrite Hf|done..|by rewrite app_nil_r|apply sublist_nil_l|done|done|done]. }
  destruct (write_entry t _ i p _ buf st1) as [e2 st2] eqn:Ew. apply write_entry_spec in Ew as (Hf2 & Ho2 & Hc2 & Hw).
  rewrite Hf in Hf2. destruct e2 as [e2|].
  { destruct Hw as [Hw Hn]. intros [= <- <-]. eapply (Hone st2 [] []);
      [done..|by rewrite app_nil_r|apply sublist_nil_l|done|done|]. intros H. by rewrite Hf in Hn. }
  destruct Hw as (en & Hw & Hkey & Hsame & Hexact). rewrite Hf in Hexact.
  assert (te_roller en ∈ ts_caches st1) as Hen by by rewrite Hkey. rewrite match_image.
  destruct (is_image p) eqn:Ei.
  2: { intros [= <- <-]. eapply (Hone st2 [en]); [done..|reflexivity|by apply Forall2_cons|by apply Forall_singleton|].
       intros H. by rewrite (Hexact H). }
  unfold storeMetadata. destruct (encodeMetadata p) as [ms|er|w] eqn:Em; [| |done].
  2: { intros [= <- <-]. eapply (Hone st2 [en]); [done..|reflexivity|by apply Forall2_cons|by apply Forall_singleton|].
       intros H. by rewrite (Hexact H). }
  intros [= Ew]. apply write_entry_spec in Ew as (Hf3 & Ho3 & Hc3 & Hw3). destruct e as [e|].
  - destruct Hw3 as [Hw3 Hn]. eapply (Hone st' [en] [_]); [congruence|congruence|congruence|congruence| |by apply Forall2_cons|
      by apply Forall_singleton|].
    { by apply sublist_skip, sublist_nil_l. }
    intros H. destruct Hn. by eapply nothing_fails_ext; [|exact H].
  - destruct Hw3 as (en3 & Hw3 & Hkey3 & Hsame3 & Hexact3). eapply (Hone st' [en; en3]);
      [congruence|congruence|congruence| |reflexivity|by do 2 (apply Forall2_cons; split; [done|])|by apply Forall_cons; split; [|apply Forall_singleton; rewrite Hkey3]|].
    { rewrite Hw3, Hw, <-(assoc_L app). done. }
    intros H. rewrite (Hexact H), Hexact3; [done|]. by eapply nothing_fails_ext; [|exact H].
Qed.

(** The archive after a list of items. *)
Record archived (t : tarstore) (items : list (Z * HRPacket)) (s : fs) (st : tar_state) : Prop := {
  ok_files : fs_entries (ts_fs st) = fs_entries s;
  ok_opened : NoDup (ts_opened st);
  ok_caches k : k ∈ ts_opened st ↔ k ∈ ts_caches st;
  ok_behind : Forall (λ e, te_roller e ∈ ts_opened st) (ts_entries st);
  ok_entries : ∃ l, l `sublist_of` concat (entries_for t <$> items) ∧ Forall2 same_entry l (ts_entries st);
  ok_complete : Forall (nothing_fails t s) items → ts_entries st = concat (entries_for t <$> items);
}.

Lemma archived_snoc t items x s st st' :
  archived t items s st → stored_one t x st st' → archived t (items ++ [x]) s st'.
Proof.
  intros [H1 H2 H3 H4 (l & Hl & Hsame) H6] [Hf Hro (new & Hn & (l' & Hl' & Hsame') & Hb & Hex)].
  assert (NoDup (ts_opened st') ∧ (∀ k, k ∈ ts_opened st' ↔ k ∈ ts_caches st') ∧ ts_opened st ⊆ ts_opened st') as (Ho & Hc & Hsub).
  { destruct Hro as [[-> ->]|(k & Hk & -> & ->)]; [done|]. split_and!.
    - apply NoDup_app. split_and!; [done| |apply NoDup_singleton]. intros y Hy. rewrite list_elem_of_singleton. intros ->. by apply Hk, H3.
    - set_solver.
    - set_solver. }
  split; [by rewrite Hf|done|done| | |].
  - rewrite Hn. apply Forall_app. split; [eapply Forall_impl; [exact H4|]; intros e; apply Hsub|].
    eapply Forall_impl; [exact Hb|]. intros e. by rewrite Hc.
  - exists (l ++ l'). rewrite fmap_app, concat_app, Hn. cbn. rewrite app_nil_r. split; [by apply sublist_app|by apply Forall2_app].
  - intros [Hall Hx]%Forall_app. rewrite Forall_singleton in Hx. rewrite Hn, H6, fmap_app, concat_app by done. cbn. rewrite app_nil_r.
    f_equal. apply Hex. by eapply nothing_fails_ext; [symmetry; exact H1|].
Qed.

(** C31: whatever packets arrive and whatever fails, the archive opens every
    roller once, one for each instance, mode, kind and origin (of packets whose
    origins are names), and what its rollers hold is, in the order of the
    items, part of what they are meant to hold: of every item that is accepted
    the raw packet, of an image also the metadata, each behind the roller of
    its own item, with its true size and time.  When nothing fails it is all of
    it, under the names of the items. *)
Theorem tarstore_archives t items s st :
  store_all t items (new_tar_state s) = Ok st →
  archived t items s st ∧
  ∀ i p j q, simple_name (Origin p) → simple_name (Origin q) →
    cacheKey i p = cacheKey j q ↔ i = j ∧ type_seg p = type_seg q ∧ IsRealtime p = IsRealtime q ∧ Origin p = Origin q.
Proof.
  intros Hst. split; [|by intros; apply cacheKey_iff]. revert Hst.
  assert (∀ done st0, archived t done s st0 → store_all t items st0 = Ok st → archived t (done ++ items) s st) as H.
  { induction items as [|[i p] items IH]; intros done st0 H0; simpl; [intros [= <-]; by rewrite app_nil_r|].
    destruct (tarstore_Store t i p st0) as [[e st1]|er|w] eqn:E; [|done..]. intros Hs.
    assert (done ++ (i, p) :: items = (done ++ [(i, p)]) ++ items) as -> by by rewrite <-(assoc_L app).
    eapply IH; [|exact Hs]. eapply archived_snoc; [done|by eapply tarstore_Store_spec]. }
  apply (H []). split; cbn; [done|constructor|set_solver|constructor|exists []; by repeat constructor|done].
Qed.
End archive.

(** The archive's directory of a packet is made under the working directory of
    the broker, where nothing is ever stored. *)
Example archive_makes_directories :
  let t := mkTarstore no_control "/data" (NewDirectory "" "" [] 0) in
  match tarstore_Store healthy sample_metadata (λ _, None) (λ _ _ _, None) t 255 sample_good (new_tar_state empty_fs) with
  | Ok (None, st) => bool_decide ("OPS/images/realtime/51/2020/006/00" ∈ fs_dirs (ts_fs st)) &&
                     bool_decide (length (ts_entries st) = 2)
  | _ => false
  end = true.
Proof. by vm_compute. Qed.

Definition sample_items : list (Z * HRPacket) := [(255%Z, sample_good); (1%Z, sample_q); (255%Z, sample_p)].

Lemma tarstore_archives_witness :
  let t := mkTarstore no_control "/data" (NewDirectory "" "" [] 0) in
  let run := store_all healthy sample_metadata (λ _, None) (λ _ _ _, None) t sample_items (new_tar_state empty_fs) in
  match run with
  | Ok st => ts_entries st = concat (entries_for sample_metadata t <$> sample_items) ∧
      length (ts_opened st) = 2 ∧ length (ts_entries st) = 5
  | _ => False
  end.
Proof.
  cbv zeta.
  match goal with |- match ?r with _ => _ end =>
    assert (match r with Ok st => bool_decide (length (ts_opened st) = 2 ∧ length (ts_entries st) = 5) | _ => false end = true) as Hc
      by (vm_compute; reflexivity);
    revert Hc; destruct r as [st|e|w] eqn:E; intros Hc; [|discriminate Hc..]
  end.
  apply bool_decide_eq_true in Hc as [Ho Hl]. split_and!; [|done..].
  destruct (tarstore_archives healthy sample_metadata (λ _, None) (λ _ _ _, None) _ _ _ _ E) as [[_ _ _ _ _ Hall] _].
  apply Hall. apply Forall_forall. intros [i p] _. split_and!; [done..|]. by apply Forall_forall.
Defined.
