(* ===== verification/Listen.v ===== *)
(** * Listen: the broker itself (src/cmd/hadock/listen.go)

    What [runListen] puts together: the choice of a decoder, the conversion of
    HDK packets to VMU packets with its counters and its bounded queue, the
    storages and the pool built from the configuration, and the loop that
    gives every item to the storages, the pool and the plugins. *)

From S2P Require Import Prelude Chan Bytes SortSearch GoStd Panda Proto Notifier.
From S2P Require Import Fs Storage Files Archive.
From Stdlib Require Import ZArith Lia.

(** ** [Decode] *)

Inductive decodeFunc : Type := CompressedPackets | BinaryPackets.

Definition Decode (mode : string) : result decodeFunc :=
  if decide (mode = "rfc1952" ∨ mode = "gzip") then Ok CompressedPackets
  else if decide (mode = "binary" ∨ mode = "") then Ok BinaryPackets
  else Err (Errorf "unsupported working mode %s" [AStr mode]).

(** ** [Convert]

    The decoder of a VMU version is third-party: [decoder v] is [None] when
    [panda.DecodeHR] has none for the version. *)
Record counters : Type := mkCounters {
  c_total : Z; c_image : Z; c_science : Z; c_skipped : Z; c_errors : Z; c_size : Z;
}.

Definition zero_counters : counters := mkCounters 0 0 0 0 0 0.

(** [x++] on an [int64]. *)
Definition incr (x : Z) : Z := swrap 64 (x + 1).

(** The queue [q], of capacity [n], and the counters. *)
Record converter : Type := mkConverter {
  cv_chan : chan Item;
  cv_counters : counters;
}.

Definition new_converter : converter := mkConverter new_chan zero_counters.

Definition cv_queue (s : converter) : list Item := ch_queue (cv_chan s).
Definition cv_received (s : converter) : list Item := ch_received (cv_chan s).

Section convert.
Context {panda : PandaLib} (decoder : Z → option (list byte → result HRPacket)) (n : nat).

(** [ds[int(p.Version)]]: only the two protocol versions are in the map. *)
Definition lookup_decoder (v : Z) : option (list byte → result HRPacket) :=
  if decide (v = VMUProtocol1 ∨ v = VMUProtocol2) then decoder v else None.

Definition add_error (c : counters) : counters :=
  mkCounters (c_total c) (c_image c) (c_science c) (c_skipped c) (incr (c_errors c)) (c_size c).
Definition add_science (c : counters) : counters :=
  mkCounters (c_total c) (c_image c) (incr (c_science c)) (c_skipped c) (c_errors c) (c_size c).
Definition add_image (c : counters) : counters :=
  mkCounters (c_total c) (incr (c_image c)) (c_science c) (c_skipped c) (c_errors c) (c_size c).
Definition add_total (len : Z) (c : counters) : counters :=
  mkCounters (incr (c_total c)) (c_image c) (c_science c) (c_skipped c) (c_errors c) (swrap 64 (c_size c + len)).
Definition add_skipped (c : counters) : counters :=
  mkCounters (c_total c) (c_image c) (c_science c) (incr (c_skipped c)) (c_errors c) (c_size c).

(** The [select] on the queue: the item is sent, or skipped when there is no
    room for it. *)
Definition offer (i : Item) (len : Z) (c : counters) (s : converter) : converter :=
  match try_send n i (cv_chan s) with
  | Some q => mkConverter q (add_total len c)
  | None => mkConverter (cv_chan s) (add_skipped c)
  end.

(** One turn of [for p := range ps]. *)
Definition convert (p : Packet) (s : converter) : result converter :=
  let c := cv_counters s in
  let failed := Ok (mkConverter (cv_chan s) (add_error c)) in
  match lookup_decoder (pkt_Version p) with
  | None => failed
  | Some d =>
      match d (pkt_Payload p) with
      | Err _ => failed
      | Panic w => Panic w
      | Ok hr =>
          let i := mkItem (pkt_Instance p) hr in
          let len := Z.of_nat (length (pkt_Payload p)) in
          match hr with
          | Table _ _ _ => Ok (offer i len (add_science c) s)
          | Image _ _ _ => Ok (offer i len (add_image c) s)
          | OtherPacket _ => failed
          end
      end
  end.

(** The consumer receives the oldest item, or waits. *)
Definition consume (s : converter) : converter := mkConverter (receive_from (cv_chan s)) (cv_counters s).

(** The goroutine that logs and resets: it reads and writes the counters while
    the other one does, one assignment at a time. *)
Inductive counter : Type := CSize | CImage | CScience | CSkipped | CErrors | CTotal.

Definition reset (k : counter) (c : counters) : counters :=
  match k with
  | CSize => mkCounters (c_total c) (c_image c) (c_science c) (c_skipped c) (c_errors c) 0
  | CImage => mkCounters (c_total c) 0 (c_science c) (c_skipped c) (c_errors c) (c_size c)
  | CScience => mkCounters (c_total c) (c_image c) 0 (c_skipped c) (c_errors c) (c_size c)
  | CSkipped => mkCounters (c_total c) (c_image c) (c_science c) 0 (c_errors c) (c_size c)
  | CErrors => mkCounters (c_total c) (c_image c) (c_science c) (c_skipped c) 0 (c_size c)
  | CTotal => mkCounters 0 (c_image c) (c_science c) (c_skipped c) (c_errors c) (c_size c)
  end.

Inductive convert_event : Type :=
  | Feeds (p : Packet)
  | Consumes
  | ResetsOne (k : counter).

Definition convert_step (s : converter) (ev : convert_event) : result converter :=
  match ev with
  | Feeds p => convert p s
  | Consumes => Ok (consume s)
  | ResetsOne k => Ok (mkConverter (cv_chan s) (reset k (cv_counters s)))
  end.

Fixpoint Convert (evs : list convert_event) (s : converter) : result converter :=
  match evs with
  | [] => Ok s
  | ev :: evs => s ← convert_step s ev; Convert evs s
  end.

(** *** What a packet is worth *)

Definition item_of (p : Packet) : option Item :=
  match lookup_decoder (pkt_Version p) with
  | Some d => match d (pkt_Payload p) with
              | Ok (Table _ _ _ as hr) | Ok (Image _ _ _ as hr) => Some (mkItem (pkt_Instance p) hr)
              | _ => None
              end
  | None => None
  end.

Definition fed (evs : list convert_event) : list Packet :=
  omap (λ ev, match ev with Feeds p => Some p | _ => None end) evs.

Definition is_reset (ev : convert_event) : bool := match ev with ResetsOne _ => true | _ => false end.

(** All that left or waits in the queue, oldest first. *)
Definition delivered (s : converter) : list Item := passed (cv_chan s).

Lemma convert_cases p s s' :
  convert p s = Ok s' →
  match item_of p with
  | Some i =>
      try_send n i (cv_chan s) = Some (cv_chan s') ∨ try_send n i (cv_chan s) = None ∧ cv_chan s' = cv_chan s
  | None => cv_chan s' = cv_chan s
  end.
Proof.
  unfold convert, item_of, offer. destruct (lookup_decoder _) as [d|]; [|by intros [= <-]].
  destruct (d _) as [[h v t|h v t|h]|e|w]; try (by intros [= <-]); try done.
  all: destruct (try_send _ _ _) eqn:E; intros [= <-]; auto.
Qed.

Lemma Convert_app evs1 evs2 s : Convert (evs1 ++ evs2) s = (s1 ← Convert evs1 s; Convert evs2 s1).
Proof.
  revert s. induction evs1 as [|ev evs1 IH]; intros s; [done|]. cbn.
  destruct (convert_step s ev); cbn; [apply IH|done..].
Qed.

Lemma Convert_chan evs s :
  Convert evs new_converter = Ok s →
  delivered s `sublist_of` omap item_of (fed evs) ∧ chan_ok n (cv_chan s).
Proof.
  revert s. induction evs as [|ev evs IH] using rev_ind; intros s.
  { intros [= <-]. split; [done|auto with hadock]. }
  rewrite Convert_app. intros (s1 & H1 & Hs)%result_bind_ok.
  destruct (IH _ H1) as [Hsub Hok]. cbn in Hs. apply result_bind_ok in Hs as (s2 & Hs & [= ->]).
  assert (fed (evs ++ [ev]) = fed evs ++ fed [ev]) as Hfed by apply omap_app.
  rewrite Hfed, omap_app. unfold delivered in *. destruct ev as [p| |k]; cbn in Hs.
  - pose proof (convert_cases p s1 s Hs) as Hc. cbn. destruct (item_of p) as [i|].
    + destruct Hc as [Hc|[_ ->]]; [|split; [by apply sublist_inserts_r|done]].
      rewrite (try_send_passed n i _ _ Hok Hc). split; [by apply sublist_app|by eapply try_send_ok].
    + rewrite Hc. by rewrite app_nil_r.
  - apply (inj Ok) in Hs as <-. cbn [consume cv_chan]. rewrite receive_from_passed.
    split; [by apply sublist_inserts_r|auto with hadock].
  - apply (inj Ok) in Hs as <-. cbn. by rewrite app_nil_r.
Qed.

(** C24: whatever the interleaving of the connections, the consumer and the
    clock that logs, the consumer receives, in order, packets that were
    decoded from what was fed, and the queue never holds more than its
    capacity. *)
Theorem Convert_delivers evs s :
  Convert evs new_converter = Ok s →
  delivered s `sublist_of` omap item_of (fed evs) ∧ length (cv_queue s) ≤ n.
Proof. intros H. destruct (Convert_chan evs s H) as [Hsub Hok]. split; [done|apply Hok]. Qed.

Lemma incr_small x : (0 ≤ x < 2 ^ 63 - 1)%Z → incr x = (x + 1)%Z.
Proof. intros. unfold incr. apply swrap_small; [lia|]. width_lia. Qed.

(** The counters agree with what happened: [k] packets were fed. *)
Record counted (k : nat) (s : converter) : Prop := {
  cnt_kinds : (c_image (cv_counters s) + c_science (cv_counters s) =
               c_total (cv_counters s) + c_skipped (cv_counters s))%Z;
  cnt_fed : (c_total (cv_counters s) + c_skipped (cv_counters s) + c_errors (cv_counters s) = Z.of_nat k)%Z;
  cnt_total : c_total (cv_counters s) = Z.of_nat (length (delivered s));
  cnt_pos : (0 ≤ c_image (cv_counters s) ∧ 0 ≤ c_science (cv_counters s) ∧
             0 ≤ c_skipped (cv_counters s) ∧ 0 ≤ c_errors (cv_counters s))%Z;
}.

Lemma convert_counted k p s s' :
  chan_ok n (cv_chan s) → counted k s → (Z.of_nat k < 2 ^ 63 - 1)%Z → convert p s = Ok s' → counted (S k) s'.
Proof.
  intros Hok [H1 H2 H3 H4] Hk. unfold convert, offer.
  assert (counted (S k) (mkConverter (cv_chan s) (add_error (cv_counters s)))) as Herr.
  { unfold add_error; split; cbn; rewrite ?incr_small by lia; unfold delivered in *; cbn; lia. }
  destruct (lookup_decoder _) as [d|]; [|by intros [= <-]].
  destruct (d _) as [[h v t|h v t|h]|e|w]; try (by intros [= <-]); try done.
  all: destruct (try_send _ _ _) as [c|] eqn:E; intros [= <-]; unfold add_total, add_skipped, add_image, add_science;
    split; cbn; rewrite ?incr_small by lia; unfold delivered in *; cbn;
    rewrite ?(try_send_passed n _ _ _ Hok E); autorewrite with lengths in *; cbn; try lia.
Qed.

Lemma consume_counted k s : counted k s → counted k (consume s).
Proof.
  intros [H1 H2 H3 H4]. split; try done. unfold delivered in *. cbn [consume cv_chan cv_counters].
  by rewrite receive_from_passed.
Qed.

(** Fact: between two resets of the log, the counters add up: images and
    sciences are what was sent and what was skipped, which with the errors is
    everything that was fed, and the total is what the consumer got or still
    finds in the queue. *)
Theorem Convert_counts evs s :
  Forall (λ ev, is_reset ev = false) evs → (Z.of_nat (length (fed evs)) < 2 ^ 63)%Z →
  Convert evs new_converter = Ok s → counted (length (fed evs)) s.
Proof.
  revert s. induction evs as [|ev evs IH] using rev_ind; intros s.
  { intros _ _ [= <-]. by split. }
  rewrite Forall_app, Forall_singleton, Convert_app. intros [Hr Hev] Hlen (s1 & H1 & Hs)%result_bind_ok.
  assert (fed (evs ++ [ev]) = fed evs ++ fed [ev]) as Hfed by apply omap_app.
  rewrite Hfed, length_app in *.
  cbn in Hs. apply result_bind_ok in Hs as (s2 & Hs & [= ->]).
  specialize (IH s1 Hr). destruct ev as [p| |k]; cbn in *; [| |done].
  - rewrite Nat.add_1_r. eapply convert_counted; [by eapply Convert_chan|apply IH; [lia|done]|lia|done].
  - rewrite Nat.add_0_r. apply (inj Ok) in Hs as <-. apply consume_counted, IH; [lia|done].
Qed.

(** A consumer that receives each item before the next packet arrives gets
    every packet that decodes. *)
Lemma Convert_lossless ps :
  0 < n → Forall (λ p, ∀ d w, lookup_decoder (pkt_Version p) = Some d → d (pkt_Payload p) ≠ Panic w) ps →
  ∃ s, Convert (ps ≫= λ p, [Feeds p; Consumes]) new_converter = Ok s ∧
    cv_received s = omap item_of ps ∧ cv_queue s = [].
Proof.
  intros Hn Hps.
  assert (∀ s, chan_ok n (cv_chan s) → cv_queue s = [] → ∃ s', Convert (ps ≫= λ p, [Feeds p; Consumes]) s = Ok s' ∧
    cv_received s' = cv_received s ++ omap item_of ps ∧ cv_queue s' = []) as H.
  { induction Hps as [|p ps Hp Hps IH]; intros s Hok Hq.
    { exists s. split_and!; [done|by rewrite app_nil_r|done]. }
    cbn [mbind list_bind app Convert convert_step].
    destruct (convert p s) as [s1|e|w] eqn:E.
    - pose proof (convert_cases p s s1 E) as Hc.
      assert (chan_ok n (cv_chan s1) ∧ cv_queue (consume s1) = [] ∧
              cv_received (consume s1) = cv_received s ++ option_list (item_of p)) as (Hok1 & Hq1 & Hr1).
      { destruct (item_of p) as [i|].
        - destruct (try_send_receive n i _ Hn Hok Hq) as (c & Hc' & Hr & Hq'). rewrite Hc' in Hc.
          destruct Hc as [[= ->]|[? _]]; [|done]. split_and!; [by eapply try_send_ok|done..].
        - unfold cv_queue, cv_received, consume, receive_from in *. rewrite Hc. simpl.
          rewrite Hq. split_and!; [done..|]. by rewrite app_nil_r. }
      destruct (IH (consume s1)) as (s' & Hs' & Hr & Hq'); [by apply receive_from_ok|done|].
      exists s'. cbn. split_and!; [done| |done]. rewrite Hr, Hr1, <-app_assoc. by destruct (item_of p).
    - exfalso. revert E. unfold convert. destruct (lookup_decoder _); [|done].
      match goal with |- context [?d (pkt_Payload p)] => by destruct (d (pkt_Payload p)) as [[]| |] end.
    - exfalso. revert E. unfold convert. destruct (lookup_decoder _) as [d|] eqn:Ed; [|done].
      destruct (d (pkt_Payload p)) as [[]| |] eqn:Ep; try done. intros _. by eapply Hp. }
  destruct (H new_converter (new_chan_ok n) eq_refl) as (s & ? & ? & ?). eauto.
Qed.
End convert.

(** ** Setting up the broker *)

Inductive store : Type :=
  | FileStore (f : filestore)
  | TarStore (t : tarstore)
  | HRDPStore (h : hrdpstore).

Section setup.
Context {panda : PandaLib} (denied : string → option error) (Roll : string → option error).

(** An empty location is created by nobody: the error of the system is
    dropped. *)
Definition mkdir_location (l : string) : io () :=
  if decide (l = "") then ignore (MkdirAll denied l) else MkdirAll denied l.

Fixpoint mkdir_shares (os : list Options) : io () :=
  match os with
  | [] => mret ()
  | o :: os => mkdir_location (so_Location o);; mkdir_shares os
  end.

Definition mkdirAll (v : Options) : io () :=
  mkdir_location (so_Location v);; mkdir_shares (so_Shares v).

(** One turn of the loop over the configured storages: [None] for the
    [continue] of an empty scheme. *)
Definition setup_one (v : Options) : io (option store) :=
  if decide (so_Scheme v = "") then mret None
  else if decide (so_Scheme v = "hrdp") then
    mkdirAll v;; s ← NewHRDPStorage denied Roll v; mret (Some (HRDPStore s))
  else if decide (so_Scheme v = "tar" ∨ so_Scheme v = "archive") then
    mkdirAll v;; s ← NewArchiveStorage denied v; mret (Some (TarStore s))
  else if decide (so_Scheme v = "file") then
    mkdirAll v;; s ← NewLocalStorage denied v; mret (Some (FileStore s))
  else io_fail (Errorf "%s: unrecognized storage type" [AStr (so_Scheme v)]).

Fixpoint setup_all (vs : list Options) : io (list store) :=
  match vs with
  | [] => mret []
  | v :: vs => s ← setup_one v; ss ← setup_all vs; mret (option_list s ++ ss)
  end.

Definition setupStorage (vs : list Options) : io (list store) :=
  if decide (length vs = 0) then io_fail (Errorf "no storage defined! abort" []) else setup_all vs.

(** The scheme a store answers to. *)
Definition store_schemes (s : store) : list string :=
  match s with
  | FileStore _ => ["file"]
  | TarStore _ => ["tar"; "archive"]
  | HRDPStore _ => ["hrdp"]
  end.

(** Fact: when the storages are set up, there is one per entry of the
    configuration that has a type, of that type, in the order of the
    configuration; a configuration whose entries have no type gives a broker
    without storage, and no error. *)
Theorem setupStorage_stores vs s ss s' :
  setupStorage vs s = (Ok ss, s') →
  Forall2 (λ v st, so_Scheme v ∈ store_schemes st) (filter (λ v, so_Scheme v ≠ "") vs) ss ∧ vs ≠ [].
Proof.
  unfold setupStorage. case_decide as Hl; [done|]. intros H. split; [|by intros ->].
  clear Hl. revert s ss s' H. induction vs as [|v vs IH]; intros s ss s' H.
  { by injection H as <- _. }
  cbn [setup_all] in H. apply io_bind_inv in H as (o & s1 & H1 & H).
  apply io_bind_inv in H as (ss1 & s2 & H2 & H). injection H as <- _.
  specialize (IH _ _ _ H2). unfold setup_one in H1. rewrite filter_cons.
  destruct (decide (so_Scheme v = "")) as [E|Hne].
  { injection H1 as <- _. by rewrite decide_False by naive_solver. }
  rewrite decide_True by done.
  repeat case_decide; try done;
    repeat (apply io_bind_inv in H1 as (? & ? & _ & H1)); injection H1 as <- _;
    (constructor; [|done]); simpl; set_solver.
Qed.
End setup.

(** ** The pool *)

Record notifier_config : Type := mkNotifierConfig {
  nc_Scheme : string; nc_Location : string; nc_Source : string; nc_Instance : Z; nc_Channels : list Z;
}.

Record pool_config : Type := mkPoolConfig {
  pc_Interval : Z; pc_Limit : Z; pc_Notifiers : list notifier_config;
}.

Inductive notifier : Type :=
  | External (location : string) (o : Notifier.Options)
  | Debugger (location : string) (o : Notifier.Options).

Section setup_pool.
(** Dialing an address and creating a file are the system's. *)
Context (Dial Create : string → option error).

(** [Some None] for [return nil, err] with a nil [err]. *)
Fixpoint setup_notifiers (vs : list notifier_config) : result (option (list notifier)) :=
  match vs with
  | [] => Ok (Some [])
  | v :: vs =>
      let o := Notifier.mkOptions (nc_Source v) (nc_Instance v) (nc_Channels v) in
      let more n := ns ← setup_notifiers vs; Ok (option_map (cons n) ns) in
      if decide (nc_Scheme v = "udp") then
        match Dial (nc_Location v) with
        | Some e => Err e
        | None => more (External (nc_Location v) o)
        end
      else if decide (nc_Scheme v = "logger") then
        if decide (nc_Location v = "/dev/null" ∨ nc_Location v = "") then more (Debugger (nc_Location v) o)
        else match Create (nc_Location v) with
             | Some _ => Ok None
             | None => more (Debugger (nc_Location v) o)
             end
      else setup_notifiers vs
  end.

Definition setupPool (p : pool_config) : result (option (Pool notifier)) :=
  let delay := seconds (pc_Interval p) in
  let age := seconds (pc_Limit p) in
  ns ← setup_notifiers (pc_Notifiers p);
  Ok (option_map (λ ns, NewPool ns age delay) ns).
End setup_pool.

(** ** Plugins

    What a plugin's [New] is, and what it returns, is the plugin's. *)
Inductive plugin_symbol (M : Type) : Type :=
  | NewConfigured (new : string → result M)
  | NewPlain (new : result M)
  | NewOther.
Arguments NewConfigured {_} _.
Arguments NewPlain {_} _.
Arguments NewOther {_}.

Record module_config : Type := mkModuleConfig { mc_Location : string; mc_Config : list string }.

Section modules.
Context {M : Type} (Lookup : string → result (plugin_symbol M)).

Fixpoint configured (new : string → result M) (config : list string) : result (list M) :=
  match config with
  | [] => Ok []
  | c :: config =>
      match new c with
      | Ok i => ps ← configured new config; Ok (i :: ps)
      | Err _ => configured new config
      | Panic w => Panic w
      end
  end.

Definition instances (sym : plugin_symbol M) (config : list string) : result (list M) :=
  match sym with
  | NewConfigured new => configured new config
  | NewPlain new => match new with Ok i => Ok [i] | Err _ => Ok [] | Panic w => Panic w end
  | NewOther => Err (Errorf "invalid module function: %T" [])
  end.

(** [None] for the nil module of an empty configuration. *)
Fixpoint setup_modules (ms : list module_config) : result (list M) :=
  match ms with
  | [] => Ok []
  | m :: ms =>
      n ← Lookup (mc_Location m);
      ps ← instances n (mc_Config m);
      rest ← setup_modules ms;
      Ok (ps ++ rest)
  end.

Definition setupModules (ms : list module_config) : result (option (list M)) :=
  if decide (length ms = 0) then Ok None else ps ← setup_modules ms; Ok (Some ps).
End modules.

(** ** The loop of [runListen] *)

Section loop.
Context {W N : Type}.

(** The world of the storages, the pool and the plugin queue ([None] without
    plugins: a send on a nil channel never proceeds). *)
Record broker : Type := mkBroker {
  br_world : W;
  br_pool : option (Pool N);
  br_plugins : option (chan Item);
  br_errors : list error;           (* the errors logged *)
}.

Definition offer_plugins (buffer : nat) (i : Item) (q : option (chan Item)) : option (chan Item) :=
  (λ c, default c (try_send buffer i c)) <$> q.

Definition listen_item (fs : Storage W) (buffer : nat) (now : Time) (i : Item) (b : broker) : result broker :=
  let '(err, w) := st_Store fs (wrap 8 (it_Instance i)) (it_HRPacket i) (br_world b) in
  p ← Pool_Notify now (br_pool b) i;
  Ok (mkBroker w (Some p) (offer_plugins buffer i (br_plugins b)) (br_errors b ++ option_list err)).

Fixpoint runListen (fs : Storage W) (buffer : nat) (items : list (Time * Item)) (b : broker) : result broker :=
  match items with
  | [] => Ok b
  | (now, i) :: items => b ← listen_item fs buffer now i b; runListen fs buffer items b
  end.

(** With a pool, every item is given to the storages, in the order of the
    queue, whatever they return, and every error is logged. *)
Lemma runListen_stores_all fs buffer items b p :
  br_pool b = Some p →
  let ops := (λ it, st_Store fs (wrap 8 (it_Instance it.2)) (it_HRPacket it.2)) <$> items in
  ∃ b', runListen fs buffer items b = Ok b' ∧ is_Some (br_pool b') ∧
    br_world b' = run_all ops (br_world b) ∧
    br_errors b' = br_errors b ++ errors_of ops (br_world b).
Proof.
  cbv zeta. revert b p. induction items as [|[now i] items IH]; intros b p Hp.
  { exists b. rewrite Hp, app_nil_r. by eauto. }
  cbn [runListen fmap list_fmap]. unfold listen_item at 1.
  destruct (st_Store fs _ _ _) as [err w] eqn:Es. rewrite Hp, Pool_Notify_enqueues. cbn [mbind result_bind].
  edestruct IH as (b' & -> & Hsome & Hw & He); [done|]. exists b'. cbn [br_world br_errors] in *.
  cbn [run_all errors_of foldl fst snd]. rewrite Es. cbn [fst snd].
  split_and!; [done|done|done|]. by rewrite He, <-app_assoc.
Qed.
End loop.
Arguments broker : clear implicits.

(** Fact: a log file of the pool that cannot be created is not reported: the
    broker starts without pool, and the first packet stops it. *)
Theorem setupPool_unreported {W} Dial Create pc pre l post e fs buffer now i items (w : W) plugins errs :
  pc_Notifiers pc = pre ++ l :: post →
  Forall (λ v, nc_Scheme v = "udp" ∧ Dial (nc_Location v) = None) pre →
  nc_Scheme l = "logger" → nc_Location l ≠ "" → nc_Location l ≠ "/dev/null" →
  Create (nc_Location l) = Some e →
  setupPool Dial Create pc = Ok None ∧
  ∃ why, runListen (N:=notifier) fs buffer ((now, i) :: items) (mkBroker w None plugins errs) = Panic why.
Proof.
  intros Hpc Hpre Hs Hne Hnn Hc. split.
  - unfold setupPool. rewrite Hpc. clear Hpc.
    assert (setup_notifiers Dial Create (pre ++ l :: post) = Ok None) as ->; [|done].
    induction Hpre as [|v pre [Hv Hd] _ IH].
    + simpl. rewrite Hs. rewrite decide_False, decide_True by done.
      rewrite decide_False by naive_solver. by rewrite Hc.
    + simpl. rewrite decide_True by done. rewrite Hd, IH. done.
  - eexists. cbn [runListen]. unfold listen_item. destruct (st_Store _ _ _ _). done.
Qed.

(** ** From the connection to the storages *)

Section broker.
Context {sorter : SliceSorter} {panda : PandaLib} {W : Type}.
Context (decoder : Z → option (list byte → result HRPacket)) (n : nat) (fs : Storage W) (buffer : nat).

(** C1: the broker end to end: a connection carries packets and junk words; as
    long as the storages keep up with the packets, they are given every packet
    of a wanted instance whose payload decodes, in the order of the
    connection, whatever they return, and all their errors are logged. *)
Theorem broker_stores cs insts nows (w : W) p q :
  Forall chunk_wf cs → 0 < n →
  (∀ v d bs why, decoder v = Some d → d bs ≠ Panic why) →
  let received := (DecodeBinaryPackets (length cs + 1) (Reader (concat (map chunk_bytes cs)) EOF) insts).1 in
  let wanted := omap (item_of decoder) (filter (λ p, insts = [] ∨ pkt_Instance p ∈ insts) (chunk_packets cs)) in
  length nows = length wanted →
  let ops := (λ i, st_Store fs (wrap 8 (it_Instance i)) (it_HRPacket i)) <$> wanted in
  ∃ s b, Convert decoder n (received ≫= λ p, [Feeds p; Consumes]) new_converter = Ok s ∧
    runListen fs buffer (zip nows (cv_received s)) (mkBroker w (Some p) q []) = Ok b ∧
    br_world (N:=notifier) b = run_all ops w ∧ br_errors b = errors_of ops w.
Proof.
  intros Hcs Hn Hd received wanted Hlen ops.
  assert (received = filter (λ p, insts = [] ∨ pkt_Instance p ∈ insts) (chunk_packets cs)) as Hrec
    by (unfold received; by rewrite (decode_stream cs insts 0)).
  destruct (Convert_lossless decoder n received Hn) as (s & Hs & Hr & _).
  { apply Forall_forall. intros pk _ d why. unfold lookup_decoder. case_decide; [|done]. apply Hd. }
  rewrite Hrec in Hr. fold wanted in Hr.
  destruct (runListen_stores_all fs buffer (zip nows (cv_received s)) (mkBroker w (Some p) q []) p eq_refl)
    as (b & Hb & _ & Hw & He).
  exists s, b. split_and!; [done|done| |].
  all: rewrite ?Hw, ?He; cbn [br_world br_errors app]; f_equal; unfold ops; rewrite Hr.
  all: rewrite <-(snd_zip nows wanted) at 2 by lia; by rewrite <-list_fmap_compose.
Qed.
End broker.

(** ** Examples *)

(** A decoder that makes a table of every payload but the empty one. *)
Definition sample_decoder (v : Z) : option (list byte → result HRPacket) :=
  Some (λ bs, match bs with
              | [] => Err (ErrExternal "too short")
              | _ => Ok (sample_table "OPS" 1 true bs)
              end).

Definition sample_hdk (instance : Z) (payload : list byte) : Packet :=
  mkPacket 0 2 instance 1 (Z.of_nat (length payload)) payload 0 0 0.

Definition sample_events : list convert_event :=
  [Feeds (sample_hdk 255 [x01]); Feeds (sample_hdk 255 []); Feeds (sample_hdk 1 [x02]); Consumes;
   Feeds (sample_hdk 1 [x03])].

Lemma Convert_delivers_witness :
  ∃ s, Convert sample_decoder 1 sample_events new_converter = Ok s ∧
    delivered s `sublist_of` omap (item_of sample_decoder) (fed sample_events) ∧ length (cv_queue s) ≤ 1.
Proof.
  eexists. split; [by vm_compute|]. apply Convert_delivers. by vm_compute.
Defined.

Lemma Convert_counts_witness :
  ∃ s, Convert sample_decoder 1 sample_events new_converter = Ok s ∧ counted 4 s ∧
    c_skipped (cv_counters s) = 1%Z ∧ c_errors (cv_counters s) = 1%Z.
Proof.
  eexists. split; [by vm_compute|]. split; [|done].
  apply (Convert_counts sample_decoder 1 sample_events); [repeat constructor|by vm_compute|by vm_compute].
Defined.

Definition sample_options (scheme : string) : Storage.Options :=
  Storage.mkOptions scheme "/data" "hdk" false false no_control 0 0 0 0 "" [] [] "".

Lemma setupStorage_stores_witness :
  ∃ ss s', setupStorage healthy (λ _, None) [sample_options ""; sample_options "tar"; sample_options "hrdp"] empty_fs
    = (Ok ss, s') ∧
    Forall2 (λ v st, so_Scheme v ∈ store_schemes st) [sample_options "tar"; sample_options "hrdp"] ss.
Proof.
  eexists _, _. split; [by vm_compute|].
  eapply (setupStorage_stores healthy (λ _, None) [sample_options ""; sample_options "tar"; sample_options "hrdp"] empty_fs).
  by vm_compute.
Defined.

Lemma setupPool_unreported_witness :
  let pc := mkPoolConfig 1 0 [mkNotifierConfig "udp" "239.0.0.1:9999" "" (-1) [];
                              mkNotifierConfig "logger" "/nowhere/hdk.log" "" (-1) []] in
  setupPool (λ _, None) (λ _, Some (ErrExternal "no such directory")) pc = Ok None ∧
  ∃ why, runListen (N:=notifier) (sample_store false) 1
    [(sample_time, mkItem 255 sample_good)] (mkBroker [] None None []) = Panic why.
Proof.
  cbv zeta. eapply (setupPool_unreported _ _ _ [_] (mkNotifierConfig "logger" "/nowhere/hdk.log" "" (-1) []) []);
    [done|by repeat constructor|done..].
Defined.

Lemma broker_stores_witness :
  let cs := [Wire (sample_hdk 255 [x01]); Junk [x00; x00; x00; x01]; Wire (sample_hdk 1 [x02])] in
  let received := (DecodeBinaryPackets (length cs + 1) (Reader (concat (map chunk_bytes cs)) EOF) [255%Z]).1 in
  ∃ s b, Convert sample_decoder 1 (received ≫= λ p, [Feeds p; Consumes]) new_converter = Ok s ∧
    runListen (sample_store true) 1 (zip [sample_time] (cv_received s)) (mkBroker [] (Some (NewPool [] 0 1)) None [])
      = Ok b ∧
    br_world (N:=notifier) b = [255%Z] ∧ br_errors b = [ErrExternal "disk full"].
Proof.
  destruct (broker_stores sample_decoder 1 (sample_store true) 1
    [Wire (sample_hdk 255 [x01]); Junk [x00; x00; x00; x01]; Wire (sample_hdk 1 [x02])] [255%Z] [sample_time]
    [] (NewPool [] 0 1) None) as (s & b & Hs & Hb & Hw & He).
  - by compute_decide.
  - lia.
  - intros v d bs why [= <-]. by destruct bs.
  - by vm_compute.
  - exists s, b. split; [exact Hs|]. split; [exact Hb|]. split; [exact Hw|exact He].
Defined.
