(* ===== verification/Broker.v ===== *)
(** * Broker: the main loop of the broker and its plugins
      (runListen of src/cmd/hadock/listen.go)

    The loop of [runListen] offers every item to a goroutine that runs the
    plugins, through a queue of the configured capacity, and never waits for
    it.  The two goroutines are interleaved here step by step; Listen.v has the
    loop alone. *)

From S2P Require Import Prelude Chan Bytes SortSearch GoStd Panda Proto Notifier Fs Storage Files Listen.
From Stdlib Require Import ZArith Lia.

Section broker.
Context {W N V : Type} (fs : Storage W) (buffer : nat) (Process : Module_ V HRPacket).

(** The broker, the world of the plugins, how many of the items they received
    they have processed, and the errors they logged. *)
Record running : Type := mkRunning {
  rn_broker : broker W N;
  rn_world : V;
  rn_worked : nat;
  rn_errors : list error;
}.

Inductive run_event : Type :=
  | Handles (now : Time) (i : Item)     (* a turn of the main loop *)
  | Takes                               (* the plugins' goroutine receives *)
  | Works.                              (* it processes what it received *)

Definition set_plugins (q : option (chan Item)) (b : broker W N) : broker W N :=
  mkBroker (br_world b) (br_pool b) q (br_errors b).

Definition run_step (ev : run_event) (r : running) : result running :=
  match ev with
  | Handles now i =>
      b ← listen_item fs buffer now i (rn_broker r);
      Ok (mkRunning b (rn_world r) (rn_worked r) (rn_errors r))
  | Takes =>
      match br_plugins (rn_broker r) with
      | Some c =>
          if decide (rn_worked r = length (ch_received c)) then
            Ok (mkRunning (set_plugins (Some (receive_from c)) (rn_broker r)) (rn_world r) (rn_worked r) (rn_errors r))
          else Ok r
      | None => Ok r
      end
  | Works =>
      match br_plugins (rn_broker r) ≫= λ c, ch_received c !! rn_worked r with
      | Some i =>
          match Process (wrap 8 (it_Instance i)) (it_HRPacket i) (rn_world r) with
          | (Panic why, _) => Panic why                    (* it ends the program *)
          | (res, v) => Ok (mkRunning (rn_broker r) v (S (rn_worked r)) (rn_errors r ++ option_list (err_of res)))
          end
      | None => Ok r
      end
  end.

Fixpoint run_all (evs : list run_event) (r : running) : result running :=
  match evs with
  | [] => Ok r
  | ev :: evs => r ← run_step ev r; run_all evs r
  end.

(** The items the main loop has handled. *)
Definition handled (evs : list run_event) : list (Time * Item) :=
  omap (λ ev, match ev with Handles now i => Some (now, i) | _ => None end) evs.

(** The plugins alone on a list of items. *)
Fixpoint plugins_run (items : list Item) (v : V) : result (list error * V) :=
  match items with
  | [] => Ok ([], v)
  | i :: items =>
      match Process (wrap 8 (it_Instance i)) (it_HRPacket i) v with
      | (Panic why, _) => Panic why
      | (res, v) => '(errs, v) ← plugins_run items v; Ok (option_list (err_of res) ++ errs, v)
      end
  end.

Lemma plugins_run_snoc items i v :
  plugins_run (items ++ [i]) v =
  '(errs, v) ← plugins_run items v;
  match Process (wrap 8 (it_Instance i)) (it_HRPacket i) v with
  | (Panic why, _) => Panic why
  | (res, v) => Ok (errs ++ option_list (err_of res), v)
  end.
Proof.
  revert v. induction items as [|j items IH]; intros v; cbn [plugins_run app].
  - cbn. destruct (Process _ _ v) as [[[]|e|why] v1]; cbn; by rewrite ?app_nil_r.
  - destruct (Process _ _ v) as [[[]|e|why] v1]; [| |done]; rewrite IH; cbn;
      destruct (plugins_run items v1) as [[errs v2]|e'|why]; cbn; try done;
      destruct (Process _ _ v2) as [[[]|e2|why] v3]; by cbn.
Qed.

Definition unplugged : broker W N → broker W N := set_plugins None.

(** A turn of the loop is the same with and without plugins, but for their
    queue. *)
Lemma listen_item_unplugged now i b b' :
  listen_item fs buffer now i b = Ok b' →
  listen_item fs buffer now i (unplugged b) = Ok (unplugged b') ∧
  br_plugins b' = offer_plugins buffer i (br_plugins b).
Proof.
  unfold listen_item. destruct b as [w p q errs]. cbn [br_world br_pool br_plugins br_errors unplugged set_plugins].
  destruct (st_Store fs _ _ _) as [err w']. destruct (Pool_Notify now p i) as [p'|e|why]; cbn; [|done..].
  by intros [= <-].
Qed.

Lemma run_all_app evs1 evs2 r : run_all (evs1 ++ evs2) r = (r1 ← run_all evs1 r; run_all evs2 r1).
Proof.
  revert r. induction evs1 as [|ev evs1 IH]; intros r; [done|]. cbn.
  destruct (run_step ev r); cbn; [apply IH|done..].
Qed.

(** What holds of the plugins after the main loop has handled [items]. *)
Record plugins_ok (items : list Item) (v : V) (r : running) (c : chan Item) : Prop := {
  po_chan : chan_ok buffer c;
  po_passed : passed c `sublist_of` items;
  po_worked : rn_worked r ≤ length (ch_received c);
  po_run : plugins_run (take (rn_worked r) (ch_received c)) v = Ok (rn_errors r, rn_world r);
}.

Definition plugged (items : list Item) (v : V) (r : running) : Prop :=
  match br_plugins (rn_broker r) with
  | Some c => plugins_ok items v r c
  | None => rn_world r = v ∧ rn_errors r = []
  end.

Lemma try_send_received (i : Item) c c' :
  try_send buffer i c = Some c' → ∃ l, ch_received c' = ch_received c ++ l.
Proof.
  unfold try_send. destruct (ch_waiting c); [|case_decide; [|done]]; intros [= <-]; [by eexists|].
  exists []. by rewrite app_nil_r.
Qed.

Lemma plugins_ok_more items items' v r r' c c' l :
  plugins_ok items v r c → chan_ok buffer c' → passed c' `sublist_of` items' →
  ch_received c' = ch_received c ++ l →
  rn_worked r' = rn_worked r → rn_world r' = rn_world r → rn_errors r' = rn_errors r →
  plugins_ok items' v r' c'.
Proof.
  intros [_ _ Hw Hr] Hok Hp E Hk Hv He. split; [done|done| |].
  - rewrite Hk, E, length_app. lia.
  - by rewrite Hk, E, take_app_le, Hr, Hv, He.
Qed.

Lemma plugged_step items v ev r r' :
  plugged items v r → run_step ev r = Ok r' → plugged (items ++ (handled [ev]).*2) v r'.
Proof.
  unfold plugged. intros Hp. destruct ev as [now i| |]; cbn [run_step handled omap list_omap].
  - intros (b & Hb & [= <-])%result_bind_ok. apply listen_item_unplugged in Hb as [_ Hb].
    cbn [rn_broker fmap list_fmap]. rewrite Hb. unfold offer_plugins.
    destruct (br_plugins (rn_broker r)) as [c|]; [|done]. cbn [fmap option_fmap option_map].
    pose proof Hp as [Hok Hpass _ _]. destruct (try_send buffer i c) as [c'|] eqn:E; cbn [from_option id].
    + destruct (try_send_received i c c' E) as [l Hl].
      eapply plugins_ok_more; [exact Hp|by eapply try_send_ok| |exact Hl|done..].
      rewrite (try_send_passed _ _ _ _ Hok E). by apply sublist_app.
    + eapply (plugins_ok_more _ _ _ _ _ _ _ []); [exact Hp|done| |by rewrite app_nil_r|done..].
      by apply sublist_inserts_r.
  - cbn [fmap list_fmap]. rewrite app_nil_r. destruct (br_plugins (rn_broker r)) as [c|] eqn:Eq.
    + case_decide; [|by intros [= <-]; rewrite Eq]. intros [= <-]. cbn [rn_broker set_plugins br_plugins].
      pose proof Hp as [Hok Hpass _ _].
      eapply (plugins_ok_more _ _ _ _ _ _ _ (option_list (received_now c)));
        [exact Hp|by apply receive_from_ok|by rewrite receive_from_passed| |done..].
      unfold receive_from, received_now. destruct (ch_queue c); simpl; by rewrite ?app_nil_r.
    + intros [= <-]. by rewrite Eq.
  - cbn [fmap list_fmap]. rewrite app_nil_r. destruct (br_plugins (rn_broker r)) as [c|] eqn:Eq; cbn.
    2: { intros [= <-]. by rewrite Eq. }
    destruct (ch_received c !! rn_worked r) as [i|] eqn:Ei; [|intros [= <-]; by rewrite Eq].
    destruct (Process _ _ _) as [[[]|e|why] v'] eqn:Ev; [..|done]; intros [= <-]; cbn [rn_broker]; rewrite Eq;
      destruct Hp as [Hok Hpass Hw Hr]; (split; [done|done| |]).
    1, 3: apply lookup_lt_Some in Ei; cbn; lia.
    all: cbn [rn_worked rn_errors rn_world]; rewrite (take_S_r _ _ i) by done; rewrite plugins_run_snoc, Hr; cbn; by rewrite Ev.
Qed.

Lemma unplugged_step ev r r' :
  run_step ev r = Ok r' →
  runListen fs buffer (handled [ev]) (unplugged (rn_broker r)) = Ok (unplugged (rn_broker r')).
Proof.
  destruct ev as [now i| |]; cbn [run_step handled omap list_omap runListen].
  - intros (b & Hb & [= <-])%result_bind_ok. apply listen_item_unplugged in Hb as [-> _]. done.
  - intros H. repeat case_match; injection H as <-; done.
  - destruct (_ ≫= _); [|by intros [= <-]]. destruct (Process _ _ _) as [[[]|e|why] v]; [..|done]; by intros [= <-].
Qed.

Lemma runListen_app items1 items2 (b : broker W N) :
  runListen fs buffer (items1 ++ items2) b = (b' ← runListen fs buffer items1 b; runListen fs buffer items2 b').
Proof.
  revert b. induction items1 as [|[now i] items1 IH]; intros b; [done|]. cbn.
  destruct (listen_item fs buffer now i b); cbn; [apply IH|done..].
Qed.

Lemma run_all_plugged evs b v r :
  br_plugins b = Some new_chan ∨ br_plugins b = None →
  run_all evs (mkRunning b v 0 []) = Ok r →
  runListen fs buffer (handled evs) (unplugged b) = Ok (unplugged (rn_broker r)) ∧ plugged (handled evs).*2 v r.
Proof.
  intros Hb. assert (plugged [] v (mkRunning b v 0 [])) as H0.
  { unfold plugged. cbn [rn_broker]. destruct Hb as [-> | ->]; [|done]. by split; [auto with hadock|..]. }
  revert r. induction evs as [|ev evs IH] using rev_ind; intros r; [by intros [= <-]|].
  rewrite run_all_app. intros (r1 & Hr1 & Hs)%result_bind_ok. destruct (IH r1 Hr1) as [H1 H2].
  cbn in Hs. apply result_bind_ok in Hs as (r2 & Hs & [= ->]).
  assert (handled (evs ++ [ev]) = handled evs ++ handled [ev]) as -> by apply omap_app.
  rewrite runListen_app, H1, fmap_app. split; [by apply unplugged_step|by eapply plugged_step].
Qed.

Lemma plugged_done items v r : plugged items v r →
  ∃ done, done `sublist_of` items ∧ plugins_run done v = Ok (rn_errors r, rn_world r).
Proof.
  unfold plugged. destruct (br_plugins (rn_broker r)) as [c|].
  - intros [Hok Hpass Hw Hrun]. exists (take (rn_worked r) (ch_received c)). split; [|done].
    etransitivity; [|exact Hpass]. unfold passed. etransitivity; [apply sublist_take|]. by apply sublist_inserts_r.
  - intros [-> ->]. exists []. split; [apply sublist_nil_l|done].
Qed.

(** The loop and its steps return no error. *)
Lemma run_all_no_err evs r e : run_all evs r ≠ Err e.
Proof.
  revert r. induction evs as [|ev evs IH]; intros r; [done|]. cbn [run_all].
  assert (∀ e, run_step ev r ≠ Err e) as Hs.
  { intros e'. destruct ev as [now i| |]; cbn [run_step].
    - unfold listen_item. destruct (st_Store fs _ _ _) as [err w']. unfold Pool_Notify. by repeat case_match.
    - destruct (br_plugins _); [|done]. by case_decide.
    - destruct (_ ≫= _) as [i|]; [|done]. by destruct (Process _ _ _) as [[[]|e1|w1] v]. }
  destruct (run_step ev r) as [r1|e1|why]; cbn; [apply IH|by destruct (Hs e1)|done].
Qed.

(** A run ends early at an event that ends it. *)
Lemma run_all_panics evs r why :
  run_all evs r = Panic why →
  ∃ evs1 ev evs2 r1, evs = evs1 ++ ev :: evs2 ∧ run_all evs1 r = Ok r1 ∧ run_step ev r1 = Panic why.
Proof.
  revert r. induction evs as [|ev evs IH]; intros r; [done|]. cbn [run_all].
  destruct (run_step ev r) as [r1|e|why'] eqn:E; cbn; [|done|].
  - intros (evs1 & ev' & evs2 & r2 & -> & H1 & H2)%IH. exists (ev :: evs1), ev', evs2, r2. cbn. by rewrite E.
  - intros [= ->]. by exists [], ev, evs, r.
Qed.

Lemma step_panics ev r why :
  run_step ev r = Panic why →
  (∃ now i, ev = Handles now i ∧ listen_item fs buffer now i (unplugged (rn_broker r)) = Panic why) ∨
  (ev = Works ∧ ∃ i, (Process (wrap 8 (it_Instance i)) (it_HRPacket i) (rn_world r)).1 = Panic why).
Proof.
  destruct ev as [now i| |]; cbn [run_step].
  - intros H. left. exists now, i. split; [done|]. revert H. unfold listen_item.
    destruct (rn_broker r) as [w p q errs]. cbn [br_world br_pool br_plugins br_errors unplugged set_plugins].
    destruct (st_Store fs _ _ _) as [err w']. destruct (Pool_Notify now p i) as [p'|e|w1]; cbn; [done..|]. by intros [= ->].
  - destruct (br_plugins _); [|done]. by case_decide.
  - destruct (_ ≫= _) as [i|]; [|done]. destruct (Process _ _ _) as [[[]|e|w1] v] eqn:E; [done..|]. intros [= ->].
    right. split; [done|]. exists i. by rewrite E.
Qed.

(** C11: as long as the broker runs, whatever errors the plugins return and
    however slow they are, the storages and the pool get what they get without
    plugins, and log the same errors; the plugins run, in order, on items among
    those that were handled, and what they do depends on nothing else.  Only a
    panic ends it: of the main loop, which panics without plugins too, or of a
    plugin, and until then all of this holds. *)
Theorem plugins_isolated evs b v :
  br_plugins b = Some new_chan ∨ br_plugins b = None →
  let isolated evs r :=
    runListen fs buffer (handled evs) (unplugged b) = Ok (unplugged (rn_broker r)) ∧
    ∃ done, done `sublist_of` (handled evs).*2 ∧ plugins_run done v = Ok (rn_errors r, rn_world r) in
  match run_all evs (mkRunning b v 0 []) with
  | Ok r => isolated evs r
  | Panic why => ∃ evs1 ev evs2 r1, evs = evs1 ++ ev :: evs2 ∧ run_all evs1 (mkRunning b v 0 []) = Ok r1 ∧ isolated evs1 r1 ∧
      (runListen fs buffer (handled (evs1 ++ [ev])) (unplugged b) = Panic why ∨
       ev = Works ∧ ∃ i, (Process (wrap 8 (it_Instance i)) (it_HRPacket i) (rn_world r1)).1 = Panic why)
  | Err _ => False
  end.
Proof.
  intros Hb isolated.
  assert (∀ evs r, run_all evs (mkRunning b v 0 []) = Ok r → isolated evs r) as Hok.
  { intros evs1 r Hr. destruct (run_all_plugged evs1 b v r Hb Hr) as [H1 H2]. split; [done|by eapply plugged_done]. }
  destruct (run_all evs _) as [r|e|why] eqn:E; [by apply Hok|by destruct (run_all_no_err _ _ _ E)|].
  apply run_all_panics in E as (evs1 & ev & evs2 & r1 & -> & H1 & H2).
  exists evs1, ev, evs2, r1. split_and!; [done..|by apply Hok|].
  apply step_panics in H2 as [(now & i & -> & H2)|H2]; [left|by right].
  assert (handled (evs1 ++ [Handles now i]) = handled evs1 ++ [(now, i)]) as ->.
  { unfold handled at 1. by rewrite omap_app. }
  rewrite runListen_app. destruct (Hok _ _ H1) as [-> _]. cbn. by rewrite H2.
Qed.
End broker.
Arguments running : clear implicits.

(** ** Examples *)

(** A plugin that notes the instances, and fails for one of them. *)
Definition sample_plugin : Module_ (list Z) HRPacket := λ i _ v,
  (if decide (i = Proto.SIM1) then Err (ErrExternal "SIM1") else Ok (), v ++ [i]).

(** The plugins are slow: the second item finds the queue full, the third one
    is queued. *)
Definition sample_run : list run_event :=
  [Takes; Handles sample_time (mkItem 255 sample_good); Handles sample_time (mkItem 1 sample_good);
   Handles sample_time (mkItem 2 sample_good); Works; Takes; Works].

Definition sample_broker : broker (list Z) notifier := mkBroker [] (Some (NewPool [] 0 1)) (Some new_chan) [].

(** A plugin that panics on the second item it gets. *)
Definition sample_panicking : Module_ (list Z) HRPacket := λ i _ v,
  (if decide (length v = 1) then Panic "index out of range" else Ok (), v ++ [i]).

Lemma plugins_isolated_witness :
  (∃ r, run_all (sample_store true) 1 sample_plugin sample_run (mkRunning sample_broker [] 0 []) = Ok r ∧
    rn_world r = [255; 1]%Z ∧ rn_errors r = [ErrExternal "SIM1"] ∧
    runListen (sample_store true) 1 (handled sample_run) (unplugged sample_broker) = Ok (unplugged (rn_broker r)) ∧
    ∃ done, done `sublist_of` (handled sample_run).*2 ∧ plugins_run sample_plugin done [] = Ok (rn_errors r, rn_world r)) ∧
  run_all (sample_store true) 1 sample_panicking sample_run (mkRunning sample_broker [] 0 []) = Panic "index out of range".
Proof.
  split; [|by vm_compute]. eexists. split; [by vm_compute|]. split; [done|]. split; [done|].
  exact (plugins_isolated (sample_store true) 1 sample_plugin sample_run sample_broker [] (or_introl eq_refl)).
Defined.
