(* ===== verification/Hdk2udp.v ===== *)
(** * Hdk2udp: from broker messages to telemetry parameters
      (src/cmd/hdk2udp/main.go)

    Every message of the pool becomes a parameter packet whose reference is
    the path of the stored file, which this program computes from the message
    alone, with a copy of the directory logic of the storage.  The theorems
    compare the two.  [proto.Marshal] and the generated packages are
    parameters: a parameter value is the variant of [yamcs.Value] that is set. *)

From S2P Require Import Prelude Bytes GoStd Panda Proto Notifier.
From S2P Require Import Vmu Fs Storage.
From Stdlib Require Import ZArith Lia.

(** ** References *)

Section references.
Context {panda : PandaLib}.

(** The offset of the local zone, in which [time.Unix] shows a time. *)
Context (loc : Z).

Definition whichInstance (base : string) (m : Message) : string :=
  if decide (m_Instance m = Proto.TEST) then Join [base; "TEST"]
  else if decide (m_Instance m = Proto.SIM1 ∨ m_Instance m = Proto.SIM2) then Join [base; "SIM" +:+ Sprint (m_Instance m)]
  else if decide (m_Instance m = Proto.OPS) then Join [base; "OPS"]
  else Join [base; "DATA-" +:+ Sprint (m_Instance m)].

Definition whichMode (base : string) (m : Message) : string :=
  if m_Realtime m then Join [base; "realtime"] else Join [base; "playback"].

Definition whichType (base : string) (m : Message) : string :=
  if decide (m_Channel m = 1 ∨ m_Channel m = 2)%Z then Join [base; "images"]
  else if decide (m_Channel m = 3)%Z then Join [base; "sciences"]
  else Join [base; "unknown"].

(** The VMU time of a message; [/] on [int64] rounds towards zero. *)
Definition vmu_time (m : Message) : Time :=
  time_Unix loc (Z.quot (GenerationTimeFromEpoch (m_Generated m)) 1000).

Definition acq_time (m : Message) : Time := time_Unix loc (m_Acquired m).

(** One turn of the loop of [prepareReference]. *)
Definition reference_step (recur : string → list string → Time → string) (m : Message) (g : Z) (t : Time)
    (base n : string) : string :=
  let l := ToLower n in
  if decide (l = LevelUPI) then Join [base; m_UPI m]
  else if decide (l = LevelClassic) then recur base [LevelInstance; LevelType; LevelMode; LevelSource] t
  else if decide (l = LevelSource) then Join [base; m_Origin m]
  else if decide (l = LevelInstance) then whichInstance base m
  else if decide (l = LevelType) then whichType base m
  else if decide (l = LevelMode) then whichMode base m
  else if decide (l = LevelVMUTime) then recur base [LevelYear; LevelDay; LevelHour; LevelMin] (vmu_time m)
  else if decide (l = LevelACQTime) then recur base [LevelYear; LevelDay; LevelHour; LevelMin] (acq_time m)
  else if decide (l = LevelYear) then Join [base; sprintf0 4 (Year t)]
  else if decide (l = LevelDay) then Join [base; sprintf0 3 (YearDay t)]
  else if decide (l = LevelHour) then Join [base; sprintf0 2 (HourOf t)]
  else if decide (l = LevelMin) then
    let m := Truncate t (seconds g) in
    if decide (0 < g)%Z then Join [base; sprintf0 2 (MinuteOf m)] else base
  else Join [base; n].

Fixpoint reference_fuel (fuel : nat) (base : string) (levels : list string) (m : Message) (g : Z) (t : Time) : string :=
  match fuel with
  | O => base
  | S fuel => foldl (reference_step (λ base ns t, reference_fuel fuel base ns m g t) m g t) base levels
  end.

(** Two levels of calls, as in the storage. *)
Definition prepareReference : string → list string → Message → Z → Time → string := reference_fuel 2.

Record channel : Type := mkChannel {
  ch_Link : string;
  ch_Name : string;
  ch_Prefix : string;
  ch_Time : string;
  ch_Interval : Z;
  ch_Levels : list string;
}.

(** [main]: a channel without levels gets the default ones. *)
Definition with_default_levels (c : channel) : channel :=
  if decide (length (ch_Levels c) = 0) then
    mkChannel (ch_Link c) (ch_Name c) (ch_Prefix c) (ch_Time c) (ch_Interval c) [LevelClassic; LevelVMUTime]
  else c.

Definition channel_Prepare (c : channel) (m : Message) : string :=
  let t := if decide (ToLower (ch_Time c) = "acq") then acq_time m else vmu_time m in
  let base := prepareReference (ch_Prefix c) (ch_Levels c) m (ch_Interval c) t in
  let ref := Join [base; m_Reference m] in
  if negb (HasPrefix ref "/") then "/" +:+ ref else ref.

(** ** Parameters *)

(** The [interface{}] of a value, by its dynamic type. *)
Inductive any : Type :=
  | VString (s : string)
  | VUint32 (z : Z)
  | VChannel (z : Z)
  | VInt32 (z : Z)
  | VDuration (z : Z)
  | VInt64 (z : Z)
  | VBool (b : bool).

Record value : Type := mkValue { v_Local : string; v_Name : string; v_Value : any }.

(** [yamcs.Value]: its type tag and the field that is set. *)
Inductive yamcs_value : Type :=
  | STRING (s : string)
  | UINT32 (z : Z)
  | SINT32 (z : Z)
  | SINT64 (z : Z)
  | BOOLEAN (b : bool).

Record parameter_value : Type := mkParameterValue {
  pv_name : string;
  pv_namespace : string;
  pv_eng : yamcs_value;
  pv_generation : Z;
  pv_acquisition : Z;
}.

Record parameter_data : Type := mkParameterData {
  pd_Group : string;
  pd_GenerationTime : Z;
  pd_SeqNum : Z;
  pd_Parameter : list parameter_value;
}.

Definition marshalParameter (v : value) (w t : Z) : parameter_value :=
  let x := match v_Value v with
           | VString s => STRING s
           | VUint32 z => UINT32 z
           | VChannel z => SINT32 (swrap 32 z)
           | VInt32 z => SINT32 z
           | VDuration z => SINT64 z
           | VInt64 z => SINT64 z
           | VBool b => BOOLEAN b
           end in
  mkParameterValue (v_Local v +:+ v_Name v) (v_Local v) x t w.

(** [marshal] before [proto.Marshal], with [now] the Unix time. *)
Definition parameters (now : Z) (m : Message) (n : string) (i : Z) : parameter_data :=
  let adjw := AcquisitionTimeFromEpoch now in
  let adjt := GenerationTimeFromEpoch (m_Generated m) in
  let vs :=
    [mkValue n "origin" (VString (m_Origin m));
     mkValue n "sequence" (VUint32 (m_Sequence m));
     mkValue n "instance" (VInt32 (m_Instance m));
     mkValue n "channel" (VChannel (m_Channel m));
     mkValue n "realtime" (VBool (m_Realtime m));
     mkValue n "count" (VUint32 (m_Count m));
     mkValue n "elapsed" (VDuration (m_Elapsed m));
     mkValue n "timestamp" (VInt64 (Z.quot adjt 1000));
     mkValue n "reference" (VString (m_Reference m));
     mkValue n "upi" (VString (m_UPI m))] in
  mkParameterData n adjt i
    ((λ v, marshalParameter (mkValue (v_Local v) (m_Origin m +:+ "_" +:+ v_Name v) (v_Value v)) adjw adjt) <$> vs).

(** *** The sender *)
Context (Marshal : parameter_data → result (list byte)).

(** [sendTo]: the counter is a [uint16], incremented for every message, also
    for one that cannot be marshaled; the datagrams that are written. *)
Fixpoint sendTo (n : string) (i : Z) (queue : list (Z * Message)) : list (list byte) :=
  match queue with
  | [] => []
  | (now, m) :: queue =>
      let i := wrap 16 (i + 1) in
      match Marshal (parameters now m n (swrap 32 i)) with
      | Ok bs => bs :: sendTo n i queue
      | _ => sendTo n i queue
      end
  end.

(** *** The receiver: one datagram per turn

    [buf] is 4096 bytes, so the system cuts what is longer. *)
Definition receive_buffer : nat := 4096.

Definition receive_datagram (c : channel) (data : list byte) : option Message :=
  let bs := take receive_buffer data in
  if decide (length bs = 0) then None
  else match DecodeMessage (Reader bs EOF) with
       | (Ok m, _) => Some (mkMessage (m_Origin m) (m_Sequence m) (m_Instance m) (m_Channel m) (m_Realtime m)
                              (m_Count m) (m_Elapsed m) (m_Generated m) (m_Acquired m) (channel_Prepare c m) (m_UPI m))
       | _ => None
       end.

Definition Run (c : channel) (datagrams : list (list byte)) : list Message :=
  omap (receive_datagram c) datagrams.
End references.

(** *** The connection

    [conn.Write] never reports an error: after a permanent one it dials again
    (the reply of the system is [redial]) and the datagram is lost. *)
Inductive write_outcome : Type := Written (n : nat) | TemporaryError | PermanentError (redial : bool).

Definition conn_Write (bs : list byte) (o : write_outcome) : nat * option error * bool :=
  match o with
  | Written n => (n, None, false)
  | TemporaryError => (length bs, None, false)
  | PermanentError redial => (length bs, None, redial)
  end.

(** ** References are the paths of the storage *)

Section equivalence.
Context {panda : PandaLib}.

(** Two times shown alike to the second. *)
Definition same_clock (t u : Time) : Prop :=
  t_sec t = t_sec u ∧ t_off t = t_off u ∧ (0 ≤ t_nsec t < Second)%Z ∧ (0 ≤ t_nsec u < Second)%Z.

(** A message that describes a packet of the instance. *)
Record describes (m : Message) (i : Z) (p : HRPacket) : Prop := {
  d_instance : m_Instance m = i;
  d_realtime : m_Realtime m = IsRealtime p;
  d_origin : m_Origin m = Origin p;
  d_type : match p with
           | Image _ _ _ => m_Channel m = 1 ∨ m_Channel m = 2
           | Table _ _ _ => m_Channel m = 3
           | OtherPacket _ => m_Channel m ≠ 1 ∧ m_Channel m ≠ 2 ∧ m_Channel m ≠ 3
           end%Z;
  d_vmu : same_clock (vmu_time 0 m) (getVMUTime p);
  d_acq : same_clock (acq_time 0 m) (getACQTime p);
}.

Lemma same_clock_fields t u :
  same_clock t u → Year t = Year u ∧ YearDay t = YearDay u ∧ HourOf t = HourOf u.
Proof.
  intros (H1 & H2 & _). unfold Year, YearDay, HourOf, year_yday, wall. by rewrite H1, H2.
Qed.

Lemma same_clock_minute t u g :
  same_clock t u → (0 < g < 2 ^ 33)%Z →
  MinuteOf (Truncate t (seconds g)) = MinuteOf (Truncate u (seconds g)).
Proof.
  intros (H1 & H2 & H3 & H4) Hg. unfold MinuteOf, wall.
  rewrite !t_sec_Truncate by done.
  assert (∀ t, t_off (Truncate t (seconds g)) = t_off t) as Ho by (intros; unfold Truncate; by case_decide).
  by rewrite !Ho, H1, H2.
Qed.

Lemma same_clock_minute_level base t u g :
  same_clock t u → (g < 2 ^ 33)%Z →
  (let m := Truncate t (seconds g) in if decide (0 < g)%Z then Join [base; sprintf0 2 (MinuteOf m)] else base) =
  (let m := Truncate u (seconds g) in if decide (0 < g)%Z then Join [base; sprintf0 2 (MinuteOf m)] else base).
Proof. intros Ht Hg. cbv zeta. case_decide; [|done]. by rewrite (same_clock_minute t u). Qed.

Lemma whichInstance_dir m i p base : describes m i p → whichInstance base m = instanceDir base i.
Proof. intros [<- _ _ _ _ _]. done. Qed.
Lemma whichMode_dir m i p base : describes m i p → whichMode base m = modeDir base p.
Proof. intros [_ H _ _ _ _]. unfold whichMode, modeDir. by rewrite H. Qed.
Lemma whichType_dir m i p base : describes m i p → whichType base m = typeDir base p.
Proof.
  intros [_ _ _ H _ _]. unfold whichType. destruct p; simpl.
  - by rewrite decide_False, decide_True by lia.
  - by rewrite decide_True.
  - by rewrite !decide_False by lia.
Qed.

Lemma reference_directory fuel base levels g i p t m u :
  describes m i p → same_clock u t → (g < 2 ^ 33)%Z → Forall (λ n, ToLower n ≠ LevelUPI) levels →
  reference_fuel 0 fuel base levels m g u = prepare_fuel fuel base levels g i p t.
Proof.
  intros Hm Hu Hg Hl. revert base levels t u Hu Hl.
  induction fuel as [|fuel IH]; intros base levels t u Hu Hl; [done|].
  cbn [reference_fuel prepare_fuel]. revert base.
  induction Hl as [|n levels Hn Hl IHl]; intros base; [done|]. cbn [foldl]. rewrite <-IHl. clear IHl. f_equal.
  destruct (same_clock_fields u t Hu) as (Hy & Hd & Hh).
  unfold reference_step, level_step. cbv zeta. rewrite decide_False by done.
  rewrite (whichInstance_dir m i p), (whichMode_dir m i p), (whichType_dir m i p), (d_origin m i p Hm) by done.
  rewrite Hy, Hd, Hh.
  rewrite (IH base [LevelInstance; LevelType; LevelMode; LevelSource] t u) by (done || by repeat constructor).
  rewrite (IH base [LevelYear; LevelDay; LevelHour; LevelMin] (getVMUTime p) (vmu_time 0 m))
    by (done || by repeat constructor || apply Hm).
  rewrite (IH base [LevelYear; LevelDay; LevelHour; LevelMin] (getACQTime p) (acq_time 0 m))
    by (done || by repeat constructor || apply Hm).
  pose proof (same_clock_minute_level base u t g Hu Hg) as Hmin. cbv zeta in Hmin. rewrite Hmin.
  generalize dependent (ToLower n). intros l Hn.
  repeat match goal with
  | |- context [decide (l = ?x)] =>
      destruct (decide (l = x)) as [->|?];
      [decide_strings; done|]
  end. done.
Qed.

(** Fact: the directory of a reference, computed from the message of a packet,
    is the directory the storage chose for the packet, for every list of
    levels without the user packet information. *)
Theorem prepareReference_is_directory base levels g i p t m u :
  describes m i p → same_clock u t → (g < 2 ^ 33)%Z → Forall (λ n, ToLower n ≠ LevelUPI) levels →
  prepareReference 0 base levels m g u = prepareDirectory base levels g i p t.
Proof. apply reference_directory. Qed.

(** Fact: with the user packet information, the two disagree for every packet
    without one: the message says SCIENCE or IMAGE, the storage SCIENCES or
    IMAGES. *)
Theorem reference_upi_differs r base segs g i p t m u :
  path_is r base segs → m_UPI m = extractUserInfo p →
  (match p with
   | Table _ _ sdh => match sdh_type sdh with IsSDHv2 s => TrimNul (s2_Info s) = [] | _ => True end
   | Image _ _ idh => match idh_type idh with
                      | IsIDHv1 inf => TrimNul inf = []
                      | IsIDHv2 v => TrimNul (i2_Info v) = []
                      | OtherIDH => True
                      end
   | OtherPacket _ => False
   end) →
  prepareReference 0 base [LevelUPI] m g u ≠ prepareDirectory base [LevelUPI] g i p t.
Proof.
  intros Hb Hm Hp. unfold prepareReference, prepareDirectory. cbn [reference_fuel prepare_fuel foldl].
  rewrite step_upi. change (Join [base; m_UPI m] ≠ Join [base; getUPI p]). rewrite Hm.
  assert (simple_name "SCIENCE" ∧ simple_name "SCIENCES" ∧ simple_name "IMAGE" ∧ simple_name "IMAGES") as
    (S1 & S2 & S3 & S4) by (split_and!; by compute_decide).
  assert (extractUserInfo p = "SCIENCE" ∧ getUPI p = "SCIENCES" ∨ extractUserInfo p = "IMAGE" ∧ getUPI p = "IMAGES")
    as [[-> ->]|[-> ->]].
  { unfold extractUserInfo, getUPI, upi_trim.
    destruct p as [h v [[|s|] ?]|h v [[inf|s|] ?]|h]; [left..|right|right|right|done]; simpl in *;
      rewrite ?Hp; by case_match. }
  - intros E. eapply join_name_inj in E; done.
  - intros E. eapply join_name_inj in E; done.
Qed.

(** Fact: the sequence numbers of the parameter packets count the messages
    modulo 2^16, in their order, and a message that cannot be marshaled uses
    one up. *)
Theorem sendTo_numbers Marshal n i queue :
  in_width 16 i →
  sendTo Marshal n i queue =
  omap id (imap (λ k '(now, m), match Marshal (parameters now m n (wrap 16 (i + Z.of_nat k + 1))) with
                                | Ok bs => Some bs | _ => None end) queue).
Proof.
  revert i. induction queue as [|[now m] queue IH]; intros i Hi; [done|].
  cbn [sendTo imap omap list_omap]. rewrite Z.add_0_r.
  assert (in_width 16 (wrap 16 (i + 1))) as Hw by (apply wrap_range; lia).
  rewrite swrap_small by (width_lia || lia).
  assert (imap (λ k '(now, m), match Marshal (parameters now m n (wrap 16 (wrap 16 (i + 1) + Z.of_nat k + 1))) with
                                | Ok bs => Some bs | _ => None end) queue =
          imap ((λ k '(now, m), match Marshal (parameters now m n (wrap 16 (i + Z.of_nat k + 1))) with
                                | Ok bs => Some bs | _ => None end) ∘ S) queue) as Himap.
  { apply imap_ext. intros k [now' m'] _. simpl.
    assert (wrap 16 (wrap 16 (i + 1) + Z.of_nat k + 1) = wrap 16 (i + Z.of_nat (S k) + 1)) as ->; [|done].
    unfold wrap. rewrite <-Z.add_assoc, Zplus_mod_idemp_l. f_equal. lia. }
  destruct (Marshal _); simpl; by rewrite IH, Himap by done.
Qed.

(** A channel that is configured as the storage is: the same prefix, a clean
    absolute path, the time of the VMU or of the acquisition, and the same
    levels, none of which is the user packet information. *)
Record mirrors (c : channel) (segs : list string) : Prop := {
  mi_base : path_is true (ch_Prefix c) segs;
  mi_levels : Forall level_ok (ch_Levels c);
  mi_known : Forall (λ n, ToLower n ≠ LevelUPI ∧ n ≠ "") (ch_Levels c);
  mi_some : ch_Levels c ≠ [];
  mi_time : ToLower (ch_Time c) ∈ ["vmu"; ""; "acq"];
  mi_interval : (ch_Interval c < 2 ^ 33)%Z;
}.

Definition storage_of (c : channel) : dirmaker := NewDirectory (ch_Prefix c) (ch_Time c) (ch_Levels c) (ch_Interval c).

(** The time that the directory of a packet is for. *)
Definition epoch_time (c : channel) (p : HRPacket) : Time :=
  if decide (ToLower (ch_Time c) = "acq") then getACQTime p else getVMUTime p.

Lemma storage_directory c segs i p :
  mirrors c segs → IsZero (getVMUTime p) = false →
  directory_of (storage_of c) i p = prepareDirectory (ch_Prefix c) (ch_Levels c) (ch_Interval c) i p (epoch_time c p).
Proof.
  intros Hc Hz. destruct (proj1 (Forall_and _ _) (mi_known c segs Hc)) as [_ Hnempty].
  assert (dm_Levels (storage_of c) = ch_Levels c) as Hlev.
  { unfold storage_of, NewDirectory, checkLevels; cbn [dm_Levels]. rewrite filter_all by done.
    rewrite decide_False; [done|]. pose proof (mi_some c segs Hc). by destruct (ch_Levels c). }
  unfold directory_of. rewrite Hlev. unfold storage_of, NewDirectory; cbn [dm_Base dm_Time dm_Interval].
  unfold epoch_time. pose proof (mi_time c segs Hc) as Ht. revert Ht. generalize (ToLower (ch_Time c)). intros l Ht.
  assert (l = "vmu" ∨ l = "" ∨ l = "acq") as [-> | [-> | ->]] by set_solver.
  - rewrite decide_True, decide_False by auto. by rewrite Hz.
  - rewrite decide_True, decide_False by auto. by rewrite Hz.
  - rewrite decide_False, decide_True, decide_True by naive_solver. unfold getACQTime. by case_match.
Qed.

(** The directory of a packet lies under the base. *)
Lemma storage_path c segs i p :
  mirrors c segs → IsZero (getVMUTime p) = false → packet_names_ok p →
  path_is true (directory_of (storage_of c) i p)
    (segs ++ concat (level_segs (ch_Interval c) i p (epoch_time c p) <$> ch_Levels c)).
Proof.
  intros Hc Hz Hn. rewrite (storage_directory c segs) by done.
  apply (prepare_levels true 0); [done|by eapply mi_levels|by eapply mi_base].
Qed.

Lemma received_path c segs i p m :
  mirrors c segs → describes m i p → message_fits m → length (encodeMessage m) ≤ receive_buffer →
  packet_names_ok p → IsZero (getVMUTime p) = false → simple_name (m_Reference m) →
  ∃ m', receive_datagram 0 c (encodeMessage m) = Some m' ∧
    m_Reference m' = Join [directory_of (storage_of c) i p; m_Reference m] ∧
    m_Sequence m' = m_Sequence m ∧ m_Count m' = m_Count m.
Proof.
  intros Hc Hd Hfit Hlen Hn Hz Href.
  destruct (proj1 (Forall_and _ _) (mi_known c segs Hc)) as [Hupi _].
  assert (directory_of (storage_of c) i p =
    prepareReference 0 (ch_Prefix c) (ch_Levels c) m (ch_Interval c)
      (if decide (ToLower (ch_Time c) = "acq") then acq_time 0 m else vmu_time 0 m)) as Hdir.
  { rewrite (storage_directory c segs) by done. symmetry.
    apply reference_directory; [done| |by eapply mi_interval|done].
    unfold epoch_time. case_decide; apply Hd. }
  unfold receive_datagram. rewrite take_ge by done.
  rewrite decide_False.
  2: { unfold encodeMessage, write_string, u16. rewrite binary_Write_scalar. autorewrite with lengths. lia. }
  rewrite <-(app_nil_r (encodeMessage m)), decode_encode_message by done.
  eexists. split; [done|]. split_and!; try done.
  cbn [m_Reference]. unfold channel_Prepare. rewrite <-Hdir.
  destruct (path_is_join true _ _ _ (storage_path c segs i p Hc Hz Hn) Href) as [_ ->].
  unfold render, HasPrefix. cbn -[join]. by destruct (join _ _).
Qed.

(** Fact: a message sent for a stored packet and received in one datagram gets
    the path of the file as its reference, when the channel is configured as
    the storage is, without the user packet information. *)
Theorem received_reference c segs i p m r :
  mirrors c segs → describes m i p → message_fits m → length (encodeMessage m) ≤ receive_buffer →
  packet_names_ok p → IsZero (getVMUTime p) = false → simple_name (m_Reference m) →
  r = Join [directory_of (storage_of c) i p; m_Reference m] →
  ∃ m', receive_datagram 0 c (encodeMessage m) = Some m' ∧ m_Reference m' = r ∧
    m_Sequence m' = m_Sequence m ∧ m_Count m' = m_Count m.
Proof. intros. subst r. by eapply received_path. Qed.
End equivalence.

(** ** Examples *)

Definition sample_sent : Message :=
  mkMessage "51" 1 255 1 true 3 2000000000 1262304000 1577836800 "0051_y800_1_7_20200101_000000.dat" "IMAGE".

Definition sample_channel : channel :=
  mkChannel "127.0.0.1:5555" "/CUST" "/data" "" 0 [LevelClassic; LevelVMUTime].

Lemma sample_mirrors : mirrors sample_channel ["data"].
Proof. split; [apply sample_base|repeat constructor; by compute_decide|by repeat constructor|done|by compute_decide|done]. Qed.

Lemma sample_describes : describes sample_sent 255 sample_p.
Proof. split; try done; [by left|by repeat split; compute_decide..]. Qed.

Lemma prepareReference_is_directory_witness :
  prepareReference 0 "/data" [LevelClassic; LevelACQTime] sample_sent 300 (vmu_time 0 sample_sent) =
  prepareDirectory "/data" [LevelClassic; LevelACQTime] 300 255 sample_p (getVMUTime sample_p).
Proof.
  apply prepareReference_is_directory; [apply sample_describes|apply sample_describes|lia|by repeat constructor].
Defined.

Definition sample_unnamed : HRPacket := sample_table "" 1 false [].

Lemma reference_upi_differs_witness :
  prepareReference 0 "/data" [LevelUPI]
    (mkMessage "51" 1 255 3 false 1 0 0 0 "f" (extractUserInfo sample_unnamed)) 0 sample_now
  ≠ prepareDirectory "/data" [LevelUPI] 0 255 sample_unnamed sample_now.
Proof. by eapply (reference_upi_differs true "/data" ["data"]); [apply sample_base|..]. Defined.

Lemma sendTo_numbers_witness :
  let Marshal pd := Ok [byte_of (pd_SeqNum pd / 256); byte_of (pd_SeqNum pd)] in
  sendTo Marshal "/CUST" 65534 [(0%Z, sample_sent); (0%Z, sample_sent)] = [[xff; xff]; [x00; x00]].
Proof.
  cbv zeta. rewrite sendTo_numbers by (by compute_decide). by vm_compute.
Defined.

Lemma received_reference_witness :
  ∃ m', receive_datagram 0 sample_channel (encodeMessage sample_sent) = Some m' ∧
    m_Reference m' = "/data/OPS/images/realtime/51/2020/006/00/0051_y800_1_7_20200101_000000.dat" ∧
    m_Sequence m' = 1%Z ∧ m_Count m' = 3%Z.
Proof.
  apply (received_reference sample_channel ["data"] 255 sample_p sample_sent).
  - apply sample_mirrors.
  - apply sample_describes.
  - by compute_decide.
  - by compute_decide.
  - apply sample_names.
  - by vm_compute.
  - by compute_decide.
  - by vm_compute.
Defined.
