(* ===== verification/Server.v ===== *)
(** * Server: the listening side of the broker (ListenPackets of
      src/cmd/hadock/listen.go)

    One goroutine accepts connections, one goroutine per connection moves the
    packets of its decoder to the queue that [Convert] reads.  The goroutines
    share the queue and nothing else, so the program is a step relation on the
    queue, on what every connection has left to send and on whether the
    listener still accepts. *)

From S2P Require Import Prelude Bytes SortSearch GoStd Proto.
From Stdlib Require Import ZArith Lia.

(** ** State and steps *)

Section server.
Context {P : Type}.

Record server : Type := mkServer {
  sv_accepting : bool;
  sv_closed : bool;               (* close(q) was called *)
  sv_conns : list (list P);       (* what [decode] still yields, per connection *)
  sv_queue : list P;              (* q *)
  sv_received : list P;           (* what the reader of q got *)
  sv_panicked : bool;
}.

(** [size] of [make(chan *hadock.Packet, size)]; a negative one, from a
    configured buffer above the range of [int], makes [make] panic. *)
Definition queue_size (size : Z) : Z := if decide (size = 0)%Z then 1%Z else size.

Definition new_server : server := mkServer true false [] [] [] false.

Inductive event : Type :=
  | Accepts (ps : list P)         (* a connection whose decoder yields ps *)
  | AcceptFails                   (* the accepting goroutine returns: close(q) *)
  | Sends (k : nat) (p : P)       (* q <- p by connection k *)
  | SendsClosed (k : nat)         (* the same after close(q) *)
  | Receives (p : P).

Inductive step (size : nat) : server → event → server → Prop :=
  | step_accept cs q rs ps :
      step size (mkServer true false cs q rs false) (Accepts ps) (mkServer true false (cs ++ [ps]) q rs false)
  | step_fail cs q rs :
      step size (mkServer true false cs q rs false) AcceptFails (mkServer false true cs q rs false)
  | step_send cs q rs k p ps :
      cs !! k = Some (p :: ps) → length q < size →
      step size (mkServer true false cs q rs false) (Sends k p) (mkServer true false (<[k := ps]> cs) (q ++ [p]) rs false)
  | step_send_closed cs q rs k p ps :
      cs !! k = Some (p :: ps) →
      step size (mkServer false true cs q rs false) (SendsClosed k) (mkServer false true cs q rs true)
  | step_receive a c cs q rs p :
      step size (mkServer a c cs (p :: q) rs false) (Receives p) (mkServer a c cs q (rs ++ [p]) false).

Inductive trace (size : nat) : server → list event → server → Prop :=
  | trace_nil s : trace size s [] s
  | trace_snoc s evs s1 ev s2 : trace size s evs s1 → step size s1 ev s2 → trace size s (evs ++ [ev]) s2.

(** ** What a trace did *)

Definition accepted (evs : list event) : list (list P) :=
  omap (λ ev, match ev with Accepts ps => Some ps | _ => None end) evs.

Definition all_sent (evs : list event) : list P :=
  omap (λ ev, match ev with Sends _ p => Some p | _ => None end) evs.

Definition sent_by (k : nat) (evs : list event) : list P :=
  omap (λ ev, match ev with Sends j p => if decide (j = k) then Some p else None | _ => None end) evs.

Lemma sent_by_snoc k evs ev :
  sent_by k (evs ++ [ev]) = sent_by k evs ++
    match ev with Sends j p => if decide (j = k) then [p] else [] | _ => [] end.
Proof. unfold sent_by. rewrite omap_app. f_equal. by destruct ev; simpl; try case_decide. Qed.

Lemma sent_by_sublist k evs : sent_by k evs `sublist_of` all_sent evs.
Proof.
  induction evs as [|ev evs IH]; [done|]. unfold sent_by, all_sent in *.
  destruct ev; cbn; try done. case_decide; [by apply sublist_skip|by apply sublist_cons].
Qed.

Lemma concat_pop (cs : list (list P)) k p ps : cs !! k = Some (p :: ps) → concat cs ≡ₚ p :: concat (<[k := ps]> cs).
Proof.
  revert k. induction cs as [|c cs IH]; intros [|k]; [done..|by intros [= ->]|].
  simpl. intros Hk. rewrite (IH _ Hk). by rewrite Permutation_middle.
Qed.

(** The state after a trace, in terms of the trace. *)
Record explained (size : nat) (evs : list event) (s : server) : Prop := {
  ex_queue : sv_received s ++ sv_queue s = all_sent evs;
  ex_all : sv_received s ++ sv_queue s ++ concat (sv_conns s) ≡ₚ concat (accepted evs);
  ex_conns : length (sv_conns s) = length (accepted evs);
  ex_order k left : sv_conns s !! k = Some left → accepted evs !! k = Some (sent_by k evs ++ left);
  ex_none k : length (accepted evs) ≤ k → sent_by k evs = [];
  ex_bound : length (sv_queue s) ≤ size;
  ex_closed : sv_closed s = negb (sv_accepting s);
}.

Lemma explained_step size evs s ev s' :
  explained size evs s → step size s ev s' → explained size (evs ++ [ev]) s'.
Proof.
  intros [Hq Hall Hlen Hord Hnone Hb Hc] Hstep.
  assert (∀ ev, accepted (evs ++ [ev]) = accepted evs ++ match ev with Accepts ps => [ps] | _ => [] end) as Hacc
    by (intros []; unfold accepted; by rewrite omap_app).
  assert (∀ ev, all_sent (evs ++ [ev]) = all_sent evs ++ match ev with Sends _ p => [p] | _ => [] end) as Hsent
    by (intros []; unfold all_sent; by rewrite omap_app).
  destruct Hstep; cbn [sv_received sv_queue sv_conns sv_closed sv_accepting] in *;
    (split; cbn [sv_received sv_queue sv_conns sv_closed sv_accepting];
     rewrite ?Hacc, ?Hsent, ?app_nil_r; try done).
  - rewrite !concat_app. simpl. rewrite !app_nil_r. by rewrite <-Hall, <-!(assoc_L app).
  - by rewrite !length_app, Hlen.
  - intros k left Hk. rewrite sent_by_snoc, app_nil_r. rewrite lookup_app in Hk |- *.
    destruct (cs !! k) as [l|] eqn:E.
    + injection Hk as ->. by rewrite (Hord k left E).
    + assert (accepted evs !! k = None) as -> by (apply lookup_ge_None; apply lookup_ge_None in E; lia).
      rewrite <-Hlen. apply lookup_ge_None in E.
      rewrite Hnone by lia. by rewrite Hk.
  - intros k. rewrite length_app; simpl; intros. rewrite sent_by_snoc, app_nil_r. apply Hnone. lia.
  - intros k left Hk. rewrite sent_by_snoc, app_nil_r. auto.
  - intros k Hk. rewrite sent_by_snoc, app_nil_r. auto.
  - by rewrite app_assoc, Hq.
  - rewrite <-Hall, (concat_pop _ _ _ _ H). by rewrite <-!(assoc_L app).
  - by rewrite length_insert.
  - intros j left Hj. rewrite sent_by_snoc. case_decide as Hjk; simpl in *.
    + subst j. rewrite list_lookup_insert_eq in Hj by by eapply lookup_lt_Some.
      injection Hj as <-. by rewrite (Hord _ _ H), <-app_assoc.
    + rewrite list_lookup_insert_ne in Hj by done. by rewrite app_nil_r, (Hord _ _ Hj).
  - intros j Hj. rewrite sent_by_snoc. case_decide as Hjk; [|by rewrite app_nil_r, Hnone].
    subst j. apply lookup_lt_Some in H. lia.
  - rewrite length_app. simpl. lia.
  - intros j left Hj. rewrite sent_by_snoc, app_nil_r. auto.
  - intros j Hj. rewrite sent_by_snoc, app_nil_r. auto.
  - by rewrite <-app_assoc.
  - by rewrite <-Hall, <-!(assoc_L app).
  - intros j left Hj. rewrite sent_by_snoc, app_nil_r. auto.
  - intros j Hj. rewrite sent_by_snoc, app_nil_r. auto.
  - simpl in Hb. lia.
Qed.

Lemma explained_trace size evs s : trace size new_server evs s → explained size evs s.
Proof.
  intros H. remember new_server as s0 eqn:E0. revert E0.
  induction H as [s|s evs s1 ev s2 _ IH Hstep]; intros ->.
  - split; simpl; first [lia | by intros | intros k left Hk; discriminate Hk].
  - by eapply explained_step; [apply IH|].
Qed.

Lemma trace_app size s1 evs1 s2 evs2 s3 : trace size s1 evs1 s2 → trace size s2 evs2 s3 → trace size s1 (evs1 ++ evs2) s3.
Proof.
  intros H1 H2. induction H2 as [s|s evs s2 ev s3 _ IH Hs]; [by rewrite app_nil_r|].
  rewrite app_assoc. by eapply trace_snoc; [apply IH|].
Qed.

(** C10: whatever the interleaving of the goroutines, the queue delivers the
    packets in the order they were sent, none twice and none lost, those of
    one connection in the order of its decoder, and it never holds more than
    its capacity. *)
Theorem listen_order size evs s k left :
  trace size new_server evs s → sv_conns s !! k = Some left →
  sv_received s ++ sv_queue s = all_sent evs ∧
  accepted evs !! k = Some (sent_by k evs ++ left) ∧
  sent_by k evs `sublist_of` sv_received s ++ sv_queue s ∧
  length (sv_queue s) ≤ size.
Proof.
  intros H Hk. destruct (explained_trace _ _ _ H) as [Hq _ _ Ho _ Hb _].
  rewrite Hq. split_and!; [done|by apply Ho|apply sent_by_sublist|done].
Qed.

(** Fact: the broker panics on its closed queue exactly when the listener has
    failed while a connection still had a packet to send: the panic is
    possible in every such state and in no other. *)
Theorem listen_panics size evs s :
  trace size new_server evs s → sv_panicked s = false →
  (∃ k s', step size s (SendsClosed k) s' ∧ sv_panicked s' = true) ↔
  sv_accepting s = false ∧ ∃ k p ps, sv_conns s !! k = Some (p :: ps).
Proof.
  intros H Hp. split.
  - intros (k & s' & Hs & _). inversion Hs; subst. eauto 10.
  - intros (Ha & k & p & ps & Hk). destruct (explained_trace _ _ _ H) as [_ _ _ _ _ _ Hc].
    destruct s as [a c cs q rs pa]; simpl in *. subst. exists k. eexists. split; [by econstructor|done].
Qed.

(** While a connection has packets and the listener works, the queue is read
    or the packet goes in: nobody waits for ever. *)
Lemma listen_progress size evs s k p ps :
  0 < size → trace size new_server evs s → sv_panicked s = false → sv_accepting s = true →
  sv_conns s !! k = Some (p :: ps) →
  (∃ s', step size s (Sends k p) s') ∨ (∃ r s', step size s (Receives r) s').
Proof.
  intros Hsize H Hp Ha Hk. destruct (explained_trace _ _ _ H) as [_ _ _ _ _ _ Hc].
  destruct s as [a c cs q rs pa]; simpl in *; subst. destruct q as [|r q].
  - left. eexists. by econstructor.
  - right. exists r. eexists. by econstructor.
Qed.
(** Once every connection is exhausted and the queue read, what was received is
    what the connections gave, each in its order. *)
Lemma drained size evs s :
  trace size new_server evs s → sv_queue s = [] → Forall (λ l, l = []) (sv_conns s) →
  sv_received s ≡ₚ concat (accepted evs) ∧ Forall (λ l, l `sublist_of` sv_received s) (accepted evs).
Proof.
  intros Htr Hq Hc. destruct (explained_trace _ _ _ Htr) as [Hsent Hall Hlen Hord _ _ _].
  assert (concat (sv_conns s) = []) as Hnil by (clear -Hc; induction Hc as [|l ls -> _ IH]; done).
  rewrite Hq, Hnil, !app_nil_r in Hall. rewrite Hq, app_nil_r in Hsent. split; [done|].
  apply Forall_lookup. intros k l Hk.
  assert (is_Some (sv_conns s !! k)) as [left Hl].
  { apply lookup_lt_is_Some. rewrite Hlen. by eapply lookup_lt_Some. }
  pose proof (Forall_lookup_1 _ _ _ _ Hc Hl) as ->. rewrite (Hord _ _ Hl), app_nil_r in Hk. injection Hk as <-.
  rewrite Hsent. apply sent_by_sublist.
Qed.
End server.
Arguments server : clear implicits.
Arguments event : clear implicits.

(** *** The steps, executed *)
Section exec.
Context {P : Type} `{EqDecision P}.

Definition exec (size : nat) (s : server P) (ev : event P) : option (server P) :=
  let '(mkServer a c cs q rs pa) := s in
  if pa then None else
  match ev with
  | Accepts ps => if a && negb c then Some (mkServer true false (cs ++ [ps]) q rs false) else None
  | AcceptFails => if a && negb c then Some (mkServer false true cs q rs false) else None
  | Sends k p =>
      match cs !! k with
      | Some (p' :: ps) =>
          if a && negb c && bool_decide (p = p' ∧ length q < size)
          then Some (mkServer true false (<[k := ps]> cs) (q ++ [p]) rs false) else None
      | _ => None
      end
  | SendsClosed k =>
      match cs !! k with
      | Some (_ :: _) => if negb a && c then Some (mkServer false true cs q rs true) else None
      | _ => None
      end
  | Receives p =>
      match q with
      | p' :: q => if bool_decide (p = p') then Some (mkServer a c cs q (rs ++ [p]) false) else None
      | [] => None
      end
  end.

Lemma exec_step size s ev s' : exec size s ev = Some s' ↔ step size s ev s'.
Proof.
  split.
  - destruct s as [[] [] cs q rs []], ev as [ps| |k p|k|p]; simpl; intros E; try done; simplify_eq; try by constructor.
    all: repeat case_match; simplify_eq; repeat case_bool_decide; simplify_eq; try done.
    all: try by econstructor. all: destruct_and?; subst; by econstructor.
  - destruct 1 as [|?|cs q rs k p ps Hk Hq|cs q rs k p ps Hk|]; simpl; rewrite ?Hk; try done; by rewrite bool_decide_true.
Qed.

Fixpoint exec_all (size : nat) (s : server P) (evs : list (event P)) : option (server P) :=
  match evs with
  | [] => Some s
  | ev :: evs => match exec size s ev with Some s => exec_all size s evs | None => None end
  end.

Lemma exec_trace size s evs s' : exec_all size s evs = Some s' → trace size s evs s'.
Proof.
  revert s. induction evs as [|ev evs IH]; intros s; simpl; [intros [= <-]; constructor|].
  destruct (exec size s ev) as [s1|] eqn:E; [|done]. intros H%IH.
  apply (trace_app _ _ [ev] s1); [|done]. apply (trace_snoc _ _ [] s); [constructor|by apply exec_step].
Qed.
End exec.

(** ** Connections that are byte streams

    The packets of a connection are those [DecodeBinaryPackets] sends until
    the peer closes. *)
Section streams.
Context {sorter : SliceSorter}.

(** Fact: connections carry packets of the protocol, junk words between them:
    when all have been exhausted and the queue was read, what was received is
    the packets of the configured instances, each once, those of one
    connection in the order of its stream. *)
Theorem listen_streams size insts css evs s :
  Forall (Forall chunk_wf) css →
  accepted evs = (λ cs, (DecodeBinaryPackets (length cs + 1) (Reader (concat (map chunk_bytes cs)) EOF) insts).1) <$> css →
  trace size new_server evs s → sv_queue s = [] → Forall (λ l, l = []) (sv_conns s) →
  let wanted cs := filter (λ p, insts = [] ∨ pkt_Instance p ∈ insts) (chunk_packets cs) in
  sv_received s ≡ₚ concat (wanted <$> css) ∧ Forall (λ cs, wanted cs `sublist_of` sv_received s) css.
Proof.
  intros Hwf Hacc Htr Hq Hc wanted. destruct (drained _ _ _ Htr Hq Hc) as [Hall Hsub].
  assert (accepted evs = wanted <$> css) as Hw.
  { rewrite Hacc. apply list_fmap_ext. intros i cs Hi. rewrite (decode_stream cs insts 0); [done|].
    by apply (Forall_lookup_1 _ _ i _ Hwf). }
  rewrite Hw in Hall, Hsub. split; [done|]. by rewrite Forall_fmap in Hsub.
Qed.
End streams.

(** ** Examples *)

Lemma listen_order_witness :
  let evs := [Accepts [1; 2]; Accepts [3]; Sends 0 1; Sends 1 3; Receives 1; Sends 0 2] in
  let s := mkServer true false [[]; []] [3; 2] [1] false in
  sv_received s ++ sv_queue s = all_sent evs ∧ accepted evs !! 0 = Some (sent_by 0 evs ++ []) ∧
  sent_by 0 evs `sublist_of` sv_received s ++ sv_queue s ∧ length (sv_queue s) ≤ 2.
Proof. cbv zeta. apply listen_order; [by apply exec_trace|done]. Defined.

Lemma listen_panics_witness :
  let s := mkServer false true [[2]] [1] [] false in
  (∃ k s', step 2 s (SendsClosed k) s' ∧ sv_panicked s' = true) ↔
  sv_accepting s = false ∧ ∃ k p ps, sv_conns s !! k = Some (p :: ps).
Proof.
  cbv zeta. apply (listen_panics 2 [Accepts [1; 2]; Sends 0 1; AcceptFails]); [by apply exec_trace|done].
Defined.

Lemma listen_streams_witness :
  let a := sample_packet 255 [x01] in
  let b := sample_packet 1 [x02; x03] in
  let css := [[Wire a; Junk [x00; x00; x00; x01]; Wire b]; [Wire a]] in
  let wanted cs := filter (λ p, ([] : list Z) = [] ∨ pkt_Instance p ∈ []) (chunk_packets cs) in
  [a; a; b] ≡ₚ concat (wanted <$> css) ∧ Forall (λ cs, wanted cs `sublist_of` [a; a; b]) css.
Proof.
  intros a b css.
  apply (listen_streams 1 [] css [Accepts [a; b]; Accepts [a]; Sends 0 a; Receives a; Sends 1 a; Receives a; Sends 0 b; Receives b]
    (mkServer true false [[]; []] [] [a; a; b] false)).
  - do 2 (apply Forall_cons; split; [by compute_decide|]). by apply Forall_nil.
  - by vm_compute.
  - apply exec_trace. by vm_compute.
  - done.
  - by repeat constructor.
Defined.
