(* ===== verification/Compressed.v ===== *)
(** * Compressed: the gzip mode of the broker (DecodeCompressedPackets of
      src/proto.go)

    The version and the instance of the packets are in the extra field of the
    gzip header, the payload of a packet is what one [Read] returned.  Every
    [Read] fills the same buffer and a packet holds a slice of it, so the
    buffer is part of the state and a packet is a view of it.  [compress/gzip]
    is not modelled: what [NewReader] and every [Read] give are inputs. *)

From S2P Require Import Prelude Bytes GoStd Proto.
From Stdlib Require Import ZArith Lia.

(** What one [g.Read(bs)] did: the bytes it put at the front of [bs], its
    error, and [g.Header.Extra] afterwards. *)
Record gzip_read : Type := mkRead {
  gr_data : list byte;
  gr_err : option error;
  gr_extra : list byte;
}.

(** A packet on the channel: its payload is [bs[:vw_len]]. *)
Record view : Type := mkView { vw_Version : Z; vw_Instance : Z; vw_len : nat }.

Definition payload (bs : list byte) (v : view) : list byte := take (vw_len v) bs.

(** The buffer and the length of [vs]. *)
Record state : Type := mkState { st_bs : list byte; st_vs : nat }.

Definition buffer_size : Z := 4 * 1024 * 1024.
Definition new_state : state := mkState (replicate (Z.to_nat buffer_size) x00) 0.

(** [binary.BigEndian.Uint16] of a slice. *)
Definition Uint16 (bs : list byte) : result Z :=
  if decide (length bs < 2) then Panic "index out of range" else Ok (get_uint BigEndian (take 2 bs)).

(** One turn of the loop: [None] when the goroutine returns. *)
Definition turn (s : state) (r : gzip_read) : result (option (view * state)) :=
  let bs := gr_data r ++ drop (length (gr_data r)) (st_bs s) in
  let emit vs :=
    version ← Uint16 (gr_extra r);
    Ok (Some (mkView (wrap 8 (Z.land (Z.shiftr version 8) 0x0F)) (wrap 8 (Z.land version 0xFF)) vs, mkState bs vs)) in
  match gr_err r with
  | None => emit (length (gr_data r))
  | Some EOF | Some ErrUnexpectedEOF => Ok None
  | Some _ => emit (st_vs s)
  end.

(** What was sent, each packet with the buffer as it was then; whether the
    goroutine returned. *)
Fixpoint turns (s : state) (rs : list gzip_read) : result (list (view * list byte) * bool) :=
  match rs with
  | [] => Ok ([], false)
  | r :: rs =>
      o ← turn s r;
      match o with
      | None => Ok ([], true)
      | Some (v, s') => '(vs, returned) ← turns s' rs; Ok ((v, st_bs s') :: vs, returned)
      end
  end.

(** [g] is nil when [gzip.NewReader] fails, and its first [Read] panics.  The
    wanted instances are not looked at. *)
Definition DecodeCompressedPackets (new : option error) (rs : list gzip_read) (insts : list Z) :
    result (list (view * list byte) * bool) :=
  match new with
  | Some _ => Panic "invalid memory address or nil pointer dereference"
  | None => turns new_state rs
  end.

(** ** Theorems *)

(** A read of a header that carries the version and the instance. *)
Definition read_ok (size : nat) (version instance : Z) (r : gzip_read) : Prop :=
  gr_err r = None ∧ length (gr_data r) ≤ size ∧
  gr_extra r = put_uint BigEndian 2 (prefix_of HadockVersion1 version instance).

Definition header_ok (version instance : Z) : Prop := in_width 4 version ∧ in_width 8 instance.

#[global] Instance read_ok_dec size v i r : Decision (read_ok size v i r).
Proof. unfold read_ok. apply _. Defined.
#[global] Instance header_ok_dec v i : Decision (header_ok v i).
Proof. unfold header_ok. apply _. Defined.

Lemma header_fields v i :
  header_ok v i →
  let w := prefix_of HadockVersion1 v i in
  in_width (8 * Z.of_nat 2) w ∧ wrap 8 (Z.land (Z.shiftr w 8) 0x0F) = v ∧ wrap 8 (Z.land w 0xFF) = i.
Proof.
  unfold header_ok, prefix_of, HadockVersion1, in_width, wrap. intros [Hv Hi]. cbv zeta.
  change 0x0F%Z with (Z.ones 4). change 0xFF%Z with (Z.ones 8). rewrite !Z.land_ones, Z.shiftr_div_pow2 by lia.
  change (2 ^ 8)%Z with 256%Z in *. change (2 ^ 4)%Z with 16%Z in *. change (2 ^ (8 * Z.of_nat 2))%Z with 65536%Z.
  split_and!; [lia..|div_lia|div_lia].
Qed.

(** The state after a good read, and after many. *)
Definition after_read (s : state) (r : gzip_read) : state :=
  mkState (gr_data r ++ drop (length (gr_data r)) (st_bs s)) (length (gr_data r)).
Definition after (s : state) (rs : list gzip_read) : state := foldl after_read s rs.

(** The packets of good reads, each with the buffer at the time. *)
Fixpoint sent_views (v i : Z) (s : state) (rs : list gzip_read) : list (view * list byte) :=
  match rs with
  | [] => []
  | r :: rs => (mkView v i (length (gr_data r)), st_bs (after_read s r)) :: sent_views v i (after_read s r) rs
  end.

Lemma after_payload s r : take (st_vs (after_read s r)) (st_bs (after_read s r)) = gr_data r.
Proof. apply take_app_length. Qed.

Lemma turn_ok size v i s r :
  header_ok v i → read_ok size v i r →
  turn s r = Ok (Some (mkView v i (length (gr_data r)), after_read s r)).
Proof.
  intros Hh (He & _ & Hx). unfold turn. rewrite He, Hx. unfold Uint16.
  rewrite length_put_uint, decide_False by lia. rewrite take_ge by (rewrite length_put_uint; lia).
  destruct (header_fields v i Hh) as (Hw & H1 & H2). rewrite get_put_uint_id by done. simpl mbind. by rewrite H1, H2.
Qed.

Lemma turns_ok size v i s rs rs' :
  header_ok v i → Forall (read_ok size v i) rs →
  turns s (rs ++ rs') = ('(ws, returned) ← turns (after s rs) rs'; Ok (sent_views v i s rs ++ ws, returned)).
Proof.
  intros Hh Hrs. revert s. induction Hrs as [|r rs Hr _ IH]; intros s.
  { simpl. by destruct (turns s rs') as [[]| |]. }
  cbn [app turns]. rewrite (turn_ok size v i) by done. cbn [mbind result_bind]. rewrite IH.
  cbn [after foldl]. by destruct (turns _ rs') as [[]| |].
Qed.

(** What the receiver finds in a packet it looks at before the next [Read]. *)
Definition seen (p : view * list byte) : Z * Z * list byte :=
  let '(w, bs) := p in (vw_Version w, vw_Instance w, payload bs w).

Lemma sent_seen v i s rs : seen <$> sent_views v i s rs = (λ r, (v, i, gr_data r)) <$> rs.
Proof.
  revert s. induction rs as [|r rs IH]; intros s; [done|]. cbn [sent_views fmap list_fmap]. rewrite IH.
  cbn [seen vw_Version vw_Instance]. unfold payload. cbn [vw_len]. f_equal. f_equal. apply (after_payload s r).
Qed.

(** C29: every [Read] of the gzip stream becomes one packet of the version and
    instance of its header, whatever instances are wanted; the bytes that come
    with the end of the stream are dropped. *)
Theorem compressed_stream v i size insts rs d x e :
  header_ok v i → Forall (read_ok size v i) rs → e = EOF ∨ e = ErrUnexpectedEOF →
  ∃ vs, DecodeCompressedPackets None (rs ++ [mkRead d (Some e) x]) insts = Ok (vs, true) ∧
    seen <$> vs = (λ r, (v, i, gr_data r)) <$> rs.
Proof.
  intros Hh Hrs He. eexists. split; [|apply (sent_seen v i new_state)].
  unfold DecodeCompressedPackets. rewrite (turns_ok size v i) by done.
  assert (turns (after new_state rs) [mkRead d (Some e) x] = Ok ([], true)) as -> by (by destruct He as [-> | ->]).
  cbn [mbind result_bind]. by rewrite app_nil_r.
Qed.

(** Fact: a packet is a slice of the buffer: once the next [Read] has returned
    at least as many bytes, its payload has become the beginning of theirs. *)
Theorem compressed_overwritten v i size s r1 r2 :
  header_ok v i → read_ok size v i r1 → read_ok size v i r2 → length (gr_data r1) ≤ length (gr_data r2) →
  ∃ v1 v2 bs1 bs2, turns s [r1; r2] = Ok ([(v1, bs1); (v2, bs2)], false) ∧
    payload bs1 v1 = gr_data r1 ∧ payload bs2 v1 = take (length (gr_data r1)) (gr_data r2).
Proof.
  intros Hh H1 H2 Hlen.
  assert (Forall (read_ok size v i) [r1; r2]) as Hrs by by rewrite !Forall_cons, Forall_nil.
  pose proof (turns_ok size v i s [r1; r2] [] Hh Hrs) as E.
  do 4 eexists. split; [exact E|]. unfold payload; cbn [vw_len st_bs after_read].
  rewrite take_app_length, take_app_le by done. done.
Qed.

Lemma turn_failed v i size s r e :
  header_ok v i → read_ok size v i r → e ≠ EOF → e ≠ ErrUnexpectedEOF →
  turn s (mkRead [] (Some e) (gr_extra r)) = Ok (Some (mkView v i (st_vs s), s)).
Proof.
  intros Hh (_ & _ & Hx) He1 He2. unfold turn. cbn [gr_err gr_data gr_extra length app]. rewrite drop_0, Hx.
  destruct (header_fields v i Hh) as (Hw & H1 & H2).
  unfold Uint16. rewrite length_put_uint, decide_False by lia.
  rewrite take_ge by (rewrite length_put_uint; lia). rewrite get_put_uint_id by done.
  cbn [mbind result_bind]. rewrite H1, H2. destruct s, e; done.
Qed.

(** Fact: after an error that is neither the end of the stream nor gone at the
    next [Read], as a checksum error, the last payload is sent again on every
    turn, and the goroutine never returns. *)
Theorem compressed_sticky v i size insts rs r e n :
  header_ok v i → Forall (read_ok size v i) rs → read_ok size v i r → e ≠ EOF → e ≠ ErrUnexpectedEOF →
  ∃ vs, DecodeCompressedPackets None (rs ++ r :: replicate n (mkRead [] (Some e) (gr_extra r))) insts = Ok (vs, false) ∧
    seen <$> vs = ((λ r, (v, i, gr_data r)) <$> rs) ++ replicate (S n) (v, i, gr_data r).
Proof.
  intros Hh Hrs Hr He1 He2. unfold DecodeCompressedPackets.
  change (rs ++ r :: ?l) with (rs ++ [r] ++ l). rewrite app_assoc.
  rewrite (turns_ok size v i) by (done || (apply Forall_app; split; [done|by apply Forall_singleton])).
  unfold after. rewrite foldl_app. cbn [foldl]. set (s := after_read _ r).
  assert (∃ vs, turns s (replicate n (mkRead [] (Some e) (gr_extra r))) = Ok (vs, false) ∧
    seen <$> vs = replicate n (v, i, gr_data r)) as (vs & -> & Hvs).
  { assert (take (st_vs s) (st_bs s) = gr_data r) as Hs by apply after_payload. clearbody s.
    induction n as [|n (vs & IH & Hseen)]; [by exists []|].
    exists ((mkView v i (st_vs s), st_bs s) :: vs). split.
    - cbn [replicate turns]. rewrite (turn_failed v i size) by done. cbn [mbind result_bind]. by rewrite IH.
    - rewrite fmap_cons, Hseen. cbn [replicate]. f_equal. unfold seen, payload. cbn. by rewrite Hs. }
  cbn [mbind result_bind]. eexists. split; [done|].
  rewrite !fmap_app, Hvs, sent_seen, fmap_app. by rewrite <-app_assoc.
Qed.

(** ** Examples *)

Definition sample_read (bs : list byte) : gzip_read := mkRead bs None [x02; x2a].

Lemma compressed_stream_witness :
  ∃ vs, DecodeCompressedPackets None ([sample_read [x01]; sample_read [x02; x03]] ++ [mkRead [x04] (Some EOF) []]) [1%Z]
    = Ok (vs, true) ∧ seen <$> vs = [(2%Z, 42%Z, [x01]); (2%Z, 42%Z, [x02; x03])].
Proof.
  apply (compressed_stream 2 42 100 [1%Z] [sample_read [x01]; sample_read [x02; x03]]);
    [by compute_decide|by compute_decide|by left].
Defined.

Lemma compressed_overwritten_witness :
  ∃ v1 v2 bs1 bs2, turns (mkState [x00; x00] 0) [sample_read [x01]; sample_read [x02; x03]]
    = Ok ([(v1, bs1); (v2, bs2)], false) ∧ payload bs1 v1 = [x01] ∧ payload bs2 v1 = [x02].
Proof. apply (compressed_overwritten 2 42 100); by compute_decide. Defined.

Lemma compressed_sticky_witness :
  ∃ vs, DecodeCompressedPackets None ([] ++ sample_read [x01] ::
      replicate 3 (mkRead [] (Some (ErrExternal "gzip: invalid checksum")) [x02; x2a])) [] = Ok (vs, false) ∧
    seen <$> vs = replicate 4 (2%Z, 42%Z, [x01]).
Proof. apply (compressed_sticky 2 42 100 [] []); by compute_decide. Defined.
