(* ===== verification/Proxy.v ===== *)
(** * Proxy: copies of a connection sent further (src/cascading/proxy.go,
      src/proxy.go)

    A broker may copy what it reads to another one.  A write to the copy never
    reports an error: the cascading proxy discards what it is given until a
    goroutine has connected again, the other one connects again at once, or
    not.  What the system does is an input of every step; the theorems say
    what reaches the connections. *)

From S2P Require Import Prelude Bytes GoStd.
From Stdlib Require Import ZArith Lia.

(** ** The cascading proxy *)

(** [Proxy] opens a TCP connection, so the type switch of [Write] always finds
    one.  [cc_writer] tells the connection from [ioutil.Discard];
    [cc_reconnecting] counts the goroutines in [reconnect]; [cc_received] is
    what every connection so far has received, the current one last. *)
Record cascade : Type := mkCascade {
  cc_connected : bool;
  cc_reconnecting : nat;
  cc_received : list (list byte);
}.

Definition Proxy (split dial : option error) : result cascade :=
  match split with
  | Some e => Err e
  | None => match dial with Some e => Err e | None => Ok (mkCascade true 0 [[]]) end
  end.

(** The bytes the connection takes of the last part. *)
Definition deliver (bs : list byte) (rs : list (list byte)) : list (list byte) :=
  match rev rs with [] => [] | r :: rs => rev ((r ++ bs) :: rs) end.

(** [Write]: the connection takes [n] bytes, all of them without an error. *)
Definition cascade_Write (bs : list byte) (n : nat) (err : option error) (c : cascade) :
    (nat * option error) * cascade :=
  ((length bs, None),
   if cc_connected c then
     match err with
     | None => mkCascade true (cc_reconnecting c) (deliver bs (cc_received c))
     | Some _ => mkCascade false (S (cc_reconnecting c)) (deliver (take n bs) (cc_received c))
     end
   else c).

(** A turn of [reconnect]: a failed dial is tried again. *)
Definition reconnect (err : option error) (c : cascade) : cascade :=
  match err with
  | Some _ => c
  | None => mkCascade true (pred (cc_reconnecting c)) (cc_received c ++ [[]])
  end.

Inductive cascade_event : Type :=
  | Writes (bs : list byte) (n : nat) (err : option error)
  | Dials (err : option error).

(** A goroutine can dial when there is one. *)
Definition cascade_step (c : cascade) (ev : cascade_event) : cascade :=
  match ev with
  | Writes bs n err => (cascade_Write bs n err c).2
  | Dials err => if decide (cc_reconnecting c = 0) then c else reconnect err c
  end.

Definition cascade_run (c : cascade) (evs : list cascade_event) : cascade := foldl cascade_step c evs.

Definition written (evs : list cascade_event) : list byte :=
  concat (omap (λ ev, match ev with Writes bs _ _ => Some bs | _ => None end) evs).

(** *** [io.TeeReader]

    What is read is written to the copy before it is returned, and the error
    of the write is returned in its place; the cascading proxy has none.  A
    [Read] of [n] bytes stands for one that returns [n]. *)
Definition tee_Read (n : nat) (r : reader) (w : list byte → cascade → (nat * option error) * cascade) (c : cascade) :
    (list byte * option error) * reader * cascade :=
  let bs := take n (rd_data r) in
  let err := if decide (rd_data r = []) then Some (rd_end r) else None in
  let r' := Reader (drop n (rd_data r)) (rd_end r) in
  if decide (0 < length bs) then
    let '((m, e), c') := w bs c in
    (match e with Some e => (take m bs, Some e) | None => (bs, err) end, r', c')
  else ((bs, err), r', c).

(** What a sequence of reads returns, with the calls of [Write] it makes. *)
Fixpoint tee_all (ns : list nat) (os : nat → nat * option error) (r : reader) (c : cascade) :
    list (list byte * option error) * cascade :=
  match ns with
  | [] => ([], c)
  | n :: ns =>
      let '(res, r', c') := tee_Read n r (λ bs, cascade_Write bs (os 0).1 (os 0).2) c in
      let '(rs, c'') := tee_all ns (λ k, os (S k)) r' c' in (res :: rs, c'')
  end.

(** The same reads without the copy. *)
Fixpoint read_all (ns : list nat) (r : reader) : list (list byte * option error) :=
  match ns with
  | [] => []
  | n :: ns =>
      (take n (rd_data r), if decide (rd_data r = []) then Some (rd_end r) else None) ::
      read_all ns (Reader (drop n (rd_data r)) (rd_end r))
  end.

(** Fact: copying a connection to a cascading proxy never changes what the
    broker reads from it, whatever happens to the copy. *)
Theorem tee_transparent ns os r c : (tee_all ns os r c).1 = read_all ns r.
Proof.
  revert os r c. induction ns as [|n ns IH]; intros os r c; [done|].
  cbn [tee_all read_all]. unfold tee_Read, cascade_Write. case_decide as Hl.
  - specialize (IH (λ k, os (S k)) (Reader (drop n (rd_data r)) (rd_end r))).
    match goal with |- context [tee_all ns _ _ ?c] => specialize (IH c); destruct (tee_all ns _ _ c) end.
    simpl in *. by rewrite IH.
  - specialize (IH (λ k, os (S k)) (Reader (drop n (rd_data r)) (rd_end r)) c).
    destruct (tee_all ns _ _ c). simpl in *. by rewrite IH.
Qed.

(** The stream with what was lost: after every connection a gap. *)
Definition cut (parts gaps : list (list byte)) : list byte := concat (zip_with app parts gaps).

Lemma cut_snoc ps gs p g : length ps = length gs → cut (ps ++ [p]) (gs ++ [g]) = cut ps gs ++ p ++ g.
Proof. intros. unfold cut. rewrite zip_with_app, concat_app by done. simpl. by rewrite app_nil_r. Qed.

Lemma deliver_snoc bs rs r : deliver bs (rs ++ [r]) = rs ++ [r ++ bs].
Proof. unfold deliver. rewrite rev_app_distr. simpl. by rewrite rev_involutive. Qed.

(** The invariant: the last gap is empty while the connection is up, and there
    is a reconnecting goroutine exactly when it is down. *)
Record cascade_ok (stream : list byte) (c : cascade) : Prop := {
  ck_parts : ∃ ps p gs g, cc_received c = ps ++ [p] ∧ length ps = length gs ∧ stream = cut (ps ++ [p]) (gs ++ [g]) ∧
             (cc_connected c = true → g = []);
  ck_reconnecting : cc_reconnecting c = if cc_connected c then 0 else 1;
}.

Lemma cascade_step_ok stream c ev :
  cascade_ok stream c → cascade_ok (stream ++ written [ev]) (cascade_step c ev).
Proof.
  intros [(ps & p & gs & g & Hr & Hl & -> & Hg) Hn]. unfold written. destruct ev as [bs n err|err]; cbn.
  - rewrite app_nil_r. destruct (cc_connected c) eqn:Hc.
    + rewrite (Hg eq_refl), !cut_snoc by done. destruct err as [e|]; split; simpl; try (by rewrite Hn); rewrite Hr, deliver_snoc.
      * exists ps, (p ++ take n bs), gs, (drop n bs). split_and!; [done..| |done].
        rewrite cut_snoc by done. by rewrite app_nil_r, <-!(assoc_L app), take_drop.
      * exists ps, (p ++ bs), gs, []. split_and!; [done..| |done]. rewrite cut_snoc by done.
        by rewrite !app_nil_r, <-!(assoc_L app).
    + split; [|by rewrite Hc]. exists ps, p, gs, (g ++ bs). rewrite !cut_snoc by done. rewrite Hc.
      split_and!; [done..| |done]. by rewrite <-!(assoc_L app).
  - rewrite app_nil_r. destruct (cc_connected c) eqn:Hc; rewrite Hn; simpl.
    + split; [|by rewrite Hc]. exists ps, p, gs, g. rewrite Hc. eauto.
    + destruct err as [e|]; simpl.
      * split; [|by rewrite Hc]. exists ps, p, gs, g. rewrite Hc. eauto.
      * split; simpl; [|by rewrite Hn]. exists (ps ++ [p]), [], (gs ++ [g]), [].
        rewrite Hr, !length_app, Hl. split_and!; [done..| |done].
        rewrite (cut_snoc (ps ++ [p])) by (rewrite !length_app; simpl; lia). by rewrite !app_nil_r.
Qed.

(** Fact: what was written reaches the connections of a cascading proxy in order
    and without repetition: the stream is what the first connection received,
    a gap, what the second one received, a gap, and so on, and nothing is
    missing behind the last connection while it is up; one goroutine dials
    while it is down, and never a second one. *)
Theorem cascade_parts c evs :
  Proxy None None = Ok c →
  let c' := cascade_run c evs in
  (∃ gaps, length gaps = length (cc_received c') ∧ written evs = cut (cc_received c') gaps ∧
     (cc_connected c' = true → last gaps = Some [])) ∧
  cc_reconnecting c' = if cc_connected c' then 0 else 1.
Proof.
  intros [= <-]. cbv zeta.
  assert (cascade_ok (written evs) (cascade_run (mkCascade true 0 [[]]) evs)) as [H Hn].
  { induction evs as [|ev evs IH] using rev_ind.
    - split; [|done]. by exists [], [], [], [].
    - unfold cascade_run. rewrite foldl_app. cbn [foldl].
      assert (written (evs ++ [ev]) = written evs ++ written [ev]) as ->
        by (unfold written; by rewrite omap_app, concat_app).
      by apply cascade_step_ok. }
  split; [|done]. destruct H as (ps & p & gs & g & Hr & Hl & Hs & Hg).
  exists (gs ++ [g]). rewrite Hr, !length_app, last_snoc. simpl. split_and!; [lia|done|].
  intros Hc. by rewrite (Hg Hc).
Qed.

(** ** The proxy of proxy.go

    [flusher] is what [gzip.Writer] implements and a [net.Conn] does not. *)
Inductive proxy_writer : Type :=
  | Plain (conn : nat)
  | Gzip (conn : nat) (level : Z).

Definition is_flusher (w : proxy_writer) : bool := match w with Gzip _ _ => true | Plain _ => false end.

Record proxy : Type := mkProxy { px_conn : nat; px_level : Z; px_writer : proxy_writer }.

Definition NoCompression : Z := 0.
Definition BestSpeed : Z := 1.
Definition BestCompression : Z := 9.
Definition DefaultCompression : Z := -1.

Definition DialProxy (dial : option error) (e : string) : result proxy :=
  match dial with
  | Some err => Err err
  | None =>
      let '(level, z) :=
        if decide (e = "no") then (NoCompression, true)
        else if decide (e = "speed") then (BestSpeed, true)
        else if decide (e = "best") then (BestCompression, true)
        else if decide (e = "default") then (DefaultCompression, true)
        else (0%Z, false) in
      Ok (mkProxy 0 level (if z then Gzip 0 level else Plain 0))
  end.

(** What the writer does with the bytes: a failed write is temporary (or not
    one of the network), or permanent, with the result of the new dial. *)
Inductive write_result : Type :=
  | Accepted
  | Temporary
  | Permanent (redial : option error).

Definition proxy_Write (bs : list byte) (o : write_result) (p : proxy) : (nat * option error) * proxy :=
  ((length bs, None),
   match o with
   | Accepted | Temporary | Permanent (Some _) => p
   | Permanent None =>
       let c := S (px_conn p) in
       let w := Plain c in
       mkProxy c (px_level p) (if is_flusher w then Gzip c (px_level p) else w)
   end).

Definition proxy_run (p : proxy) (ws : list (list byte * write_result)) : proxy :=
  foldl (λ p '(bs, o), (proxy_Write bs o p).2) p ws.

Lemma proxy_run_app p ws ws' : proxy_run p (ws ++ ws') = proxy_run (proxy_run p ws) ws'.
Proof. apply foldl_app. Qed.

Lemma proxy_plain p ws c : px_writer p = Plain c → ∃ c', px_writer (proxy_run p ws) = Plain c'.
Proof.
  revert p c. induction ws as [|[bs o] ws IH]; intros p c Hp; [by exists c|].
  cbn [proxy_run foldl]. destruct o as [| |[]]; by eapply IH.
Qed.

(** Fact: a compressed copy is compressed until the first time it connects again
    and never after: the bytes that follow go out as they are, whatever the
    level asked for. *)
Theorem proxy_loses_compression e p ws bs ws' :
  e ∈ ["no"; "speed"; "best"; "default"] → DialProxy None e = Ok p →
  Forall (λ w, w.2 ≠ Permanent None) ws →
  px_writer (proxy_run p ws) = Gzip 0 (px_level p) ∧
  ∃ c, px_writer (proxy_run p (ws ++ (bs, Permanent None) :: ws')) = Plain c.
Proof.
  intros He Hp Hws.
  assert (px_writer p = Gzip 0 (px_level p)) as Hw.
  { revert Hp. unfold DialProxy. rewrite !elem_of_cons in He.
    destruct He as [-> |[-> |[-> |[-> |[]%elem_of_nil]]]]; by intros [= <-]. }
  clear Hp He. assert (proxy_run p ws = p) as Hsame.
  { induction Hws as [|[b o] ws Ho _ IH]; [done|]. cbn [proxy_run foldl].
    by destruct o as [| |[]]. }
  rewrite proxy_run_app, Hsame. split; [done|]. cbn [proxy_run foldl].
  by eapply (proxy_plain (proxy_Write bs (Permanent None) p).2).
Qed.

(** ** Examples *)

Lemma cascade_parts_witness :
  let c' := cascade_run (mkCascade true 0 [[]])
    [Writes [x01; x02] 2 None; Writes [x03; x04] 1 (Some EOF); Writes [x05] 0 None; Dials None; Writes [x06] 1 None] in
  (∃ gaps, length gaps = length (cc_received c') ∧
     [x01; x02; x03; x04; x05; x06] = cut (cc_received c') gaps ∧
     (cc_connected c' = true → last gaps = Some [])) ∧
  cc_reconnecting c' = if cc_connected c' then 0 else 1.
Proof.
  apply (cascade_parts (mkCascade true 0 [[]])
    [Writes [x01; x02] 2 None; Writes [x03; x04] 1 (Some EOF); Writes [x05] 0 None; Dials None; Writes [x06] 1 None]).
  done.
Defined.

Lemma proxy_loses_compression_witness :
  px_writer (proxy_run (mkProxy 0 9 (Gzip 0 9)) [([x01], Accepted)]) = Gzip 0 9 ∧
  ∃ c, px_writer (proxy_run (mkProxy 0 9 (Gzip 0 9)) ([([x01], Accepted)] ++ ([x02], Permanent None) :: [([x03], Accepted)])) = Plain c.
Proof.
  apply (proxy_loses_compression "best"); [set_solver|done|]. apply Forall_singleton. done.
Defined.
