(* ===== verification/Relay.v ===== *)
(** * Relay: a connection of the broker and the copy it sends further
      (ListenPackets of src/cmd/hadock/listen.go, src/cascading/proxy.go)

    The goroutine of a connection reads it through [io.TeeReader] when the
    cascading proxy could be dialled, directly when not, and decodes what it
    reads.  The copy goes to another broker, which decodes every connection it
    gets.  This file composes Proto.v and Proxy.v: what the broker decodes, and
    what the one behind it does, when the copy breaks and connects again. *)

From S2P Require Import Prelude Bytes SortSearch GoStd Proto Proxy.
From Stdlib Require Import ZArith Lia.

(** ** The goroutine of a connection *)

Record connection : Type := mkConnection {
  cn_in : reader;                 (* c *)
  cn_copy : option cascade;       (* the proxy, when it was dialled *)
  cn_read : list byte;            (* what the decoder has been given *)
}.

(** An error of [Proxy] is dropped: the connection is read without a copy. *)
Definition open_connection (split dial : option error) (r : reader) : connection :=
  mkConnection r (match Proxy split dial with Ok c => Some c | _ => None end) [].

(** A read of [n] bytes, with what the copy's connection does with them, and a
    turn of the copy's [reconnect]. *)
Inductive connection_event : Type :=
  | Reads (n taken : nat) (err : option error)
  | Redials (err : option error).

Definition connection_step (c : connection) (ev : connection_event) : connection :=
  match ev, cn_copy c with
  | Reads n taken err, Some k =>
      let '((bs, _), r', k') := tee_Read n (cn_in c) (λ bs, cascade_Write bs taken err) k in
      mkConnection r' (Some k') (cn_read c ++ bs)
  | Reads n _ _, None =>
      mkConnection (Reader (drop n (rd_data (cn_in c))) (rd_end (cn_in c))) None (cn_read c ++ take n (rd_data (cn_in c)))
  | Redials err, Some k => mkConnection (cn_in c) (Some (cascade_step k (Dials err))) (cn_read c)
  | Redials _, None => c
  end.

Definition connection_run (c : connection) (evs : list connection_event) : connection := foldl connection_step c evs.

(** The reads and the copy after any events: what was read and what is left are
    the stream, and the copy was given what was read. *)
Record connection_ok (data : list byte) (e : error) (c : connection) : Prop := {
  co_read : cn_read c ++ rd_data (cn_in c) = data;
  co_end : rd_end (cn_in c) = e;
  co_copy k : cn_copy c = Some k → cascade_ok (cn_read c) k;
}.

Lemma connection_step_ok data e c ev : connection_ok data e c → connection_ok data e (connection_step c ev).
Proof.
  intros [Hr He Hk]. destruct c as [[d e'] [k|] rd], ev as [n taken err|err]; simpl in *.
  - unfold tee_Read. cbn [rd_data rd_end]. case_decide as Hn.
    + split; simpl; [by rewrite <-(assoc_L app), take_drop|done|]. intros k' [= <-].
      pose proof (cascade_step_ok rd k (Writes (take n d) taken err) (Hk k eq_refl)) as H.
      unfold written in H. cbn [omap list_omap concat] in H. by rewrite app_nil_r in H.
    + assert (take n d = []) as Hnil by (destruct (take n d); [done|simpl in Hn; lia]).
      split; simpl; [by rewrite <-(assoc_L app), take_drop|done|]. intros k' [= <-]. rewrite Hnil, app_nil_r. by apply Hk.
  - split; [done..|]. intros k' [= <-].
    pose proof (cascade_step_ok rd k (Dials err) (Hk k eq_refl)) as H. by rewrite app_nil_r in H.
  - by split; [simpl; by rewrite <-(assoc_L app), take_drop| |].
  - by split.
Qed.

Lemma open_connection_ok split dial r : connection_ok (rd_data r) (rd_end r) (open_connection split dial r).
Proof.
  split; [done..|]. unfold open_connection, Proxy. intros k. destruct split; [done|]. destruct dial; [done|].
  intros [= <-]. split; [|done]. by exists [], [], [], [].
Qed.

Lemma connection_run_ok split dial r evs :
  connection_ok (rd_data r) (rd_end r) (connection_run (open_connection split dial r) evs).
Proof.
  induction evs as [|ev evs IH] using rev_ind; [apply open_connection_ok|].
  unfold connection_run. rewrite foldl_app. by apply connection_step_ok.
Qed.

(** A copy whose writes all succeed has one connection, and it got everything. *)
Definition no_failure (ev : connection_event) : Prop := match ev with Reads _ _ (Some _) => False | _ => True end.

Lemma healthy_copy split dial r evs k :
  Forall no_failure evs → cn_copy (connection_run (open_connection split dial r) evs) = Some k →
  cc_received k = [cn_read (connection_run (open_connection split dial r) evs)].
Proof.
  intros Hevs. set (P c := ∀ k, cn_copy c = Some k → k = mkCascade true 0 [cn_read c]).
  assert (P (connection_run (open_connection split dial r) evs)) as HP; [|intros Hk; by rewrite (HP k Hk)].
  induction evs as [|ev evs IH] using rev_ind.
  - unfold P, connection_run, open_connection, Proxy. intros k'. simpl. destruct split; [done|]. destruct dial; [done|]. by intros [= <-].
  - apply Forall_app in Hevs as [Hevs Hev]. apply Forall_inv in Hev. specialize (IH Hevs). unfold connection_run in *. rewrite foldl_app.
    cbn [foldl]. destruct (foldl _ _ _) as [[d e] [k'|] rd]; [|by destruct ev]. intros k''. rewrite (IH k' eq_refl). simpl.
    destruct ev as [n taken [|]|err]; simpl; [by destruct Hev| |by intros [= <-]].
    unfold tee_Read. cbn [rd_data rd_end]. case_decide as Hn; intros [= <-]; [done|].
    simpl. assert (take n d = []) as -> by (destruct (take n d); [done|simpl in Hn; lia]). by rewrite app_nil_r.
Qed.

(** ** Decoding what is left of a stream *)

(** What a broker makes of a connection once it is closed. *)
Definition decodes `{sorter : SliceSorter} (insts : list Z) (bs : list byte) : list Packet :=
  (DecodeBinaryPackets (S (length bs)) (Reader bs EOF) insts).1.

(** A computation that runs out of bytes does so at the end of the data. *)
Class Starving {A} (m : rd A) : Prop :=
  starving d r : m (Reader d EOF) = r → (∃ a, r.1 = Ok a) ∨ (r.1 = Err EOF ∨ r.1 = Err ErrUnexpectedEOF) ∧ r.2 = Reader [] EOF.

#[export] Instance starving_ret {A} (a : A) : Starving (mret a : rd A).
Proof. intros d r <-. left. by exists a. Qed.
#[export] Instance starving_ReadFull n : Starving (ReadFull n).
Proof.
  intros d r <-. unfold ReadFull. case_decide; [left; by eexists|right]. split; [|done].
  unfold short_error. simpl. case_decide; auto.
Qed.
#[export] Instance starving_bind {A B} (m : rd A) (f : A → rd B) :
  Consuming m → Starving m → (∀ a, Starving (f a)) → Starving (m ≫= f).
Proof.
  intros Hc Hm Hf d r <-. specialize (Hm d _ eq_refl). destruct (Hc (Reader d EOF)) as [_ He].
  unfold mbind, rd_bind. destruct (m (Reader d EOF)) as [[a|e|w] [d' e']]; simpl in *.
  - subst e'. by apply (Hf a d').
  - right. destruct Hm as [[]|[H1 H2]]; [done|]. split; [|done]. destruct H1 as [[= ->]|[= ->]]; auto.
  - destruct Hm as [[]|[[|] ]]; done.
Qed.
#[export] Instance starving_ReadUint o n : Starving (ReadUint o n).
Proof. unfold ReadUint. apply _. Qed.
#[export] Instance starving_readPacket p : Starving (readPacket p).
Proof. unfold readPacket. apply _. Qed.

(** A computation that succeeded does the same when more bytes follow. *)
Class Extending {A} (m : rd A) : Prop :=
  extending d x e a r : m (Reader d e) = (Ok a, r) → m (Reader (d ++ x) e) = (Ok a, Reader (rd_data r ++ x) e).

#[export] Instance extending_ret {A} (a : A) : Extending (mret a : rd A).
Proof. intros d x e a' r [= <- <-]. done. Qed.
#[export] Instance extending_ReadFull n : Extending (ReadFull n).
Proof.
  intros d x e a r. unfold ReadFull. cbn [rd_data rd_end]. case_decide as Hn; [|done]. intros [= <- <-].
  rewrite decide_True by (rewrite length_app; lia). cbn [rd_data].
  by rewrite take_app_le, drop_app_le by lia.
Qed.
#[export] Instance extending_bind {A B} (m : rd A) (f : A → rd B) :
  Consuming m → Extending m → (∀ a, Extending (f a)) → Extending (m ≫= f).
Proof.
  intros Hc Hm Hf d x e b r (a & [d' e'] & H1 & H2)%rd_bind_inv.
  destruct (Hc (Reader d e)) as [_ He]. rewrite H1 in He. simpl in He. subst e'.
  erewrite rd_bind_ok by (by apply Hm). by apply Hf.
Qed.
#[export] Instance extending_ReadUint o n : Extending (ReadUint o n).
Proof. unfold ReadUint. apply _. Qed.
#[export] Instance extending_readPacket p : Extending (readPacket p).
Proof. unfold readPacket. apply _. Qed.

Section decoding.
Context {sorter : SliceSorter}.
Implicit Types insts : list Z.

(** The loop on bytes that hold no whole packet. *)
Lemma decode_loop_starved insts n d e :
  DecodePacket (Reader d EOF) = (Err e, Reader [] EOF) → e = EOF ∨ e = ErrUnexpectedEOF →
  decode_loop (S (S n)) insts (Reader d EOF) = ([], true).
Proof.
  intros Hd He. cbn [decode_loop]. unfold decode_turn at 1. rewrite Hd.
  destruct He as [-> | ->]; [done|]. unfold decode_turn. by rewrite DecodePacket_empty.
Qed.

Lemma DecodePacket_tail d : length d < 4 → ∃ e, DecodePacket (Reader d EOF) = (Err e, Reader [] EOF) ∧ (e = EOF ∨ e = ErrUnexpectedEOF).
Proof.
  intros Hl. eexists. split; [apply rd_bind_err, rd_bind_err; by apply ReadUint_short|].
  unfold short_error. simpl. case_decide; auto.
Qed.

(** A prefix word without its end. *)
Lemma readPreamble_cut prefix x y :
  wire_preamble prefix = x ++ y → 4 ≤ length x → y ≠ [] →
  ∃ e, readPreamble (Reader x EOF) = (Err e, Reader [] EOF) ∧ (e = EOF ∨ e = ErrUnexpectedEOF).
Proof.
  intros Hx H4 Hy. assert (∃ j, x = put_uint BigEndian 4 Preamble ++ j ∧ length j < 2) as (j & -> & Hj).
  { exists (drop 4 x). pose proof (f_equal length Hx) as Hl. unfold wire_preamble in Hl.
    rewrite !length_app, !length_put_uint in Hl. split; [|rewrite length_drop; destruct y; [done|simpl in Hl; lia]].
    rewrite <-(take_drop 4 x) at 1. f_equal. apply (f_equal (take 4)) in Hx.
    rewrite take_app_le in Hx by done. unfold wire_preamble in Hx. by rewrite take_app_length' in Hx by (by rewrite length_put_uint). }
  unfold readPreamble. erewrite rd_bind_ok by (apply ReadUint_put; auto with hadock). rewrite decide_False by (by intros []).
  eexists. split; [by apply ReadUint_short|]. unfold short_error. simpl. case_decide; auto.
Qed.

(** A packet without its end. *)
Lemma DecodePacket_cut p x y :
  Packet_wf p → wire_packet p = x ++ y → y ≠ [] →
  ∃ e, DecodePacket (Reader x EOF) = (Err e, Reader [] EOF) ∧ (e = EOF ∨ e = ErrUnexpectedEOF).
Proof.
  intros Hwf Hx Hy. destruct (decide (length x < 4)) as [|H4]; [by apply DecodePacket_tail|].
  destruct Hwf as (Hpr & Hv & Hi & Hs & Hl & Hlen & Hsum & Hc & Hla).
  assert (in_width 4 (pkt_Protocol p)) as Hpw by (rewrite Hpr; vm_compute; split; congruence).
  unfold wire_packet in Hx. set (prefix := prefix_of _ _ _) in Hx.
  apply app_eq_inv in Hx as [(k & Hk & Hx)|(k & -> & Hx)].
  { destruct (decide (k = [])) as [->|Hne].
    - rewrite app_nil_r in Hk. rewrite <-Hk, <-(app_nil_r (wire_preamble prefix)).
      rewrite DecodePacket_prefix by (by apply prefix_width). unfold prefix.
      destruct (prefix_fields _ _ _ Hpw Hv Hi) as (-> & -> & ->). cbv zeta. rewrite decide_True by done.
      eexists. split; [apply rd_bind_err; by rewrite ReadUint_short by (simpl; lia)|by left].
    - destruct (readPreamble_cut prefix x k Hk) as (e & He & Hor); [lia|done|]. exists e. split; [by apply rd_bind_err|done]. }
  rewrite DecodePacket_prefix by (by apply prefix_width). unfold prefix.
  destruct (prefix_fields _ _ _ Hpw Hv Hi) as (-> & -> & ->). cbv zeta. rewrite decide_True by done. set (q := mkPacket _ _ _ _ _ _ _ _ _).
  destruct (readPacket q (Reader k EOF)) as [res r] eqn:E.
  destruct (starving k _ E) as [[a Ha]|[[He|He] Hr]]; simpl in *; subst; [|by eexists; split; [|left]|by eexists; split; [|right]].
  exfalso. pose proof (extending k y EOF a r E) as E'. rewrite <-Hx in E'.
  rewrite <-(app_nil_r (wire_body _ _ _)) in E'. rewrite readPacket_ok in E' by (done || by rewrite <-Hlen).
  injection E' as _ E'. by destruct (rd_data r), y.
Qed.

Lemma decode_loop_more insts n m r q : decode_loop n insts r = (q, true) → n ≤ m → decode_loop m insts r = (q, true).
Proof.
  revert m r q. induction n as [|n IH]; intros m r q; [done|]. intros H Hm. destruct m as [|m]; [lia|]. cbn [decode_loop] in *.
  destruct (decode_turn insts r) as [[|sent] r']; [done|].
  destruct (decode_loop n insts r') as [q' b] eqn:E. injection H as <- ->. by rewrite (IH m r' q' E) by lia.
Qed.

(** Any fuel with which the loop returns gives what a broker makes of the bytes. *)
Lemma decodes_with insts n bs q : decode_loop n (sort_slice id insts) (Reader bs EOF) = (q, true) → decodes insts bs = q.
Proof.
  intros H. unfold decodes, DecodeBinaryPackets.
  destruct (decode_loop (S (length bs)) (sort_slice id insts) (Reader bs EOF)) as [q' b] eqn:E.
  pose proof (decode_loop_terminates (sort_slice id insts) (Reader bs EOF) (S (length bs)) eq_refl (le_n _)) as Hb.
  rewrite E in Hb. cbn [snd] in Hb. subst b. cbn [fst].
  destruct (Nat.le_ge_cases n (S (length bs))) as [Hl|Hl].
  - rewrite (decode_loop_more _ _ _ _ _ H Hl) in E. by injection E.
  - rewrite (decode_loop_more _ _ _ _ _ E Hl) in H. by injection H.
Qed.

(** *** Hunting for a preamble

    The decoder looks at every fourth byte only. *)
Fixpoint aligned_preamble (bs : list byte) : bool :=
  match bs with
  | a :: b :: c :: d :: bs => bool_decide (get_uint BigEndian [a; b; c; d] = Preamble) || aligned_preamble bs
  | _ => false
  end.

Definition stream_bytes (cs : list chunk) : list byte := concat (map chunk_bytes cs).

Lemma hunt t :
  aligned_preamble t = false →
  ∃ cs tail, t = stream_bytes cs ++ tail ∧ Forall chunk_wf cs ∧ chunk_packets cs = [] ∧ length tail < 4 ∧
    length tail = length t mod 4.
Proof.
  remember (length t) as n eqn:Hn. revert t Hn. induction (lt_wf n) as [n _ IH]. intros t -> Ht.
  destruct t as [|a [|b [|c [|d t]]]]; try (eexists [], _; split_and!; try done; simpl; lia).
  cbn [aligned_preamble] in Ht. apply orb_false_iff in Ht as [Hp%bool_decide_eq_false Ht].
  destruct (IH (length t)) with (t := t) as (cs & tail & -> & Hcs & Hno & Hl & Hm); [simpl; lia|done|done|].
  exists (Junk [a; b; c; d] :: cs), tail. split_and!; [done|by constructor|done|done|].
  rewrite Hm. cbn [length]. by replace (S (S (S (S (length (stream_bytes cs ++ tail)))))) with (length (stream_bytes cs ++ tail) + 1 * 4) by lia;
    rewrite Nat.Div0.mod_add.
Qed.

Definition wanted insts (cs : list chunk) : list Packet := filter (λ p, insts = [] ∨ pkt_Instance p ∈ insts) (chunk_packets cs).

(** Bytes that begin a chunk and do not end it. *)
Definition cut_off (cs : list chunk) (u : list byte) : Prop := u = [] ∨ ∃ c y, c ∈ cs ∧ chunk_bytes c = u ++ y ∧ y ≠ [].

(** Bytes that end a chunk and do not begin it. *)
Definition cut_in (cs : list chunk) (t : list byte) : Prop :=
  t = [] ∨ ∃ c x y, c ∈ cs ∧ chunk_bytes c = x ++ t ++ y ∧ x ≠ [].

Lemma cut_off_ends cs insts n u :
  Forall chunk_wf cs → cut_off cs u → decode_loop (S (S n)) insts (Reader u EOF) = ([], true).
Proof.
  intros Hcs [->|(c & y & Hc & Hu & Hy)]; [done|].
  assert (∃ e, DecodePacket (Reader u EOF) = (Err e, Reader [] EOF) ∧ (e = EOF ∨ e = ErrUnexpectedEOF)) as (e & He & Hor);
    [|by eapply decode_loop_starved].
  rewrite Forall_forall in Hcs. specialize (Hcs c Hc). destruct c as [w|p]; simpl in *.
  - apply DecodePacket_tail. destruct Hcs as [Hl _]. rewrite Hu, length_app in Hl. destruct y; [done|simpl in Hl; lia].
  - by eapply DecodePacket_cut.
Qed.

(** Bytes without a preamble, as many as whole words, then chunks, then the
    beginning of one. *)
Lemma decodes_run cs insts t run u :
  Forall chunk_wf cs → Forall chunk_wf run → cut_off cs u → length t mod 4 = 0 → aligned_preamble t = false →
  decodes insts (t ++ stream_bytes run ++ u) = wanted insts run.
Proof.
  intros Hcs Hrun Hu Hl Ht. destruct (hunt t Ht) as (js & tail & -> & Hjs & Hno & _ & Htail).
  rewrite Hl in Htail. destruct tail; [|done]. rewrite app_nil_r, (assoc_L app). unfold stream_bytes.
  rewrite <-concat_app, <-map_app. apply (decodes_with _ (length (js ++ run) + 2)).
  rewrite decode_loop_chunks by (by apply Forall_app). rewrite (cut_off_ends cs) by done.
  rewrite app_nil_r, filter_allowed. unfold wanted. f_equal. f_equal. unfold chunk_packets in *. by rewrite omap_app, Hno.
Qed.

(** Without a preamble on a whole word nothing is decoded, whatever is there
    between the words. *)
Lemma decodes_nothing insts bs : aligned_preamble bs = false → decodes insts bs = [].
Proof.
  intros Hb. destruct (hunt bs Hb) as (js & tail & -> & Hjs & Hno & Hl & _).
  apply (decodes_with _ (length js + 2)). unfold stream_bytes. rewrite decode_loop_chunks by done.
  destruct (DecodePacket_tail tail Hl) as (e & He & Hor). rewrite (decode_loop_starved _ _ _ _ He Hor).
  by rewrite app_nil_r, filter_allowed, Hno.
Qed.
End decoding.

(** ** Cutting a stream of chunks *)

Lemma split_chunks cs x y :
  stream_bytes cs = x ++ y →
  ∃ cs1 cs2 u v, x = stream_bytes cs1 ++ u ∧ y = v ++ stream_bytes cs2 ∧
    ((u = [] ∧ v = [] ∧ cs = cs1 ++ cs2) ∨
     ∃ c, chunk_bytes c = u ++ v ∧ u ≠ [] ∧ v ≠ [] ∧ cs = cs1 ++ c :: cs2).
Proof.
  revert x. induction cs as [|c cs IH]; intros x H.
  - destruct x, y; try done. exists [], [], [], []. split_and!; auto.
  - cbn [stream_bytes map concat] in H. apply app_eq_inv in H as [(k & Hc & ->)|(k & -> & H)].
    + destruct (decide (x = [])) as [->|Hx]; [|destruct (decide (k = [])) as [->|Hk]].
      * exists [], (c :: cs), [], []. simpl in Hc. subst k. split_and!; auto.
      * rewrite app_nil_r in Hc. subst x. exists [c], cs, [], []. unfold stream_bytes; simpl. rewrite !app_nil_r. split_and!; auto.
      * exists [], cs, x, k. split_and!; [done..|]. right. by exists c.
    + destruct (IH k H) as (cs1 & cs2 & u & v & -> & -> & Hor). exists (c :: cs1), cs2, u, v.
      split_and!; [by unfold stream_bytes; simpl; rewrite <-(assoc_L app)|done|].
      destruct Hor as [(-> & -> & ->)|(d & Hd & Hu & Hv & ->)]; [by left|]. right. by exists d.
Qed.

(** The bytes [x ++ t] of a chunk, the first of which are gone, and chunks. *)
Definition resumes (cs : list chunk) (t : list byte) (cs' : list chunk) (bs : list byte) : Prop :=
  bs = t ++ stream_bytes cs' ∧ cut_in cs t ∧ cs' `sublist_of` cs.

Lemma sublist_elem {A} (l k : list A) a : l `sublist_of` k → a ∈ l → a ∈ k.
Proof. intros H Ha. by eapply elem_of_submseteq, sublist_submseteq. Qed.

(** What follows a prefix of such bytes. *)
Lemma resumes_drop cs t cs' x y :
  resumes cs t cs' (x ++ y) → ∃ t' cs2, resumes cs t' cs2 y ∧ cs2 `sublist_of` cs'.
Proof.
  intros (H & Ht & Hs). symmetry in H. apply app_eq_inv in H as [(k & -> & ->)|(k & -> & H)].
  - exists k, cs'. split; [|done]. split_and!; [done| |done].
    destruct Ht as [[-> ->]%app_eq_nil|(c & z & y & Hc & Hb & Hz)]; [by left|]. right.
    exists c, (z ++ x), y. split_and!; [done|by rewrite Hb, <-!(assoc_L app)|by destruct z].
  - destruct (split_chunks cs' k y H) as (cs1 & cs2 & u & v & -> & -> & [(-> & -> & ->)|(c & Hb & Hu & Hv & ->)]).
    + exists [], cs2. split; [|by apply sublist_inserts_l]. split_and!; [done|by left|].
      etrans; [|done]. by apply sublist_inserts_l.
    + exists v, cs2. split; [|by apply sublist_inserts_l, sublist_cons]. split_and!; [done| |].
      * right. exists c, u, []. rewrite app_nil_r. split_and!; [|done..]. eapply sublist_elem; [done|]. set_solver.
      * etrans; [|done]. by apply sublist_inserts_l, sublist_cons.
Qed.

(** A part of the stream: the end of a chunk, whole chunks, the beginning of
    another; or a piece of one. *)
Definition carries (cs : list chunk) (part : list byte) '((t, run) : list byte * list chunk) : Prop :=
  ∃ u, part = t ++ stream_bytes run ++ u ∧ cut_in cs t ∧ cut_off cs u.

Lemma resumes_take cs t cs' x y :
  resumes cs t cs' (x ++ y) →
  ∃ t1 run t' cs2, carries cs x (t1, run) ∧ (t = [] → t1 = []) ∧ resumes cs t' cs2 y ∧ run ++ cs2 `sublist_of` cs'.
Proof.
  intros Hres. assert (H := Hres). destruct H as (H & Ht & Hs). symmetry in H. apply app_eq_inv in H as [(k & -> & ->)|(k & -> & H)].
  - exists x, []. destruct (resumes_drop cs (x ++ k) cs' x (k ++ stream_bytes cs')) as (t' & cs2 & ? & ?);
      [by split; [by rewrite (assoc_L app)|]|].
    exists t', cs2. split_and!; [|by intros [-> _]%app_eq_nil|done..].
    exists []. simpl. rewrite app_nil_r. split_and!; [done| |by left].
    destruct Ht as [[-> ->]%app_eq_nil|(c & z & y & Hc & Hb & Hz)]; [by left|]. right.
    exists c, z, (k ++ y). by rewrite <-(assoc_L app) in Hb.
  - destruct (split_chunks cs' k y H) as (cs1 & cs2 & u & v & -> & -> & Hor). exists t, cs1, v, cs2.
    destruct Hor as [(-> & -> & ->)|(c & Hb & Hu & Hv & ->)].
    + split_and!; [|done| |done].
      * exists []. rewrite app_nil_r. by split_and!; [|done|left].
      * split_and!; [done|by left|]. etrans; [|done]. by apply sublist_inserts_l.
    + assert (c ∈ cs) as Hc by (eapply sublist_elem; [done|set_solver]). split_and!; [|done| |].
      * exists u. split_and!; [done..|]. right. by exists c, v.
      * split_and!; [done| |etrans; [|done]; by apply sublist_inserts_l, sublist_cons].
        right. exists c, u, []. by rewrite app_nil_r.
      * apply sublist_app; [done|by apply sublist_cons].
Qed.

(** The parts of a stream with the gaps between them. *)
Lemma parts_carry cs parts gaps t cs' :
  length parts = length gaps → resumes cs t cs' (cut parts gaps) →
  ∃ l, Forall2 (carries cs) parts l ∧ concat l.*2 `sublist_of` cs' ∧
    (t = [] → ∀ x, head l = Some x → x.1 = []).
Proof.
  revert gaps t cs'. induction parts as [|p parts IH]; intros [|g gaps] t cs' Hl Hres; try done.
  { exists []. split_and!; [done|apply sublist_nil_l|done]. }
  cbn [cut zip_with concat] in Hres. rewrite <-(assoc_L app) in Hres.
  destruct (resumes_take _ _ _ _ _ Hres) as (t1 & run & t2 & cs2 & Hp & Ht & Hres2 & Hs2).
  destruct (resumes_drop _ _ _ _ _ Hres2) as (t3 & cs3 & Hres3 & Hs3).
  destruct (IH gaps t3 cs3) as (l & Hl' & Hsub & _); [by injection Hl|done|].
  exists ((t1, run) :: l). split_and!; [by constructor| |by intros ? ? [= <-]; auto].
  cbn [fmap list_fmap concat snd]. etrans; [|exact Hs2]. apply sublist_app; [done|]. by etrans.
Qed.

(** ** Theorems *)
Section theorems.
Context {sorter : SliceSorter}.

(** Fact: a broker with a copy decodes what it decodes without one, and as long
    as the copy takes what it is given the broker behind it decodes the same
    stream: each sends the packets of the instances it wants, in order. *)
Theorem relay_transparent split dial cs evs insts :
  Forall chunk_wf cs →
  let c := connection_run (open_connection split dial (Reader (stream_bytes cs) EOF)) evs in
  rd_data (cn_in c) = [] →
  decodes insts (cn_read c) = wanted insts cs ∧
  ∀ k insts', cn_copy c = Some k → Forall no_failure evs → decodes insts' <$> cc_received k = [wanted insts' cs].
Proof.
  intros Hcs c Hend. destruct (connection_run_ok split dial (Reader (stream_bytes cs) EOF) evs) as [Hr _ _].
  fold c in Hr. rewrite Hend, app_nil_r in Hr. cbn [rd_data] in Hr.
  assert (∀ insts, decodes insts (stream_bytes cs) = wanted insts cs) as Hd.
  { intros js. rewrite <-(app_nil_r (stream_bytes cs)). by apply (decodes_run cs js [] cs []); [..|left| |]. }
  split; [by rewrite Hr|]. intros k js Hk Hevs. rewrite (healthy_copy _ _ _ _ k Hevs Hk). fold c. simpl. by rewrite Hr, Hd.
Qed.

(** C5: whatever happens to the copy, and at every moment, the parts of the
    stream that its connections received are, in order and without overlap,
    the end of a chunk, whole chunks and the beginning of another; a broker
    behind it decodes from a connection exactly the whole packets it wants when
    what comes before them is a number of whole words without a preamble, in
    particular from the first one, where nothing does. *)
Theorem relay_parts split dial cs evs k :
  Forall chunk_wf cs →
  cn_copy (connection_run (open_connection split dial (Reader (stream_bytes cs) EOF)) evs) = Some k →
  ∃ l, concat l.*2 `sublist_of` cs ∧ (∀ x, head l = Some x → x.1 = []) ∧
    Forall2 (λ part x, carries cs part x ∧
      (length x.1 mod 4 = 0 → aligned_preamble x.1 = false → ∀ insts, decodes insts part = wanted insts x.2))
      (cc_received k) l.
Proof.
  intros Hcs Hk. set (c := connection_run _ evs) in Hk.
  destruct (connection_run_ok split dial (Reader (stream_bytes cs) EOF) evs) as [Hr _ Hok]. fold c in Hr, Hok.
  destruct (Hok k Hk) as [(ps & p & gs & g & Hrec & Hl & Hread & _) _].
  destruct (parts_carry cs (ps ++ [p]) (gs ++ [g ++ rd_data (cn_in c)]) [] cs) as (l & Hcar & Hsub & Hhead).
  - rewrite !length_app, Hl. done.
  - split_and!; [|by left|done]. simpl in *. rewrite <-Hr, Hread, !cut_snoc by done. by rewrite <-!(assoc_L app).
  - exists l. split_and!; [done|by apply Hhead|]. rewrite Hrec.
    assert (Forall (λ x, Forall chunk_wf x.2) l) as Hwf.
    { apply Forall_forall. intros x Hx. apply Forall_forall. intros a Ha. rewrite Forall_forall in Hcs. apply Hcs.
      eapply sublist_elem; [exact Hsub|]. apply list_elem_of_In, in_concat. exists x.2.
      rewrite <-!list_elem_of_In. split; [|done]. by apply list_elem_of_fmap_2. }
    clear -Hcar Hwf Hcs. induction Hcar as [|part [t run] parts l (u & -> & Ht & Hu) _ IH]; constructor.
    + split; [by exists u|]. intros H1 H2 insts. apply (decodes_run cs); try done. by apply Forall_inv in Hwf.
    + apply IH. by apply Forall_inv_tail in Hwf.
Qed.
End theorems.

(** ** Examples *)

(** Three packets; the copy breaks in the middle of the second one and is there
    again before the third, after [gap] and four more bytes. *)
Definition relay_packets : list Packet :=
  [sample_packet 255 [x01; x02; x03; x04; x05; x06]; sample_packet 255 [x11; x12; x13; x14; x15; x16]; sample_packet 255 [x21; x22; x23; x24; x25; x26]].

Definition relay_events (gap : nat) : list connection_event :=
  [Reads 20 20 None; Reads gap 3 (Some (ErrExternal "broken pipe")); Reads 4 0 None; Redials (Some (ErrExternal "refused"));
   Redials None; Reads 100 100 None].

Definition sample_relay (gap : nat) : connection :=
  connection_run (open_connection None None (Reader (stream_bytes (Wire <$> relay_packets)) EOF)) (relay_events gap).

Lemma relay_transparent_witness :
  let a := sample_packet 255 [x01] in
  let b := sample_packet 1 [x02; x03] in
  let cs := [Wire a; Junk [x00; x00; x00; x01]; Wire b] in
  let evs := [Reads 7 7 None; Reads 100 100 None] in
  let c := connection_run (open_connection None None (Reader (stream_bytes cs) EOF)) evs in
  decodes [255%Z] (cn_read c) = [a] ∧ ∀ k insts', cn_copy c = Some k → decodes insts' <$> cc_received k = [wanted insts' cs].
Proof.
  cbv zeta. destruct (relay_transparent None None
    [Wire (sample_packet 255 [x01]); Junk [x00; x00; x00; x01]; Wire (sample_packet 1 [x02; x03])]
    [Reads 7 7 None; Reads 100 100 None] [255%Z]) as [H1 H2]; [by compute_decide|by vm_compute|].
  split; [by rewrite H1|]. intros k js Hk. apply (H2 k js Hk). by repeat constructor.
Defined.

Lemma relay_parts_witness :
  ∃ k l, cn_copy (sample_relay 8) = Some k ∧
    Forall2 (λ part x, (length x.1 mod 4 = 0 → aligned_preamble x.1 = false → ∀ insts, decodes insts part = wanted insts x.2))
      (cc_received k) l.
Proof.
  destruct (cn_copy (sample_relay 8)) as [k|] eqn:E; [|by vm_compute in E].
  destruct (relay_parts None None (Wire <$> relay_packets) (relay_events 8) k) as (l & _ & _ & Hl); [by compute_decide|exact E|].
  exists k, l. split; [done|]. eapply Forall2_impl; [exact Hl|]. by intros part x [_ H].
Defined.

(** What the two connections of the copy receive. *)
Lemma sample_relay_received gap k :
  gap ∈ [8; 9] → cn_copy (sample_relay gap) = Some k →
  let bs := stream_bytes (Wire <$> relay_packets) in cc_received k = [take 23 bs; drop (24 + gap) bs].
Proof.
  intros Hg Hk. repeat (apply elem_of_cons in Hg as [->|Hg]; [vm_compute in Hk; injection Hk as <-; by vm_compute|]).
  by apply elem_of_nil in Hg.
Qed.

(** Fact: a copy that comes back at a whole word of the stream is understood from
    the next packet on; one that comes back elsewhere is not understood again
    when the packets are whole words: the decoder looks for the preamble at
    every fourth byte, and the connection carries it between them. *)
Theorem relay_misaligned `{sorter : SliceSorter} gap k insts :
  gap ∈ [8; 9] → cn_copy (sample_relay gap) = Some k →
  decodes insts <$> cc_received k =
  wanted insts <$> [Wire <$> take 1 relay_packets; if decide (gap = 8) then Wire <$> drop 2 relay_packets else []].
Proof.
  intros Hg Hk. rewrite (sample_relay_received gap k Hg Hk). set (cs := Wire <$> relay_packets).
  assert (Forall chunk_wf cs) as Hcs by by compute_decide.
  assert (decodes insts (take 23 (stream_bytes cs)) = wanted insts (take 1 cs)) as H1.
  { replace (take 23 (stream_bytes cs)) with ([] ++ stream_bytes (take 1 cs) ++ take 3 (stream_bytes (drop 1 cs))) by by vm_compute.
    apply (decodes_run cs); [done|by compute_decide| |done|done]. right.
    exists (Wire (sample_packet 255 [x11; x12; x13; x14; x15; x16])), (drop 3 (wire_packet (sample_packet 255 [x11; x12; x13; x14; x15; x16]))).
    split_and!; [by right; left|by vm_compute|by vm_compute]. }
  cbn [fmap list_fmap]. rewrite H1. f_equal. f_equal.
  repeat (apply elem_of_cons in Hg as [->|Hg]); [| |by apply elem_of_nil in Hg]; cbn [decide].
  - replace (drop (24 + 8) (stream_bytes cs)) with (drop 12 (stream_bytes (take 1 (drop 1 cs))) ++ stream_bytes (drop 2 cs) ++ []) by by vm_compute.
    by apply (decodes_run cs); [done|by compute_decide|left|..].
  - by apply decodes_nothing.
Qed.
