(* ===== verification/Text.v ===== *)
(** * Text: [encoding/csv] and the layouts of [time.Format]

    What the science exporters, the download server and the packet lister use
    to write text. *)

From S2P Require Import Prelude Bytes GoStd.
From Stdlib Require Import ZArith Lia Ascii.

(** ** [encoding/csv]

    A record is a line of fields with commas between them; a field with a
    special character is quoted, its quotes doubled.  Bytes above 127 are
    letters here (the program writes none). *)
Definition quote : ascii := "034"%char.
Definition comma : ascii := ","%char.
Definition newline : ascii := "010"%char.

Definition is_space (a : ascii) : bool := bool_decide (N_of_ascii a = 32 ∨ (9 ≤ N_of_ascii a ≤ 13))%N.

Definition fieldNeedsQuotes (field : string) : bool :=
  match field with
  | EmptyString => false
  | String a _ =>
      bool_decide (field = "\.") || str_mem comma field || str_mem quote field ||
      str_mem "013"%char field || str_mem newline field || is_space a
  end.

Fixpoint double_quotes (s : string) : string :=
  match s with
  | EmptyString => EmptyString
  | String a s => if decide (a = quote) then String a (String a (double_quotes s)) else String a (double_quotes s)
  end.

Definition csv_field (field : string) : string :=
  if fieldNeedsQuotes field then String quote (double_quotes field +:+ String quote EmptyString) else field.

(** [c.Write(record)]: the bytes of one line. *)
Definition csv_line (record : list string) : list byte :=
  bytes_of (join (String comma EmptyString) (csv_field <$> record) +:+ String newline EmptyString).

(** The writer is behind a [bufio.Writer] of 4096 bytes, which is flushed when
    something is written to it while it is full: what the file has when
    nobody flushes the end. *)
Definition unflushed (out : list byte) : list byte := take (4096 * ((length out - 1) / 4096)) out.

Lemma unflushed_short out : length out ≤ 4096 → unflushed out = [].
Proof.
  intros. unfold unflushed. rewrite Nat.div_small by lia. by rewrite Nat.mul_0_r.
Qed.

Lemma unflushed_prefix out : unflushed out `prefix_of` out.
Proof. apply prefix_take. Qed.

(** Records of plain fields can be told apart from their lines. *)
Lemma csv_line_plain rs :
  Forall (λ f, fieldNeedsQuotes f = false) rs →
  csv_line rs = bytes_of (join (String comma EmptyString) rs +:+ String newline EmptyString).
Proof.
  intros H. unfold csv_line. do 3 f_equal. induction H as [|f rs Hf _ IH]; [done|].
  rewrite fmap_cons, IH. unfold csv_field. by rewrite Hf.
Qed.

Lemma digits_plain s : all_string is_digit s = true → fieldNeedsQuotes s = false.
Proof.
  intros H. destruct s as [|a s]; [done|]. unfold fieldNeedsQuotes.
  assert (∀ c s, is_digit c = false → all_string is_digit s = true → str_mem c s = false) as Hmem.
  { clear. intros c s Hc. induction s as [|a s IH]; [done|]. simpl. intros [Ha Hs]%andb_true_iff.
    rewrite IH by done. rewrite orb_false_r. apply bool_decide_false. intros ->. congruence. }
  rewrite !Hmem by done. simpl in H. apply andb_true_iff in H as [Ha _].
  assert (is_space a = false) as ->.
  { unfold is_digit in Ha. unfold is_space. apply bool_decide_eq_true in Ha. apply bool_decide_false. lia. }
  rewrite bool_decide_false; [done|]. intros [= -> _]. done.
Qed.

(** ** [time.Format] *)

(** Days before every month of a common year. *)
Definition days_before : list Z := [0; 31; 59; 90; 120; 151; 181; 212; 243; 273; 304; 334]%Z.

Definition is_leap (y : Z) : bool :=
  bool_decide (y mod 4 = 0)%Z && (bool_decide (y mod 100 ≠ 0)%Z || bool_decide (y mod 400 = 0)%Z).

(** The month, from 1, and the day of the month. *)
Definition month_day (t : Time) : Z * Z :=
  let '(y, d) := year_yday t in
  if is_leap y && bool_decide (d = 59)%Z then (2, 29)%Z
  else
    let d := if is_leap y && bool_decide (59 < d)%Z then (d - 1)%Z else d in
    let before := filter (λ b, b ≤ d)%Z days_before in
    (Z.of_nat (length before), (d - default 0 (last before) + 1)%Z).

Definition SecondOf (t : Time) : Z := (wall t mod 60)%Z.

Definition digits2 : Z → string := sprintf0 2.

(** [time.RFC3339]: 2006-01-02T15:04:05Z07:00 *)
Definition zone_RFC3339 (off : Z) : string :=
  if decide (off = 0)%Z then "Z"
  else
    let zone := Z.quot off 60 in
    (if decide (zone < 0)%Z then "-" else "+") +:+ digits2 (Z.abs zone / 60) +:+ ":" +:+ digits2 (Z.abs zone mod 60).

Definition Format_RFC3339 (t : Time) : string :=
  let '(m, d) := month_day t in
  sprintf0 4 (Year t) +:+ "-" +:+ digits2 m +:+ "-" +:+ digits2 d +:+ "T" +:+
  digits2 (HourOf t) +:+ ":" +:+ digits2 (MinuteOf t) +:+ ":" +:+ digits2 (SecondOf t) +:+ zone_RFC3339 (t_off t).

(** 20060102150405 *)
Definition Format_compact (t : Time) : string :=
  let '(m, d) := month_day t in
  sprintf0 4 (Year t) +:+ digits2 m +:+ digits2 d +:+
  digits2 (HourOf t) +:+ digits2 (MinuteOf t) +:+ digits2 (SecondOf t).

Example format_epoch : Format_RFC3339 (time_Unix 0 0) = "1970-01-01T00:00:00Z".
Proof. reflexivity. Qed.
Example format_leap : Format_RFC3339 (mkTime 1582977599 0 7200) = "2020-02-29T13:59:59+02:00".
Proof. reflexivity. Qed.
Example format_march : Format_RFC3339 (mkTime 1583020800 0 0) = "2020-03-01T00:00:00Z".
Proof. reflexivity. Qed.
Example format_end : Format_compact (mkTime 1609459199 0 0) = "20201231235959".
Proof. reflexivity. Qed.

(** ** [utf8.RuneCountInString]

    The widths of [fmt] count runes; a byte that begins no well-formed
    encoding is a rune of its own. *)
Definition between (lo hi : N) (a : ascii) : bool := bool_decide (lo ≤ N_of_ascii a ≤ hi)%N.

(** A byte that continues an encoding. *)
Definition locb (a : ascii) : bool := between 128 191 a.

(** The second byte of an encoding of three and of four bytes. *)
Definition second_of_three (a b : ascii) : bool :=
  if between 224 224 a then between 160 191 b
  else if between 237 237 a then between 128 159 b
  else between 225 239 a && locb b.

Definition second_of_four (a b : ascii) : bool :=
  if between 240 240 a then between 144 191 b
  else if between 244 244 a then between 128 143 b
  else between 241 243 a && locb b.

Fixpoint RuneCountInString (s : string) : nat :=
  match s with
  | EmptyString => 0
  | String a s1 => S (
      match s1 with
      | String b s2 =>
          if between 194 223 a && locb b then RuneCountInString s2
          else match s2 with
          | String c s3 =>
              if second_of_three a b && locb c then RuneCountInString s3
              else match s3 with
              | String d s4 => if second_of_four a b && locb c && locb d then RuneCountInString s4 else RuneCountInString s1
              | EmptyString => RuneCountInString s1
              end
          | EmptyString => RuneCountInString s1
          end
      | EmptyString => RuneCountInString s1
      end)
  end.

(** ASCII text is as wide as it is long. *)
Lemma RuneCount_ascii s : all_string (between 0 127) s = true → RuneCountInString s = String.length s.
Proof.
  assert (∀ lo hi a, between 0 127 a = true → (127 < lo)%N → between lo hi a = false) as Hf.
  { unfold between. intros lo hi a [? Ha]%bool_decide_eq_true Hlo. apply bool_decide_eq_false. lia. }
  induction s as [|a s IH]; [done|]. cbn [all_string]. intros [Ha Hs]%andb_true_iff. specialize (IH Hs).
  cbn [RuneCountInString String.length]. f_equal. rewrite <- IH. destruct s as [|b s]; [done|].
  rewrite (Hf 194%N 223%N a) by done. cbn [andb]. destruct s as [|c s]; [done|].
  unfold second_of_three, second_of_four. rewrite !(Hf _ _ a) by done. cbn [andb]. by destruct s.
Qed.

Example runes : RuneCountInString (String "195" (String "169" (String "255" "ab"))) = 4.
Proof. by vm_compute. Qed.
