(* ===== verification/Science.v ===== *)
(** * Science: tables of measures as CSV (src/internal/science/science.go,
      src/internal/science/svs.go, src/cmd/mmaconv/main.go)

    Three exporters and a converter read fixed-size records of big-endian or
    little-endian integers and write a CSV line for each.  They differ in how
    they end: the exporters stop when nothing is left, the converter at the
    end of the file, even in the middle of a record. *)

From S2P Require Import Prelude Bytes GoStd Text Panda.
From Stdlib Require Import ZArith Lia Ascii.

Definition syncChunkLength : Z := 18.
Definition lrsdChunkLength : Z := 32.

(** ** The loop of the exporters

    A bytes reader ends with [EOF].  The result is what the writer got and the
    error; [None] when the fuel is exhausted: a row that consumes nothing is
    repeated for ever. *)
Fixpoint export_loop (fuel : nat) (row : Z → rd (list string)) (i : Z) (r : reader) (out : list byte) :
    option (option error * list byte) :=
  match fuel with
  | O => None
  | S fuel =>
      if decide (rd_data r = []) then Some (None, out)
      else match row i r with
           | (Ok fs, r') => export_loop fuel row (i + 1) r' (out ++ csv_line fs)
           | (Err e, _) => Some (Some e, unflushed out)
           | (Panic w, _) => None
           end
  end.

(** [n] integers in a row. *)
Fixpoint read_uints (o : ByteOrder) (w n : nat) : rd (list Z) :=
  match n with
  | O => mret []
  | S n => v ← ReadUint o w; vs ← read_uints o w n; mret (v :: vs)
  end.

(** *** [ExportSyncUnit] *)
Definition sync_row (when total : string) (i : Z) : rd (list string) :=
  a ← ReadUint BigEndian 1;
  b ← ReadUint BigEndian 1;
  x ← ReadInt BigEndian 8;
  y ← ReadInt BigEndian 8;
  mret [when; Sprint i; total; Sprint a; Sprint b; Sprint x; Sprint y].

Definition ExportSyncUnit (bs : list byte) (t : Time) : option (option error * list byte) :=
  export_loop (S (length bs))
    (sync_row (Format_RFC3339 t) (Sprint (Z.quot (Z.of_nat (length bs)) syncChunkLength))) 1 (Reader bs EOF) [].

(** *** [ExportScienceData] *)
Definition science_row (when total : string) (i : Z) : rd (list string) :=
  vs ← read_uints BigEndian 2 32; mret (when :: Sprint i :: total :: (Sprint <$> vs)).

Definition ExportScienceData (bs : list byte) (t : Time) : option (option error * list byte) :=
  export_loop (S (length bs))
    (science_row (Format_RFC3339 t) (Sprint (Z.quot (Z.of_nat (length bs)) lrsdChunkLength))) 1 (Reader bs EOF) [].

(** *** [ExportSVSData]

    [FormatFloat bits] is [strconv.FormatFloat(float64(v), 'f', -1, 32)] of the
    [float32] with these bits. *)
Definition metaLength : nat := 74.
Definition svsMagic : byte := x90.

Section svs.
Context (FormatFloat : Z → string).

Definition svs_header (v : Z) : string := "g2(t, " +:+ Sprint v +:+ ")".

Definition svs_row (n : nat) (i : Z) : rd (list string) :=
  vs ← read_uints LittleEndian 4 n; mret (Sprint i :: (FormatFloat <$> vs)).

Definition ExportSVSData (fuel : nat) (bs : list byte) : result (option (option error * list byte)) :=
  match bs with
  | [] => Panic "index out of range"
  | b :: _ =>
      if decide (b ≠ svsMagic) then Ok (Some (None, bs))
      else if decide (length bs < metaLength) then Panic "slice bounds out of range"
      else
        match ReadUint BigEndian 1 (Reader (drop metaLength bs) EOF) with
        | (Ok n, r) =>
            match read_uints LittleEndian 2 (Z.to_nat n) r with
            | (Ok gs, r') =>
                Ok (export_loop fuel (svs_row (Z.to_nat n)) 0 r' (csv_line ("t" :: (svs_header <$> gs))))
            | (Err e, _) => Ok (Some (Some e, []))
            | (Panic w, _) => Panic w
            end
        | (Err e, _) => Ok (Some (Some e, []))
        | (Panic w, _) => Panic w
        end
  end.
End svs.

(** *** mmaconv *)
Definition FCC : list byte := bytes_of "MMA ".

(** 1980-01-06 UTC *)
Definition GPS : Time := time_Unix 0 315964800.

(** [t.Add(d)] *)
Definition Add (t : Time) (d : Z) : Time := of_abs_nsec (t_off t) (abs_nsec t + d).

(** A [binary.Read] whose error is dropped leaves the zero value. *)
Definition read_or_zero (m : rd Z) : rd Z := λ r,
  match m r with (Err _, r') => (Ok 0%Z, r') | res => res end.

Definition readPreamble : rd Time :=
  magic ← ReadFull (Z.of_nat (length FCC));
  if decide (magic ≠ FCC) then
    rd_fail (Errorf "invalid FCC (expected: %x, got: %x)" [AStr (string_of FCC); AStr (string_of magic)])
  else
    _ ← read_or_zero (ReadUint BigEndian 4);
    when ← read_or_zero (ReadInt BigEndian 8);
    mret (Add GPS when).

Definition mma_row (when : string) (i : Z) : rd (list string) :=
  vs ← read_uints BigEndian 2 32; mret (when :: Sprint (i mod 16) :: "16" :: (Sprint <$> vs)).

(** [writeScience] on a file that takes what it is given: the end of the file
    ends the output, wherever it comes. *)
Fixpoint writeScience_loop (fuel : nat) (when : string) (i : Z) (r : reader) (out : list byte) :
    option (option error * list byte) :=
  match fuel with
  | O => None
  | S fuel =>
      match mma_row when i r with
      | (Ok fs, r') => writeScience_loop fuel when (i + 1) r' (out ++ csv_line fs)
      | (Err EOF, _) => Some (None, out)
      | (Err e, _) => Some (Some e, unflushed out)
      | (Panic w, _) => None
      end
  end.

Definition writeScience (r : reader) (t : Time) : option (option error * list byte) :=
  writeScience_loop (S (length (rd_data r))) (Format_RFC3339 t) 1 r [].

(** [process] behind the opening of the files. *)
Definition process (data : list byte) : option (option error * list byte) :=
  match readPreamble (Reader data EOF) with
  | (Ok t, r) => writeScience r t
  | (Err e, _) => Some (Some e, [])
  | (Panic w, _) => None
  end.

(** ** Lemmas *)

#[export] Instance no_panic_uints o w n : NoPanic (read_uints o w n).
Proof. induction n; simpl; apply _. Qed.
#[export] Instance consuming_uints o w n : Consuming (read_uints o w n).
Proof. induction n; simpl; apply _. Qed.

Definition wire_uints (o : ByteOrder) (w : nat) (vs : list Z) : list byte := concat (put_uint o w <$> vs).

Lemma length_wire_uints o w vs : length (wire_uints o w vs) = w * length vs.
Proof.
  unfold wire_uints. induction vs as [|v vs IH]; [simpl; lia|]. rewrite fmap_cons. cbn [concat length].
  rewrite length_app, length_put_uint, IH. lia.
Qed.

Lemma read_uints_ok o w vs rest e :
  Forall (in_width (8 * Z.of_nat w)) vs →
  read_uints o w (length vs) (Reader (wire_uints o w vs ++ rest) e) = (Ok vs, Reader rest e).
Proof.
  unfold wire_uints. induction 1 as [|v vs Hv _ IH]; [done|]. cbn [length read_uints fmap list_fmap concat].
  rewrite <-app_assoc. erewrite rd_bind_ok by (by apply ReadUint_put). by erewrite rd_bind_ok by apply IH.
Qed.

(** A row that reads back what [wire] wrote. *)
Definition reads {A} (row : Z → rd (list string)) (wire : A → list byte) (render : Z → A → list string) (ok : A → Prop) :
    Prop := ∀ i a rest e, ok a → row i (Reader (wire a ++ rest) e) = (Ok (render i a), Reader rest e).

Definition csv_rows {A} (render : Z → A → list string) (i : Z) (xs : list A) : list byte :=
  concat (imap (λ k a, csv_line (render (i + Z.of_nat k)%Z a)) xs).

Lemma csv_rows_cons {A} (render : Z → A → list string) i a xs :
  csv_rows render i (a :: xs) = csv_line (render i a) ++ csv_rows render (i + 1) xs.
Proof.
  unfold csv_rows. cbn [imap concat]. rewrite Z.add_0_r. do 2 f_equal.
  apply imap_ext. intros k x _. simpl. do 2 f_equal. lia.
Qed.

Lemma export_loop_rows {A} row wire render ok (xs : list A) fuel i rest e out :
  reads row wire render ok → (∀ a, ok a → wire a ≠ []) → Forall ok xs →
  export_loop (length xs + fuel) row i (Reader (concat (wire <$> xs) ++ rest) e) out =
  export_loop fuel row (i + Z.of_nat (length xs)) (Reader rest e) (out ++ csv_rows render i xs).
Proof.
  intros Hr Hne Hxs. revert i out. induction Hxs as [|a xs Ha _ IH]; intros i out.
  { simpl. unfold csv_rows. by rewrite app_nil_r, Z.add_0_r. }
  cbn [length Nat.add export_loop fmap list_fmap concat]. rewrite decide_False.
  2: { simpl. intros E. apply app_eq_nil in E as [E _]. apply app_eq_nil in E as [E _]. by apply (Hne a). }
  rewrite <-app_assoc, Hr by done. rewrite IH, csv_rows_cons, app_assoc. f_equal; lia.
Qed.

(** Enough fuel: the exporters end on every input. *)
Lemma export_loop_ends row i r out fuel :
  (∀ i r, rd_data r ≠ [] → length (rd_data (row i r).2) < length (rd_data r)) →
  (∀ i r w, (row i r).1 ≠ Panic w) →
  length (rd_data r) < fuel → export_loop fuel row i r out ≠ None.
Proof.
  intros Hp Hn. revert i r out. induction fuel as [|fuel IH]; intros i r out Hf; [lia|]. simpl.
  case_decide as Hd; [done|]. specialize (Hp i r Hd). specialize (Hn i r).
  destruct (row i r) as [[fs|e|w] r'] eqn:E; simpl in *; [|done|by destruct (Hn w)].
  apply IH. lia.
Qed.

Lemma progressing_uints o w n : 0 < w → 0 < n → Progressing (read_uints o w n).
Proof. intros Hw Hn. destruct n; [lia|]. simpl. apply progressing_bind; [by apply progressing_ReadUint|apply _]. Qed.

Lemma read_uints_short o w n data :
  0 < w → length data < w * n →
  read_uints o w n (Reader data EOF) = (Err (if decide (length data mod w = 0) then EOF else ErrUnexpectedEOF), Reader [] EOF).
Proof.
  intros Hw. revert data. induction n as [|n IH]; intros data Hl; [lia|]. cbn [read_uints].
  destruct (decide (w ≤ length data)) as [Hle|Hlt].
  - rewrite <-(take_drop w data) at 1.
    assert (length (take w data) = w) as Hlen by (rewrite length_take; lia).
    rewrite <-(put_get_uint o (take w data)). rewrite Hlen.
    erewrite rd_bind_ok by (apply ReadUint_put; rewrite <-Hlen at 1; apply get_uint_range).
    rewrite (rd_bind_err _ _ _ (if decide (length (drop w data) mod w = 0) then EOF else ErrUnexpectedEOF) (Reader [] EOF)).
    2: { apply IH. rewrite length_drop. lia. }
    rewrite length_drop. assert ((length data - w) mod w = length data mod w) as ->; [|done].
    rewrite <-(Nat.Div0.mod_add (length data - w) 1 w). f_equal. lia.
  - rewrite (rd_bind_err _ _ _ (short_error (Reader data EOF)) (Reader [] EOF)).
    2: { apply ReadUint_short. simpl. lia. }
    f_equal. f_equal. unfold short_error. simpl. rewrite Nat.mod_small by lia.
    destruct data; simpl; by rewrite ?decide_True, ?decide_False by done.
Qed.

(** *** What the rows read *)

Definition sync_unit : Type := Z * Z * Z * Z.

Definition sync_ok (u : sync_unit) : Prop :=
  let '(a, b, x, y) := u in in_width 8 a ∧ in_width 8 b ∧ in_swidth 64 x ∧ in_swidth 64 y.

Definition wire_sync (u : sync_unit) : list byte :=
  let '(a, b, x, y) := u in put_uint BigEndian 1 a ++ put_uint BigEndian 1 b ++ put_uint BigEndian 8 x ++ put_uint BigEndian 8 y.

Definition sync_render (when total : string) (i : Z) (u : sync_unit) : list string :=
  let '(a, b, x, y) := u in [when; Sprint i; total; Sprint a; Sprint b; Sprint x; Sprint y].

#[global] Instance sync_ok_dec u : Decision (sync_ok u).
Proof. destruct u as [[[a b] x] y]; simpl; apply _. Defined.

Lemma sync_reads when total : reads (sync_row when total) wire_sync (sync_render when total) sync_ok.
Proof.
  intros i [[[a b] x] y] rest e (Ha & Hb & Hx & Hy). unfold sync_row, wire_sync. rewrite <-!(assoc_L app).
  erewrite rd_bind_ok by (by apply ReadUint_put). erewrite rd_bind_ok by (by apply ReadUint_put).
  erewrite rd_bind_ok by (apply ReadInt_put; [lia|done]). erewrite rd_bind_ok by (apply ReadInt_put; [lia|done]). done.
Qed.

Lemma length_wire_sync u : length (wire_sync u) = 18.
Proof. destruct u as [[[a b] x] y]. unfold wire_sync. rewrite !length_app, !length_put_uint. done. Qed.

Definition words_ok (ws : list Z) : Prop := length ws = 32 ∧ Forall (in_width 16) ws.
#[global] Instance words_ok_dec ws : Decision (words_ok ws).
Proof. unfold words_ok. apply _. Defined.

Definition wire_words : list Z → list byte := wire_uints BigEndian 2.

Lemma length_wire_words ws : words_ok ws → length (wire_words ws) = 64.
Proof. intros [H _]. unfold wire_words. rewrite length_wire_uints, H. done. Qed.

Definition science_render (when total : string) (i : Z) (ws : list Z) : list string :=
  when :: Sprint i :: total :: (Sprint <$> ws).

Lemma science_reads when total :
  reads (science_row when total) wire_words (science_render when total) words_ok.
Proof.
  intros i ws rest e [Hl Hw]. unfold science_row. rewrite <-Hl.
  by erewrite rd_bind_ok by (by apply read_uints_ok).
Qed.

Lemma length_records {A} (wire : A → list byte) ok n xs :
  (∀ x, ok x → length (wire x) = n) → Forall ok xs → length (concat (wire <$> xs)) = n * length xs.
Proof.
  intros Hn. induction 1 as [|x xs Hx _ IH]; [simpl; lia|]. rewrite fmap_cons. cbn [concat length].
  rewrite length_app, IH, (Hn x) by done. lia.
Qed.

Lemma not_nil_of_length {A} (l : list A) n : length l = S n → l ≠ [].
Proof. by destruct l. Qed.

(** ** Theorems *)

(** An exporter on whole records. *)
Lemma export_whole {A} row wire render ok n (xs : list A) :
  reads row wire render ok → (∀ x, ok x → length (wire x) = S n) → Forall ok xs →
  export_loop (S (length (concat (wire <$> xs)))) row 1 (Reader (concat (wire <$> xs)) EOF) [] =
  Some (None, csv_rows render 1 xs).
Proof.
  intros Hr Hn Hxs. rewrite (length_records wire ok (S n) xs) by done.
  replace (S (S n * length xs)) with (length xs + S (n * length xs)) by lia.
  rewrite <-(app_nil_r (concat (wire <$> xs))).
  rewrite (export_loop_rows row wire render ok) by (try done; intros a Ha; by eapply not_nil_of_length, Hn). done.
Qed.

(** Fact: the synchronisation units of a file become one line each, in order,
    numbered from 1, with the number of units on every line. *)
Theorem ExportSyncUnit_rows us t :
  Forall sync_ok us →
  ExportSyncUnit (concat (wire_sync <$> us)) t =
  Some (None, csv_rows (sync_render (Format_RFC3339 t) (Sprint (Z.of_nat (length us)))) 1 us).
Proof.
  intros Hus. unfold ExportSyncUnit.
  rewrite (length_records wire_sync sync_ok 18 us) at 2 by (done || intros; apply length_wire_sync).
  assert (Z.quot (Z.of_nat (18 * length us)) syncChunkLength = Z.of_nat (length us)) as ->.
  { unfold syncChunkLength. rewrite Z.quot_div_nonneg by lia. div_lia. }
  apply (export_whole _ _ _ sync_ok 17); [apply sync_reads|intros; apply length_wire_sync|done].
Qed.

(** The measures of a file become one line of 32 values for every 64 bytes, in
    order, numbered from 1; the total that every line carries is twice the
    number of lines. *)
Lemma science_lines wss t :
  Forall words_ok wss →
  ExportScienceData (concat (wire_words <$> wss)) t =
  Some (None, csv_rows (science_render (Format_RFC3339 t) (Sprint (2 * Z.of_nat (length wss)))) 1 wss).
Proof.
  intros Hw. unfold ExportScienceData.
  rewrite (length_records wire_words words_ok 64 wss) at 2 by (done || apply length_wire_words).
  assert (Z.quot (Z.of_nat (64 * length wss)) lrsdChunkLength = 2 * Z.of_nat (length wss))%Z as ->.
  { unfold lrsdChunkLength. rewrite Z.quot_div_nonneg by lia. div_lia. }
  apply (export_whole _ _ _ words_ok 63); [apply science_reads|apply length_wire_words|done].
Qed.

(** Bytes behind the last whole line fail the export, and the output then lacks
    what was not flushed, up to 4096 bytes of whole lines. *)
Lemma science_truncated wss tail t :
  Forall words_ok wss → 0 < length tail < 64 →
  let bs := concat (wire_words <$> wss) ++ tail in
  ExportScienceData bs t =
  Some (Some (if decide (length tail mod 2 = 0) then EOF else ErrUnexpectedEOF),
        unflushed (csv_rows (science_render (Format_RFC3339 t) (Sprint (Z.of_nat (length bs) ÷ lrsdChunkLength))) 1 wss)).
Proof.
  intros Hw Ht bs. unfold ExportScienceData. set (total := Sprint _).
  unfold bs at 1. rewrite length_app, (length_records wire_words words_ok 64 wss) by (done || apply length_wire_words).
  replace (S (64 * length wss + length tail)) with (length wss + S (63 * length wss + length tail)) by lia.
  unfold bs. rewrite (export_loop_rows _ wire_words (science_render (Format_RFC3339 t) total) words_ok).
  - cbn [export_loop]. rewrite decide_False by (simpl; intros ->; simpl in Ht; lia).
    unfold science_row. erewrite rd_bind_err by (apply read_uints_short; lia). done.
  - apply science_reads.
  - intros a Ha. by eapply not_nil_of_length, length_wire_words.
  - done.
Qed.

(** Fact: bytes behind the last whole line fail the export, and the output then
    lacks what was not flushed, up to 4096 bytes of whole lines. *)
Theorem ExportScienceData_truncated wss tail t :
  Forall words_ok wss → 0 < length tail < 64 →
  let bs := concat (wire_words <$> wss) ++ tail in
  ExportScienceData bs t =
  Some (Some (if decide (length tail mod 2 = 0) then EOF else ErrUnexpectedEOF),
        unflushed (csv_rows (science_render (Format_RFC3339 t) (Sprint (Z.of_nat (length bs) ÷ lrsdChunkLength))) 1 wss)).
Proof. by apply science_truncated. Qed.

Lemma writeScience_loop_ends fuel when i r out :
  length (rd_data r) < fuel → writeScience_loop fuel when i r out ≠ None.
Proof.
  revert i r out. induction fuel as [|fuel IH]; intros i r out Hf; [lia|]. cbn [writeScience_loop].
  pose proof (no_panic (m := mma_row when i) r) as Hn.
  destruct (mma_row when i r) as [[fs|e|w] r'] eqn:E; [|by destruct e|by destruct (Hn w)].
  apply IH. destruct (decide (rd_data r = [])) as [Hd|Hd].
  - exfalso. revert E. unfold mma_row. destruct r as [d e]; simpl in Hd; subst d.
    cbn [read_uints]. erewrite rd_bind_err by (apply rd_bind_err, ReadUint_empty; lia). done.
  - assert (Progressing (mma_row when i)) as Hp.
    { unfold mma_row. apply progressing_bind; [apply progressing_uints; lia|apply _]. }
    specialize (Hp r Hd). rewrite E in Hp. simpl in Hp. lia.
Qed.

#[export] Instance no_panic_or_zero m : NoPanic m → NoPanic (read_or_zero m).
Proof. intros Hm r w. unfold read_or_zero. specialize (Hm r w). by destruct (m r) as [[]]. Qed.

#[export] Instance no_panic_readPreamble : NoPanic readPreamble.
Proof. unfold readPreamble. apply _. Qed.

(** Fact: the two exporters of big-endian records and the converter end on every
    input. *)
Theorem exporters_end bs t :
  ExportSyncUnit bs t ≠ None ∧ ExportScienceData bs t ≠ None ∧ process bs ≠ None.
Proof.
  split_and!.
  - apply export_loop_ends; [|intros i r w; apply no_panic|simpl; lia].
    intros i r Hr. unfold sync_row. apply (progressing_bind _ _ _ _ r Hr).
  - apply export_loop_ends; [|intros i r w; unfold science_row; apply no_panic|simpl; lia].
    intros i r Hr. unfold science_row.
    apply (progressing_bind _ _ (progressing_uints BigEndian 2 32 ltac:(lia) ltac:(lia)) _ r Hr).
  - unfold process. pose proof (no_panic (m := readPreamble) (Reader bs EOF)) as Hn.
    destruct (readPreamble (Reader bs EOF)) as [[t'|e|w] r]; [|done|by destruct (Hn w)].
    apply writeScience_loop_ends. lia.
Qed.

Definition mma_render (when : string) (i : Z) (ws : list Z) : list string :=
  when :: Sprint (i mod 16) :: "16" :: (Sprint <$> ws).

Lemma mma_reads when : reads (mma_row when) wire_words (mma_render when) words_ok.
Proof.
  intros i ws rest e [Hl Hw]. unfold mma_row. rewrite <-Hl. by erewrite rd_bind_ok by (by apply read_uints_ok).
Qed.

Lemma writeScience_loop_rows wss fuel when i rest e out :
  Forall words_ok wss →
  writeScience_loop (length wss + fuel) when i (Reader (concat (wire_words <$> wss) ++ rest) e) out =
  writeScience_loop fuel when (i + Z.of_nat (length wss)) (Reader rest e) (out ++ csv_rows (mma_render when) i wss).
Proof.
  intros Hw. revert i out. induction Hw as [|ws wss Hws _ IH]; intros i out.
  { simpl. unfold csv_rows. by rewrite app_nil_r, Z.add_0_r. }
  cbn [length Nat.add writeScience_loop fmap list_fmap concat]. rewrite <-app_assoc, (mma_reads when) by done.
  rewrite IH, csv_rows_cons, app_assoc. f_equal; lia.
Qed.

(** Fact: the converter on a file that the storage wrote for a table of the
    measures: the lines carry the acquisition time of the packet, counted from
    the GPS epoch, a number that starts over every 16 lines, and the values;
    an even number of bytes behind the last line is ignored. *)
Theorem process_converts seq acq wss tail :
  in_width 32 seq → in_swidth 64 acq → Forall words_ok wss → length tail < 64 → length tail mod 2 = 0 →
  process (FCC ++ put_uint BigEndian 4 seq ++ put_uint BigEndian 8 acq ++ concat (wire_words <$> wss) ++ tail) =
  Some (None, csv_rows (mma_render (Format_RFC3339 (Add GPS acq))) 1 wss).
Proof.
  intros Hs Ha Hw Ht Heven. unfold process.
  assert (∀ rest, readPreamble (Reader (FCC ++ put_uint BigEndian 4 seq ++ put_uint BigEndian 8 acq ++ rest) EOF) =
    (Ok (Add GPS acq), Reader rest EOF)) as ->.
  { intros rest. unfold readPreamble. erewrite rd_bind_ok by (by apply ReadFull_app).
    rewrite decide_False by naive_solver. unfold read_or_zero.
    erewrite rd_bind_ok by (by rewrite ReadUint_put). erewrite rd_bind_ok by (by rewrite ReadInt_put by (done || lia)). done. }
  unfold writeScience. cbn [rd_data]. rewrite length_app, (length_records wire_words words_ok 64 wss) by (done || apply length_wire_words).
  replace (S (64 * length wss + length tail)) with (length wss + S (63 * length wss + length tail)) by lia.
  rewrite writeScience_loop_rows by done. cbn [writeScience_loop]. unfold mma_row.
  erewrite rd_bind_err by (apply read_uints_short; lia). rewrite decide_True by done. done.
Qed.

(** Fact: a table of measures without columns makes the exporter write lines for
    ever as soon as one byte follows its header. *)
Theorem ExportSVSData_hangs FormatFloat meta b more fuel :
  length meta = metaLength → head meta = Some svsMagic →
  ExportSVSData FormatFloat fuel (meta ++ x00 :: b :: more) = Ok None.
Proof.
  intros Hl Hh. unfold ExportSVSData. destruct meta as [|m meta]; [done|]. injection Hh as ->.
  cbn [app]. rewrite decide_False by naive_solver.
  rewrite decide_False by (rewrite app_comm_cons, length_app, Hl; lia).
  rewrite app_comm_cons, drop_app_len by done.
  change (x00 :: b :: more) with (put_uint BigEndian 1 0 ++ b :: more).
  rewrite ReadUint_put by (by compute_decide). change (Z.to_nat 0) with 0. cbn [read_uints mret rd_ret]. f_equal.
  match goal with |- export_loop _ _ ?i _ ?out = _ => generalize out; generalize i end. revert fuel.
  induction fuel as [|fuel IH]; intros i out; [done|]. cbn [export_loop rd_data]. rewrite decide_False by done. apply IH.
Qed.

(** Fact: a table of measures with its columns: after the header line, a line
    for every group of values, numbered from 0. *)
Theorem ExportSVSData_rows FormatFloat meta gs vss fuel :
  length meta = metaLength → head meta = Some svsMagic → gs ≠ [] → length gs < 256 →
  Forall (in_width 16) gs → Forall (λ vs, length vs = length gs ∧ Forall (in_width 32) vs) vss →
  length vss < fuel →
  ExportSVSData FormatFloat fuel
    (meta ++ put_uint BigEndian 1 (Z.of_nat (length gs)) ++ wire_uints LittleEndian 2 gs ++
     concat (wire_uints LittleEndian 4 <$> vss)) =
  Ok (Some (None, csv_line ("t" :: (svs_header <$> gs)) ++
                  csv_rows (λ i vs, Sprint i :: (FormatFloat <$> vs)) 0 vss)).
Proof.
  intros Hl Hh Hne Hlt Hg Hv Hf. unfold ExportSVSData. destruct meta as [|m meta]; [done|]. injection Hh as ->.
  cbn [app]. rewrite decide_False by naive_solver.
  rewrite decide_False by (rewrite app_comm_cons, length_app, Hl; lia).
  rewrite app_comm_cons, drop_app_len by done.
  rewrite ReadUint_put by (unfold in_width; change (2 ^ (8 * Z.of_nat 1))%Z with 256%Z; lia).
  rewrite Nat2Z.id, read_uints_ok by done. f_equal.
  replace fuel with (length vss + S (fuel - S (length vss))) by lia.
  rewrite <-(app_nil_r (concat (wire_uints LittleEndian 4 <$> vss))).
  erewrite (export_loop_rows _ (wire_uints LittleEndian 4) (λ i vs, Sprint i :: (FormatFloat <$> vs))); [done| | |exact Hv].
  - intros i vs rest e [Hvl Hvs]. unfold svs_row. rewrite <-Hvl. by erewrite rd_bind_ok by (by apply read_uints_ok).
  - intros vs [Hvl _] E. apply (f_equal length) in E. rewrite length_wire_uints, Hvl in E. simpl in E.
    destruct gs; [done|]. simpl in E. lia.
Qed.

(** ** Examples *)

Definition sample_words : list Z := Z.of_nat <$> seq 1 32.

Lemma ExportSyncUnit_rows_witness :
  ExportSyncUnit (concat (wire_sync <$> [(1, 2, 3, -4)%Z; (5, 6, 7, 8)%Z])) GPS =
  Some (None, bytes_of "1980-01-06T00:00:00Z,1,2,1,2,3,-4" ++ [x0a] ++ bytes_of "1980-01-06T00:00:00Z,2,2,5,6,7,8" ++ [x0a]).
Proof. rewrite ExportSyncUnit_rows by compute_decide. by vm_compute. Defined.

Example science_lines_sample :
  ExportScienceData (concat (wire_words <$> [sample_words; sample_words])) GPS =
  Some (None, csv_rows (science_render "1980-01-06T00:00:00Z" "4") 1 [sample_words; sample_words]).
Proof. by vm_compute. Qed.

Lemma ExportScienceData_truncated_witness :
  ExportScienceData (concat (wire_words <$> [sample_words]) ++ [x00]) GPS = Some (Some ErrUnexpectedEOF, []).
Proof. rewrite ExportScienceData_truncated by first [by compute_decide|simpl; lia]. by vm_compute. Defined.

Lemma process_converts_witness :
  process (FCC ++ put_uint BigEndian 4 7 ++ put_uint BigEndian 8 (60 * Second) ++ concat (wire_words <$> [sample_words]) ++ [x00; x01])
  = Some (None, csv_rows (mma_render "1980-01-06T00:01:00Z") 1 [sample_words]).
Proof. rewrite process_converts by first [by compute_decide|simpl; lia|done]. done. Defined.

Definition sample_meta : list byte := svsMagic :: replicate 73 x00.

Lemma ExportSVSData_hangs_witness : ExportSVSData Sprint 100 (sample_meta ++ [x00; x01]) = Ok None.
Proof. by apply (ExportSVSData_hangs Sprint sample_meta x01 []). Defined.

Lemma ExportSVSData_rows_witness :
  ExportSVSData Sprint 10 (sample_meta ++ put_uint BigEndian 1 2 ++ wire_uints LittleEndian 2 [10; 20]%Z ++
    concat (wire_uints LittleEndian 4 <$> [[1; 2]%Z; [3; 4]%Z])) =
  Ok (Some (None, csv_line ["t"; "g2(t, 10)"; "g2(t, 20)"] ++ csv_line ["0"; "1"; "2"] ++ csv_line ["1"; "3"; "4"])).
Proof.
  change 2%Z with (Z.of_nat (length [10; 20]%Z)) at 1.
  rewrite ExportSVSData_rows by first [done|by compute_decide|simpl; lia]. by vm_compute.
Defined.
