(* ===== verification/Mmaconv.v ===== *)
(** * Mmaconv: the converter of measures on files (main and process of
      src/cmd/mmaconv/main.go)

    The converter opens a file, reads its header, creates the output below the
    working directory and reads on.  The input stays open: when the output is
    the same file, creating it empties what is still to be read. *)

From S2P Require Import Prelude Bytes GoStd Text Panda Fs Science.
From Stdlib Require Import ZArith Lia.

(** [filepath.Split]: up to the last slash, and the rest. *)
Definition path_Split (p : string) : string * string :=
  let base := default "" (last (Split slash p)) in
  (String.substring 0 (String.length p - String.length base) p, base).

Section mmaconv.
Context (denied : string → option error).

(** [os.Open] of a file that is read: the inode behind the descriptor. *)
Definition open_read (p : string) : io nat := guarded denied p (λ s,
  if decide (p ∈ fs_dirs s) then (Err (ErrExternal "is a directory"), s)
  else match resolve max_links s p with Some ino => (Ok ino, s) | None => (Err (ErrNotExist p), s) end).

(** What a descriptor reads from an offset on. *)
Definition read_at (ino off : nat) : io (list byte) := λ s, (Ok (drop off (default [] (fs_inodes s !! ino))), s).

Definition output_path (file datadir : string) : string :=
  let '(dir, base) := path_Split file in Join [Join [datadir; dir]; base].

(** The length of the header: the code, the sequence and the time. *)
Definition preamble_read (bs : list byte) : result (Time * nat) :=
  match Science.readPreamble (Reader bs EOF) with
  | (Ok t, r) => Ok (t, length bs - length (rd_data r))
  | (Err e, _) => Err e
  | (Panic w, _) => Panic w
  end.

Definition process_file (file datadir : string) : io () :=
  ino ← open_read file;
  bs ← read_at ino 0;
  '(t, off) ← (λ s, (preamble_read bs, s));
  MkdirAll denied (Join [datadir; (path_Split file).1]);;
  WriteFile denied (output_path file datadir) [];;
  rest ← read_at ino off;
  match writeScience (Reader rest EOF) t with
  | Some (err, out) =>
      WriteFile denied (output_path file datadir) out;;
      match err with None => mret () | Some e => io_fail e end
  | None => λ s, (Panic "out of fuel", s)
  end.

(** [main]: the errors are logged, each with its file, and the next file is
    converted. *)
Fixpoint mmaconv (files : list string) (datadir : string) : io (list (string * error)) :=
  match files with
  | [] => mret []
  | file :: files => λ s,
      match process_file file datadir s with
      | (Ok _, s') => mmaconv files datadir s'
      | (Err e, s') => (es ← mmaconv files datadir; mret ((file, e) :: es)) s'
      | (Panic w, s') => (Panic w, s')
      end
  end.
End mmaconv.

(** ** Theorems *)

#[export] Instance consuming_read_or_zero m : Consuming m → Consuming (Science.read_or_zero m).
Proof. intros Hm r. specialize (Hm r). unfold Science.read_or_zero. by destruct (m r) as [[v|e|w] r']. Qed.

#[export] Instance consuming_mma_preamble : Consuming Science.readPreamble.
Proof. unfold Science.readPreamble. apply _. Qed.

(** A conversion that finds nothing left to read. *)
Lemma writeScience_nil t : writeScience (Reader [] EOF) t = Some (None, []).
Proof.
  unfold writeScience. cbn [rd_data length writeScience_loop]. unfold mma_row.
  erewrite rd_bind_err by (apply read_uints_short; simpl; lia). by rewrite decide_True.
Qed.

Section theorems.
Context (file datadir : string) (s : fs) (ino : nat) (bs : list byte) (t : Time) (off : nat).

#[local] Abbreviation dir := (Join [datadir; (path_Split file).1]).
#[local] Abbreviation out := (output_path file datadir).

Definition converting (s : fs) : fs :=
  mkFs (fs_dirs s ∪ list_to_set (ancestors dir)) (fs_entries s) (fs_inodes s) (fs_next s).

(** A regular input, a directory that can be made and an output that can be
    written. *)
Record convertible : Prop := {
  cv_wf : fs_wf s;
  cv_dirs : Forall (λ d, fs_entries s !! d = None) (ancestors dir);
  cv_input : fs_entries s !! file = Some (Regular ino) ∧ fs_inodes s !! ino = Some bs;
  cv_output : writable (converting s) out;
  cv_header : preamble_read bs = Ok (t, off);
}.

(** The steps up to the reading of the rest, with the file that is created. *)
Lemma process_file_run :
  convertible →
  process_file healthy file datadir s =
  (let s1 := write_to out [] (converting s) in
   match writeScience (Reader (drop off (default [] (fs_inodes s1 !! ino))) EOF) t with
   | Some (err, o) => (WriteFile healthy out o;; match err with None => mret () | Some e => io_fail e end) s1
   | None => (Panic "out of fuel", s1)
   end).
Proof.
  intros [Hwf Hd [He Hi] Ho Hh]. unfold process_file.
  assert (file ∉ fs_dirs s) as Hf by (intros Hin; apply (wf_dirs s Hwf) in Hin; congruence).
  unfold mbind at 1, io_bind at 1. unfold open_read, guarded, healthy at 1. rewrite decide_False by done.
  unfold max_links, resolve. rewrite He. unfold mbind at 1, io_bind at 1. unfold read_at at 1. rewrite Hi, drop_0. cbn [default].
  unfold mbind at 1, io_bind at 1. cbn [from_option id]. rewrite Hh. unfold mbind at 1, io_bind at 1. rewrite MkdirAll_healthy by done.
  fold (converting s). unfold mbind at 1, io_bind at 1. rewrite WriteFile_healthy by done.
  unfold mbind at 1, io_bind at 1. unfold read_at. cbv zeta. by destruct (writeScience _ _) as [[err o]|].
Qed.

Lemma converting_wf : convertible → fs_wf (converting s).
Proof. intros [Hwf Hd _ _ _]. pose proof (MkdirAll_wf healthy dir s Hwf) as H. by rewrite MkdirAll_healthy in H. Qed.

Lemma again_writable : convertible → writable (write_to out [] (converting s)) out.
Proof.
  intros [_ _ _ Ho _]. revert Ho. generalize out, (converting s). intros o s' (H1 & H2 & H3).
  split_and!; rewrite ?write_to_dirs; [done..|]. intros u. unfold write_to.
  destruct (fs_entries s' !! o) as [[i|v]|] eqn:E; cbn; [by rewrite E|by rewrite lookup_insert_eq..].
Qed.

(** Fact: the file that is created holds what [process] makes of the input, up to
    what was flushed when the conversion fails; the input keeps its bytes. *)
Theorem process_file_converts err o :
  convertible → unaliased (converting s) out file → out ≠ file →
  process bs = Some (err, o) →
  ∃ s', process_file healthy file datadir s = (match err with None => Ok () | Some e => Err e end, s') ∧
    content s' out = Some o ∧ content s' file = Some bs.
Proof.
  intros Hc Ha Hne Hp. rewrite process_file_run by done. pose proof (converting_wf Hc) as Hwf. pose proof (again_writable Hc) as Hw.
  destruct Hc as [_ _ [He Hi] Ho Hh]. set (s1 := write_to out [] (converting s)) in *.
  assert (content s1 file = Some bs) as Hin.
  { unfold s1. rewrite write_to_other by done. unfold content, converting; cbn. by rewrite He. }
  assert (fs_entries s1 !! file = Some (Regular ino)) as He1 by (unfold s1; by rewrite write_to_entries).
  assert (fs_inodes s1 !! ino = Some bs) as Hi1 by (unfold content in Hin; by rewrite He1 in Hin). cbv zeta. rewrite Hi1. change (default [] (Some bs)) with bs.
  assert (writeScience (Reader (drop off bs) EOF) t = Some (err, o)) as ->.
  { unfold preamble_read in Hh. unfold process in Hp. pose proof (consuming (m := Science.readPreamble) (Reader bs EOF)) as [[x Hx] Hend].
    destruct (Science.readPreamble (Reader bs EOF)) as [[t'|e|w] [d e']]; simpl in *; [|done..]. injection Hh as -> <-. subst e'.
    rewrite Hx, length_app. replace (length x + length d - length d) with (length x) by lia. rewrite drop_app_length. by rewrite <-Hp. }
  exists (write_to out o s1). unfold mbind, io_bind. rewrite WriteFile_healthy by done. split; [by destruct err|].
  split; [apply write_to_content|]. rewrite write_to_other; [done| |done|].
  - by apply write_to_wf.
  - intros i Hi'. unfold s1 in Hi'. intros Hf. rewrite He1 in Hf. injection Hf as <-.
    revert Hi'. intros Hi'. eapply (write_to_regular out file [] (converting s) ino); try done.
Qed.

(** Fact: with a working directory that leads back to the input, the file is
    emptied before its measures are read, and the command reports nothing. *)
Theorem process_file_in_place :
  convertible → out = file → ∃ s', process_file healthy file datadir s = (Ok (), s') ∧ content s' file = Some [].
Proof.
  intros Hc Heq. rewrite process_file_run by done. pose proof (again_writable Hc) as Hw.
  destruct Hc as [_ _ [He Hi] Ho Hh]. set (s1 := write_to out [] (converting s)) in *. cbv zeta.
  assert (fs_inodes s1 !! ino = Some []) as ->.
  { pose proof (write_to_content out [] (converting s)) as H. fold s1 in H. unfold content in H.
    assert (fs_entries s1 = fs_entries s) as Hs1 by (unfold s1; rewrite Heq; unfold write_to, converting; cbn [fs_entries]; by rewrite He). by rewrite Hs1, Heq, He in H. }
  change (default [] (Some [])) with (@nil byte). rewrite drop_nil, writeScience_nil. unfold mbind, io_bind. rewrite WriteFile_healthy by done.
  eexists. split; [done|]. rewrite Heq. apply write_to_content.
Qed.
End theorems.

(** ** Examples *)

Definition sample_measures_file : list byte :=
  FCC ++ put_uint BigEndian 4 7 ++ put_uint BigEndian 8 (60 * Second) ++ concat (wire_words <$> [sample_words]).

Definition sample_mma_fs : fs := (WriteFile healthy "/data/f.dat" sample_measures_file (MkdirAll healthy "/data" empty_fs).2).2.

Lemma sample_mma_wf : fs_wf sample_mma_fs.
Proof. apply WriteFile_wf, MkdirAll_wf, empty_fs_wf. Qed.

Lemma sample_convertible datadir :
  datadir ∈ ["/tmp"; "/"] → convertible "/data/f.dat" datadir sample_mma_fs 0 sample_measures_file (Add GPS (60 * Second)) 16.
Proof.
  intros Hd. repeat (apply elem_of_cons in Hd as [->|Hd]); [| |by apply elem_of_nil in Hd].
  all: split; [apply sample_mma_wf|by compute_decide|by split; vm_compute| |by vm_compute].
  all: split_and!; [by compute_decide|by compute_decide|by vm_compute].
Qed.

Lemma process_file_converts_witness :
  ∃ s', process_file healthy "/data/f.dat" "/tmp" sample_mma_fs = (Ok (), s') ∧
    content s' "/tmp/data/f.dat" = Some (csv_rows (mma_render "1980-01-06T00:01:00Z") 1 [sample_words]).
Proof.
  destruct (process_file_converts "/data/f.dat" "/tmp" sample_mma_fs 0 sample_measures_file (Add GPS (60 * Second)) 16
    None (csv_rows (mma_render "1980-01-06T00:01:00Z") 1 [sample_words])) as (s' & H & Hc & _).
  - apply sample_convertible. set_solver.
  - intros i. by vm_compute.
  - by vm_compute.
  - by vm_compute.
  - exists s'. split; [exact H|].
    assert (output_path "/data/f.dat" "/tmp" = "/tmp/data/f.dat") as E by by vm_compute. rewrite E in Hc. exact Hc.
Defined.

Lemma process_file_in_place_witness :
  ∃ s', process_file healthy "/data/f.dat" "/" sample_mma_fs = (Ok (), s') ∧ content s' "/data/f.dat" = Some [].
Proof.
  apply (process_file_in_place "/data/f.dat" "/" sample_mma_fs 0 sample_measures_file (Add GPS (60 * Second)) 16).
  - apply sample_convertible. set_solver.
  - by vm_compute.
Defined.

(** The files that cannot be converted are reported, the others converted. *)
Example mmaconv_goes_on :
  let r := mmaconv healthy ["/data/g.dat"; "/data/f.dat"] "/tmp" sample_mma_fs in
  r.1 = Ok [("/data/g.dat", ErrNotExist "/data/g.dat")] ∧ is_Some (content r.2 "/tmp/data/f.dat").
Proof. vm_compute. split; [done|by eexists]. Qed.
