(* ===== verification/Images.v ===== *)
(** * Images: raw pixels to images (src/internal/image/image.go)

    Every constructor fills the arrays of an image from the bytes of a packet.
    Slices that share an array are modelled as such, because [ImageLBR]
    appends to one what it means for the other, and a slice expression may
    reach into the spare capacity of its array. *)

From S2P Require Import Prelude Bytes.
From Stdlib Require Import ZArith Lia.

(** ** Slices

    A heap of arrays; a slice is the beginning of one. *)
Record heap : Type := mkHeap { hp_arrays : gmap nat (list byte); hp_next : nat }.
Record slice : Type := mkSlice { sl_ptr : nat; sl_len : nat }.

Definition empty_heap : heap := mkHeap ∅ 0.

Definition array (h : heap) (s : slice) : list byte := default [] (hp_arrays h !! sl_ptr s).
Definition value (h : heap) (s : slice) : list byte := take (sl_len s) (array h s).

(** [make([]byte, 0, n)] *)
Definition make (n : nat) (h : heap) : slice * heap :=
  (mkSlice (hp_next h) 0, mkHeap (<[hp_next h := replicate n x00]> (hp_arrays h)) (S (hp_next h))).

Section append.
(** How much room a grown array gets beyond what it needs. *)
Context (grow : nat → nat).

(** [append(s, bs...)]: in place when the capacity allows. *)
Definition append (s : slice) (bs : list byte) (h : heap) : slice * heap :=
  let a := array h s in
  let n := sl_len s + length bs in
  if decide (n ≤ length a) then
    (mkSlice (sl_ptr s) n, mkHeap (<[sl_ptr s := take (sl_len s) a ++ bs ++ drop n a]> (hp_arrays h)) (hp_next h))
  else
    (mkSlice (hp_next h) n,
     mkHeap (<[hp_next h := take (sl_len s) a ++ bs ++ replicate (grow n) x00]> (hp_arrays h)) (S (hp_next h))).
End append.

(** [copy(dst, src)] *)
Definition copy (dst src : list byte) : list byte := take (length dst) src ++ drop (length src) dst.

(** ** Images

    [image.RGBA], [image.Gray] and [image.Gray16] by pixel, row after row;
    [image.YCbCr] by plane. *)
Record raster (A : Type) : Type := mkRaster { ra_width : nat; ra_pix : list A }.
Arguments mkRaster {_} _ _.
Arguments ra_width {_} _.
Arguments ra_pix {_} _.

Definition new_raster {A} (zero : A) (x y : nat) : raster A := mkRaster x (replicate (x * y) zero).

(** [g.Set(j, i, c)] inside the bounds. *)
Definition Set_pixel {A} (j i : nat) (c : A) (g : raster A) : raster A :=
  mkRaster (ra_width g) (<[i * ra_width g + j := c]> (ra_pix g)).

Definition At_pixel {A} (j i : nat) (g : raster A) : option A := ra_pix g !! (i * ra_width g + j).

(** A [binary.Read] into a fresh variable whose error is dropped. *)
Definition read_or_zero (o : ByteOrder) (w : nat) (r : reader) : Z * reader :=
  match ReadUint o w r with (Ok v, r') => (v, r') | (_, r') => (0%Z, r') end.

(** The loops over the pixels: [n] more columns of the row [i] from [j], then
    the rows. *)
Section loops.
Context {A : Type} (read : reader → A * reader) (x : nat).

Fixpoint row_loop (n j i : nat) (r : reader) (g : raster A) : reader * raster A :=
  match n with
  | O => (r, g)
  | S n => let '(c, r') := read r in row_loop n (S j) i r' (Set_pixel j i c g)
  end.

Fixpoint rows_loop (n i : nat) (r : reader) (g : raster A) : reader * raster A :=
  match n with
  | O => (r, g)
  | S n => let '(r', g') := row_loop x 0 i r g in rows_loop n (S i) r' g'
  end.
End loops.

Definition RGB : Type := Z * Z * Z.

Definition read_RGB (r : reader) : RGB * reader :=
  let '(red, r) := read_or_zero BigEndian 1 r in
  let '(green, r) := read_or_zero BigEndian 1 r in
  let '(blue, r) := read_or_zero BigEndian 1 r in
  ((red, green, blue), r).

Definition ImageRGB (x y : nat) (points : list byte) : raster RGB :=
  (rows_loop read_RGB x y 0 (Reader points EOF) (new_raster (0, 0, 0)%Z x y)).2.

Definition ImageGray16 (x y : nat) (points : list byte) (order : ByteOrder) : raster Z :=
  (rows_loop (read_or_zero order 2) x y 0 (Reader points EOF) (new_raster 0%Z x y)).2.

(** [buf.Next(x)], and a pixel for every byte of it. *)
Fixpoint set_row (j i : nat) (bs : list byte) (g : raster byte) : raster byte :=
  match bs with
  | [] => g
  | c :: bs => set_row (S j) i bs (Set_pixel j i c g)
  end.

Fixpoint gray_loop (x n i : nat) (bs : list byte) (g : raster byte) : raster byte :=
  match n with
  | O => g
  | S n => gray_loop x n (S i) (drop x bs) (set_row 0 i (take x bs) g)
  end.

Definition ImageGray8 (x y : nat) (points : list byte) : raster byte :=
  gray_loop x y 0 points (new_raster x00 x y).

Record planes : Type := mkPlanes { pl_Y : list byte; pl_Cb : list byte; pl_Cr : list byte }.

(** [image.NewYCbCr] of a rectangle at the origin. *)
Definition new_YCbCr (x y cw ch : nat) : planes :=
  mkPlanes (replicate (x * y) x00) (replicate (cw * ch) x00) (replicate (cw * ch) x00).

Definition half_up (n : nat) : nat := (n + 1) / 2.

Section lbr.
Context (grow : nat → nat).

Fixpoint lbr_loop (points : list byte) (ls bs rs : slice) (h : heap) : result (slice * slice * slice * heap) :=
  match points with
  | [] => Ok (ls, bs, rs, h)
  | l0 :: b :: l1 :: r :: points =>
      let '(ls, h) := append grow ls [l0; l1] h in
      let '(bs, h) := append grow rs [b] h in
      let '(rs, h) := append grow rs [r] h in
      lbr_loop points ls bs rs h
  | _ => Panic "index out of range"
  end.

Definition ImageLBR (x y : nat) (points : list byte) : result planes :=
  let g := new_YCbCr x y (half_up x) y in
  let '(ls, h) := make (length points / 2) empty_heap in
  let '(bs, h) := make (length points / 4) h in
  let '(rs, h) := make (length points / 4) h in
  '(ls, bs, rs, h) ← lbr_loop points ls bs rs h;
  Ok (mkPlanes (copy (pl_Y g) (value h ls)) (copy (pl_Cb g) (value h bs)) (copy (pl_Cr g) (value h rs))).
End lbr.

(** [points[lo:hi]] with [spare] the bytes of the array behind the slice. *)
Definition slice_expr (points spare : list byte) (lo hi : nat) : result (list byte) :=
  if decide (lo ≤ hi ∧ hi ≤ length points + length spare)
  then Ok (drop lo (take hi (points ++ spare))) else Panic "slice bounds out of range".

Definition ImageI420 (x y : nat) (points spare : list byte) : result planes :=
  let g := new_YCbCr x y (half_up x) (half_up y) in
  let s := x * y in
  let z := s / 4 in
  Y ← slice_expr points spare 0 s;
  Cb ← slice_expr points spare s (s + z);
  if decide (z ≤ length points) then
    Ok (mkPlanes (copy (pl_Y g) Y) (copy (pl_Cb g) Cb) (copy (pl_Cr g) (drop (length points - z) points)))
  else Panic "slice bounds out of range".

(** ** The pixel loops

    What [n] successive reads give, and the reader they leave. *)
Section pixels.
Context {A : Type} (read : reader → A * reader).

Fixpoint read_many (n : nat) (r : reader) : list A * reader :=
  match n with
  | O => ([], r)
  | S n => let '(c, r) := read r in let '(cs, r) := read_many n r in (c :: cs, r)
  end.

Lemma length_read_many n r : length (read_many n r).1 = n.
Proof.
  revert r. induction n as [|n IH]; intros r; [done|]. simpl. destruct (read r) as [c r'].
  specialize (IH r'). destruct (read_many n r') as [cs r'']. simpl in *. lia.
Qed.

Lemma read_many_add n m r :
  read_many (n + m) r =
  let '(cs, r1) := read_many n r in let '(ds, r2) := read_many m r1 in (cs ++ ds, r2).
Proof.
  revert r. induction n as [|n IH]; intros r; simpl; [by destruct (read_many m r)|].
  destruct (read r) as [c r']. rewrite IH. destruct (read_many n r') as [cs r1]. by destruct (read_many m r1).
Qed.

(** A row writes what it reads at its place. *)
Lemma row_loop_spec n j i r pre post w :
  length pre = i * w + j → n ≤ length post →
  row_loop read n j i r (mkRaster w (pre ++ post)) =
  let '(cs, r') := read_many n r in (r', mkRaster w (pre ++ cs ++ drop n post)).
Proof.
  revert j r pre post. induction n as [|n IH]; intros j r pre post Hp Hn; [done|].
  destruct post as [|c0 post]; [simpl in Hn; lia|]. cbn [row_loop read_many].
  destruct (read r) as [c r']. unfold Set_pixel; cbn [ra_width ra_pix]. rewrite <-Hp.
  assert (<[length pre := c]> (pre ++ c0 :: post) = (pre ++ [c]) ++ post) as ->.
  { rewrite insert_app_r_alt, Nat.sub_diag by lia. simpl. by rewrite <-(assoc_L app). }
  rewrite IH; [|rewrite length_app; simpl; lia|simpl in Hn; lia].
  destruct (read_many n r') as [cs r'']. by rewrite <-!(assoc_L app).
Qed.

Lemma rows_loop_spec x n i r pre post :
  length pre = i * x → length post = n * x →
  rows_loop read x n i r (mkRaster x (pre ++ post)) =
  let '(cs, r') := read_many (n * x) r in (r', mkRaster x (pre ++ cs)).
Proof.
  revert i r pre post. induction n as [|n IH]; intros i r pre post Hp Hn.
  { simpl in *. apply nil_length_inv in Hn as ->. done. }
  cbn [rows_loop]. rewrite (row_loop_spec x 0 i) by lia. cbn [Nat.mul]. rewrite read_many_add.
  pose proof (length_read_many x r) as Hl. destruct (read_many x r) as [cs r1]. simpl in Hl.
  rewrite (assoc_L app pre cs). rewrite IH; [|rewrite length_app; lia|rewrite length_drop; lia].
  destruct (read_many (n * x) r1) as [ds r2]. by rewrite <-(assoc_L app).
Qed.

Lemma rows_loop_new x y zero r :
  (rows_loop read x y 0 r (new_raster zero x y)).2 = mkRaster x (read_many (x * y) r).1.
Proof.
  unfold new_raster. rewrite (Nat.mul_comm x y).
  pose proof (rows_loop_spec x y 0 r [] (replicate (y * x) zero) eq_refl (length_replicate _ _)) as H.
  cbn [app] in H. rewrite H.
  by destruct (read_many (y * x) r).
Qed.
End pixels.

Lemma take_pad {A} (zero : A) n m l : n ≤ m → take n (l ++ replicate m zero) = take n (l ++ replicate n zero).
Proof. intros. rewrite !take_app, !take_replicate. do 2 f_equal. lia. Qed.

(** Reads of what [wire] wrote, and zeros behind it. *)
Lemma read_many_wire {A} (read : reader → A * reader) (wire : A → list byte) ok zero n px :
  (∀ a rest, ok a → read (Reader (wire a ++ rest) EOF) = (a, Reader rest EOF)) →
  read (Reader [] EOF) = (zero, Reader [] EOF) → Forall ok px →
  (read_many read n (Reader (concat (wire <$> px)) EOF)).1 = take n (px ++ replicate n zero).
Proof.
  intros Hr Hz Hpx. revert px Hpx. induction n as [|n IH]; intros px Hpx; [done|]. cbn [read_many].
  destruct Hpx as [|a px Ha Hpx].
  - cbn [fmap list_fmap concat app]. rewrite Hz. specialize (IH [] (List.Forall_nil _)).
    cbn [fmap list_fmap concat app] in IH. destruct (read_many read n _) as [cs r']. simpl in *. by rewrite IH.
  - rewrite fmap_cons. cbn [concat]. rewrite Hr by done. specialize (IH px Hpx).
    destruct (read_many read n _) as [cs r']. simpl in IH |- *. rewrite IH. f_equal.
    symmetry. apply (take_pad zero n (S n)). lia.
Qed.

Lemma read_or_zero_put o w v rest :
  in_width (8 * Z.of_nat w) v → read_or_zero o w (Reader (put_uint o w v ++ rest) EOF) = (v, Reader rest EOF).
Proof. intros. unfold read_or_zero. by rewrite ReadUint_put. Qed.

Lemma read_or_zero_nil o w : 0 < w → read_or_zero o w (Reader [] EOF) = (0%Z, Reader [] EOF).
Proof. intros. unfold read_or_zero. by rewrite ReadUint_empty. Qed.

Definition rgb_ok (c : RGB) : Prop := let '(r, g, b) := c in in_width 8 r ∧ in_width 8 g ∧ in_width 8 b.
#[global] Instance rgb_ok_dec c : Decision (rgb_ok c).
Proof. destruct c as [[r g] b]; simpl; apply _. Defined.

Definition wire_rgb (c : RGB) : list byte :=
  let '(r, g, b) := c in put_uint BigEndian 1 r ++ put_uint BigEndian 1 g ++ put_uint BigEndian 1 b.

(** Fact: an RGB image has its pixels in the order of the bytes, row after row;
    what the bytes do not cover stays black, what they have too much is
    dropped. *)
Theorem ImageRGB_pixels x y px :
  Forall rgb_ok px →
  ImageRGB x y (concat (wire_rgb <$> px)) = mkRaster x (take (x * y) (px ++ replicate (x * y) (0, 0, 0)%Z)).
Proof.
  intros Hpx. unfold ImageRGB. rewrite rows_loop_new. f_equal.
  apply (read_many_wire _ wire_rgb rgb_ok); [|done|done].
  intros [[r g] b] rest (Hr & Hg & Hb). unfold read_RGB, wire_rgb. rewrite <-!(assoc_L app).
  by rewrite !read_or_zero_put by done.
Qed.

(** Fact: a 16-bit gray image has its pixels in the order of the bytes, in the
    byte order of its format. *)
Theorem ImageGray16_pixels x y order px :
  Forall (in_width 16) px →
  ImageGray16 x y (concat (put_uint order 2 <$> px)) order = mkRaster x (take (x * y) (px ++ replicate (x * y) 0%Z)).
Proof.
  intros Hpx. unfold ImageGray16. rewrite rows_loop_new. f_equal.
  apply (read_many_wire _ (put_uint order 2) (in_width 16)); [|by apply read_or_zero_nil; lia|done].
  intros v rest Hv. by apply read_or_zero_put.
Qed.

Lemma set_row_spec bs j i w pre post :
  length pre = i * w + j → length bs ≤ length post →
  set_row j i bs (mkRaster w (pre ++ post)) = mkRaster w (pre ++ bs ++ drop (length bs) post).
Proof.
  revert j pre post. induction bs as [|c bs IH]; intros j pre post Hp Hn; [done|].
  destruct post as [|c0 post]; [simpl in Hn; lia|]. cbn [set_row]. unfold Set_pixel; cbn [ra_width ra_pix].
  rewrite <-Hp. assert (<[length pre := c]> (pre ++ c0 :: post) = (pre ++ [c]) ++ post) as ->.
  { rewrite insert_app_r_alt, Nat.sub_diag by lia. simpl. by rewrite <-(assoc_L app). }
  rewrite IH; [|rewrite length_app; simpl; lia|simpl in Hn; lia]. by rewrite <-!(assoc_L app).
Qed.

Lemma gray_loop_spec x n i bs pre :
  length pre = i * x →
  gray_loop x n i bs (mkRaster x (pre ++ replicate (n * x) x00)) =
  mkRaster x (pre ++ take (n * x) (bs ++ replicate (n * x) x00)).
Proof.
  revert i bs pre. induction n as [|n IH]; intros i bs pre Hp; [done|]. cbn [gray_loop Nat.mul].
  rewrite set_row_spec by (rewrite ?length_take, ?length_replicate; lia).
  rewrite replicate_add.
  assert (drop (length (take x bs)) (replicate x x00 ++ replicate (n * x) x00) =
    replicate (x - length bs) x00 ++ replicate (n * x) x00) as ->.
  { rewrite length_take, drop_app_le by (rewrite length_replicate; lia). rewrite drop_replicate. do 2 f_equal. lia. }
  rewrite !(assoc_L app), IH; [|rewrite !length_app, length_take, length_replicate; lia].
  f_equal. rewrite <-!(assoc_L app). f_equal.
  rewrite <-replicate_add, <-take_take_drop, (assoc_L app). f_equal.
  - rewrite take_app, take_replicate. do 2 f_equal. lia.
  - rewrite drop_app, drop_replicate. symmetry. apply take_pad. lia.
Qed.

(** Fact: an 8-bit gray image is the bytes, row after row, black where they end
    and cut where it ends. *)
Theorem ImageGray8_pixels x y points :
  ImageGray8 x y points = mkRaster x (take (x * y) (points ++ replicate (x * y) x00)).
Proof.
  unfold ImageGray8, new_raster. rewrite (Nat.mul_comm x y). apply (gray_loop_spec x y 0 points [] eq_refl).
Qed.

(** ** Planes *)

(** The bytes of a packed 4:2:2 image: two luminances, a blue and a red
    chrominance between them. *)
Definition quad : Type := byte * byte * byte * byte.
Definition quad_bytes (q : quad) : list byte := let '(l0, b, l1, r) := q in [l0; b; l1; r].
Definition quad_lum (q : quad) : list byte := let '(l0, b, l1, r) := q in [l0; l1].
Definition quad_red (q : quad) : byte := let '(l0, b, l1, r) := q in r.

Section lbr_lemmas.
Context (grow : nat → nat).

(** What an append in place leaves in the heap. *)
Lemma append_in_place s bs h s' h' :
  sl_len s + length bs ≤ length (array h s) → append grow s bs h = (s', h') →
  s' = mkSlice (sl_ptr s) (sl_len s + length bs) ∧ value h' s' = value h s ++ bs ∧
  length (array h' s') = length (array h s) ∧
  ∀ t, sl_ptr t ≠ sl_ptr s → array h' t = array h t.
Proof.
  intros Hn. unfold append. rewrite decide_True by done. intros [= <- <-]. split_and!; [done| | |].
  - unfold value, array at 1. cbn. rewrite lookup_insert_eq. cbn.
    rewrite (assoc_L app), take_app_le by (rewrite length_app, length_take; lia).
    rewrite take_ge; [done|]. rewrite length_app, length_take. lia.
  - unfold array at 1. cbn. rewrite lookup_insert_eq. cbn. rewrite !length_app, length_take, length_drop. lia.
  - intros t Ht. unfold array. cbn. by rewrite lookup_insert_ne.
Qed.

Lemma lbr_loop_spec qs ls bs rs h :
  sl_ptr ls ≠ sl_ptr rs →
  sl_len ls + 2 * length qs ≤ length (array h ls) → sl_len rs + length qs ≤ length (array h rs) →
  ∃ ls' bs' rs' h', lbr_loop grow (concat (quad_bytes <$> qs)) ls bs rs h = Ok (ls', bs', rs', h') ∧
    value h' ls' = value h ls ++ concat (quad_lum <$> qs) ∧
    value h' rs' = value h rs ++ (quad_red <$> qs) ∧
    rs' = mkSlice (sl_ptr rs) (sl_len rs + length qs) ∧ bs' = if decide (qs = []) then bs else rs'.
Proof.
  revert ls bs rs h. induction qs as [|[[[l0 b] l1] r] qs IH]; intros ls bs rs h Hne Hl Hr.
  { exists ls, bs, rs, h. simpl. rewrite !app_nil_r, Nat.add_0_r. by destruct rs. }
  rewrite !fmap_cons. cbn [concat quad_bytes quad_lum quad_red app lbr_loop length] in *.
  destruct (append grow ls [l0; l1] h) as [ls1 h1] eqn:E1.
  apply append_in_place in E1 as (-> & Hv1 & Hl1 & Ho1); [|simpl; lia].
  assert (array h1 rs = array h rs) as Hrs1 by (by apply Ho1).
  destruct (append grow rs [b] h1) as [bs2 h2] eqn:E2.
  apply append_in_place in E2 as (-> & Hv2 & Hl2 & Ho2); [|simpl; rewrite Hrs1; lia].
  destruct (append grow rs [r] h2) as [rs3 h3] eqn:E3.
  assert (array h2 rs = array h2 (mkSlice (sl_ptr rs) (sl_len rs + length [b]))) as Hrs2 by done.
  apply append_in_place in E3 as (-> & Hv3 & Hl3 & Ho3); [|simpl; rewrite Hrs2, Hl2, Hrs1; lia].
  set (ls1 := mkSlice (sl_ptr ls) _) in *. set (rs3 := mkSlice (sl_ptr rs) (sl_len rs + length [r])) in *.
  destruct (IH ls1 (mkSlice (sl_ptr rs) (sl_len rs + length [b])) rs3 h3) as (ls' & bs' & rs' & h' & -> & H1 & H2 & H3 & H4).
  - done.
  - rewrite (Ho3 ls1), (Ho2 ls1), Hl1 by done. subst ls1. simpl. lia.
  - rewrite Hl3, Hrs2, Hl2, Hrs1. subst rs3. simpl. lia.
  - exists ls', bs', rs', h'. split; [done|].
    assert (value h3 ls1 = value h1 ls1) as Hvl by (unfold value; by rewrite (Ho3 ls1), (Ho2 ls1) by done).
    assert (value h2 rs = value h rs) as Hvr.
    { transitivity (take (sl_len rs) (value h2 (mkSlice (sl_ptr rs) (sl_len rs + length [b])))).
      - unfold value. cbn [sl_len length]. rewrite take_take. by rewrite Nat.min_l by lia.
      - rewrite Hv2. unfold value at 1. rewrite Hrs1. rewrite take_app_le, take_take by (rewrite length_take; lia).
        unfold value. by rewrite Nat.min_id. }
    rewrite H1, H2, Hvl, Hv1, Hv3, Hvr, <-!(assoc_L app). subst rs3. cbn [sl_ptr sl_len length] in H3.
    split_and!; [done|done|rewrite H3; f_equal; lia|].
    rewrite H4. case_decide as Hq; [|done]. subst qs. rewrite H3. simpl. f_equal. lia.
Qed.
End lbr_lemmas.

(** Fact: for a packed 4:2:2 image both chrominance planes hold the red samples:
    the blue ones are appended to the slice of the red ones and overwritten. *)
Theorem ImageLBR_planes grow x y qs :
  let cr := copy (replicate (half_up x * y) x00) (quad_red <$> qs) in
  ImageLBR grow x y (concat (quad_bytes <$> qs)) =
  Ok (mkPlanes (copy (replicate (x * y) x00) (concat (quad_lum <$> qs))) cr cr).
Proof.
  assert (length (concat (quad_bytes <$> qs)) = length qs * 4) as Hl.
  { induction qs as [|[[[l0 b] l1] r] qs IH]; [done|]. rewrite fmap_cons. cbn [concat].
    rewrite length_app, IH. simpl. lia. }
  cbv zeta. unfold ImageLBR. rewrite Hl. cbn [make empty_heap hp_next].
  rewrite Nat.div_mul by done. replace (length qs * 4) with (2 * length qs * 2) by lia. rewrite Nat.div_mul by done.
  set (h := mkHeap _ _).
  assert (array h (mkSlice 0 0) = replicate (2 * length qs) x00) as H0 by (unfold array; done).
  assert (array h (mkSlice 2 0) = replicate (length qs) x00) as H2 by (unfold array; done).
  destruct (lbr_loop_spec grow qs (mkSlice 0 0) (mkSlice 1 0) (mkSlice 2 0) h) as (ls' & bs' & rs' & h' & E & Hls & Hrs & Hr & Hb);
    [done|rewrite H0, length_replicate; simpl; lia|rewrite H2, length_replicate; simpl; lia|].
  rewrite E. cbn [mbind result_bind new_YCbCr pl_Y pl_Cb pl_Cr]. rewrite Hls, Hrs. cbn [value sl_len take app].
  assert (value h' bs' = quad_red <$> qs) as ->; [|done].
  rewrite Hb. case_decide as Hq; [by subst qs|]. by rewrite Hrs.
Qed.

(** Fact: with an even width and height, a planar 4:2:0 image of the right size
    is cut into its three planes. *)
Theorem ImageI420_planes m n Y Cb Cr spare :
  length Y = 2 * m * (2 * n) → length Cb = m * n → length Cr = m * n →
  ImageI420 (2 * m) (2 * n) (Y ++ Cb ++ Cr) spare = Ok (mkPlanes Y Cb Cr).
Proof.
  intros HY HCb HCr. unfold ImageI420, slice_expr, new_YCbCr, half_up.
  assert ((2 * m * (2 * n)) / 4 = m * n) as ->.
  { replace (2 * m * (2 * n)) with (m * n * 4) by lia. by apply Nat.div_mul. }
  assert (∀ k, (2 * k + 1) / 2 = k) as Hhalf.
  { intros k. rewrite Nat.mul_comm, Nat.div_add_l by done. rewrite Nat.div_small by lia. lia. }
  rewrite !Hhalf, !length_app, <-HY, HCb, HCr. rewrite !decide_True by lia. cbn [mbind result_bind pl_Y pl_Cb pl_Cr].
  rewrite decide_True by lia. f_equal.
  assert (∀ a b : list byte, length a = length b → copy a b = b) as Hcopy.
  { intros a b E. unfold copy. rewrite take_ge, drop_ge, app_nil_r by lia. done. }
  rewrite !(assoc_L app Y Cb). set (P := Y ++ Cb).
  assert (length P = length Y + m * n) as HP by (unfold P; rewrite length_app; lia).
  assert (take (length Y) ((P ++ Cr) ++ spare) = Y) as ->.
  { unfold P. rewrite <-!(assoc_L app). apply take_app_length. }
  assert (take (length Y + m * n) ((P ++ Cr) ++ spare) = P) as ->.
  { rewrite <-HP, <-(assoc_L app). apply take_app_length. }
  assert (drop (length Y) P = Cb) as -> by apply drop_app_length.
  assert (drop (length Y + (m * n + m * n) - m * n) (P ++ Cr) = Cr) as ->.
  { replace (length Y + (m * n + m * n) - m * n) with (length P) by lia. apply drop_app_length. }
  rewrite drop_0, !Hcopy by (rewrite length_replicate; lia). done.
Qed.

(** ** Examples *)

Lemma ImageRGB_pixels_witness :
  ImageRGB 2 1 [x01; x02; x03] = mkRaster 2 [(1, 2, 3)%Z; (0, 0, 0)%Z].
Proof. change [x01; x02; x03] with (concat (wire_rgb <$> [(1, 2, 3)%Z])). rewrite ImageRGB_pixels by compute_decide. done. Defined.

Lemma ImageGray16_pixels_witness :
  ImageGray16 2 1 [x01; x00; x02; x00] LittleEndian = mkRaster 2 [1%Z; 2%Z].
Proof.
  change [x01; x00; x02; x00] with (concat (put_uint LittleEndian 2 <$> [1; 2]%Z)).
  rewrite ImageGray16_pixels by compute_decide. done.
Defined.

Lemma ImageI420_planes_witness :
  ImageI420 (2 * 1) (2 * 1) ([x01; x02; x03; x04] ++ [x05] ++ [x06]) [] = Ok (mkPlanes [x01; x02; x03; x04] [x05] [x06]).
Proof. by apply ImageI420_planes. Defined.

(** Two pixels of blue chrominance 2 and red chrominance 4. *)
Example ImageLBR_blue : ImageLBR (λ n, n) 2 1 [x01; x02; x03; x04] = Ok (mkPlanes [x01; x03] [x04] [x04]).
Proof. by vm_compute. Qed.
