(* ===== verification/Fetch.v ===== *)
(** * Fetch: stored packets over HTTP (src/distrib/fetch.go)

    A request names a file below the directory of the raw packets; the answer
    is the file itself, an image or a CSV table, as the Accept header asks.
    The panda codes, the checksum and the image encoders are parameters. *)

From S2P Require Import Prelude Bytes GoStd Text Panda.
From S2P Require Import Storage Fs Files Science Images.
From Stdlib Require Import ZArith Lia Ascii.

(** ** Media types *)

Definition MimeOctet : string := "application/octet-stream".
Definition MimeGif : string := "image/gif".
Definition MimeJPG : string := "image/jpeg".
Definition MimePNG : string := "image/png".
Definition MimeCSV : string := "text/csv".

Definition types : list string := [MimeOctet; MimeGif; MimePNG; MimeJPG; MimeCSV].

Definition MainType (m : string) : string := default "" (head (Split slash m)).

Definition SubType (m : string) : result string :=
  match Split slash m !! 1 with Some s => Ok s | None => Panic "index out of range" end.

(** [strings.Index(a, v) >= 0] *)
Definition Contains (a v : string) : bool := match String.index 0 v a with Some _ => true | None => false end.

(** The order of [vs] decides, not the one of the header. *)
Definition accept (a : string) (vs : list string) : option string :=
  head (filter (λ v, Contains a v = true) vs).

Definition isAcceptable (a : string) (vs : list string) : bool :=
  if decide (length vs = 0) then true else bool_decide (is_Some (accept a vs)).

(** ** Files *)

Record file : Type := mkFile {
  f_fcc : Z;
  f_seq : Z;
  f_when : Z;
  f_sum : list byte;
  f_buf : list byte;
}.

Definition AsRaw (f : file) : list byte :=
  put_uint BigEndian 4 (f_fcc f) ++ put_uint BigEndian 4 (f_seq f) ++ put_uint BigEndian 8 (f_when f) ++ f_buf f.

(** The four-character codes of the panda package. *)
Class FourCC : Type := {
  SYNC : list byte; MMA : list byte; SVS : list byte;
  JPEG : list byte; PNG : list byte; YUY2 : list byte; Y800 : list byte; I420 : list byte;
  cc_RGB : list byte; Y16B : list byte; Y16L : list byte;
}.

(** What a constructor of an image gives to the encoder. *)
Inductive pixels : Type :=
  | Decoded (bs : list byte)
  | FromPlanes (p : planes)
  | FromGray (g : raster byte)
  | FromRGB (g : raster RGB)
  | FromGray16 (g : raster Z).

Section fetch.
Context {panda : PandaLib} {codes : FourCC}.
Context (denied : string → option error) (Sum : list byte → list byte) (FormatFloat : Z → string) (grow : nat → nat).
(** [image.Decode] and the encoders: what they accept is theirs. *)
Context (Decode : list byte → result ()) (Encode : string → pixels → result (list byte)).

Definition ModTime (f : file) : Time := AdjustGenerationTime (f_when f).

(** [AsScience]: [None] when the exporter does not end. *)
Definition AsScience (fuel : nat) (f : file) : result (option (list byte)) :=
  let fcc := put_uint BigEndian 4 (f_fcc f) in
  let finish (o : option (option error * list byte)) : result (option (list byte)) :=
    match o with
    | None => Ok None
    | Some (Some e, _) => Err e
    | Some (None, bs) => Ok (Some bs)
    end in
  if decide (fcc = SYNC) then finish (ExportSyncUnit (f_buf f) (ModTime f))
  else if decide (fcc = MMA) then finish (ExportScienceData (f_buf f) (ModTime f))
  else if decide (fcc = SVS) then o ← ExportSVSData FormatFloat fuel (f_buf f); finish o
  else Err ErrNotImplemented.

(** The cases test the JPEG code again behind the one that has caught it.
    [spare] is what the buffer's array holds behind the bytes of the file. *)
Definition AsImage (spare : list byte) (f : file) (t : string) : result (list byte) :=
  let '(x, r) := read_or_zero BigEndian 2 (Reader (f_buf f) EOF) in
  let '(y, r) := read_or_zero BigEndian 2 r in
  let x := Z.to_nat x in
  let y := Z.to_nat y in
  let buf := rd_data r in
  let fcc := put_uint BigEndian 4 (f_fcc f) in
  i ← (if decide (fcc = JPEG ∨ fcc = PNG) then _ ← Decode buf; Ok (Decoded buf)
       else if decide (fcc = JPEG ∨ fcc = YUY2) then p ← ImageLBR grow x y buf; Ok (FromPlanes p)
       else if decide (fcc = JPEG ∨ fcc = Y800) then Ok (FromGray (ImageGray8 x y buf))
       else if decide (fcc = JPEG ∨ fcc = I420) then p ← ImageI420 x y buf spare; Ok (FromPlanes p)
       else if decide (fcc = JPEG ∨ fcc = cc_RGB) then Ok (FromRGB (ImageRGB x y buf))
       else if decide (fcc = JPEG ∨ fcc = Y16B) then Ok (FromGray16 (ImageGray16 x y buf BigEndian))
       else if decide (fcc = JPEG ∨ fcc = Y16L) then Ok (FromGray16 (ImageGray16 x y buf LittleEndian))
       else Err (Errorf "not supported %x" [AInt (f_fcc f)]));
  Encode (if decide (t = "jpg" ∨ t = "jpeg") then "jpeg" else if decide (t = "gif") then "gif" else "png") i.

(** ** Reading a file *)

(** What [os.Open] and the reads of the file give; a file on the way to a path
    is not reported as a path that does not exist. *)
Inductive opened : Type :=
  | OpenFile (bs : list byte)
  | OpenDir
  | NotExist
  | OpenFailed (e : error).

Definition Open (s : fs) (p : string) : opened :=
  match denied p with
  | Some e => OpenFailed e
  | None => if decide (p ∈ fs_dirs s) then OpenDir
            else match read_file s p with
                 | Some bs => OpenFile bs
                 | None => if decide (Exists (λ d, is_Some (resolve max_links s d)) (removelast (ancestors p)))
                           then OpenFailed (ErrNotDir p) else NotExist
                 end
  end.

Definition read_field (w : nat) : rd Z := λ r,
  match ReadUint BigEndian w r with (Err _, r') => (Ok 0%Z, r') | res => res end.

(** [readFile]: [modified p] is the modification time of the file. *)
Definition parseFile (bs : list byte) : file :=
  match (fcc ← read_field 4; seq ← read_field 4; when ← read_field 8; mret (fcc, seq, when)) (Reader bs EOF) with
  | (Ok (fcc, seq, when), r) => mkFile fcc seq (swrap 64 when) (Sum (rd_data r)) (rd_data r)
  | (_, r) => mkFile 0 0 0 (Sum (rd_data r)) (rd_data r)
  end.

Definition readFile (modified : string → Time) (s : fs) (p : string) (m : Time) : result file :=
  let not_modified := negb (IsZero m) && bool_decide (Sub m (modified p) ≤ 0)%Z in
  match Open s p with
  | NotExist => Err ErrNotFound
  | OpenFailed e => Err e
  | OpenDir => if not_modified then Err ErrNotModified else Err (ErrExternal "is a directory")
  | OpenFile bs => if not_modified then Err ErrNotModified else Ok (parseFile bs)
  end.

(** ** Requests *)

Record response : Type := mkResponse {
  re_status : Z;
  re_etag : option (list byte);
  re_type : option string;
  re_modified : option Time;
  re_body : list byte;
}.

Definition StatusOK : Z := 200.
Definition StatusNotModified : Z := 304.
Definition StatusBadRequest : Z := 400.
Definition StatusNotFound : Z := 404.
Definition StatusNotAcceptable : Z := 406.
Definition StatusInternalServerError : Z := 500.
Definition StatusNotImplemented : Z := 501.

Definition status (code : Z) : response := mkResponse code None None None [].

(** [fetcher.ServeHTTP] for a path and an Accept header, without the expiry
    date of the answer, which only the clock decides; [None] when it does
    not end. *)
Definition ServeHTTP (fuel : nat) (spare : list byte) (modified : string → Time) (rawdir : string) (s : fs)
    (path a : string) : result (option response) :=
  let p := Join [rawdir; path] in
  if isAcceptable a ["application/xml"] then
    match Open s p with
    | OpenFile bs => Ok (Some (mkResponse StatusOK None None None bs))
    | OpenDir => Ok (Some (status StatusOK))
    | NotExist | OpenFailed _ => Ok (Some (status StatusNotFound))
    end
  else
    match readFile modified s p zero_time with
    | Err ErrNotFound => Ok (Some (status StatusNotFound))
    | Err ErrNotModified => Ok (Some (status StatusNotModified))
    | Err ErrNotImplemented => Ok (Some (status StatusNotImplemented))
    | Err _ => Ok (Some (status StatusBadRequest))
    | Panic w => Panic w
    | Ok f =>
        match accept a types with
        | None => Ok (Some (status StatusNotAcceptable))
        | Some mime =>
            let rs : result (option (list byte)) :=
              if decide (mime = MimeOctet) then Ok (Some (AsRaw f))
              else if decide (mime = MimeGif ∨ mime = MimeJPG ∨ mime = MimePNG) then
                t ← SubType mime; bs ← AsImage spare f t; Ok (Some bs)
              else if decide (mime = MimeCSV) then AsScience fuel f
              else Ok (Some []) in
            match rs with
            | Ok (Some bs) => Ok (Some (mkResponse StatusOK (Some (f_sum f)) (Some mime) (Some (ModTime f)) bs))
            | Ok None => Ok None
            | Err _ => Ok (Some (status StatusInternalServerError))
            | Panic w => Panic w
            end
        end
    end.
End fetch.

(** ** Lemmas *)

Section lemmas.
Context (Sum : list byte → list byte).

Lemma read_field_put w v rest e :
  in_width (8 * Z.of_nat w) v → read_field w (Reader (put_uint BigEndian w v ++ rest) e) = (Ok v, Reader rest e).
Proof. intros. unfold read_field. by rewrite ReadUint_put. Qed.

Lemma parseFile_fields fcc seq when rest :
  in_width 32 fcc → in_width 32 seq → in_width 64 when →
  parseFile Sum (put_uint BigEndian 4 fcc ++ put_uint BigEndian 4 seq ++ put_uint BigEndian 8 when ++ rest) =
  mkFile fcc seq (swrap 64 when) (Sum rest) rest.
Proof.
  intros Hf Hs Hw. unfold parseFile.
  erewrite rd_bind_ok by (by apply read_field_put). erewrite rd_bind_ok by (by apply read_field_put).
  erewrite rd_bind_ok by (by apply read_field_put). done.
Qed.

Lemma take_put o n bs : n ≤ length bs → take n bs = put_uint o n (get_uint o (take n bs)).
Proof.
  intros Hn. assert (length (take n bs) = n) as Hl by (rewrite length_take; lia).
  rewrite <-(put_get_uint o (take n bs)) at 1. by rewrite Hl.
Qed.

Lemma get_take_range o n bs : n ≤ length bs → in_width (8 * Z.of_nat n) (get_uint o (take n bs)).
Proof.
  intros Hn. assert (length (take n bs) = n) as Hl by (rewrite length_take; lia).
  rewrite <-Hl at 1. apply get_uint_range.
Qed.

(** Every file of at least 16 bytes has its three fields. *)
Lemma file_fields bs :
  16 ≤ length bs →
  ∃ fcc seq when, in_width 32 fcc ∧ in_width 32 seq ∧ in_width 64 when ∧
    bs = put_uint BigEndian 4 fcc ++ put_uint BigEndian 4 seq ++ put_uint BigEndian 8 when ++ drop 16 bs.
Proof.
  intros Hl. exists (get_uint BigEndian (take 4 bs)), (get_uint BigEndian (take 4 (drop 4 bs))),
    (get_uint BigEndian (take 8 (drop 8 bs))).
  split_and!.
  - apply (get_take_range BigEndian 4). lia.
  - apply (get_take_range BigEndian 4). rewrite length_drop. lia.
  - apply (get_take_range BigEndian 8). rewrite length_drop. lia.
  - rewrite <-!take_put by (rewrite ?length_drop; lia).
    change (drop 16 bs) with (drop (8 + 8) bs). rewrite <-drop_drop, take_drop.
    change (drop 8 bs) with (drop (4 + 4) bs). rewrite <-drop_drop, take_drop. by rewrite take_drop.
Qed.

Lemma AsRaw_parse bs : 16 ≤ length bs → AsRaw (parseFile Sum bs) = bs ∧ f_sum (parseFile Sum bs) = Sum (drop 16 bs).
Proof.
  intros Hl. destruct (file_fields bs Hl) as (fcc & seq & when & Hf & Hs & Hw & E).
  remember (drop 16 bs) as rest. clear Heqrest. subst bs. rewrite parseFile_fields by done. split; [|done].
  unfold AsRaw. cbn [f_fcc f_seq f_when f_buf].
  rewrite <-(put_uint_wrap BigEndian 8 (swrap 64 when)).
  assert (wrap (8 * Z.of_nat 8) (swrap 64 when) = when) as ->; [|done].
  change (8 * Z.of_nat 8)%Z with 64%Z. unfold swrap. rewrite !(wrap_small 64 when) by done.
  case_decide; [by apply wrap_small|]. unfold wrap. rewrite <-(Z_mod_plus_full _ 1).
  replace (when - 2 ^ 64 + 1 * 2 ^ 64)%Z with when by lia. by apply Z.mod_small.
Qed.

Lemma accept_first a v vs : Contains a v = true → accept a (v :: vs) = Some v.
Proof. intros H. unfold accept. by rewrite filter_cons_True. Qed.

Lemma not_acceptable a v : Contains a v = false → isAcceptable a [v] = false.
Proof.
  intros H. unfold isAcceptable, accept. rewrite decide_False by done. rewrite filter_cons_False by (by rewrite H).
  apply bool_decide_false. by intros [].
Qed.
End lemmas.

(** ** Theorems *)

Section theorems.
Context {panda : PandaLib} {codes : FourCC}.
Context (Sum : list byte → list byte) (FormatFloat : Z → string) (grow : nat → nat).
Context (Decode : list byte → result ()) (Encode : string → pixels → result (list byte)).

Lemma serve_raw denied fuel spare modified rawdir s path a bs :
  Open denied s (Join [rawdir; path]) = OpenFile bs → 16 ≤ length bs →
  Contains a "application/xml" = false → Contains a MimeOctet = true →
  ServeHTTP denied Sum FormatFloat grow Decode Encode fuel spare modified rawdir s path a =
  Ok (Some (mkResponse StatusOK (Some (Sum (drop 16 bs))) (Some MimeOctet)
    (Some (ModTime (parseFile Sum bs))) bs)).
Proof.
  intros Ho Hl Hx Ha. unfold ServeHTTP. rewrite not_acceptable by done. cbv zeta.
  unfold readFile. rewrite Ho. assert (IsZero zero_time = true) as -> by done. cbn [negb andb].
  unfold types. rewrite accept_first by done. rewrite decide_True by done.
  destruct (AsRaw_parse Sum bs Hl) as [-> ->]. done.
Qed.

(** C3: a packet that was stored in the raw format is served byte for byte to
    a client that accepts any bytes, with the checksum of all but the first 16
    as its tag. *)
Theorem stored_is_served encodeMetadata fl i p r dir segs s bs ms fuel spare modified rawdir path a :
  Can (Some (fl_Control fl)) p = true → directory_of (fl_data fl) i p = dir → path_is r dir segs →
  simple_name (Filename p) → ready p dir s → fl_links fl = [] → Ext (Filename p) ≠ BAD →
  fl_raw fl = true → encodeRawPacket p = Ok bs → 16 ≤ length bs → encodeMetadata p = Ok ms → ms ≠ [] →
  Join [rawdir; path] = Join [dir; Filename p] →
  Contains a "application/xml" = false → Contains a MimeOctet = true →
  ∃ s' when, filestore_Store healthy encodeMetadata fl i p s = (Ok (), s') ∧
    ServeHTTP healthy Sum FormatFloat grow Decode Encode fuel spare modified rawdir s' path a =
    Ok (Some (mkResponse StatusOK (Some (Sum (drop 16 bs))) (Some MimeOctet) when bs)).
Proof.
  intros Hcan Hdir Hpath Hname Hs Hl Hext Hraw He Hlen Hm Hne Hp Hx Ha.
  destruct (stores_packet encodeMetadata fl i p r dir segs Hcan Hdir Hpath Hname s bs ms) as
    (s' & Hst & Hread & _ & _ & _ & Hd & _); try done.
  { unfold encode. by rewrite Hraw. }
  exists s'. eexists. split; [done|]. apply serve_raw; try done.
  unfold Open, healthy. rewrite Hp, decide_False; [by rewrite Hread|]. rewrite Hd. apply Hs.
Qed.

(** Fact: the server never answers that a file is unchanged: it always asks for
    the file as of the zero time. *)
Theorem never_not_modified denied fuel spare modified rawdir s path a res :
  (∀ p, denied p ≠ Some ErrNotModified) →
  ServeHTTP denied Sum FormatFloat grow Decode Encode fuel spare modified rawdir s path a = Ok (Some res) → re_status res ≠ StatusNotModified.
Proof.
  intros Hd. unfold ServeHTTP. cbv zeta.
  destruct (isAcceptable a _); [by destruct (Open _ _ _); intros [= <-]|].
  destruct (readFile _ _ _ _ _ _) as [f|e|w] eqn:E; [|destruct e; intros [= <-]; try done|done].
  - destruct (accept a types); [|by intros [= <-]]. destruct (if decide _ then _ else _) as [[bs|]|e|w]; by intros [= <-].
  - exfalso. revert E. unfold readFile. assert (IsZero zero_time = true) as -> by done. cbn [negb andb].
    unfold Open. destruct (denied _) as [e|] eqn:Ed; [intros [= ->]; by apply (Hd _ Ed)|].
    case_decide; [done|]. destruct (read_file _ _); [done|]. by case_decide.
Qed.
End theorems.

(** ** Examples *)

#[export] Instance sample_codes : FourCC := {|
  SYNC := bytes_of "SYNC"; MMA := bytes_of "MMA "; SVS := bytes_of "SVS ";
  JPEG := bytes_of "JPEG"; PNG := bytes_of "PNG "; YUY2 := bytes_of "YUY2"; Y800 := bytes_of "Y800"; I420 := bytes_of "I420";
  cc_RGB := bytes_of "RGB "; Y16B := bytes_of "Y16B"; Y16L := bytes_of "Y16L";
|}.

Definition sample_encode (t : string) (i : pixels) : result (list byte) :=
  match i with FromGray g => Ok (bytes_of t ++ ra_pix g) | _ => Err (ErrExternal "cannot encode") end.

Definition sample_serve (s : fs) (path a : string) : result (option response) :=
  ServeHTTP healthy (take 2) Sprint (λ n, n) (λ _, Ok ()) sample_encode 100 [] (λ _, zero_time) "/data" s path a.

Lemma stored_is_served_witness :
  let bs := match encodeRawPacket sample_good with Ok bs => bs | _ => [] end in
  ∃ s' when, filestore_Store healthy sample_metadata (sample_filestore "/data" []) 255 sample_good sample_fs = (Ok (), s') ∧
    sample_serve s' ("OPS/images/realtime/51/2020/006/00/" +:+ Filename sample_good) "text/html, application/octet-stream" =
    Ok (Some (mkResponse StatusOK (Some (take 2 (drop 16 bs))) (Some MimeOctet) when bs)).
Proof.
  cbv zeta. unfold sample_serve.
  apply (stored_is_served (take 2) Sprint (λ n, n) (λ _, Ok ()) sample_encode sample_metadata (sample_filestore "/data" [])
    255 sample_good true sample_dir ["data"; "OPS"; "images"; "realtime"; "51"; "2020"; "006"; "00"] sample_fs _ [x3c; x3e]).
  - by vm_compute.
  - by vm_compute.
  - apply sample_dir_path.
  - by compute_decide.
  - apply sample_ready; [apply sample_fs_wf|by right|by compute_decide| |left; by compute_decide].
    do 2 (apply Forall_cons; split; [split; [by compute_decide|by vm_compute]|]). constructor.
  - done.
  - by compute_decide.
  - done.
  - by vm_compute.
  - by compute_decide.
  - done.
  - done.
  - by vm_compute.
  - by vm_compute.
  - by vm_compute.
Defined.

(** A file that is asked for as an image is decoded and encoded again; one
    that nobody knows is not found; a header without a known type is not
    acceptable. *)
Example serve_image :
  let bs := bytes_of "Y800" ++ replicate 12 x00 ++ [x00; x02; x00; x01; xaa; xbb] in
  let s := (WriteFile healthy "/data/f.dat" bs (MkdirAll healthy "/data" empty_fs).2).2 in
  match sample_serve s "f.dat" "image/png", sample_serve s "g.dat" "image/png", sample_serve s "f.dat" "text/html" with
  | Ok (Some a), Ok (Some b), Ok (Some c) =>
      re_body a = bytes_of "png" ++ [xaa; xbb] ∧ re_status b = StatusNotFound ∧ re_status c = StatusNotAcceptable
  | _, _, _ => False
  end.
Proof. by vm_compute. Qed.

Lemma never_not_modified_witness :
  re_status (status StatusNotFound) ≠ StatusNotModified.
Proof.
  eapply (never_not_modified (take 2) Sprint (λ n, n) (λ _, Ok ()) sample_encode healthy 100 [] (λ _, zero_time)
    "/data" empty_fs "f.dat" "text/csv"); [done|by vm_compute].
Defined.
