(* ===== verification/Serve.v ===== *)
(** * Serve: from stored packets to tables and images over HTTP

    What the broker stores is what the distributor converts: the header that
    [encodeRawPacket] writes is the one [readFile] reads, and the code in it
    chooses the exporter or the image.  This file composes Storage.v, Files.v,
    Science.v, Images.v and Fetch.v. *)

From S2P Require Import Prelude Bytes GoStd Text Panda.
From S2P Require Import Storage Fs Files Science Images Fetch.
From Stdlib Require Import ZArith Lia.

(** ** The header of a stored file *)

(** The time that a stored file begins with: the acquisition time of the second
    version of the headers, of the packet itself otherwise. *)
Definition stored_time (p : HRPacket) : option Z :=
  let eight (f : fixed) := match f with [Scalar 8 w] => Some w | _ => None end in
  match p with
  | Table _ _ s => match sdh_type s with IsSDHv2 s => eight (s2_Acquisition s) | _ => Some (t_sec (Timestamp p)) end
  | Image _ _ i => match idh_type i with IsIDHv2 i => eight (i2_Acquisition i) | _ => Some (t_sec (Timestamp p)) end
  | OtherPacket _ => None
  end.

Definition file_header (c : Z) (p : HRPacket) (w : Z) : list byte :=
  put_uint BigEndian 4 c ++ put_uint BigEndian 4 (Sequence p) ++ put_uint BigEndian 8 w.

Lemma eight_bytes f w :
  match f with [Scalar 8 w] => Some w | _ => None end = Some w → binary_Write BigEndian f = put_uint BigEndian 8 w.
Proof.
  destruct f as [|[n v] [|? ?]]; try done; do 9 (destruct n as [|n]; try done). intros [= ->]. apply binary_Write_scalar.
Qed.

Lemma encode_table h v s c w :
  sdh_Four s = Some (u32 c) → stored_time (Table h v s) = Some w →
  encodeRawPacket (Table h v s) = Ok (file_header c (Table h v s) w ++ hr_Payload h).
Proof.
  intros Hc Hw. unfold encodeRawPacket, file_header. rewrite Hc, <-!(assoc_L app). unfold u32. rewrite !binary_Write_scalar.
  do 3 f_equal. unfold stored_time in Hw. f_equal. destruct (sdh_type s); try (by apply eight_bytes);
    injection Hw as <-; apply binary_Write_scalar.
Qed.

Lemma encode_image h v i c x y w :
  idh_Bitmap i = Some (u32 c, u16 x, u16 y) → stored_time (Image h v i) = Some w →
  encodeRawPacket (Image h v i) =
  Ok (file_header c (Image h v i) w ++ put_uint BigEndian 2 x ++ put_uint BigEndian 2 y ++ hr_Payload h).
Proof.
  intros Hc Hw. unfold encodeRawPacket, file_header. rewrite Hc, <-!(assoc_L app). unfold u32, u16. rewrite !binary_Write_scalar.
  do 3 f_equal. unfold stored_time in Hw. f_equal. destruct (idh_type i); try (by apply eight_bytes);
    injection Hw as <-; apply binary_Write_scalar.
Qed.

(** What [readFile] makes of the header. *)
Lemma parse_stored Sum c p w rest :
  parseFile Sum (file_header c p w ++ rest) = mkFile (wrap 32 c) (wrap 32 (Sequence p)) (swrap 64 w) (Sum rest) rest.
Proof.
  unfold file_header. rewrite <-(put_uint_wrap BigEndian 4 c), <-(put_uint_wrap BigEndian 4 (Sequence p)),
    <-(put_uint_wrap BigEndian 8 w), <-!(assoc_L app).
  rewrite parseFile_fields by (apply wrap_range; lia). by rewrite swrap_wrap by done.
Qed.

(** The code of a stored file. *)
Lemma parse_code Sum c p w rest :
  put_uint BigEndian 4 (f_fcc (parseFile Sum (file_header c p w ++ rest))) = put_uint BigEndian 4 c.
Proof. rewrite parse_stored. apply (put_uint_wrap BigEndian 4). Qed.

(** ** Conversions *)
Section serve.
Context {panda : PandaLib} {codes : FourCC}.
Context (Sum : list byte → list byte) (FormatFloat : Z → string) (grow : nat → nat).
Context (Decode : list byte → result ()) (Encode : string → pixels → result (list byte)).
Context (modified : string → Time) (spare : list byte) (rawdir : string) (fuel : nat).

#[local] Abbreviation serve := (ServeHTTP healthy Sum FormatFloat grow Decode Encode fuel spare modified rawdir).

(** The answer to a client that got what it asked for. *)
Definition converted (f : file) (mime : string) (out : list byte) : response :=
  mkResponse StatusOK (Some (f_sum f)) (Some mime) (Some (ModTime f)) out.

Lemma answers_table s path a bs out :
  Open healthy s (Join [rawdir; path]) = OpenFile bs → Contains a "application/xml" = false →
  accept a types = Some MimeCSV → AsScience FormatFloat fuel (parseFile Sum bs) = Ok (Some out) →
  serve s path a = Ok (Some (converted (parseFile Sum bs) MimeCSV out)).
Proof.
  intros Ho Hx Ha Hs. unfold ServeHTTP. rewrite not_acceptable by done. cbv zeta. unfold readFile. rewrite Ho.
  assert (IsZero zero_time = true) as -> by done. cbn [negb andb]. rewrite Ha.
  rewrite !decide_False by (compute_decide || intros [|[|]]; done). rewrite decide_True by done. by rewrite Hs.
Qed.

Lemma answers_image s path a bs mime t out :
  Open healthy s (Join [rawdir; path]) = OpenFile bs → Contains a "application/xml" = false →
  accept a types = Some mime → (mime, t) ∈ [(MimeGif, "gif"); (MimePNG, "png"); (MimeJPG, "jpeg")] →
  AsImage grow Decode Encode spare (parseFile Sum bs) t = Ok out →
  serve s path a = Ok (Some (converted (parseFile Sum bs) mime out)).
Proof.
  intros Ho Hx Ha Ht Hi. unfold ServeHTTP. rewrite not_acceptable by done. cbv zeta. unfold readFile. rewrite Ho.
  assert (IsZero zero_time = true) as -> by done. cbn [negb andb]. rewrite Ha.
  assert (mime ≠ MimeOctet ∧ (mime = MimeGif ∨ mime = MimeJPG ∨ mime = MimePNG) ∧ SubType mime = Ok t) as (H1 & H2 & H3).
  { repeat (apply elem_of_cons in Ht as [[= -> ->]|Ht]; [by split_and!; auto|]). by apply elem_of_nil in Ht. }
  rewrite decide_False by done. rewrite decide_True by done. rewrite H3. cbn [mbind result_bind]. by rewrite Hi.
Qed.

Lemma fails_table s path a bs e :
  Open healthy s (Join [rawdir; path]) = OpenFile bs → Contains a "application/xml" = false →
  accept a types = Some MimeCSV → AsScience FormatFloat fuel (parseFile Sum bs) = Err e →
  serve s path a = Ok (Some (status StatusInternalServerError)).
Proof.
  intros Ho Hx Ha Hs. unfold ServeHTTP. rewrite not_acceptable by done. cbv zeta. unfold readFile. rewrite Ho.
  assert (IsZero zero_time = true) as -> by done. cbn [negb andb]. rewrite Ha.
  rewrite !decide_False by (compute_decide || intros [|[|]]; done). rewrite decide_True by done. by rewrite Hs.
Qed.

(** What a store leaves to open. *)
Lemma stored_opens encodeMetadata fl i p r dir segs s bs ms path :
  Can (Some (fl_Control fl)) p = true → directory_of (fl_data fl) i p = dir → path_is r dir segs →
  simple_name (Filename p) → ready p dir s → fl_links fl = [] → Ext (Filename p) ≠ BAD →
  encode fl p = Ok bs → encodeMetadata p = Ok ms → ms ≠ [] → Join [rawdir; path] = Join [dir; Filename p] →
  ∃ s', filestore_Store healthy encodeMetadata fl i p s = (Ok (), s') ∧
    Open healthy s' (Join [rawdir; path]) = OpenFile bs.
Proof.
  intros Hcan Hdir Hpath Hname Hs Hl Hext He Hm Hne Hp.
  destruct (stores_packet encodeMetadata fl i p r dir segs Hcan Hdir Hpath Hname s bs ms) as
    (s' & Hst & Hread & _ & _ & _ & Hd & _); try done.
  exists s'. split; [done|]. unfold Open, healthy. rewrite Hp, decide_False; [by rewrite Hread|]. rewrite Hd. apply Hs.
Qed.

(** What [AsScience] makes of a stored table of measures. *)
Lemma science_table c p w wss tail :
  put_uint BigEndian 4 c = MMA → MMA ≠ SYNC → Payload p = concat (wire_words <$> wss) ++ tail →
  Forall words_ok wss → length tail < 64 →
  let res := AsScience FormatFloat fuel (parseFile Sum (file_header c p w ++ Payload p)) in
  if decide (tail = []) then
    res = Ok (Some (csv_rows (science_render (Format_RFC3339 (AdjustGenerationTime (swrap 64 w)))
      (Sprint (2 * Z.of_nat (length wss)))) 1 wss))
  else ∃ e, res = Err e.
Proof.
  intros Hmma Hsync Hpay Hwss Ht res. subst res. unfold AsScience.
  rewrite parse_code, Hmma, (decide_False (P := MMA = SYNC)), (decide_True (P := MMA = MMA)) by done. unfold ModTime. rewrite parse_stored.
  cbn [f_when f_buf]. rewrite Hpay. case_decide as Hd.
  - by rewrite Hd, app_nil_r, science_lines.
  - assert (0 < length tail) by (destruct tail; [by destruct Hd|simpl; lia]).
    rewrite science_truncated by done || lia. by eexists.
Qed.

(** ** Theorems *)

(** C4: end to end: a table of measures (code MMA, which is not SYNC's) that is
    not a corrupted copy and that a storage in the raw format, without shares,
    has just written to a healthy file system is answered to a client that
    asks for text: when the payload is made of whole records of 64 bytes, with
    one line for each, in order, numbered from 1, each with the time of the
    packet's header and its 32 values, and with a total that is twice the
    number of lines; when anything is left behind the last whole record, with
    the status of a server error and no line. *)
Theorem stored_table_is_exported encodeMetadata fl i h v sdh r dir segs s ms c w wss tail path a :
  let p := Table h v sdh in
  Can (Some (fl_Control fl)) p = true → directory_of (fl_data fl) i p = dir → path_is r dir segs →
  simple_name (Filename p) → ready p dir s → fl_links fl = [] → Ext (Filename p) ≠ BAD → fl_raw fl = true →
  encodeMetadata p = Ok ms → ms ≠ [] → Join [rawdir; path] = Join [dir; Filename p] →
  sdh_Four sdh = Some (u32 c) → put_uint BigEndian 4 c = MMA → MMA ≠ SYNC → stored_time p = Some w →
  Payload p = concat (wire_words <$> wss) ++ tail → Forall words_ok wss → length tail < 64 →
  Contains a "application/xml" = false → accept a types = Some MimeCSV →
  let when := AdjustGenerationTime (swrap 64 w) in
  ∃ s', filestore_Store healthy encodeMetadata fl i p s = (Ok (), s') ∧
    serve s' path a = Ok (Some (
      if decide (tail = []) then
        mkResponse StatusOK (Some (Sum (Payload p))) (Some MimeCSV) (Some when)
          (csv_rows (science_render (Format_RFC3339 when) (Sprint (2 * Z.of_nat (length wss)))) 1 wss)
      else status StatusInternalServerError)).
Proof.
  intros p Hcan Hdir Hpath Hname Hs Hl Hext Hraw Hm Hne Hp Hc Hmma Hsync Hw Hpay Hwss Ht Hx Ha when.
  destruct (stored_opens encodeMetadata fl i p r dir segs s (file_header c p w ++ Payload p) ms path) as (s' & Hst & Ho);
    try done. { unfold encode. rewrite Hraw. by apply encode_table. }
  exists s'. split; [done|]. pose proof (science_table c p w wss tail Hmma Hsync Hpay Hwss Ht) as Hrows.
  case_decide.
  - rewrite (answers_table _ _ _ _ _ Ho Hx Ha Hrows). unfold converted. by rewrite parse_stored.
  - destruct Hrows as [e He]. by apply (fails_table _ _ _ _ e Ho Hx Ha).
Qed.

(** What [AsImage] makes of a stored image: the size of the header and the
    payload behind it. *)
Lemma image_size h v i c w x y rest bs :
  in_width 16 x → in_width 16 y →
  bs = file_header c (Image h v i) w ++ put_uint BigEndian 2 x ++ put_uint BigEndian 2 y ++ rest →
  Images.read_or_zero BigEndian 2 (Reader (f_buf (parseFile Sum bs)) EOF) = (x, Reader (put_uint BigEndian 2 y ++ rest) EOF) ∧
  Images.read_or_zero BigEndian 2 (Reader (put_uint BigEndian 2 y ++ rest) EOF) = (y, Reader rest EOF).
Proof. intros Hx Hy ->. rewrite parse_stored. cbn [f_buf]. by rewrite !read_or_zero_put. Qed.

(** C39: end to end: a gray image (code Y800, which is no other format's) that is
    not a corrupted copy and that a storage in the raw format, without shares,
    has just written to a healthy file system is answered to a client that asks
    for an image with the image in its format: what is encoded are the bytes of
    the packet's payload, row after row, as many as the size in the packet's
    header says, black where the payload ends.  The encoders are the standard
    library's, and the image is one they accept. *)
Theorem stored_image_is_drawn encodeMetadata fl i h v idh r dir segs s ms c w x y mime t out path a :
  let p := Image h v idh in
  Can (Some (fl_Control fl)) p = true → directory_of (fl_data fl) i p = dir → path_is r dir segs →
  simple_name (Filename p) → ready p dir s → fl_links fl = [] → Ext (Filename p) ≠ BAD → fl_raw fl = true →
  encodeMetadata p = Ok ms → ms ≠ [] → Join [rawdir; path] = Join [dir; Filename p] →
  idh_Bitmap idh = Some (u32 c, u16 x, u16 y) → in_width 16 x → in_width 16 y → put_uint BigEndian 4 c = Y800 →
  Y800 ∉ [JPEG; PNG; YUY2] → stored_time p = Some w →
  Contains a "application/xml" = false → accept a types = Some mime →
  (mime, t) ∈ [(MimeGif, "gif"); (MimePNG, "png"); (MimeJPG, "jpeg")] →
  let n := Z.to_nat x * Z.to_nat y in
  Encode t (FromGray (mkRaster (Z.to_nat x) (take n (Payload p ++ replicate n x00)))) = Ok out →
  ∃ s' res, filestore_Store healthy encodeMetadata fl i p s = (Ok (), s') ∧
    serve s' path a = Ok (Some res) ∧ re_status res = StatusOK ∧ re_type res = Some mime ∧ re_body res = out.
Proof.
  intros p Hcan Hdir Hpath Hname Hs Hl Hext Hraw Hm Hne Hp Hc Hwx Hwy Hcode Hother Hw Hx Ha Ht n Hout.
  set (bs := file_header c p w ++ put_uint BigEndian 2 x ++ put_uint BigEndian 2 y ++ Payload p).
  destruct (stored_opens encodeMetadata fl i p r dir segs s bs ms path) as (s' & Hst & Ho); try done.
  { unfold encode. rewrite Hraw. by apply encode_image. }
  exists s', (converted (parseFile Sum bs) mime out). split; [done|]. split; [|done].
  apply (answers_image _ _ _ _ mime t out Ho Hx Ha Ht). unfold AsImage.
  destruct (image_size h v idh c w x y (Payload p) bs Hwx Hwy eq_refl) as [-> ->]. cbv zeta. cbn [rd_data].
  unfold bs. rewrite parse_code, Hcode.
  assert (Y800 ≠ JPEG ∧ Y800 ≠ PNG ∧ Y800 ≠ YUY2) as (H1 & H2 & H3) by (rewrite !not_elem_of_cons in Hother; naive_solver).
  rewrite (decide_False (P := Y800 = JPEG ∨ Y800 = PNG)) by naive_solver.
  rewrite (decide_False (P := Y800 = JPEG ∨ Y800 = YUY2)) by naive_solver.
  rewrite (decide_True (P := Y800 = JPEG ∨ Y800 = Y800)) by auto. cbn [mbind result_bind].
  rewrite ImageGray8_pixels. fold n.
  assert ((if decide (t = "jpg" ∨ t = "jpeg") then "jpeg" else if decide (t = "gif") then "gif" else "png") = t) as ->; [|done].
  repeat (apply elem_of_cons in Ht as [[= -> ->]|Ht]; [done|]). by apply elem_of_nil in Ht.
Qed.
End serve.

(** ** Examples *)

Definition sample_measures : HRPacket := sample_table "OPS" 1 true (concat (wire_words <$> [sample_words; sample_words])).

(** The directory of the tables, and that it can be made. *)
Definition sample_measures_dir : string := directory_of (fl_data (sample_filestore "/data" [])) 255 sample_measures.

Lemma sample_measures_ready : ready sample_measures sample_measures_dir sample_fs.
Proof.
  split; [apply sample_fs_wf|by compute_decide|split; [by compute_decide|done]|split; [by compute_decide|done]|done].
Qed.

Lemma stored_table_is_exported_witness :
  ∃ s' tag when, filestore_Store healthy sample_metadata (sample_filestore "/data" []) 255 sample_measures sample_fs = (Ok (), s') ∧
    sample_serve s' (Join ["OPS/sciences/realtime/51/2020/006/00"; Filename sample_measures]) "text/csv" =
    Ok (Some (mkResponse StatusOK tag (Some MimeCSV) when
      (csv_rows (science_render "1980-01-06T00:01:40Z" "4") 1 [sample_words; sample_words]))).
Proof.
  unfold sample_serve.
  destruct (stored_table_is_exported (take 2) Sprint (λ n, n) (λ _, Ok ()) sample_encode (λ _, zero_time) [] "/data" 100
    sample_metadata (sample_filestore "/data" []) 255 (info sample_measures) (sample_vmu 3)
    (mkSDH (IsSDHv2 (mkSDHv2 (u8 1) (u32 7) (u8 0x51) (i64 100) (i64 200) (u16 3) (pad32 "OPS"))) (Some (u32 0x4d4d4120)))
    true sample_measures_dir ["data"; "OPS"; "sciences"; "realtime"; "51"; "2020"; "006"; "00"] sample_fs [x3c; x3e]
    0x4d4d4120 100 [sample_words; sample_words] [] (Join ["OPS/sciences/realtime/51/2020/006/00"; Filename sample_measures]) "text/csv")
    as (s' & Hs & Hr).
  - by vm_compute.
  - by vm_compute.
  - by split; [compute_decide|].
  - by compute_decide.
  - apply sample_measures_ready.
  - done.
  - by vm_compute.
  - done.
  - done.
  - done.
  - by vm_compute.
  - done.
  - by vm_compute.
  - by vm_compute.
  - done.
  - done.
  - by compute_decide.
  - simpl. lia.
  - by vm_compute.
  - by vm_compute.
  - exists s'. eexists _, _. split; [exact Hs|]. apply Hr.
Defined.

(** The image is larger than its payload: the rest is black. *)
Lemma stored_image_is_drawn_witness :
  ∃ s' res, filestore_Store healthy sample_metadata (sample_filestore "/data" []) 255 sample_good sample_fs = (Ok (), s') ∧
    sample_serve s' (Join ["OPS/images/realtime/51/2020/006/00"; Filename sample_good]) "image/png,*/*" = Ok (Some res) ∧
    re_status res = StatusOK ∧ re_type res = Some MimePNG ∧
    re_body res = bytes_of "png" ++ take (320 * 240) ([x01; x02] ++ replicate (320 * 240) x00).
Proof.
  unfold sample_serve.
  eapply (stored_image_is_drawn (take 2) Sprint (λ n, n) (λ _, Ok ()) sample_encode (λ _, zero_time) [] "/data" 100
    sample_metadata (sample_filestore "/data" []) 255 (info sample_good) (sample_vmu 1)
    (match sample_good with Image _ _ i => i | _ => mkIDH OtherIDH None end)
    true sample_dir ["data"; "OPS"; "images"; "realtime"; "51"; "2020"; "006"; "00"] sample_fs [x3c; x3e]
    0x59383030 100 320 240 MimePNG "png").
  - by vm_compute.
  - by vm_compute.
  - apply sample_dir_path.
  - by compute_decide.
  - apply sample_ready; [apply sample_fs_wf|by right|by compute_decide| |by left; vm_compute].
    do 2 (apply Forall_cons; split; [split; [by compute_decide|by vm_compute]|]). constructor.
  - done.
  - by vm_compute.
  - done.
  - done.
  - done.
  - by vm_compute.
  - done.
  - by compute_decide.
  - by compute_decide.
  - by vm_compute.
  - by compute_decide.
  - done.
  - by vm_compute.
  - by vm_compute.
  - by compute_decide.
  - exact eq_refl.
Defined.
