(* ===== verification/Browse.v ===== *)
(** * Browse: listings and downloads of directories (src/distrib/browse.go,
      src/distrib/archive.go)

    A listing takes the names of the files apart; a download writes all the
    files below a directory into a tar or zip archive, in the order of
    [filepath.Walk].  Sorted directories, opened files and the archive formats
    are inputs (Catalogue.v and Walk.v take them from the file system); of
    [tar.Writer] the model has the account of the bytes an entry still
    expects. *)

From S2P Require Import Prelude Bytes GoStd Text.
From Stdlib Require Import ZArith Lia Ascii.

(** ** [strconv] and [time.Parse] *)

Fixpoint digits_value (acc : Z) (s : string) : option Z :=
  match s with
  | EmptyString => Some acc
  | String a s => if is_digit a then digits_value (10 * acc + digit_val a) s else None
  end.

Definition clamp64 (z : Z) : Z := Z.max (- 2 ^ 63) (Z.min (2 ^ 63 - 1) z).

(** [strconv.Atoi] and [ParseInt(s, 10, 64)] without the error: 0 for what is
    no number, the nearest bound for one out of range. *)
Definition Atoi (s : string) : Z :=
  let number s := match s with EmptyString => 0%Z | _ => default 0%Z (digits_value 0 s) end in
  match s with
  | String "-" s => clamp64 (- number s)
  | String "+" s => clamp64 (number s)
  | _ => clamp64 (number s)
  end.

(** [strconv.ParseBool] without the error. *)
Definition ParseBool (s : string) : bool := bool_decide (s ∈ ["1"; "t"; "T"; "true"; "TRUE"; "True"]).

(** Days from the Unix epoch to a date. *)
Definition days_from_civil (y m d : Z) : Z :=
  let years := (365 * (y - 1) + (y - 1) / 4 - (y - 1) / 100 + (y - 1) / 400)%Z in
  let before := default 0%Z (days_before !! Z.to_nat (m - 1)) in
  let leap := if is_leap y && bool_decide (2 < m)%Z then 1%Z else 0%Z in
  (years + before + leap + (d - 1) - 719162)%Z.

Definition days_in (y m : Z) : Z :=
  if decide (m = 2)%Z then (if is_leap y then 29 else 28)%Z
  else if decide (m ∈ [4; 6; 9; 11]%Z) then 30%Z else 31%Z.

(** [time.Parse("20060102_150405", s)] without the error: the zero time for
    what does not parse. *)
Definition ParseTime (s : string) : Time :=
  let part i n := digits_value 0 (String.substring i n s) in
  match part 0 4, part 4 2, part 6 2, part 9 2, part 11 2, part 13 2 with
  | Some y, Some mo, Some d, Some h, Some mi, Some se =>
      if decide (String.length s = 15 ∧ String.get 8 s = Some "_"%char ∧
                 (1 ≤ mo ≤ 12 ∧ 1 ≤ d ≤ days_in y mo ∧ h < 24 ∧ mi < 60 ∧ se < 60)%Z)
      then mkTime (86400 * days_from_civil y mo d + 3600 * h + 60 * mi + se) 0 0 else zero_time
  | _, _, _, _, _, _ => zero_time
  end.

Example ParseTime_date : ParseTime "20200229_135959" = mkTime 1582984799 0 0.
Proof. by vm_compute. Qed.
Example ParseTime_format : Format_compact (ParseTime "19991231_235959") = "19991231235959".
Proof. by vm_compute. Qed.
Example ParseTime_wrong : ParseTime "20190229_135959" = zero_time ∧ ParseTime "7_20200229" = zero_time.
Proof. by vm_compute. Qed.

(** ** [readDir] *)

(** [strings.FieldsFunc(s, split)]: the non-empty pieces between the runes
    that split. *)
Fixpoint fields_loop (split : ascii → bool) (s current : string) : list string :=
  match s with
  | EmptyString => if decide (current = "") then [] else [current]
  | String a s =>
      if split a then (if decide (current = "") then [] else [current]) ++ fields_loop split s ""
      else fields_loop split s (current +:+ String a EmptyString)
  end.

Definition FieldsFunc (split : ascii → bool) (s : string) : list string := fields_loop split s "".

Definition splits (a : ascii) : bool := bool_decide (a = "_"%char ∨ a = "."%char).

(** A directory entry, and what is listed of it. *)
Record dir_entry : Type := mkDirEntry { de_Name : string; de_Size : Z; de_ModTime : Time; de_IsDir : bool }.

Record info : Type := mkInfo {
  in_Name : string; in_Mod : Time; in_Size : Z; in_Regular : bool;
  in_Acq : Time; in_Ori : Z; in_Seq : Z; in_Format : string;
}.

(** One turn of the loop: [None] for an entry that is not listed. *)
Definition list_entry (i : dir_entry) : result (option info) :=
  if decide (Ext (de_Name i) = ".xml") then Ok None
  else
    let name := Base (de_Name i) in
    if de_IsDir i then Ok (Some (mkInfo name (de_ModTime i) (de_Size i) false zero_time 0 0 ""))
    else match FieldsFunc splits name with
         | f0 :: f1 :: f2 :: f3 :: f4 :: _ =>
             Ok (Some (mkInfo name (de_ModTime i) (de_Size i) true (ParseTime (f2 +:+ "_" +:+ f3)) (Atoi f0) (Atoi f1) f4))
         | _ => Panic "index out of range"
         end.

(** The goroutine: its panic ends the program. *)
Fixpoint readDir (infos : list dir_entry) : result (list info) :=
  match infos with
  | [] => Ok []
  | i :: infos => n ← list_entry i; q ← readDir infos; Ok (option_list n ++ q)
  end.

(** ** Downloads *)

Record query : Type := mkQuery { q_File : string; q_Type : string; q_Level : Z; q_Flat : bool; q_Meta : bool }.

(** [r.Form.Get(key)] *)
Definition form_get (form : list (string * string)) (key : string) : string :=
  default "" (snd <$> head (filter (λ kv, kv.1 = key) form)).

Definition parseQuery (form : result (list (string * string))) (now : Time) : result query :=
  f ← form;
  let file := form_get f "filename" in
  Ok (mkQuery (if decide (file = "") then "archive_" +:+ Format_compact now else file)
        (form_get f "type") (Atoi (form_get f "level")) false (ParseBool (form_get f "meta"))).

(** What the walk passes to its function: an error, a directory, or something
    else with its size by [Lstat] and what opening and reading it gives. *)
Inductive visit : Type :=
  | VisitError (e : error)
  | VisitDir (p : string)
  | VisitFile (p : string) (size : Z) (content : option (list byte)).

(** [tar.Writer]: the headers and data written, and the bytes the last entry
    still expects. *)
Record tar_writer : Type := mkTarWriter { tw_entries : list (string * Z * list byte); tw_left : Z }.

Definition ErrWriteTooLong : error := ErrExternal "archive/tar: write too long".
Definition ErrMissing : error := ErrExternal "archive/tar: missed writing bytes".

Definition WriteHeader (n : string) (size : Z) (w : tar_writer) : option error * tar_writer :=
  if decide (0 < tw_left w)%Z then (Some ErrMissing, w)
  else (None, mkTarWriter (tw_entries w ++ [(n, size, [])]) size).

(** [io.Copy(tw, f)] into the last entry. *)
Definition Copy (bs : list byte) (w : tar_writer) : option error * tar_writer :=
  let fit := take (Z.to_nat (tw_left w)) bs in
  let entries := match rev (tw_entries w) with
                 | [] => []
                 | (n, size, data) :: es => rev ((n, size, data ++ fit) :: es)
                 end in
  (if decide (length fit < length bs) then Some ErrWriteTooLong else None,
   mkTarWriter entries (tw_left w - Z.of_nat (length fit))).

Definition skipped (meta : bool) (p : string) : bool := negb meta && bool_decide (Ext p = ".xml").

(** [strings.TrimPrefix] *)
Definition TrimPrefix (s x : string) : string :=
  if HasPrefix s x then String.substring (String.length x) (String.length s - String.length x) s else s.

Definition entry_name (strip : string) (flat : bool) (p : string) : string :=
  if flat then Base p else TrimPrefix p strip.

(** [writeTar]: the walk stops at the first error of its function. *)
Fixpoint writeTar (strip : string) (flat meta : bool) (vs : list visit) (w : tar_writer) : option error * tar_writer :=
  match vs with
  | [] => (None, w)
  | VisitError e :: _ => (Some e, w)
  | VisitDir _ :: vs => writeTar strip flat meta vs w
  | VisitFile p size content :: vs =>
      if skipped meta p then writeTar strip flat meta vs w
      else match content with
           | None => writeTar strip flat meta vs w
           | Some bs =>
               match WriteHeader (entry_name strip flat p) size w with
               | (Some e, w) => (Some e, w)
               | (None, w) =>
                   match Copy bs w with
                   | (Some e, w) => (Some e, w)
                   | (None, w) => writeTar strip flat meta vs w
                   end
               end
           end
  end.

(** [writeZip]: an entry has no size of its own. *)
Fixpoint writeZip (strip : string) (flat meta : bool) (vs : list visit) (es : list (string * list byte)) :
    option error * list (string * list byte) :=
  match vs with
  | [] => (None, es)
  | VisitError e :: _ => (Some e, es)
  | VisitDir _ :: vs => writeZip strip flat meta vs es
  | VisitFile p _ content :: vs =>
      if skipped meta p then writeZip strip flat meta vs es
      else match content with
           | None => writeZip strip flat meta vs es
           | Some bs => writeZip strip flat meta vs (es ++ [(entry_name strip flat p, bs)])
           end
  end.

(** [downloader.ServeHTTP] for what the walk below the requested directory
    visits. *)
Inductive answer : Type :=
  | BadRequest
  | TarArchive (filename : string) (w : tar_writer)
  | ZipArchive (filename : string) (es : list (string * list byte)).

Definition download (d : string) (form : result (list (string * string))) (now : Time) (vs : list visit) : answer :=
  match parseQuery form now with
  | Ok q =>
      let n := q_File q +:+ "." +:+ q_Type q in
      if decide (q_Type q = "tar") then TarArchive n (writeTar d (q_Flat q) (q_Meta q) vs (mkTarWriter [] 0)).2
      else if decide (q_Type q = "zip") then ZipArchive n (writeZip d (q_Flat q) (q_Meta q) vs []).2
      else BadRequest
  | _ => BadRequest
  end.

(** ** Theorems *)

(** An entry that the loop can take apart. *)
Definition listable (i : dir_entry) : Prop :=
  Ext (de_Name i) ≠ ".xml" → de_IsDir i = false → 5 ≤ length (FieldsFunc splits (Base (de_Name i))).

#[global] Instance listable_dec i : Decision (listable i).
Proof. unfold listable. apply _. Defined.

(** What is listed of an entry besides the parts of its name. *)
Definition listed (i : dir_entry) (n : info) : Prop :=
  in_Name n = Base (de_Name i) ∧ in_Mod n = de_ModTime i ∧ in_Size n = de_Size i ∧ in_Regular n = negb (de_IsDir i).

Lemma readDir_ok infos :
  Forall listable infos →
  ∃ q, readDir infos = Ok q ∧ Forall2 listed (filter (λ i, Ext (de_Name i) ≠ ".xml") infos) q.
Proof.
  induction 1 as [|i infos Hi _ (q & Hq & Hn)]; [by exists []|]. cbn [readDir]. rewrite Hq, filter_cons.
  unfold list_entry, listable in *. destruct (decide (Ext (de_Name i) = ".xml")) as [E|E].
  { rewrite decide_False by naive_solver. by exists q. }
  rewrite decide_True by done. destruct (de_IsDir i) eqn:Hd.
  { eexists. split; [done|]. constructor; [|done]. unfold listed. by rewrite Hd. }
  specialize (Hi E eq_refl). destruct (FieldsFunc _ _) as [|? [|? [|? [|? [|? ?]]]]]; simpl in Hi; try lia.
  eexists. split; [done|]. constructor; [|done]. unfold listed. by rewrite Hd.
Qed.


(** The files a download means to have. *)
Definition wanted (strip : string) (flat meta : bool) (vs : list visit) : list (string * list byte) :=
  omap (λ v, match v with
             | VisitFile p _ (Some bs) => if skipped meta p then None else Some (entry_name strip flat p, bs)
             | _ => None
             end) vs.

(** No error, and every file that is opened has the size the walk saw. *)
Definition plain_visit (v : visit) : Prop :=
  match v with
  | VisitError _ => False
  | VisitDir _ => True
  | VisitFile _ size content => match content with Some bs => size = Z.of_nat (length bs) | None => True end
  end.

#[global] Instance plain_visit_dec v : Decision (plain_visit v).
Proof. destruct v as [| |p size [bs|]]; simpl; apply _. Defined.

Definition tar_entry_of (e : string * list byte) : string * Z * list byte := (e.1, Z.of_nat (length e.2), e.2).

Lemma Copy_last n size bs es :
  Copy bs (mkTarWriter (es ++ [(n, size, [])]) size) =
  (if decide (length (take (Z.to_nat size) bs) < length bs) then Some ErrWriteTooLong else None,
   mkTarWriter (es ++ [(n, size, take (Z.to_nat size) bs)]) (size - Z.of_nat (length (take (Z.to_nat size) bs)))).
Proof. unfold Copy. cbn [tw_left tw_entries]. rewrite rev_app_distr. simpl. by rewrite rev_involutive. Qed.

Lemma writeTar_plain strip flat meta vs vs' es :
  Forall plain_visit vs →
  writeTar strip flat meta (vs ++ vs') (mkTarWriter es 0) =
  writeTar strip flat meta vs' (mkTarWriter (es ++ (tar_entry_of <$> wanted strip flat meta vs)) 0).
Proof.
  intros Hvs. revert es. induction Hvs as [|v vs Hv _ IH]; intros es; [by rewrite app_nil_r|].
  destruct v as [e|p|p size content]; simpl in Hv; [done|apply IH|]. unfold wanted. cbn [app writeTar omap list_omap].
  destruct (skipped meta p) eqn:Hs; [destruct content; apply IH|]. destruct content as [bs|]; [|apply IH].
  subst size. unfold WriteHeader. cbn [tw_left]. rewrite decide_False by lia. cbn [tw_entries].
  rewrite Copy_last, Nat2Z.id, take_ge by lia. rewrite decide_False by lia. rewrite Z.sub_diag.
  rewrite IH. rewrite fmap_cons, <-(assoc_L app). done.
Qed.

Lemma writeTar_all strip flat meta vs :
  Forall plain_visit vs →
  writeTar strip flat meta vs (mkTarWriter [] 0) = (None, mkTarWriter (tar_entry_of <$> wanted strip flat meta vs) 0).
Proof. intros Hvs. rewrite <-(app_nil_r vs) at 1. by rewrite writeTar_plain. Qed.

Lemma writeZip_plain strip flat meta vs es :
  Forall plain_visit vs → writeZip strip flat meta vs es = (None, es ++ wanted strip flat meta vs).
Proof.
  intros Hvs. revert es. induction Hvs as [|v vs Hv _ IH]; intros es; [by rewrite app_nil_r|].
  destruct v as [e|p|p size content]; simpl in Hv; [done|apply IH|]. unfold wanted in *. cbn [writeZip omap list_omap].
  destruct (skipped meta p); [destruct content; apply IH|]. destruct content as [bs|]; [|apply IH].
  rewrite IH. by rewrite <-(assoc_L app).
Qed.

(** A download of plain files, by the archive that is asked for. *)
Lemma download_plain d form now vs q :
  Forall plain_visit vs → parseQuery form now = Ok q →
  download d form now vs =
  let n := q_File q +:+ "." +:+ q_Type q in
  if decide (q_Type q = "tar") then TarArchive n (mkTarWriter (tar_entry_of <$> wanted d false (q_Meta q) vs) 0)
  else if decide (q_Type q = "zip") then ZipArchive n (wanted d false (q_Meta q) vs)
  else BadRequest.
Proof.
  intros Hvs Eq. unfold download. rewrite Eq.
  assert (q_Flat q = false) as ->.
  { unfold parseQuery in Eq. apply result_bind_ok in Eq as (f & _ & [= <-]). done. }
  by rewrite writeTar_all, writeZip_plain by done.
Qed.

(** Fact: a download of a directory whose files are what the walk saw has all of
    them, in the order of the walk, without the metadata unless it is asked
    for, whichever archive is chosen. *)
Theorem downloads_agree d strip flat meta vs :
  Forall plain_visit vs →
  writeTar strip flat meta vs (mkTarWriter [] 0) = (None, mkTarWriter (tar_entry_of <$> wanted strip flat meta vs) 0) ∧
  writeZip strip flat meta vs [] = (None, wanted strip flat meta vs) ∧
  ∀ form now, download d form now vs = BadRequest ∨
    ∃ n meta', download d form now vs = TarArchive n (mkTarWriter (tar_entry_of <$> wanted d false meta' vs) 0) ∨
               download d form now vs = ZipArchive n (wanted d false meta' vs).
Proof.
  intros Hvs. split_and!.
  - by apply writeTar_all.
  - by apply (writeZip_plain _ _ _ _ []).
  - intros form now. destruct (parseQuery form now) as [q|e|w] eqn:Eq; [|left; unfold download; by rewrite Eq..].
    rewrite (download_plain d form now vs q) by done. cbv zeta.
    repeat case_decide; [right|right|by left]; eexists _, (q_Meta q); [by left|by right].
Qed.

(** Fact: a symbolic link whose target is longer than its own text ends a tar
    download: what the walk would visit behind it is missing, and the link
    itself has the beginning of the file. *)
Theorem writeTar_link strip flat meta vs p size bs vs' :
  Forall plain_visit vs → skipped meta p = false → (0 ≤ size < Z.of_nat (length bs))%Z →
  writeTar strip flat meta (vs ++ VisitFile p size (Some bs) :: vs') (mkTarWriter [] 0) =
  (Some ErrWriteTooLong,
   mkTarWriter ((tar_entry_of <$> wanted strip flat meta vs) ++
                [(entry_name strip flat p, size, take (Z.to_nat size) bs)]) 0).
Proof.
  intros Hvs Hs Hsize. rewrite writeTar_plain by done. cbn [app writeTar]. rewrite Hs.
  unfold WriteHeader. cbn [tw_left]. rewrite decide_False by lia. cbn [tw_entries]. rewrite Copy_last.
  assert (length (take (Z.to_nat size) bs) = Z.to_nat size) as -> by (rewrite length_take; lia).
  rewrite decide_True by lia. do 2 f_equal. lia.
Qed.

(** ** Examples *)

Definition sample_entry (name : string) (dir : bool) : dir_entry := mkDirEntry name 10 zero_time dir.

Example readDir_sample :
  readDir [sample_entry "01" true; sample_entry "51_7_20200101_000000.mma" false; sample_entry "51_7_20200101_000000.mma.xml" false] =
  Ok [mkInfo "01" zero_time 10 false zero_time 0 0 "";
      mkInfo "51_7_20200101_000000.mma" zero_time 10 true (mkTime 1577836800 0 0) 51 7 "mma"].
Proof. by vm_compute. Qed.

Example readDir_readme : readDir [sample_entry "README" false] = Panic "index out of range".
Proof. by vm_compute. Qed.

Definition sample_visits : list visit :=
  [VisitDir "/data/OPS"; VisitFile "/data/OPS/a.dat" 2 (Some [x01; x02]); VisitFile "/data/OPS/a.dat.xml" 1 (Some [x03]);
   VisitFile "/data/OPS/b.dat" 7 None].

Lemma downloads_agree_witness :
  writeTar "/data" false false sample_visits (mkTarWriter [] 0) = (None, mkTarWriter [("/OPS/a.dat", 2%Z, [x01; x02])] 0) ∧
  writeZip "/data" false false sample_visits [] = (None, [("/OPS/a.dat", [x01; x02])]).
Proof.
  destruct (downloads_agree "/data" "/data" false false sample_visits) as (H1 & H2 & _); [by compute_decide|].
  rewrite H1, H2. by vm_compute.
Defined.

Lemma writeTar_link_witness :
  writeTar "/data" false true (sample_visits ++ VisitFile "/data/link" 1 (Some [x01; x02]) :: sample_visits) (mkTarWriter [] 0) =
  (Some ErrWriteTooLong,
   mkTarWriter [("/OPS/a.dat", 2%Z, [x01; x02]); ("/OPS/a.dat.xml", 1%Z, [x03]); ("/link", 1%Z, [x01])] 0).
Proof.
  rewrite (writeTar_link "/data" false true sample_visits "/data/link" 1 [x01; x02] sample_visits);
    [by vm_compute|by compute_decide|done|simpl; lia].
Defined.
