(* ===== verification/Monitor.v ===== *)
(** * Monitor: the last messages of the brokers over HTTP, and the limiter
      (src/distrib/monitor.go, src/distrib/limit.go)

    One goroutine per multicast group decodes messages from datagrams behind a
    [bufio.Reader] and keeps them in rings, one per origin, mode and instance;
    all the rings of a goroutine share one index. *)

From S2P Require Import Prelude Bytes GoStd Panda Notifier.
From Stdlib Require Import ZArith Lia.

(** ** Datagrams behind a [bufio.Reader]

    The bytes buffered, the datagrams that will come, and the error of the
    socket behind them.  A read that finds the buffer empty takes one
    datagram, cut to the size of the buffer. *)
Record source : Type := mkSource {
  so_buffer : list byte;
  so_datagrams : list (list byte);
  so_end : error;
}.

Definition buffer_size : nat := 4096.

(** [rs.Read(p)] with [len(p) = n]. *)
Definition Read (n : nat) (s : source) : (list byte * option error) * source :=
  if decide (n = 0) then (([], None), s)
  else match so_buffer s with
       | _ :: _ => ((take n (so_buffer s), None), mkSource (drop n (so_buffer s)) (so_datagrams s) (so_end s))
       | [] =>
           match so_datagrams s with
           | [] => (([], Some (so_end s)), s)
           | d :: ds =>
               if decide (buffer_size ≤ n) then ((take n d, None), mkSource [] ds (so_end s))
               else let d := take buffer_size d in ((take n d, None), mkSource (drop n d) ds (so_end s))
           end
       end.

(** [io.ReadFull]: reads until the bytes are there or a read fails.  Every
    read uses a datagram up or delivers a byte. *)
Fixpoint read_full (fuel n : nat) (got : list byte) (s : source) : (list byte * option error) * source :=
  if decide (n ≤ length got) then ((got, None), s)
  else match fuel with
       | O => ((got, None), s)
       | S fuel =>
           let '((bs, err), s) := Read (n - length got) s in
           match err with
           | Some e => ((got, Some (if decide (e = EOF ∧ got ≠ []) then ErrUnexpectedEOF else e)), s)
           | None => read_full fuel n (got ++ bs) s
           end
       end.

Definition full_fuel (n : nat) (s : source) : nat := S (n + length (so_datagrams s)).

(** [binary.Read] whose error is dropped. *)
Definition read_value (w : nat) (s : source) : Z * source :=
  let '((bs, err), s) := read_full (full_fuel w s) w [] s in
  (match err with None => get_uint BigEndian bs | Some _ => 0%Z end, s).

(** [readString]: one [Read] of the announced length; what it does not fill
    stays zero. *)
Definition readString (s : source) : string * source :=
  let '((bs, err), s) := read_full (full_fuel 2 s) 2 [] s in
  match err with
  | Some _ => ("", s)
  | None =>
      let z := Z.to_nat (get_uint BigEndian bs) in
      let '((bs, err), s) := Read z s in
      (match err with Some _ => "" | None => string_of (bs ++ replicate (z - length bs) x00) end, s)
  end.

Definition decodeMessage (s : source) : Message * source :=
  let '(origin, s) := readString s in
  let '(sequence, s) := read_value 4 s in
  let '(inst, s) := read_value 4 s in
  let '(channel, s) := read_value 1 s in
  let '(realtime, s) := read_value 1 s in
  let '(count, s) := read_value 4 s in
  let '(elapsed, s) := read_value 8 s in
  let '(generated, s) := read_value 8 s in
  let '(acquired, s) := read_value 8 s in
  let '(reference, s) := readString s in
  let '(upi, s) := readString s in
  (mkMessage origin sequence (swrap 32 inst) channel (bool_decide (realtime ≠ 0%Z)) count
     (swrap 64 elapsed) (swrap 64 generated) (swrap 64 acquired) reference upi, s).

(** ** The rings *)

Definition monkey : Type := string * bool * Z.

Definition monkey_of (g : Message) : monkey := (m_Origin g, m_Realtime g, m_Instance g).

Definition monkey_String (k : monkey) : string :=
  let '(origin, realtime, inst) := k in
  origin +:+ "-" +:+ (if realtime then "realtime" else "playback") +:+ "-" +:+ sprintf0 3 inst.

Record message : Type := mkStored { ms_Uid : string; ms_Count : Z; ms_Message : Message }.

Record pool : Type := mkPool { po_when : Time; po_ms : list (option message) }.

Record monitor : Type := mkMonitor { mo_count : Z; mo_messages : gmap monkey pool }.

Definition new_monitor : monitor := mkMonitor 0 ∅.

Section monitor.
Context {panda : PandaLib} (n : nat).

(** [g.Generated] is adjusted before the message is kept; [/] rounds towards
    zero. *)
Definition adjust (g : Message) : Message :=
  mkMessage (m_Origin g) (m_Sequence g) (m_Instance g) (m_Channel g) (m_Realtime g) (m_Count g) (m_Elapsed g)
    (Z.quot (GenerationTimeFromEpoch (m_Generated g)) 1000) (m_Acquired g) (m_Reference g) (m_UPI g).

(** A turn of [Monitor] behind [decodeMessage]: the [i]th of its goroutine. *)
Definition keep (i : nat) (now : Time) (uid : string) (g : Message) (m : monitor) : monitor :=
  let g := adjust g in
  let k := monkey_of g in
  let w := default (mkPool zero_time (replicate n None)) (mo_messages m !! k) in
  let count := wrap 32 (mo_count m + 1) in
  mkMonitor count
    (<[k := mkPool now (<[i mod n := Some (mkStored uid count g)]> (po_ms w))]> (mo_messages m)).

(** The loop: every turn has its time and its fresh identifier. *)
Fixpoint Monitor (i : nat) (stamps : list (Time * string)) (s : source) (m : monitor) : monitor :=
  match stamps with
  | [] => m
  | (now, uid) :: stamps => let '(g, s) := decodeMessage s in Monitor (S i) stamps s (keep i now uid g m)
  end.

(** A tick of [Clean]. *)
Definition Clean (t : Time) (m : monitor) : monitor :=
  mkMonitor (mo_count m)
    (filter (λ '(_, w), IsZero (po_when w) = true ∨ (Sub t (po_when w) ≤ 15 * Minute)%Z) (mo_messages m)).

(** *** All its goroutines

    One for every group, each with its own number of messages and its own
    reader, and one that cleans; they share the rings. *)
Record monitors : Type := mkMonitors { mg_state : monitor; mg_groups : list (nat * source) }.

Inductive monitor_event : Type :=
  | Turns (j : nat) (now : Time) (uid : string)     (* a turn of the goroutine of group [j] *)
  | Cleans (t : Time).

Definition monitor_step (m : monitors) (ev : monitor_event) : monitors :=
  match ev with
  | Turns j now uid =>
      match mg_groups m !! j with
      | Some (i, s) =>
          let '(g, s) := decodeMessage s in
          mkMonitors (keep i now uid g (mg_state m)) (<[j := (S i, s)]> (mg_groups m))
      | None => m
      end
  | Cleans t => mkMonitors (Clean t (mg_state m)) (mg_groups m)
  end.

Definition monitor_run (m : monitors) (evs : list monitor_event) : monitors := foldl monitor_step m evs.

(** *** The answer

    The messages of every ring, without the empty places; how [sort.Slice]
    orders them is open, because its comparison is not strict. *)
Definition served (m : monitor) : list (string * list message) :=
  (λ '(k, w), (monkey_String k, omap id (po_ms w))) <$> map_to_list (mo_messages m).
End monitor.

(** ** Lemmas on the reader *)

Lemma Read_buffered n bs rest ds e :
  n = length bs → Read n (mkSource (bs ++ rest) ds e) = ((bs, None), mkSource rest ds e).
Proof.
  intros ->. unfold Read. case_decide as Hz; [by apply nil_length_inv in Hz as ->|].
  cbn [so_buffer]. destruct bs as [|b bs]; [done|]. cbn [app].
  change (b :: bs ++ rest) with ((b :: bs) ++ rest). by rewrite take_app_length, drop_app_length.
Qed.

Lemma read_full_buffered fuel n bs rest ds e :
  n = length bs → 0 < fuel → read_full fuel n [] (mkSource (bs ++ rest) ds e) = ((bs, None), mkSource rest ds e).
Proof.
  intros -> Hf. destruct fuel as [|fuel]; [lia|]. cbn [read_full]. case_decide as Hz; simpl in Hz.
  { assert (bs = []) as -> by (apply nil_length_inv; lia). done. }
  cbn [length]. rewrite Nat.sub_0_r, Read_buffered by done. cbn [app].
  destruct fuel; simpl; by rewrite decide_True.
Qed.

Lemma read_value_buffered w v rest ds e :
  in_width (8 * Z.of_nat w) v →
  read_value w (mkSource (put_uint BigEndian w v ++ rest) ds e) = (v, mkSource rest ds e).
Proof.
  intros Hv. unfold read_value. rewrite read_full_buffered; [|by rewrite length_put_uint|unfold full_fuel; lia].
  by rewrite get_put_uint_id.
Qed.

Lemma readString_buffered s rest ds e :
  in_width 16 (Z.of_nat (length (bytes_of s))) →
  readString (mkSource (write_string s ++ rest) ds e) = (s, mkSource rest ds e).
Proof.
  intros Hs. unfold readString, write_string, u16. rewrite binary_Write_scalar, wrap_small, <-app_assoc by done.
  rewrite read_full_buffered; [|by rewrite length_put_uint|unfold full_fuel; lia].
  rewrite get_put_uint_id by done. rewrite Nat2Z.id, Read_buffered by done.
  by rewrite Nat.sub_diag, app_nil_r, string_of_bytes_of.
Qed.

Lemma swrap_put w v : in_swidth w v → (0 < w)%Z → swrap w (wrap w v) = v.
Proof. intros. by rewrite swrap_wrap, swrap_small. Qed.

Lemma read_signed w v rest ds e :
  read_value w (mkSource (put_uint BigEndian w v ++ rest) ds e) = (wrap (8 * Z.of_nat w) v, mkSource rest ds e).
Proof. rewrite <-put_uint_wrap. apply read_value_buffered, wrap_range. lia. Qed.

Lemma decode_buffered m rest ds e :
  message_fits m → decodeMessage (mkSource (encodeMessage m ++ rest) ds e) = (m, mkSource rest ds e).
Proof.
  intros (H1 & H2 & H3 & H4 & H5 & H6 & H7 & H8 & H9 & H10).
  unfold decodeMessage, encodeMessage, u32, i32, u8, i64, gobool. rewrite !binary_Write_scalar, <-!app_assoc.
  rewrite readString_buffered by done. rewrite !read_signed, !readString_buffered by done.
  change (8 * Z.of_nat 4)%Z with 32%Z. change (8 * Z.of_nat 1)%Z with 8%Z. change (8 * Z.of_nat 8)%Z with 64%Z.
  rewrite !swrap_put, !wrap_small by (done || by destruct (m_Realtime m); compute_decide).
  destruct m as [? ? ? ? []]; done.
Qed.

(** A datagram that fits the buffer is read as if it were there already. *)
Lemma decode_datagram m ds e :
  message_fits m → length (encodeMessage m) ≤ buffer_size →
  decodeMessage (mkSource [] (encodeMessage m :: ds) e) = (m, mkSource [] ds e).
Proof.
  intros Hm Hl. rewrite <-(decode_buffered m [] ds e Hm), app_nil_r.
  set (d := encodeMessage m) in *.
  assert (2 ≤ length d) as H2.
  { unfold d, encodeMessage, write_string, u16. rewrite binary_Write_scalar. autorewrite with lengths. lia. }
  assert (∀ fuel s', read_full (S fuel) 2 [] s' =
    let '((bs, err), s) := Read 2 s' in
    match err with
    | Some er => (([], Some (if decide (er = EOF ∧ ([] : list byte) ≠ []) then ErrUnexpectedEOF else er)), s)
    | None => read_full fuel 2 bs s
    end) as Hstep by done.
  assert (∀ fuel fuel', read_full (S fuel) 2 [] (mkSource [] (d :: ds) e) = read_full (S fuel') 2 [] (mkSource d ds e)) as Hfirst.
  { intros fuel fuel'. rewrite !Hstep. unfold Read. rewrite !decide_False by done. cbn [so_buffer so_datagrams so_end].
    rewrite decide_False by (unfold buffer_size; lia). rewrite (take_ge d buffer_size) by done.
    destruct d as [|b d']; [simpl in H2; lia|].
    assert (length (take 2 (b :: d')) = 2) as Ht by (rewrite length_take; lia).
    destruct fuel, fuel'; cbn [read_full]; by rewrite !decide_True by lia. }
  unfold decodeMessage at 1 2, readString at 1 4, full_fuel. by rewrite (Hfirst _ (2 + length ds)).
Qed.

(** ** Theorems *)

Section theorems.
Context {panda : PandaLib} (n : nat) (Hn : 0 < n).

Lemma mod_distinct i k : (S i + k) mod n = i mod n → n ≤ S k.
Proof.
  intros E. pose proof (Nat.div_mod_eq (S i + k) n). pose proof (Nat.div_mod_eq i n).
  destruct (decide ((S i + k) / n ≤ i / n)); nia.
Qed.

(** What the goroutine keeps of its [i]th message. *)
Definition stored (i : nat) (uid : string) (g : Message) : message := mkStored uid (wrap 32 (Z.of_nat i + 1)) (adjust g).

Definition log (gs : list (Time * string * Message)) : list (nat * message) :=
  imap (λ i '(now, uid, g), (i, stored i uid g)) gs.

(** The messages of a log that go to place [j] of the ring [k]. *)
Definition placed (k : monkey) (j : nat) (l : list (nat * message)) : list (nat * message) :=
  filter (λ '(i, x), monkey_of (ms_Message x) = k ∧ i mod n = j) l.

Fixpoint keep_all (i : nat) (gs : list (Time * string * Message)) (m : monitor) : monitor :=
  match gs with
  | [] => m
  | (now, uid, g) :: gs => keep_all (S i) gs (keep n i now uid g m)
  end.

Lemma keep_all_app i gs gs' m : keep_all i (gs ++ gs') m = keep_all (i + length gs) gs' (keep_all i gs m).
Proof.
  revert i m. induction gs as [|[[now uid] g] gs IH]; intros i m; simpl; [by rewrite Nat.add_0_r|].
  rewrite IH. f_equal. lia.
Qed.

Definition ring_lookup (m : monitor) (k : monkey) (j : nat) : option message :=
  mo_messages m !! k ≫= λ w, po_ms w !! j ≫= id.

Lemma rings gs :
  mo_count (keep_all 0 gs new_monitor) = wrap 32 (Z.of_nat (length gs)) ∧
  (∀ k w, mo_messages (keep_all 0 gs new_monitor) !! k = Some w → length (po_ms w) = n) ∧
  ∀ k j, j < n → ring_lookup (keep_all 0 gs new_monitor) k j = snd <$> last (placed k j (log gs)).
Proof.
  induction gs as [|[[now uid] g] gs (Hc & Hl & IH)] using rev_ind.
  { split_and!; [done|intros k w Hk; cbn in Hk; by rewrite lookup_empty in Hk|]. intros k j _. unfold ring_lookup.
    cbn. by rewrite lookup_empty. }
  rewrite keep_all_app. set (m := keep_all 0 gs new_monitor) in *. cbn [keep_all Nat.add].
  assert (wrap 32 (mo_count m + 1) = wrap 32 (Z.of_nat (length gs) + 1)) as Hcount.
  { rewrite Hc. unfold wrap. by rewrite Zplus_mod_idemp_l. }
  assert (log (gs ++ [(now, uid, g)]) = log gs ++ [(length gs, stored (length gs) uid g)]) as Hlog.
  { unfold log. rewrite imap_app. cbn. by rewrite Nat.add_0_r. }
  unfold keep. cbn [mo_count mo_messages]. rewrite Hcount. split_and!.
  - rewrite length_app. simpl. f_equal. lia.
  - intros k w. rewrite lookup_insert_Some. intros [[<- <-]|[_ Hk]]; [|by eapply Hl].
    cbn [po_ms]. rewrite length_insert. destruct (mo_messages m !! _) eqn:E; [by eapply Hl|]. simpl. apply length_replicate.
  - intros k j Hj. rewrite Hlog. unfold placed. rewrite filter_app, last_app. specialize (IH k j Hj).
    rewrite filter_cons, filter_nil. unfold ring_lookup at 1. cbn [mo_messages].
    destruct (decide (monkey_of (adjust g) = k)) as [<-|Hk].
    + rewrite lookup_insert_eq. cbn [mbind option_bind po_ms].
      destruct (decide (length gs mod n = j)) as [<-|Hne].
      * rewrite decide_True by done. rewrite list_lookup_insert_eq; [done|].
        destruct (mo_messages m !! _) eqn:E; [simpl; by erewrite Hl|]. simpl. by rewrite length_replicate.
      * rewrite decide_False by naive_solver. rewrite list_lookup_insert_ne by done. cbn [last].
        fold (placed (monkey_of (adjust g)) j (log gs)). rewrite <-IH. unfold ring_lookup.
        destruct (mo_messages m !! _) as [w|]; [done|]. simpl. by rewrite lookup_replicate_2.
    + rewrite lookup_insert_ne by done. rewrite decide_False by naive_solver. cbn [last].
      fold (placed k j (log gs)). by rewrite <-IH.
Qed.

Lemma Monitor_keep_all i gs ds e m :
  Forall (λ g : Time * string * Message, message_fits g.2 ∧ length (encodeMessage g.2) ≤ buffer_size) gs →
  Monitor n i (fst <$> gs) (mkSource [] (((λ g, encodeMessage g.2) <$> gs) ++ ds) e) m = keep_all i gs m.
Proof.
  intros Hgs. revert i m. induction Hgs as [|[[now uid] g] gs [Hf Hl] _ IH]; intros i m; [done|].
  cbn [fmap list_fmap Monitor keep_all app fst snd]. cbn in Hf, Hl. rewrite decode_datagram by done. apply IH.
Qed.

(** The last messages are where their number puts them. *)
Lemma rings_recent gs i now uid g :
  gs !! i = Some (now, uid, g) → length gs ≤ i + n →
  ring_lookup (keep_all 0 gs new_monitor) (monkey_of (adjust g)) (i mod n) = Some (stored i uid g).
Proof.
  intros Hi Hlen. destruct (rings gs) as (_ & _ & Hr). pose proof (lookup_lt_Some _ _ _ Hi) as Hlt.
  rewrite Hr by (apply Nat.mod_upper_bound; lia).
  assert (gs = take i gs ++ (now, uid, g) :: drop (S i) gs) as E by (symmetry; by apply take_drop_middle).
  assert (log gs = log (take i gs) ++ (i, stored i uid g) ::
    imap (λ k '(now, uid, g), (S i + k, stored (S i + k) uid g)) (drop (S i) gs)) as ->.
  { rewrite E at 1. unfold log. rewrite imap_app. f_equal. cbn [imap].
    assert (length (take i gs) = i) as -> by (rewrite length_take; apply lookup_lt_Some in Hi; lia).
    rewrite Nat.add_0_r. f_equal. apply imap_ext. intros k [[] ] _. simpl. by rewrite Nat.add_succ_r. }
  unfold placed. rewrite filter_app, filter_cons_True by done.
  assert (filter (λ '(i0, x), monkey_of (ms_Message x) = monkey_of (adjust g) ∧ i0 mod n = i mod n)
    (imap (λ k '(now, uid, g), (S i + k, stored (S i + k) uid g)) (drop (S i) gs)) = []) as ->.
  { apply filter_none. intros [i' x] (k & [[] g'] & [= -> _] & Hk)%elem_of_lookup_imap [_ Hmod].
    rewrite lookup_drop in Hk. apply lookup_lt_Some in Hk. apply mod_distinct in Hmod; lia. }
  by rewrite last_snoc.
Qed.

(** Fact: every datagram of a group becomes one stored message: place [j] of a
    ring holds the newest message of its origin, mode and instance whose number
    in the group is [j] modulo the size of the rings, and so the last messages
    of the group, as many as a ring has places, can all be seen. *)
Theorem monitor_rings gs e :
  Forall (λ g : Time * string * Message, message_fits g.2 ∧ length (encodeMessage g.2) ≤ buffer_size) gs →
  let m := Monitor n 0 (fst <$> gs) (mkSource [] ((λ g, encodeMessage g.2) <$> gs) e) new_monitor in
  (∀ k j, j < n → ring_lookup m k j = snd <$> last (placed k j (log gs))) ∧
  ∀ i now uid g, gs !! i = Some (now, uid, g) → length gs ≤ i + n →
    ring_lookup m (monkey_of (adjust g)) (i mod n) = Some (stored i uid g).
Proof.
  intros Hgs. cbv zeta. rewrite <-(app_nil_r ((λ g, encodeMessage g.2) <$> gs)), Monitor_keep_all by done.
  destruct (rings gs) as (_ & _ & Hr). split; [done|]. apply rings_recent.
Qed.
End theorems.

(** *** Several groups and the cleaning

    What happens to the rings: a message of a group is announced, or the rings
    are cleaned. *)
Section groups.
Context {panda : PandaLib} (n : nat).

Inductive happening : Type :=
  | Announces (j : nat) (now : Time) (uid : string) (g : Message)
  | Sweeps (t : Time).

Definition event_of (h : happening) : monitor_event :=
  match h with Announces j now uid _ => Turns j now uid | Sweeps t => Cleans t end.

(** The datagrams of a group. *)
Definition datagrams_of (j : nat) (hs : list happening) : list (list byte) :=
  omap (λ h, match h with Announces j' _ _ g => if decide (j' = j) then Some (encodeMessage g) else None | Sweeps _ => None end) hs.

(** The handler when its [groups] have been joined. *)
Definition joined (groups : nat) (hs : list happening) (e : error) : monitors :=
  mkMonitors new_monitor ((λ j, (0, mkSource [] (datagrams_of j hs) e)) <$> seq 0 groups).

(** A message as it is kept, with its number in its group; or a cleaning. *)
Inductive mark : Type :=
  | Kept (i : nat) (now : Time) (x : message)
  | Swept (t : Time).

Fixpoint marks (numbers : nat → nat) (count : Z) (hs : list happening) : list mark :=
  match hs with
  | [] => []
  | Announces j now uid g :: hs =>
      Kept (numbers j) now (mkStored uid (wrap 32 (count + 1)) (adjust g)) ::
      marks (λ j', if decide (j' = j) then S (numbers j) else numbers j') (wrap 32 (count + 1)) hs
  | Sweeps t :: hs => Swept t :: marks numbers count hs
  end.

Definition history (hs : list happening) : list mark := marks (λ _, 0) 0 hs.

(** A ring on its own: when it was last written to, and what was put into it,
    with the numbers, since it was last removed. *)
Definition ring : Type := option (Time * list (nat * message)).

Definition ring_step (k : monkey) (r : ring) (en : mark) : ring :=
  match en with
  | Kept i now x => if decide (monkey_of (ms_Message x) = k) then Some (now, default [] (snd <$> r) ++ [(i, x)]) else r
  | Swept t => r ≫= λ '(w, l), if decide (IsZero w = true ∨ (Sub t w ≤ 15 * Minute)%Z) then Some (w, l) else None
  end.

Definition ring_after (k : monkey) (ens : list mark) : ring := foldl (ring_step k) None ens.

(** The newest message of a ring at a place. *)
Definition newest (l : list (nat * message)) (j : nat) : option message :=
  snd <$> last (filter (λ x, x.1 mod n = j) l).

Definition shows (w : pool) (r : Time * list (nat * message)) : Prop :=
  po_when w = r.1 ∧ po_ms w = newest r.2 <$> seq 0 n.

Lemma shows_put w i now x r :
  match r with Some r => shows w r | None => w = mkPool zero_time (replicate n None) end →
  shows (mkPool now (<[i mod n := Some x]> (po_ms w))) (now, default [] (snd <$> r) ++ [(i, x)]).
Proof.
  intros Hw. assert (po_ms w = newest (default [] (snd <$> r)) <$> seq 0 n) as Hms.
  { destruct r as [r|]; [apply Hw|]. subst w. cbn [po_ms fmap option_fmap option_map default].
    apply list_eq. intros j. rewrite list_lookup_fmap. destruct (decide (j < n)) as [Hj|Hj].
    - by rewrite lookup_replicate_2, lookup_seq_lt by done.
    - rewrite (lookup_ge_None_2 (replicate n None)), (lookup_ge_None_2 (seq 0 n)); [done|..];
        rewrite ?length_seq, ?length_replicate; lia. }
  split; [done|]. cbn [po_ms]. rewrite Hms. apply list_eq. intros j.
  destruct (decide (j < n)) as [Hj|Hj].
  2: { rewrite !lookup_ge_None_2; [done|..]; rewrite ?length_insert, length_fmap, length_seq; lia. }
  rewrite (list_lookup_fmap _ _ j), (lookup_seq_lt 0 n j) by done. cbn [fmap option_fmap option_map Nat.add].
  unfold newest at 2. cbn [snd]. rewrite filter_app, filter_cons, filter_nil. cbn [fst]. case_decide as Hij.
  - subst j. rewrite last_snoc. by rewrite list_lookup_insert_eq by (rewrite length_fmap, length_seq; done).
  - rewrite app_nil_r, list_lookup_insert_ne by done. by rewrite list_lookup_fmap, lookup_seq_lt.
Qed.

(** The rings of the monitor are the rings on their own. *)
Definition rings_are (m : monitor) (rs : monkey → ring) : Prop :=
  ∀ k, match mo_messages m !! k, rs k with
       | Some w, Some r => shows w r
       | None, None => True
       | _, _ => False
       end.

Lemma rings_keep m rs i now uid g :
  rings_are m rs →
  rings_are (keep n i now uid g m)
    (λ k, ring_step k (rs k) (Kept i now (mkStored uid (wrap 32 (mo_count m + 1)) (adjust g)))).
Proof.
  intros H k. unfold keep. cbn [mo_messages ring_step ms_Message]. specialize (H k).
  destruct (decide (monkey_of (adjust g) = k)) as [<-|Hk].
  - rewrite lookup_insert_eq. apply shows_put. destruct (mo_messages m !! _), (rs _); done.
  - by rewrite lookup_insert_ne.
Qed.

Lemma rings_clean m rs t : rings_are m rs → rings_are (Clean t m) (λ k, ring_step k (rs k) (Swept t)).
Proof.
  intros H k. specialize (H k). unfold Clean. cbn [mo_messages ring_step]. rewrite map_lookup_filter.
  destruct (mo_messages m !! k) as [w|], (rs k) as [[w' l]|]; cbn; try done. destruct H as [Hw Hl]. cbn in Hw.
  rewrite Hw. case_decide as Hd; [by rewrite option_guard_True|by rewrite option_guard_False].
Qed.

Lemma run_rings groups hs e numbers m rs :
  Forall (λ h, match h with Announces j _ _ g => j < groups ∧ message_fits g ∧ length (encodeMessage g) ≤ buffer_size | Sweeps _ => True end) hs →
  rings_are m rs →
  rings_are (mg_state (monitor_run n (mkMonitors m ((λ j, (numbers j, mkSource [] (datagrams_of j hs) e)) <$> seq 0 groups)) (event_of <$> hs)))
    (λ k, foldl (ring_step k) (rs k) (marks numbers (mo_count m) hs)).
Proof.
  intros Hhs. revert numbers m rs. induction Hhs as [|h hs Hh _ IH]; intros numbers m rs Hm; [done|].
  destruct h as [j now uid g|t]; cbn [fmap list_fmap event_of monitor_run foldl monitor_step mg_groups mg_state marks].
  - destruct Hh as (Hj & Hf & Hl). rewrite list_lookup_fmap, lookup_seq_lt by done. cbn [fmap option_fmap option_map Nat.add].
    assert (datagrams_of j (Announces j now uid g :: hs) = encodeMessage g :: datagrams_of j hs) as ->
      by (cbn; by rewrite decide_True).
    rewrite decode_datagram by done.
    specialize (IH (λ j', if decide (j' = j) then S (numbers j) else numbers j') _ _ (rings_keep m rs (numbers j) now uid g Hm)).
    cbn [mo_count keep] in IH. unfold monitor_run in IH.
    match goal with |- context [<[j := ?x]> ?l] => assert (<[j := x]> l =
      (λ j', (if decide (j' = j) then S (numbers j) else numbers j', mkSource [] (datagrams_of j' hs) e)) <$> seq 0 groups) as ->; [|exact IH] end.
    apply list_eq. intros i. destruct (decide (i < groups)) as [Hi|Hi].
    2: { rewrite !lookup_ge_None_2; [done|..]; rewrite ?length_insert, length_fmap, length_seq; lia. }
    rewrite (list_lookup_fmap _ (seq 0 groups) i), (lookup_seq_lt 0 groups i) by done. cbn [fmap option_fmap option_map Nat.add].
    destruct (decide (i = j)) as [->|Hij].
    + by rewrite list_lookup_insert_eq by (rewrite length_fmap, length_seq; done).
    + rewrite list_lookup_insert_ne by done. rewrite list_lookup_fmap, lookup_seq_lt by done. cbn. by rewrite decide_False.
  - apply (IH numbers _ _ (rings_clean m rs t Hm)).
Qed.

Lemma joined_rings groups hs e :
  Forall (λ h, match h with Announces j _ _ g => j < groups ∧ message_fits g ∧ length (encodeMessage g) ≤ buffer_size | Sweeps _ => True end) hs →
  rings_are (mg_state (monitor_run n (joined groups hs e) (event_of <$> hs))) (λ k, ring_after k (history hs)).
Proof. intros Hhs. apply (run_rings groups hs e (λ _, 0) new_monitor (λ _, None)); [done|]. intros k. cbn. by rewrite lookup_empty. Qed.
End groups.

Definition zero_message : Message := mkMessage "" 0 0 0 false 0 0 0 0 "" "".

Lemma decode_dead e : decodeMessage (mkSource [] [] e) = (zero_message, mkSource [] [] e).
Proof. done. Qed.

(** Fact: once the socket fails for good the goroutine never stops: every turn
    counts a message that is empty, and the rings of the others stay as they
    are. *)
Theorem monitor_dead {panda : PandaLib} n stamps e i m :
  let m' := Monitor n i stamps (mkSource [] [] e) m in
  (stamps ≠ [] → mo_count m' = wrap 32 (mo_count m + Z.of_nat (length stamps))) ∧
  ∀ k, k ≠ monkey_of (adjust zero_message) → mo_messages m' !! k = mo_messages m !! k.
Proof.
  cbv zeta. revert i m. induction stamps as [|[now uid] stamps IH]; intros i m; [done|].
  cbn [Monitor]. rewrite decode_dead. destruct (IH (S i) (keep n i now uid zero_message m)) as [Hc Hk]. split.
  - intros _. destruct stamps as [|st stamps]; [done|]. rewrite Hc by done. unfold keep; cbn [mo_count].
    unfold wrap. rewrite Zplus_mod_idemp_l. f_equal. cbn [length]. lia.
  - intros k Hne. rewrite Hk by done. unfold keep; cbn [mo_messages]. by rewrite lookup_insert_ne.
Qed.

(** ** The limiter

    [rate.Limiter] is third-party: [NewLimiter] and [Allow] are parameters.  A
    request is one step, although two first requests of one address may each
    make a visitor. *)
Section limiter.
Context {L : Type} (NewLimiter : L) (rate_Allow : Time → L → bool * L).

Record visitor : Type := mkVisitor { vi_when : Time; vi_rate : L }.

Notation visitors := (gmap string visitor).

(** [visitor.Allow] at the time [now]. *)
Definition visitor_Allow (now : Time) (v : visitor) : bool * visitor :=
  let '(ok, r) := rate_Allow now (vi_rate v) in (ok, mkVisitor now r).

(** [limiter.Allow] *)
Definition Allow (addr : string) (now : Time) (vs : visitors) : bool * visitors :=
  let '(ok, v) := visitor_Allow now (default (mkVisitor now NewLimiter) (vs !! addr)) in
  (ok, <[addr := v]> vs).

(** A tick of [purge] has two steps: the names of the silent visitors are
    collected under the read lock and deleted under the write lock, and
    requests may come between the two. *)
Definition idle (t : Time) (v : visitor) : bool := bool_decide (120 * Second ≤ Sub t (vi_when v))%Z.
Definition collect (t : Time) (vs : visitors) : gset string := dom (filter (λ '(_, v), idle t v = true) vs).
Definition purge (ns : gset string) (vs : visitors) : visitors := filter (λ '(n, _), n ∉ ns) vs.

Inductive limit_event : Type :=
  | Requests (addr : string) (now : Time)
  | Collects (t : Time)
  | Purges.

(** The answers in order, each with its address; [ns] are the names that have
    been collected. *)
Fixpoint limit_run (evs : list limit_event) (vs : visitors) (ns : gset string) : list (string * bool) :=
  match evs with
  | [] => []
  | Requests addr now :: evs => let '(ok, vs) := Allow addr now vs in (addr, ok) :: limit_run evs vs ns
  | Collects t :: evs => limit_run evs vs (collect t vs)
  | Purges :: evs => limit_run evs (purge ns vs) ∅
  end.

(** [Limit]: a limit that is not positive is none. *)
Definition Limit (n : Z) (evs : list limit_event) : list (string * bool) :=
  if decide (n ≤ 0)%Z then omap (λ ev, match ev with Requests addr _ => Some (addr, true) | _ => None end) evs
  else limit_run evs ∅ ∅.

(** One address with a limiter of its own, which it loses when it had been
    silent for two minutes at a tick. *)
Fixpoint alone (addr : string) (evs : list limit_event) (v : option visitor) (doomed : bool) : list bool :=
  match evs with
  | [] => []
  | Requests a now :: evs =>
      if decide (a = addr) then
        let '(ok, r) := rate_Allow now (vi_rate (default (mkVisitor now NewLimiter) v)) in
        ok :: alone addr evs (Some (mkVisitor now r)) doomed
      else alone addr evs v doomed
  | Collects t :: evs => alone addr evs v (match v with Some v => idle t v | None => false end)
  | Purges :: evs => alone addr evs (if doomed then None else v) false
  end.

Definition answers (addr : string) (out : list (string * bool)) : list bool :=
  omap (λ '(a, ok), if decide (a = addr) then Some ok else None) out.

Lemma limit_run_alone addr evs vs ns :
  answers addr (limit_run evs vs ns) = alone addr evs (vs !! addr) (bool_decide (addr ∈ ns)).
Proof.
  revert vs ns. induction evs as [|[a now|t|] evs IH]; intros vs ns; [done|..].
  - cbn [limit_run alone]. unfold Allow, visitor_Allow. case_decide as Ha.
    + subst a. destruct (rate_Allow now _) as [ok r]. cbn [answers omap list_omap]. rewrite decide_True by done.
      fold (answers addr (limit_run evs (<[addr := mkVisitor now r]> vs) ns)). by rewrite IH, lookup_insert_eq.
    + destruct (rate_Allow now _) as [ok r]. cbn [answers omap list_omap]. rewrite decide_False by done.
      fold (answers addr (limit_run evs (<[a := mkVisitor now r]> vs) ns)). by rewrite IH, lookup_insert_ne.
  - cbn [limit_run alone]. rewrite IH. f_equal. unfold collect. destruct (vs !! addr) as [v|] eqn:E.
    + apply eq_true_iff_eq. rewrite bool_decide_eq_true, elem_of_dom, map_lookup_filter, E. simpl.
      destruct (idle t v); simpl; [by split|]. split; [by intros []|done].
    + apply bool_decide_eq_false. rewrite elem_of_dom, map_lookup_filter, E. by intros [].
  - cbn [limit_run alone]. rewrite IH. f_equal. unfold purge. rewrite map_lookup_filter.
    case_bool_decide; destruct (vs !! addr) as [v|]; simpl; [by rewrite option_guard_False by tauto|done| |done].
    by rewrite option_guard_True.
Qed.

(** The events that matter to an address. *)
Definition concerns (addr : string) (ev : limit_event) : Prop :=
  match ev with Requests a _ => a = addr | Collects _ | Purges => True end.
#[global] Instance concerns_dec addr ev : Decision (concerns addr ev).
Proof. destruct ev; simpl; apply _. Defined.

Lemma alone_concerns addr evs v d : alone addr evs v d = alone addr (filter (concerns addr) evs) v d.
Proof.
  revert v d. induction evs as [|[a now|t|] evs IH]; intros v d; [done|..].
  - cbn [alone]. destruct (decide (a = addr)) as [Ha|Ha].
    + rewrite filter_cons_True by done. cbn [alone]. rewrite decide_True by done.
      destruct (rate_Allow _ _). by rewrite IH.
    + rewrite filter_cons_False by done. apply IH.
  - rewrite filter_cons_True by done. cbn [alone]. apply IH.
  - rewrite filter_cons_True by done. cbn [alone]. apply IH.
Qed.

(** C33: what an address is answered depends on its own requests and on the
    clean-up only, whatever the others ask: it is what a limiter of its own
    would answer, made anew when the clean-up removes an address it has found
    silent for two minutes (also one that has asked again in between). *)
Theorem limiter_isolated n addr evs evs' :
  (0 < n)%Z → filter (concerns addr) evs = filter (concerns addr) evs' →
  answers addr (Limit n evs) = alone addr evs None false ∧ answers addr (Limit n evs) = answers addr (Limit n evs').
Proof.
  intros Hn E. unfold Limit. rewrite !decide_False by lia. rewrite !limit_run_alone, !lookup_empty, bool_decide_false by set_solver.
  split; [done|]. by rewrite (alone_concerns addr evs), E, <-alone_concerns.
Qed.
End limiter.

(** ** Examples *)

Definition sample_group : list (Time * string * Message) :=
  [(zero_time, "a", sample_message); (zero_time, "b", sample_message); (zero_time, "c", zero_message)].

Lemma monitor_dead_witness :
  let m := Monitor 2 0 (fst <$> sample_group) (mkSource [] [] EOF) new_monitor in
  (fst <$> sample_group ≠ [] → mo_count m = 3%Z) ∧
  ∀ k, k ≠ monkey_of (adjust zero_message) → mo_messages m !! k = mo_messages new_monitor !! k.
Proof.
  destruct (monitor_dead 2 (fst <$> sample_group) EOF 0 new_monitor) as [H1 H2].
  split; [intros Hs; rewrite H1 by done; by vm_compute|intros k Hk; by rewrite H2].
Defined.

Lemma monitor_rings_witness :
  let m := Monitor 2 0 (fst <$> sample_group) (mkSource [] ((λ g, encodeMessage g.2) <$> sample_group) EOF) new_monitor in
  (∀ k j, j < 2 → ring_lookup m k j = snd <$> last (placed 2 k j (log sample_group))) ∧
  ∀ i now uid g, sample_group !! i = Some (now, uid, g) → length sample_group ≤ i + 2 →
    ring_lookup m (monkey_of (adjust g)) (i mod 2) = Some (stored i uid g).
Proof. apply monitor_rings; [lia|by compute_decide]. Defined.

(** A limiter of three requests for ever. *)
Definition sample_allow (now : Time) (left : nat) : bool * nat := (bool_decide (0 < left), pred left).

Lemma limiter_isolated_witness :
  let evs := [Requests "a" zero_time; Requests "b" zero_time; Requests "a" zero_time; Collects (time_Unix 0 0); Purges; Requests "a" zero_time] in
  let evs' := [Requests "a" zero_time; Requests "a" zero_time; Collects (time_Unix 0 0); Purges; Requests "a" zero_time; Requests "c" zero_time] in
  answers "a" (Limit 1 sample_allow 1 evs) = [true; false; true] ∧
  answers "a" (Limit 1 sample_allow 1 evs) = answers "a" (Limit 1 sample_allow 1 evs').
Proof.
  cbv zeta.
  match goal with |- answers _ (Limit _ _ _ ?e) = _ ∧ _ = answers _ (Limit _ _ _ ?e') =>
    destruct (limiter_isolated 1 sample_allow 1 "a" e e') as [H1 H2]; [lia|by vm_compute|] end.
  split; [rewrite H1; by vm_compute|done].
Defined.
