(* ===== verification/Tools.v ===== *)
(** * Tools: listing and extracting archived packets
      (src/cmd/vmucat/vmucat.go, src/cmd/vmuzip/vmuzip.go)

    Both commands read the packets of an archive through the panda library and
    keep those that their options select.  What the library's reader returns
    is the input. *)

From S2P Require Import Prelude Bytes SortSearch GoStd Panda Fs Storage.
From Stdlib Require Import ZArith Lia Ascii.

(** ** Options *)

Section options.
Context {panda : PandaLib} {sorter : SliceSorter}.

(** [sort.SliceStable] by [>] on channels, which are equal when neither is
    greater. *)
Definition sort_channels (cs : list Z) : list Z := sort_slice Z.opp cs.

(** [channels.Set]: the channels appended before an unknown one stay. *)
Fixpoint append_channels (ns : list string) (cs : list Z) : option error * list Z :=
  match ns with
  | [] => (None, cs)
  | n :: ns =>
      if decide (n = "vic1") then append_channels ns (cs ++ [Video1])
      else if decide (n = "vic2") then append_channels ns (cs ++ [Video2])
      else if decide (n = "lrsd") then append_channels ns (cs ++ [Science])
      else (Some (Errorf "unknown channel %q" [AStr n]), cs)
  end.

Definition channels_Set (vs : string) (cs : list Z) : option error * list Z :=
  match append_channels (Split ","%char vs) cs with
  | (Some e, cs) => (Some e, cs)
  | (None, cs) => (None, sort_channels cs)
  end.

(** [mode.Set] and [source.Set] *)
Definition mode_Set (v : string) : result string :=
  if decide (v ∈ ["realtime"; "playback"; ""; "*"]) then Ok v else Err (Errorf "unknown source %q" [AStr v]).

(** Strings in the order of [<]. *)
Definition str_le (a b : string) : Prop := String.leb a b = true.
#[local] Instance str_le_dec a b : Decision (str_le a b).
Proof. unfold str_le. apply _. Defined.

Definition sort_strings (l : list string) : list string := merge_sort str_le l.

(** [formats.Set] *)
Definition formats_Set (vs : string) (fs : list string) : list string :=
  sort_strings (fs ++ (ToLower <$> Split ","%char vs)).

(** ** The packets *)

(** What the reader's [Read] returns. *)
Inductive outcome : Type :=
  | HR (p : HRPacket)
  | NotHR
  | ErrDone
  | Failed (e : error).

Definition mode_accepts (mode : string) (p : HRPacket) : bool :=
  if decide (mode = "realtime") then IsRealtime p
  else if decide (mode = "playback") then negb (IsRealtime p)
  else true.

(** The filter of the channels: [cs[i] <= v.Stream()]. *)
Definition channel_rejected (cs : list Z) (p : HRPacket) : bool :=
  search_rejects (λ x c, Z.leb c x) cs (Stream p).

(** The filter of the formats: [fs[i] <= v.Format()]. *)
Definition format_rejected (fs : list string) (p : HRPacket) : bool :=
  search_rejects (λ x f, String.leb f x) fs (hr_Format (info p)).

(** vmucat *)
Definition cat_selects (mode src : string) (cs : list Z) (p : HRPacket) : bool :=
  if decide (0 < String.length src ∧ Origin p ≠ src) then false
  else if channel_rejected cs p then false
  else mode_accepts mode p.

(** vmuzip *)
Definition zip_selects (s : string) (fs : list string) (cs : list Z) (p : HRPacket) : bool :=
  if format_rejected fs p then false
  else if channel_rejected cs p then false
  else mode_accepts s p.

(** The goroutine of [Packets]: the packets it sends, and the error that ends
    the program. *)
Fixpoint Packets (selects : HRPacket → bool) (rs : list outcome) : list HRPacket * option error :=
  match rs with
  | [] | ErrDone :: _ => ([], None)
  | Failed e :: _ => ([], Some e)
  | NotHR :: rs => Packets selects rs
  | HR p :: rs =>
      let '(q, e) := Packets selects rs in
      (if selects p then p :: q else q, e)
  end.

(** ** vmucat: counting *)

(** [upi] of a packet; [None] for the [continue] of another type. *)
Definition upi_of (p : HRPacket) : option string :=
  match p with
  | Table _ _ sdh => Some (match sdh_type sdh with IsSDHv2 v => string_of (TrimNul (s2_Info v)) | _ => "-" end)
  | Image _ _ idh => Some (match idh_type idh with
                           | IsIDHv1 inf => string_of (TrimNul inf)
                           | IsIDHv2 v => string_of (TrimNul (i2_Info v))
                           | OtherIDH => "-"
                           end)
  | OtherPacket _ => None
  end.

(** The counts of packets and bytes, by user packet information and origin;
    the totals. *)
Record tally : Type := mkTally {
  ta_counter : gmap string (gmap string (Z * Z));
  ta_count : Z;
  ta_size : Z;
}.

Definition new_tally : tally := mkTally ∅ 0 0.

Definition payload_size (p : HRPacket) : Z := Z.of_nat (length (Payload p)).

Definition count_packet (only : string) (t : tally) (p : HRPacket) : tally :=
  match upi_of p with
  | None => t
  | Some upi =>
      if decide (0 < String.length only ∧ upi ≠ only) then t
      else
        let c := default ∅ (ta_counter t !! upi) in
        let z := match c !! Origin p with
                 | None => (1, wrap 64 (payload_size p))%Z
                 | Some (count, size) => (wrap 64 (count + 1), wrap 64 (size + payload_size p))
                 end in
        mkTally (<[upi := <[Origin p := z]> c]> (ta_counter t))
          (wrap 64 (ta_count t + 1)) (wrap 64 (ta_size t + payload_size p))
  end.

Definition tally_all (only : string) (ps : list HRPacket) : tally := foldl (count_packet only) new_tally ps.

(** ** vmuzip: extracting *)

Definition timePath (t : Time) : string :=
  Join [sprintf0 4 (Year t); sprintf0 3 (YearDay t); sprintf0 2 (HourOf t)].

Definition zip_dir (flat : bool) (d : string) (p : HRPacket) : string :=
  if flat then d else Join [d; Channel_String (Stream p); hr_Format (info p); timePath (Timestamp p)].

(** [Export] into a file that [os.Create] made; [partial] is what a failed
    export wrote before its error, and then the name is removed. *)
Definition export_to (denied : string → option error) (file : string) (partial : list byte) (r : result (list byte)) : io () :=
  match r with
  | Ok bs => WriteFile denied file bs
  | Err _ => WriteFile denied file partial;; ignore (Remove denied file)
  | Panic w => λ s, (Panic w, s)
  end.

(** The goroutine of one packet; an error it returns is one it logs. *)
Definition extract (denied : string → option error) (flat raw : bool) (d : string) (partial : list byte) (p : HRPacket) : io () :=
  let dir := zip_dir flat d p in
  (if flat then mret () else MkdirAll denied dir);;
  export_to denied (Join [dir; Filename p]) partial (hr_Export (info p));;
  if raw then export_to denied (Join [dir; Filename p +:+ ".raw"]) partial (hr_ExportRaw (info p)) else mret ().

(** The workers: [sema] holds at most [parallel] tokens; a packet is handed
    out when a token fits, a worker takes one out when it is done. *)
Record workers : Type := mkWorkers { wk_queue : list HRPacket; wk_running : list HRPacket; wk_done : list HRPacket }.

Definition tokens (parallel : Z) : nat := Z.to_nat (Z.max 0 parallel).

Inductive work (parallel : Z) : workers → workers → Prop :=
  | work_start p q rs ds :
      length rs < tokens parallel →
      work parallel (mkWorkers (p :: q) rs ds) (mkWorkers q (rs ++ [p]) ds)
  | work_finish p q rs1 rs2 ds :
      work parallel (mkWorkers q (rs1 ++ p :: rs2) ds) (mkWorkers q (rs1 ++ rs2) (ds ++ [p])).

(** The packets handed out: a limit that is not positive is none. *)
Definition limited (limit : Z) (ps : list HRPacket) : list HRPacket :=
  if decide (0 < limit)%Z then take (Z.to_nat limit) ps else ps.
End options.

(** ** Theorems *)

Section theorems.
Context {panda : PandaLib} {sorter : SliceSorter}.

Lemma sort_channels_sorted cs : StronglySorted (λ a b, (b <=? a)%Z = true) (sort_channels cs).
Proof.
  eapply StronglySorted_impl; [|apply (sort_slice_sorted Z.opp)]. intros a b H. simpl in H. lia.
Qed.

Lemma channel_rejected_sorted cs p :
  channel_rejected (sort_channels cs) p = negb (bool_decide (cs = [] ∨ Stream p ∈ cs)).
Proof.
  unfold channel_rejected.
  rewrite (search_rejects_sorted (λ a b, (b <=? a)%Z)); [|intros; lia..|apply sort_channels_sorted].
  f_equal. apply bool_decide_ext. unfold sort_channels.
  assert (sort_slice Z.opp cs = [] ↔ cs = []) as ->; [|by rewrite sort_slice_perm].
  split; intros E; [|subst]; apply Permutation_nil; [by rewrite <-E, sort_slice_perm|by rewrite sort_slice_perm].
Qed.

Lemma Packets_selected selects ps :
  Packets selects ((HR <$> ps) ++ [ErrDone]) = (filter (λ p, selects p = true) ps, None).
Proof.
  induction ps as [|p ps IH]; [done|]. rewrite fmap_cons. cbn [app Packets]. rewrite IH, filter_cons.
  by destruct (selects p).
Qed.

Lemma append_channels_length ns cs l : append_channels ns cs = (None, l) → length l = length cs + length ns.
Proof.
  revert cs. induction ns as [|n ns IH]; intros cs; cbn [append_channels]; [intros [= <-]; simpl; lia|].
  repeat case_decide; intros E; try done; apply IH in E; rewrite E, length_app; simpl; lia.
Qed.

Lemma channels_Set_rejected vs cs0 cs p :
  channels_Set vs cs0 = (None, cs) → channel_rejected cs p = negb (bool_decide (Stream p ∈ cs)).
Proof.
  unfold channels_Set. destruct (append_channels _ _) as [[e|] l] eqn:E; [done|]. intros [= <-].
  rewrite channel_rejected_sorted. f_equal. apply bool_decide_ext. unfold sort_channels. rewrite sort_slice_perm.
  assert (l ≠ []); [|naive_solver]. intros ->. apply append_channels_length in E. simpl in E.
  apply (Split_not_nil ","%char vs). apply nil_length_inv. lia.
Qed.

(** Fact: the lister shows the packets of the chosen origin, of the named
    channels and of the chosen mode, in the order of the archive. *)
Theorem cat_Packets mode src vs cs0 cs ps :
  channels_Set vs cs0 = (None, cs) →
  Packets (cat_selects mode src cs) ((HR <$> ps) ++ [ErrDone]) =
  (filter (λ p, (src = "" ∨ Origin p = src) ∧ Stream p ∈ cs ∧
                (mode = "realtime" → IsRealtime p = true) ∧ (mode = "playback" → IsRealtime p = false)) ps, None).
Proof.
  intros Hcs. rewrite Packets_selected. f_equal. apply list_filter_iff. intros p. unfold cat_selects, mode_accepts.
  rewrite (channels_Set_rejected vs cs0 cs p Hcs).
  assert ((0 < String.length src ∧ Origin p ≠ src) ↔ ¬ (src = "" ∨ Origin p = src)) as Hsrc
    by (destruct src; simpl; naive_solver lia).
  destruct (decide (src = "" ∨ Origin p = src)) as [Hs|Hs]; [rewrite decide_False by tauto|rewrite decide_True by tauto; naive_solver].
  destruct (decide (Stream p ∈ cs)) as [Hc|Hc]; [rewrite bool_decide_true by done|rewrite bool_decide_false by done; naive_solver].
  simpl. repeat case_decide; destruct (IsRealtime p); naive_solver.
Qed.

(** *** The formats *)

#[local] Instance str_le_total : Total str_le.
Proof. intros a b. unfold str_le. destruct (String.leb_total a b); auto. Qed.
#[local] Instance str_le_trans : Transitive str_le.
Proof. intros a b c. apply str_leb_trans. Qed.

Lemma sort_strings_sorted l : StronglySorted str_le (sort_strings l).
Proof. unfold sort_strings. apply (StronglySorted_merge_sort str_le). Qed.

Lemma sorted_distinct (l : list string) :
  StronglySorted str_le l → NoDup l → StronglySorted (λ a b, String.leb b a = false) l.
Proof.
  induction 1 as [|a l Hs IH Ha]; intros Hnd; [constructor|]. apply NoDup_cons in Hnd as [Hn Hnd].
  constructor; [by apply IH|]. rewrite Forall_forall in Ha |- *. intros b Hb.
  destruct (String.leb b a) eqn:E; [|done]. exfalso. apply Hn.
  assert (a = b) as -> by (by apply String.leb_antisym; [apply Ha|]). done.
Qed.

(** Fact: two or more distinct formats make the extractor select nothing: it
    sorts them in one order and searches them in the other. *)
Theorem zip_formats s vs fs0 cs rs :
  NoDup (formats_Set vs fs0) → 2 ≤ length (formats_Set vs fs0) →
  (Packets (zip_selects s (formats_Set vs fs0) cs) rs).1 = [].
Proof.
  intros Hnd Hl. assert (∀ p, zip_selects s (formats_Set vs fs0) cs p = false) as Hz.
  { intros p. unfold zip_selects, format_rejected.
    rewrite (search_rejects_reversed (λ x f, String.leb f x)); [done|intros; apply str_leb_refl| | |done].
    - intros a b H. simpl in *. destruct (String.leb_total a b); congruence.
    - apply sorted_distinct; [apply sort_strings_sorted|done]. }
  induction rs as [|[p| | |e] rs IH]; cbn [Packets]; [done| |done..].
  rewrite Hz. by destruct (Packets _ rs).
Qed.

(** *** The counts *)

(** The packets that are counted. *)
Definition counts (only : string) (p : HRPacket) : Prop :=
  is_Some (upi_of p) ∧ (only = "" ∨ upi_of p = Some only).
#[global] Instance counts_dec only p : Decision (counts only p).
Proof. unfold counts. apply _. Defined.

Lemma counts_iff only p u : upi_of p = Some u → (0 < String.length only ∧ u ≠ only) ↔ ¬ counts only p.
Proof.
  intros Hu. unfold counts. rewrite Hu. assert (0 < String.length only ↔ only ≠ "") as ->
    by (destruct only; simpl; naive_solver lia).
  destruct (decide (only = "")), (decide (u = only)); naive_solver.
Qed.

Definition total_size (ps : list HRPacket) : Z := foldr (λ p z, (payload_size p + z)%Z) 0%Z ps.

Lemma total_size_app ps qs : total_size (ps ++ qs) = (total_size ps + total_size qs)%Z.
Proof. unfold total_size. induction ps as [|p ps IH]; simpl; lia. Qed.

(** The packets of one line of the report. *)
Definition line_of (only upi origin : string) (ps : list HRPacket) : list HRPacket :=
  filter (λ p, counts only p ∧ upi_of p = Some upi ∧ Origin p = origin) ps.

(** Fact: the report has a line for every user packet information and origin
    that was counted, and the line has their number and their bytes, modulo
    2^64. *)
Theorem tally_lines only ps upi origin :
  ta_counter (tally_all only ps) !! upi ≫= (λ c, c !! origin) =
  let ms := line_of only upi origin ps in
  if decide (ms = []) then None else Some (wrap 64 (Z.of_nat (length ms)), wrap 64 (total_size ms)).
Proof.
  cbv zeta. induction ps as [|p ps IH] using rev_ind; [done|].
  unfold tally_all in *. rewrite foldl_app. cbn [foldl]. set (t := foldl _ _ ps) in *.
  unfold line_of in *. rewrite filter_app, filter_cons, filter_nil. unfold count_packet.
  destruct (upi_of p) as [u|] eqn:Hu.
  2: { rewrite (decide_False (P := counts only p ∧ _)), app_nil_r by (intros (? & ? & ?); congruence). exact IH. }
  destruct (decide (counts only p)) as [Hc|Hc].
  2: { rewrite decide_True by (by apply (counts_iff _ p)).
       rewrite (decide_False (P := counts only p ∧ _)), app_nil_r by (by intros [? _]). exact IH. }
  rewrite (decide_False (P := _ < _ ∧ _)) by (intros Hn; by apply (counts_iff _ p) in Hn).
  cbn [ta_counter]. destruct (decide (u = upi)) as [->|Hne].
  2: { rewrite lookup_insert_ne by done.
       rewrite (decide_False (P := counts only p ∧ _)), app_nil_r by (intros (? & ? & ?); congruence). exact IH. }
  rewrite lookup_insert_eq. cbn [mbind option_bind]. destruct (decide (Origin p = origin)) as [Ho|Hne].
  2: { rewrite lookup_insert_ne by done. rewrite (decide_False (P := counts only p ∧ _)), app_nil_r by (by intros (_ & _ & ?)).
       rewrite <-IH. destruct (ta_counter t !! upi); [done|apply lookup_empty]. }
  rewrite Ho, lookup_insert_eq, (decide_True (P := counts only p ∧ _)) by (split; [exact Hc|by split]).
  set (ms := filter _ ps) in *. rewrite (decide_False (P := _ ++ _ = [])) by (intros [_ ?]%app_nil; done). f_equal.
  assert (default ∅ (ta_counter t !! upi) !! origin = ta_counter t !! upi ≫= (λ c, c !! origin)) as ->
    by (destruct (ta_counter t !! upi); [done|apply lookup_empty]).
  rewrite IH, length_app, total_size_app. case_decide as Hm.
  - rewrite Hm. simpl. by rewrite Z.add_0_r.
  - rewrite !wrap_add_l. cbn [length]. f_equal; [f_equal; lia|]. unfold total_size. simpl. by rewrite Z.add_0_r.
Qed.

(** *** The workers *)

Definition work_ok (parallel : Z) (ps : list HRPacket) (w : workers) : Prop :=
  length (wk_running w) ≤ tokens parallel ∧ wk_queue w ++ wk_running w ++ wk_done w ≡ₚ ps.

Lemma work_preserves parallel ps w w' : work parallel w w' → work_ok parallel ps w → work_ok parallel ps w'.
Proof.
  intros [p q rs ds Hl|p q rs1 rs2 ds] [Hr Hp]; cbn [wk_running wk_queue wk_done] in *; split; cbn in *.
  - rewrite length_app. simpl. lia.
  - rewrite <-Hp. solve_Permutation.
  - rewrite length_app in *. simpl in Hr. lia.
  - rewrite <-Hp. solve_Permutation.
Qed.

Lemma work_progress parallel w :
  0 < tokens parallel → (∃ w', work parallel w w') ∨ (wk_queue w = [] ∧ wk_running w = []).
Proof.
  intros Hk. destruct w as [[|p q] [|r rs] ds]; [by right|left..]; eexists.
  - by apply (work_finish _ r [] [] rs).
  - by apply work_start.
  - by apply (work_finish _ r _ [] rs).
Qed.

Lemma work_none parallel ps w' : tokens parallel = 0 → ¬ work parallel (mkWorkers ps [] []) w'.
Proof.
  intros Hk H. inversion H as [p q rs ds Hl|p q rs1 rs2 ds Hq Hr]; subst; [lia|]. by destruct rs1.
Qed.

(** Fact: the extractor has at most as many workers as it was told, loses no
    packet and can always go on until all are done; told to have none, it
    never starts. *)
Theorem zip_workers parallel limit ps w :
  let start := mkWorkers (limited limit ps) [] [] in
  rtc (work parallel) start w →
  work_ok parallel (limited limit ps) w ∧
  ((0 < parallel)%Z → (∃ w', work parallel w w') ∨ wk_done w ≡ₚ limited limit ps) ∧
  ((parallel ≤ 0)%Z → w = start ∧ ¬ ∃ w', work parallel w w').
Proof.
  intros start H.
  assert (work_ok parallel (limited limit ps) w) as Hok.
  { assert (work_ok parallel (limited limit ps) start) as Hs
      by (split; unfold start; cbn [wk_running wk_queue wk_done length app]; [lia|rewrite app_nil_r; reflexivity]).
    clearbody start. induction H; eauto using work_preserves. }
  split_and!; [done|intros Hp; destruct (work_progress parallel w) as [|[Hq Hr]]|intros Hp].
  - unfold tokens. lia.
  - by left.
  - right. destruct Hok as [_ Hok]. by rewrite Hq, Hr in Hok.
  - assert (tokens parallel = 0) as Hk by (unfold tokens; lia).
    assert (w = start) as ->.
    { apply rtc_inv in H as [<-|(y & Hy & _)]; [done|]. by apply work_none in Hy. }
    split; [done|]. intros [w' Hw]. by apply work_none in Hw.
Qed.
End theorems.

(** ** The extracted files *)

Section extracted.
Context {panda : PandaLib} (partial : list byte).

(** What the file holds behind [export_to]. *)
Definition exported (file : string) (r : result (list byte)) (s : fs) : fs :=
  match r with
  | Ok bs => write_to file bs s
  | _ => let s' := write_to file partial s in mkFs (fs_dirs s') (delete file (fs_entries s')) (fs_inodes s') (fs_next s')
  end.

Definition ok_part {A} (r : result A) : option A := match r with Ok a => Some a | _ => None end.

Lemma export_to_run file r s :
  writable s file → (∀ w, r ≠ Panic w) → export_to healthy file partial r s = (Ok (), exported file r s).
Proof.
  intros Hw Hr. destruct r as [bs|e|w]; [|unfold export_to, mbind, io_bind|by destruct (Hr w)].
  - by apply WriteFile_healthy.
  - rewrite WriteFile_healthy by done. apply Remove_healthy.
Qed.

Lemma exported_spec file r s :
  fs_wf s → writable s file →
  fs_wf (exported file r s) ∧ content (exported file r s) file = ok_part r ∧
  fs_dirs (exported file r s) = fs_dirs s ∧
  (∀ q, q ≠ file → fs_entries (exported file r s) !! q = fs_entries s !! q) ∧
  (∀ q, q ≠ file → unaliased s file q → content (exported file r s) q = content s q).
Proof.
  intros Hs Hw. pose proof (write_to_wf file partial s Hs Hw) as Hwf.
  destruct r as [bs|e|w]; cbn [exported ok_part]; split_and!.
  1: by apply write_to_wf.
  1: apply write_to_content.
  1: apply write_to_dirs.
  1: intros; by apply write_to_entries.
  1: intros; by apply write_to_other.
  all: try (pose proof (preserves_ignore _ _ (Remove_wf healthy file) _ Hwf) as H; by rewrite Remove_healthy in H).
  all: unfold content; cbn [fs_entries fs_inodes fs_dirs]; try by rewrite lookup_delete_eq.
  all: try apply write_to_dirs.
  all: intros q Hq; rewrite lookup_delete_ne by done; try by apply write_to_entries.
  all: intros Ha; by apply write_to_other.
Qed.

(** A directory the packet can be extracted to. *)
Record extractable (flat : bool) (dir : string) (p : HRPacket) (s : fs) : Prop := {
  xt_wf : fs_wf s;
  xt_dirs : Forall (λ d, fs_entries s !! d = None) (ancestors dir);
  xt_there : flat = true → dir ∈ fs_dirs s;
  xt_plain : Forall (λ q, q ∉ fs_dirs s ∪ list_to_set (ancestors dir) ∧ ∀ t, fs_entries s !! q ≠ Some (Symbolic t))
               [Join [dir; Filename p]; Join [dir; Filename p +:+ ".raw"]];
  xt_alias : unaliased s (Join [dir; Filename p]) (Join [dir; Filename p +:+ ".raw"]);
}.

(** Fact: the extractor writes the packet and, when asked, its raw bytes below
    the directory of its channel, format and time; an export that fails leaves
    no file of that name, and no other file name is touched. *)
Theorem extract_files flat raw d r dir segs p s :
  zip_dir flat d p = dir → path_is r dir segs → simple_name (Filename p) → extractable flat dir p s →
  (∀ w, hr_Export (info p) ≠ Panic w) → (∀ w, hr_ExportRaw (info p) ≠ Panic w) →
  let file := Join [dir; Filename p] in let rawfile := Join [dir; Filename p +:+ ".raw"] in
  ∃ s', extract healthy flat raw d partial p s = (Ok (), s') ∧ fs_wf s' ∧
    content s' file = ok_part (hr_Export (info p)) ∧
    (raw = true → content s' rawfile = ok_part (hr_ExportRaw (info p))) ∧
    (∀ q, q ≠ file → (raw = true → q ≠ rawfile) → fs_entries s' !! q = fs_entries s !! q).
Proof.
  intros Hdir Hpath Hname [Hwf Hanc Hthere Hplain Halias] Hx Hr. cbv zeta.
  set (file := Join [dir; Filename p]) in *. set (rawfile := Join [dir; Filename p +:+ ".raw"]) in *.
  assert (simple_name (Filename p +:+ ".raw")) as Hrn by (by apply suffixed_name; [|simpl; lia|]).
  assert (file ≠ rawfile) as Hne.
  { intros E. apply (join_name_inj r dir segs) in E; [|done..].
    apply (f_equal String.length) in E. rewrite str_length_app in E. simpl in E. lia. }
  rewrite !Forall_cons in Hplain. destruct Hplain as ([Hf Hft] & [Hw Hwt] & _).
  set (s1 := mkFs (if flat then fs_dirs s else fs_dirs s ∪ list_to_set (ancestors dir)) (fs_entries s) (fs_inodes s) (fs_next s)).
  assert ((if flat then mret () else MkdirAll healthy dir) s = (Ok (), s1)) as Hmk.
  { destruct flat; [by destruct s|by apply MkdirAll_healthy]. }
  assert (fs_wf s1) as Hwf1.
  { destruct flat; [by destruct s|]. pose proof (MkdirAll_wf healthy dir s Hwf) as H. by rewrite MkdirAll_healthy in H. }
  assert (∀ f, simple_name f → parent (Join [dir; f]) ∈ fs_dirs s1) as Hpar.
  { intros f Hs. rewrite (parent_join r dir segs) by done. unfold s1; cbn [fs_dirs]. destruct flat; [by apply Hthere|].
    apply elem_of_union_r, elem_of_list_to_set. by eapply ancestors_self. }
  assert (writable s1 file) as Hw1.
  { split_and!; [by apply Hpar|unfold s1; cbn [fs_dirs]; destruct flat; set_solver|done]. }
  destruct (exported_spec file (hr_Export (info p)) s1 Hwf1 Hw1) as (Hwf2 & Hc & Hd & He & _).
  unfold extract. rewrite Hdir. cbv zeta. unfold mbind, io_bind. rewrite Hmk. change (Join [dir; Filename p]) with file. change (Join [dir; _]) with rawfile.
  rewrite export_to_run by done. set (s2 := exported file _ s1) in *.
  destruct raw; [|exists s2; split_and!; [done..|]; intros; by apply He].
  assert (writable s2 rawfile) as Hw2.
  { split_and!; [rewrite Hd; by apply Hpar|rewrite Hd; unfold s1; cbn [fs_dirs]; destruct flat; set_solver|]. intros t. rewrite He by done. apply Hwt. }
  destruct (exported_spec rawfile (hr_ExportRaw (info p)) s2 Hwf2 Hw2) as (Hwf3 & Hc3 & Hd3 & He3 & Ho3).
  rewrite export_to_run by done. eexists. split_and!; [done..| |by intros|].
  - rewrite Ho3; [done|done|]. intros i Hi Hi2. rewrite He in Hi by done. revert Hi2. unfold s2.
    destruct (hr_Export (info p)) as [bs|e|w]; [|by cbn [exported fs_entries]; rewrite lookup_delete_eq..].
    intros Hi2. apply (write_to_regular file rawfile bs s1 i); done.
  - intros q Hq1 Hq2. rewrite He3 by (by apply Hq2). by apply He.
Qed.
End extracted.

(** ** Examples *)

Definition sample_recorded : list HRPacket := [sample_image "OPS" 1 true [x01; x02]; sample_table "SIM" 2 true [x03]].

Lemma cat_Packets_witness :
  Packets (cat_selects "realtime" "51" [Science]) ((HR <$> sample_recorded) ++ [ErrDone]) =
  ([sample_table "SIM" 2 true [x03]], None).
Proof. rewrite (cat_Packets _ _ "lrsd" []) by (by vm_compute). by vm_compute. Defined.

Lemma zip_formats_witness :
  (Packets (zip_selects "" (formats_Set "PNG,jpg" []) []) (HR <$> sample_recorded)).1 = [].
Proof. apply zip_formats; by compute_decide. Defined.

Lemma zip_workers_witness :
  work_ok 0 (limited 1 sample_recorded) (mkWorkers (take 1 sample_recorded) [] []) ∧
  ¬ ∃ w', work 0 (mkWorkers (take 1 sample_recorded) [] []) w'.
Proof.
  edestruct (zip_workers 0 1 sample_recorded) as (Hok & _ & Hn); [apply rtc_refl|].
  split; [exact Hok|by apply Hn].
Defined.

(** One format selects its packets. *)
Example zip_one_format :
  (Packets (zip_selects "" (formats_Set "MMA" []) []) ((HR <$> sample_recorded) ++ [ErrDone])).1 = sample_recorded.
Proof. by vm_compute. Qed.

Lemma sample_extractable d p s :
  fs_wf s → Forall (λ q, fs_entries s !! q = None) (ancestors d) →
  Forall (λ q, q ∉ fs_dirs s ∪ list_to_set (ancestors d) ∧ fs_entries s !! q = None)
    [Join [d; Filename p]; Join [d; Filename p +:+ ".raw"]] →
  extractable false d p s.
Proof.
  intros Hwf Hd Hq. split; [done..| |].
  - eapply Forall_impl; [exact Hq|]. intros q [H1 H2]. split; [done|]. intros t. by rewrite H2.
  - rewrite !Forall_cons in Hq. destruct Hq as ([_ H1] & _). intros i Hi. by rewrite H1 in Hi.
Qed.

Lemma extract_files_witness :
  ∃ s', extract healthy false true "/out" [] (sample_image "OPS" 1 true [x01; x02]) empty_fs = (Ok (), s') ∧
    content s' "/out/vic1/mma/2020/001/00/0051_y800_1_7_20200101_000000.dat.raw" = Some [x01; x02].
Proof.
  destruct (extract_files [] false true "/out" true "/out/vic1/mma/2020/001/00" ["out"; "vic1"; "mma"; "2020"; "001"; "00"]
    (sample_image "OPS" 1 true [x01; x02]) empty_fs) as (s' & H & _ & _ & Hr & _).
  - by vm_compute.
  - split; [by compute_decide|done].
  - by compute_decide.
  - apply sample_extractable; [apply empty_fs_wf|by compute_decide|].
    do 2 (apply Forall_cons; split; [split; [by compute_decide|by vm_compute]|]). constructor.
  - done.
  - done.
  - exists s'. split; [exact H|exact (Hr eq_refl)].
Defined.
