(* ===== verification/Extract.v ===== *)
(** * Extract: the workers of vmuzip on one file system
      (main of src/cmd/vmuzip/vmuzip.go)

    The goroutines of the extractor run at the same time on the same files.
    What one of them does to a packet is a list of operations; the program is
    a step relation in which any worker may do its next one.  The theorem says
    that the files do not depend on the interleaving. *)

From S2P Require Import Prelude Bytes SortSearch GoStd Panda Fs Storage Tools.
From Stdlib Require Import ZArith Lia.

(** ** The operations of a worker *)

Inductive zop : Type :=
  | ZMkdir (d : string)
  | ZWrite (f : string) (bs : list byte)
  | ZRemove (f : string)
  | ZPanic (what : string).

Definition exec_zop (denied : string → option error) (o : zop) : io () :=
  match o with
  | ZMkdir d => MkdirAll denied d
  | ZWrite f bs => WriteFile denied f bs
  | ZRemove f => ignore (Remove denied f)
  | ZPanic what => λ s, (Panic what, s)
  end.

Fixpoint run_zops (denied : string → option error) (os : list zop) : io () :=
  match os with
  | [] => mret ()
  | o :: os => exec_zop denied o;; run_zops denied os
  end.

Section extract.
Context {panda : PandaLib} (flat raw : bool) (d : string) (partial : list byte).

(** [partial] is what a failed export wrote. *)
Definition export_zops (file : string) (r : result (list byte)) : list zop :=
  match r with
  | Ok bs => [ZWrite file bs]
  | Err _ => [ZWrite file partial; ZRemove file]
  | Panic what => [ZPanic what]
  end.

Definition zip_file (p : HRPacket) : string := Join [zip_dir flat d p; Filename p].
Definition zip_raw (p : HRPacket) : string := Join [zip_dir flat d p; Filename p +:+ ".raw"].

(** What the goroutine of a packet does. *)
Definition zops (p : HRPacket) : list zop :=
  (if flat then [] else [ZMkdir (zip_dir flat d p)]) ++
  export_zops (zip_file p) (hr_Export (info p)) ++
  (if raw then export_zops (zip_raw p) (hr_ExportRaw (info p)) else []).

Lemma run_zops_app denied os os' s :
  run_zops denied (os ++ os') s = (run_zops denied os;; run_zops denied os') s.
Proof.
  revert s. induction os as [|o os IH]; intros s; [done|]. cbn [app run_zops]. unfold mbind, io_bind in *.
  destruct (exec_zop denied o s) as [[[]|e|w] s']; [|done..]. by rewrite IH.
Qed.

Lemma run_export denied file r s :
  run_zops denied (export_zops file r) s = export_to denied file partial r s.
Proof.
  destruct r as [bs|e|w]; [| |done]; cbn; unfold mbind, io_bind.
  - by destruct (WriteFile denied file bs s) as [[[]|e|w] s'].
  - destruct (WriteFile denied file partial s) as [[[]|e'|w] s']; [|done..].
    by destruct (ignore _ s') as [[[]|e'|w] s''].
Qed.

(** The operations are those of [extract], in its order, up to the first that
    fails. *)
Lemma extract_zops denied p s :
  run_zops denied (zops p) s = extract denied flat raw d partial p s.
Proof.
  unfold zops, extract. rewrite run_zops_app. unfold mbind, io_bind.
  assert (run_zops denied (if flat then [] else [ZMkdir (zip_dir flat d p)]) s =
    (if flat then mret () else MkdirAll denied (zip_dir flat d p)) s) as ->.
  { destruct flat; [done|]. cbn. unfold mbind, io_bind. by destruct (MkdirAll denied _ s) as [[[]|e|w] s']. }
  destruct ((if flat then mret () else MkdirAll denied (zip_dir flat d p)) s) as [[[]|e|w] s1]; [|done..].
  rewrite run_zops_app. unfold mbind, io_bind. rewrite run_export.
  destruct (export_to denied _ _ _ s1) as [[[]|e|w] s2]; [|done..].
  destruct raw; [by apply run_export|done].
Qed.

(** ** The program

    A running worker has a packet and the number of operations it has done;
    one that fails logs the error and has done all. *)
Record zip_state : Type := mkZip {
  zs_queue : list HRPacket;
  zs_running : list (HRPacket * nat);
  zs_done : list HRPacket;
  zs_fs : fs;
}.

Inductive zip_step (denied : string → option error) (parallel : Z) : zip_state → zip_state → Prop :=
  | zip_start p q rs ds s :
      length rs < tokens parallel →
      zip_step denied parallel (mkZip (p :: q) rs ds s) (mkZip q (rs ++ [(p, 0)]) ds s)
  | zip_op p n o q rs1 rs2 ds s s' :
      zops p !! n = Some o → exec_zop denied o s = (Ok (), s') →
      zip_step denied parallel (mkZip q (rs1 ++ (p, n) :: rs2) ds s) (mkZip q (rs1 ++ (p, S n) :: rs2) ds s')
  | zip_fails p n o e q rs1 rs2 ds s s' :
      zops p !! n = Some o → exec_zop denied o s = (Err e, s') →
      zip_step denied parallel (mkZip q (rs1 ++ (p, n) :: rs2) ds s) (mkZip q (rs1 ++ (p, length (zops p)) :: rs2) ds s')
  | zip_ends p n q rs1 rs2 ds s :
      zops p !! n = None →
      zip_step denied parallel (mkZip q (rs1 ++ (p, n) :: rs2) ds s) (mkZip q (rs1 ++ rs2) (ds ++ [p]) s).

Definition zip_begin (ps : list HRPacket) (s : fs) : zip_state := mkZip ps [] [] s.

(** How far the worker of every packet is. *)
Definition progress (w : zip_state) : list (HRPacket * nat) :=
  ((λ p, (p, 0)) <$> zs_queue w) ++ zs_running w ++ ((λ p, (p, length (zops p))) <$> zs_done w).

(** ** What an operation does to the contents *)

Definition effect (o : zop) (c : string → option (list byte)) (q : string) : option (list byte) :=
  match o with
  | ZMkdir _ | ZPanic _ => c q
  | ZWrite f bs => if decide (q = f) then Some bs else c q
  | ZRemove f => if decide (q = f) then None else c q
  end.

Definition effects (os : list zop) : string → option (list byte) := foldl (λ c o, effect o c) (λ _, None) os.

(** The names an operation can change. *)
Definition touches (o : zop) : list string :=
  match o with ZMkdir _ | ZPanic _ => [] | ZWrite f _ | ZRemove f => [f] end.

Lemma effect_other o c q : q ∉ touches o → effect o c q = c q.
Proof. intros Hq. destruct o; simpl in *; [done| | |done]; rewrite decide_False by set_solver; done. Qed.

(** The names that belong to a packet. *)
Definition owns (p : HRPacket) : list string := zip_file p :: if raw then [zip_raw p] else [].

Lemma touches_own p n o q : zops p !! n = Some o → q ∈ touches o → q ∈ owns p.
Proof.
  intros Ho%list_elem_of_lookup_2. unfold zops in Ho. unfold owns.
  assert (∀ file r, o ∈ export_zops file r → q ∈ touches o → q = file) as Hx.
  { intros file r Hin Hq. destruct r; simpl in Hin; repeat (apply elem_of_cons in Hin as [->|Hin]; [set_solver|]); set_solver. }
  rewrite !elem_of_app in Ho. destruct Ho as [Ho|[Ho|Ho]].
  - destruct flat; [set_solver|]. apply list_elem_of_singleton in Ho as ->. simpl. set_solver.
  - intros Hq. rewrite (Hx _ _ Ho Hq). by left.
  - destruct raw; [|set_solver]. intros Hq. rewrite (Hx _ _ Ho Hq). by right; left.
Qed.

(** A packet whose export returns. *)
Definition exports_end (p : HRPacket) : Prop :=
  (∀ w, hr_Export (info p) ≠ Panic w) ∧ (∀ w, hr_ExportRaw (info p) ≠ Panic w).

(** What all the operations of a packet leave. *)
Lemma effects_done p :
  exports_end p → zip_file p ≠ zip_raw p →
  effects (zops p) (zip_file p) = ok_part (hr_Export (info p)) ∧
  (raw = true → effects (zops p) (zip_raw p) = ok_part (hr_ExportRaw (info p))).
Proof.
  intros [Hx Hxr] Hne. unfold effects, zops. rewrite !foldl_app.
  set (c0 := foldl _ _ (if flat then _ else _)).
  assert (∀ file r c, (∀ w, r ≠ Panic w) → foldl (λ c o, effect o c) c (export_zops file r) file = ok_part r) as Hown.
  { intros file r c Hr. destruct r as [bs|e|w]; cbn; [by rewrite decide_True..|by destruct (Hr w)]. }
  assert (∀ file r c q, q ≠ file → foldl (λ c o, effect o c) c (export_zops file r) q = c q) as Hoth.
  { intros file r c q Hq. destruct r; cbn; by rewrite ?decide_False. }
  destruct raw; [|split; [by apply Hown|done]]. split; [|by intros; apply Hown]. rewrite Hoth by done. by apply Hown.
Qed.
End extract.

(** ** The invariant *)

Section interleaved.
Context {panda : PandaLib} (flat raw : bool) (d : string) (partial : list byte) (parallel : Z).
Context (ps : list HRPacket) (s0 : fs).

#[local] Abbreviation ops := (zops flat raw d partial).
#[local] Abbreviation own := (owns flat raw d).
#[local] Abbreviation zdir := (zip_dir flat d).
#[local] Abbreviation step := (zip_step flat raw d partial healthy parallel).

(** An output directory that holds none of the files to come, and packets with
    names of their own. *)
Record roomy : Prop := {
  ry_wf : fs_wf s0;
  ry_dirs p a : p ∈ ps → a ∈ ancestors (zdir p) → fs_entries s0 !! a = None;
  ry_there : flat = true → d ∈ fs_dirs s0;
  ry_path p : p ∈ ps → simple_name (Filename p) ∧ ∃ r segs, path_is r (zdir p) segs;
  ry_fresh p q : p ∈ ps → q ∈ own p → fs_entries s0 !! q = None ∧ q ∉ fs_dirs s0;
  ry_apart p p' q : p ∈ ps → p' ∈ ps → q ∈ own p → q ∉ ancestors (zdir p');
  ry_distinct : NoDup (concat (own <$> ps));
  ry_exports p : p ∈ ps → exports_end p;
}.

(** A name that can be written without a change to another. *)
Definition free (s : fs) (q : string) : Prop :=
  q ∉ fs_dirs s ∧ match fs_entries s !! q with
                  | None => True
                  | Some (Regular i) => ∀ q', q' ≠ q → fs_entries s !! q' ≠ Some (Regular i)
                  | Some (Symbolic _) => False
                  end.

(** The worker of [p] after [n] operations. *)
Record stage (s : fs) (p : HRPacket) (n : nat) : Prop := {
  st_most : n ≤ length (ops p);
  st_dir : flat = true ∨ 0 < n → zdir p ∈ fs_dirs s;
  st_content q : q ∈ own p → content s q = effects (take n (ops p)) q;
}.

Record zip_ok (l : list (HRPacket * nat)) (s : fs) : Prop := {
  zk_wf : fs_wf s;
  zk_packets : l.*1 ≡ₚ ps;
  zk_stages : Forall (λ x, stage s x.1 x.2) l;
  zk_dirs p a : p ∈ ps → a ∈ ancestors (zdir p) → fs_entries s !! a = None;
  zk_free p q : p ∈ ps → q ∈ own p → free s q;
  zk_others q : q ∉ concat (own <$> ps) → fs_entries s !! q = fs_entries s0 !! q ∧ content s q = content s0 q;
}.

Lemma own_parent p q : roomy → p ∈ ps → q ∈ own p → parent q = zdir p.
Proof.
  intros Hr Hp Hq. destruct (ry_path Hr p Hp) as (Hn & r & segs & Hd).
  assert (simple_name (Filename p +:+ ".raw")) as Hrn by (by apply suffixed_name; [|simpl; lia|]).
  unfold owns, zip_file, zip_raw in Hq. apply elem_of_cons in Hq as [->|Hq]; [by eapply parent_join|].
  destruct raw; [|by apply elem_of_nil in Hq]. apply list_elem_of_singleton in Hq as ->. by eapply parent_join.
Qed.

(** An operation of one packet, in a state of the invariant. *)
Record op_done (p : HRPacket) (o : zop) (s s' : fs) : Prop := {
  od_wf : fs_wf s';
  od_content q : content s' q = effect o (content s) q;
  od_entries q : q ∉ touches o → fs_entries s' !! q = fs_entries s !! q;
  od_free q : q ∈ touches o → free s' q;
  od_dirs : fs_dirs s ⊆ fs_dirs s';
  od_new q : q ∈ fs_dirs s' → q ∈ fs_dirs s ∨ q ∈ ancestors (zdir p);
  od_made : ∀ f, o = ZMkdir f → f = zdir p → zdir p ∈ fs_dirs s';
  od_inodes q i : q ∉ touches o → fs_entries s !! q = Some (Regular i) →
    ∀ q', q' ∈ touches o → fs_entries s' !! q' = Some (Regular i) → fs_entries s !! q' = Some (Regular i);
}.

Lemma mkdir_done p s :
  fs_wf s → (∀ a, a ∈ ancestors (zdir p) → fs_entries s !! a = None) → zdir p ∈ ancestors (zdir p) →
  ∃ s', exec_zop healthy (ZMkdir (zdir p)) s = (Ok (), s') ∧ op_done p (ZMkdir (zdir p)) s s'.
Proof.
  intros Hwf Ha Hself. pose proof (MkdirAll_wf healthy (zdir p) s Hwf) as Hwf'.
  assert (Forall (λ a, fs_entries s !! a = None) (ancestors (zdir p))) as HF by by apply Forall_forall.
  eexists. split; [by apply MkdirAll_healthy|]. rewrite MkdirAll_healthy in Hwf' by done.
  split; cbn [fs_dirs fs_entries fs_inodes effect touches]; [done|done|done|set_solver|set_solver| | |set_solver].
  - intros q [?|Hq]%elem_of_union; [by left|right]. by apply elem_of_list_to_set in Hq.
  - intros. apply elem_of_union_r. by apply elem_of_list_to_set.
Qed.

Lemma write_done p f bs s :
  fs_wf s → free s f → parent f ∈ fs_dirs s →
  ∃ s', exec_zop healthy (ZWrite f bs) s = (Ok (), s') ∧ op_done p (ZWrite f bs) s s'.
Proof.
  intros Hwf [Hd Hf] Hp.
  assert (writable s f) as Hw. { split_and!; [done..|]. intros t Ht. by rewrite Ht in Hf. }
  exists (write_to f bs s). split; [by apply WriteFile_healthy|].
  split; cbn [touches effect]; rewrite ?write_to_dirs; [by apply write_to_wf| | | |done|by left|done|].
  - intros q. case_decide as Hq; [subst; by rewrite write_to_content|]. apply write_to_other; [done..|].
    intros i Hi. rewrite Hi in Hf. by apply Hf.
  - intros q Hq. apply write_to_entries. set_solver.
  - intros q Hq. apply list_elem_of_singleton in Hq as ->. split; [by rewrite write_to_dirs|].
    unfold write_to. destruct (fs_entries s !! f) as [[i|t]|] eqn:E; simpl; rewrite ?E, ?lookup_insert_eq; try done.
    intros q' Hne. rewrite lookup_insert_ne by done. intros Hq'.
    pose proof (wf_inodes s Hwf _ (wf_entries s Hwf _ _ Hq')). lia.
  - intros q i Hq Hi q' Hq' Hi'. apply list_elem_of_singleton in Hq' as ->. unfold write_to in Hi'.
    destruct (fs_entries s !! f) as [[j|t]|] eqn:E; simpl in Hi'; [congruence|done|].
    rewrite lookup_insert_eq in Hi'. injection Hi' as <-.
    pose proof (wf_inodes s Hwf _ (wf_entries s Hwf _ _ Hi)). lia.
Qed.

Lemma remove_done p f s :
  fs_wf s → free s f → ∃ s', exec_zop healthy (ZRemove f) s = (Ok (), s') ∧ op_done p (ZRemove f) s s'.
Proof.
  intros Hwf [Hd Hf]. eexists. split; [apply Remove_healthy|].
  pose proof (preserves_ignore _ _ (Remove_wf healthy f) s Hwf) as Hwf'. rewrite Remove_healthy in Hwf'.
  split; cbn [touches effect fs_dirs fs_entries fs_inodes]; [done| | | |done|by left|done|].
  - intros q. unfold content; cbn [fs_entries fs_inodes]. case_decide; [subst; by rewrite lookup_delete_eq|].
    by rewrite lookup_delete_ne.
  - intros q Hq. rewrite lookup_delete_ne; [done|set_solver].
  - intros q Hq. apply list_elem_of_singleton in Hq as ->. split; [done|]. cbn. by rewrite lookup_delete_eq.
  - intros q i Hq Hi q' Hq'. apply list_elem_of_singleton in Hq' as ->. by rewrite lookup_delete_eq.
Qed.

(** *** What a worker does next *)

Lemma ops_lookup p n o :
  exports_end p → ops p !! n = Some o →
  (o = ZMkdir (zdir p) ∧ touches o = []) ∨
  ((flat = true ∨ 0 < n) ∧ ∃ f, f ∈ own p ∧ touches o = [f] ∧ (∃ bs, o = ZWrite f bs ∨ o = ZRemove f)).
Proof.
  intros [Hx Hxr] Ho. assert (Hin := list_elem_of_lookup_2 _ _ _ Ho).
  assert (o = ZMkdir (zdir p) ∨ ∃ f bs, o = ZWrite f bs ∨ o = ZRemove f) as [->|(f & bs & Hf)].
  { unfold zops in Hin. rewrite !elem_of_app in Hin.
    assert (∀ file r, (∀ w, r ≠ Panic w) → o ∈ export_zops partial file r → ∃ f bs, o = ZWrite f bs ∨ o = ZRemove f) as He.
    { intros file r Hr Hf. exists file. destruct r as [bs|e|w]; [exists bs|exists partial|by destruct (Hr w)]; simpl in Hf; set_solver. }
    destruct Hin as [Hf|[Hf|Hf]]; [destruct flat; set_solver|right; eauto|destruct raw; [right; eauto|set_solver]]. }
  - by left.
  - right. split.
    + destruct (decide (n = 0)) as [->|]; [|right; lia]. left. unfold zops in Ho. destruct flat; [done|].
      simpl in Ho. injection Ho as <-. by destruct Hf.
    + exists f. assert (touches o = [f]) as Ht by by destruct Hf as [-> | ->]. split_and!; [|done|by exists bs].
      eapply touches_own; [done|]. rewrite Ht. by left.
Qed.

Lemma next_op (l : list (HRPacket * nat)) s p n o :
  roomy → zip_ok l s → (p, n) ∈ l → ops p !! n = Some o →
  ∃ s', exec_zop healthy o s = (Ok (), s') ∧ op_done p o s s'.
Proof.
  intros Hr [Hwf Hps Hst Hd Hf _] Hin Ho.
  assert (p ∈ ps) as Hp by (rewrite <-Hps; by apply (list_elem_of_fmap_2 fst _ (p, n))).
  rewrite Forall_forall in Hst. destruct (Hst _ Hin) as [_ Hdir _]. simpl in Hdir.
  destruct (ops_lookup p n o (ry_exports Hr p Hp) Ho) as [[-> _]|(Hn & f & Hown & _ & bs & Hor)].
  - apply mkdir_done; [done|by intros; eapply Hd|]. destruct (ry_path Hr p Hp) as (_ & r & segs & Hpath).
    by eapply ancestors_self.
  - specialize (Hf p f Hp Hown). destruct Hor as [-> | ->]; [|by apply remove_done].
    apply write_done; [done..|]. rewrite (own_parent p) by done. by apply Hdir.
Qed.

Lemma own_disjoint (l rest : list (HRPacket * nat)) p n p' n' q :
  roomy → l.*1 ≡ₚ ps → l ≡ₚ (p, n) :: rest → (p', n') ∈ rest → q ∈ own p → q ∉ own p'.
Proof.
  intros Hr Hl Hrest Hin Hq Hq'.
  assert (NoDup (concat (own <$> p :: rest.*1))) as Hnd.
  { pose proof (ry_distinct Hr) as H. rewrite <-Hl, Hrest in H. exact H. }
  rewrite fmap_cons in Hnd. cbn [concat] in Hnd. apply NoDup_app in Hnd as (_ & Hd & _). apply (Hd q Hq).
  apply list_elem_of_In, in_concat. exists (own p'). rewrite <-!list_elem_of_In. split; [|done].
  apply list_elem_of_fmap_2. by apply (list_elem_of_fmap_2 fst _ (p', n')).
Qed.

Lemma free_other p o s s' q :
  roomy → p ∈ ps → op_done p o s s' → (∃ p', p' ∈ ps ∧ q ∈ own p') → q ∉ touches o → free s q → free s' q.
Proof.
  intros Hr Hp Hop (p' & Hp' & Hq) Ht [Hd Hf]. split.
  - intros [?|Ha]%(od_new _ _ _ _ Hop); [done|]. by apply (ry_apart Hr p' p q) in Ha.
  - rewrite (od_entries _ _ _ _ Hop q Ht). destruct (fs_entries s !! q) as [[i|t]|] eqn:E; [|done..].
    intros q' Hne Hq'. destruct (decide (q' ∈ touches o)) as [Hin|Hin].
    + apply (Hf q' Hne). by eapply (od_inodes _ _ _ _ Hop q).
    + rewrite (od_entries _ _ _ _ Hop q' Hin) in Hq'. by apply (Hf q').
Qed.

Lemma zip_ok_perm l l' s : l ≡ₚ l' → zip_ok l s → zip_ok l' s.
Proof. intros Hl [H1 H2 H3 H4 H5 H6]. split; [done| |by rewrite <-Hl|done..]. by rewrite <-Hl. Qed.

Lemma effect_ext o c c' q : c q = c' q → effect o c q = effect o c' q.
Proof. intros H. destruct o; simpl; try done; by case_decide. Qed.

Lemma stage_next s s' p n o :
  exports_end p → ops p !! n = Some o → stage s p n → op_done p o s s' → stage s' p (S n).
Proof.
  intros Hx Ho [Hm Hd Hc] Hop. split.
  - by apply lookup_lt_Some in Ho.
  - intros _. destruct (ops_lookup p n o Hx Ho) as [[-> _]|(Hn & _)]; [by eapply od_made|].
    apply (od_dirs _ _ _ _ Hop), Hd, Hn.
  - intros q Hq. rewrite (od_content _ _ _ _ Hop). erewrite take_S_r by done.
    unfold effects. rewrite foldl_snoc. apply effect_ext. by apply Hc.
Qed.

Lemma zip_ok_op (l rest : list (HRPacket * nat)) s s' p n o :
  roomy → zip_ok l s → l ≡ₚ (p, n) :: rest → ops p !! n = Some o → op_done p o s s' → zip_ok ((p, S n) :: rest) s'.
Proof.
  intros Hr [Hwf Hps Hst Hd Hf Ho] Hl Hop Hdone.
  assert (p ∈ ps) as Hp by (rewrite <-Hps, Hl; by left).
  assert (∀ q, q ∈ touches o → q ∈ own p) as Ht by (intros q; by eapply touches_own).
  rewrite Hl in Hst. apply Forall_cons in Hst as [Hst0 Hst]. split.
  - by eapply od_wf.
  - by rewrite <-Hps, Hl.
  - constructor; [eapply stage_next; [by apply ry_exports|done..]|]. apply Forall_forall. intros [p' n'] Hin.
    rewrite Forall_forall in Hst. destruct (Hst _ Hin) as [Hm Hdir Hc]. split; [done| |].
    + intros H. by apply (od_dirs _ _ _ _ Hdone), Hdir.
    + intros q Hq. rewrite (od_content _ _ _ _ Hdone), effect_other; [by apply Hc|].
      intros Hq'%Ht. by eapply own_disjoint.
  - intros p' a Hp' Ha. rewrite (od_entries _ _ _ _ Hdone); [by eapply Hd|].
    intros Hq%Ht. by apply (ry_apart Hr p p' a).
  - intros p' q Hp' Hq. destruct (decide (q ∈ touches o)); [by eapply od_free|].
    apply (free_other p o s s' q Hr Hp Hdone); [by exists p'|done|by eapply Hf].
  - intros q Hq. assert (q ∉ touches o) as Hnt.
    { intros H%Ht. apply Hq, list_elem_of_In, in_concat. exists (own p). rewrite <-!list_elem_of_In.
      split; [by apply list_elem_of_fmap_2|done]. }
    rewrite (od_entries _ _ _ _ Hdone), (od_content _ _ _ _ Hdone), effect_other by done. by apply Ho.
Qed.

(** *** The program *)

#[local] Abbreviation prog := (progress flat raw d partial).

Lemma begin_ok : roomy → zip_ok (prog (zip_begin ps s0)) s0.
Proof.
  intros Hr. unfold progress, zip_begin; cbn. rewrite app_nil_r. split.
  - apply Hr.
  - rewrite <-list_fmap_compose. by rewrite list_fmap_id.
  - apply Forall_fmap, Forall_forall. intros p Hp. split; simpl; [lia| |].
    + intros [Hfl|]; [|lia]. unfold zip_dir. rewrite Hfl. by apply (ry_there Hr).
    + intros q Hq. rewrite take_0. unfold content. by destruct (ry_fresh Hr p q Hp Hq) as [-> _].
  - apply Hr.
  - intros p q Hp Hq. destruct (ry_fresh Hr p q Hp Hq) as [He Hd]. split; [done|]. by rewrite He.
  - done.
Qed.

Lemma running_split (q : list HRPacket) x rs1 rs2 ds s :
  prog (mkZip q (rs1 ++ x :: rs2) ds s) ≡ₚ x :: (((λ p, (p, 0)) <$> q) ++ rs1 ++ rs2 ++ ((λ p, (p, length (ops p))) <$> ds)).
Proof. unfold progress; cbn. solve_Permutation. Qed.

Lemma step_ok w w' : roomy → zip_ok (prog w) (zs_fs w) → step w w' → zip_ok (prog w') (zs_fs w').
Proof.
  intros Hr Hok Hs. destruct Hs as [p q rs ds s Hl|p n o q rs1 rs2 ds s s' Ho Hx|p n o e q rs1 rs2 ds s s' Ho Hx|p n q rs1 rs2 ds s Ho];
    cbn [zs_fs] in *; try rewrite running_split in Hok by done.
  - eapply zip_ok_perm; [|exact Hok]. unfold progress; cbn. solve_Permutation.
  - pose proof (running_split q (p, n) rs1 rs2 ds s) as Hp.
    destruct (next_op _ s p n o Hr Hok) as (s'' & Hx' & Hdone); [rewrite Hp; by left|done|].
    rewrite Hx in Hx'. injection Hx' as ->.
    eapply zip_ok_perm; [symmetry; apply running_split|]. by eapply zip_ok_op.
  - pose proof (running_split q (p, n) rs1 rs2 ds s) as Hp.
    destruct (next_op _ s p n o Hr Hok) as (s'' & Hx' & _); [rewrite Hp; by left|done|]. by rewrite Hx in Hx'.
  - pose proof (running_split q (p, n) rs1 rs2 ds s) as Hp.
    pose proof (zk_stages _ _ Hok) as Hst. rewrite Hp in Hst. apply Forall_cons in Hst as [[Hm _ _] _]. simpl in Hm.
    apply lookup_ge_None in Ho. assert (n = length (ops p)) as -> by lia.
    eapply zip_ok_perm; [|exact Hok]. rewrite Hp. unfold progress; cbn. rewrite fmap_app. cbn. solve_Permutation.
Qed.

Lemma run_ok w : roomy → rtc step (zip_begin ps s0) w → zip_ok (prog w) (zs_fs w).
Proof.
  intros Hr H. pose proof (begin_ok Hr) as Hok. change s0 with (zs_fs (zip_begin ps s0)) in Hok at 2.
  induction H; eauto using step_ok.
Qed.

(** A worker can go on, whatever it is at. *)
Lemma step_possible w :
  roomy → zip_ok (prog w) (zs_fs w) → 0 < tokens parallel →
  (∃ w', step w w') ∨ (zs_queue w = [] ∧ zs_running w = []).
Proof.
  intros Hr Hok Hk. destruct w as [[|p q] [|[p' n] rs] ds s]; [by right|left..].
  2: { eexists. by apply zip_start. }
  all: destruct (ops p' !! n) as [o|] eqn:E; [|eexists; by apply (zip_ends _ _ _ _ _ _ p' n _ [])].
  all: edestruct (next_op _ s p' n o Hr Hok) as (s' & Hx & _); [unfold progress; cbn; set_solver|done|].
  all: eexists; by eapply (zip_op _ _ _ _ _ _ p' n o _ []).
Qed.

(** How much there is left to do. *)
Definition remaining (w : zip_state) : nat :=
  sum_list_with (λ p, length (ops p) + 2) (zs_queue w) + sum_list_with (λ '(p, n), length (ops p) - n + 1) (zs_running w).

Lemma step_remaining w w' : step w w' → remaining w' < remaining w.
Proof.
  unfold remaining. destruct 1 as [p q rs ds s Hl|p n o q rs1 rs2 ds s s' Ho Hx|p n o e q rs1 rs2 ds s s' Ho Hx|p n q rs1 rs2 ds s Ho];
    cbn [zs_queue zs_running]; rewrite ?sum_list_with_app; cbn [sum_list_with]; try (apply lookup_lt_Some in Ho); lia.
Qed.

Lemma nsteps_remaining k w w' : nsteps step k w w' → k + remaining w' ≤ remaining w.
Proof. induction 1 as [w|k w1 w2 w3 H _ IH]; [lia|]. apply step_remaining in H. lia. Qed.

End interleaved.

(** ** The steps, executed *)

Section exec.
Context {panda : PandaLib} (flat raw : bool) (d : string) (partial : list byte) (denied : string → option error) (parallel : Z).

Inductive zip_event : Type :=
  | ZStarts
  | ZTurn (k : nat).

Definition zip_exec (w : zip_state) (ev : zip_event) : option zip_state :=
  let '(mkZip q rs ds s) := w in
  match ev with
  | ZStarts =>
      match q with
      | p :: q => if decide (length rs < tokens parallel) then Some (mkZip q (rs ++ [(p, 0)]) ds s) else None
      | [] => None
      end
  | ZTurn k =>
      match rs !! k with
      | Some (p, n) =>
          match zops flat raw d partial p !! n with
          | Some o =>
              match exec_zop denied o s with
              | (Ok _, s') => Some (mkZip q (<[k := (p, S n)]> rs) ds s')
              | (Err _, s') => Some (mkZip q (<[k := (p, length (zops flat raw d partial p))]> rs) ds s')
              | (Panic _, _) => None
              end
          | None => Some (mkZip q (delete k rs) (ds ++ [p]) s)
          end
      | None => None
      end
  end.

Lemma zip_exec_step w ev w' : zip_exec w ev = Some w' → zip_step flat raw d partial denied parallel w w'.
Proof.
  destruct w as [q rs ds s], ev as [|k]; cbn [zip_exec].
  - destruct q as [|p q]; [done|]. case_decide; [|done]. intros [= <-]. by apply zip_start.
  - destruct (rs !! k) as [[p n]|] eqn:Hk; [|done].
    assert (∀ x, <[k := x]> rs = take k rs ++ x :: drop (S k) rs) as Hi by (intros x; apply insert_take_drop; by eapply lookup_lt_Some).
    pose proof (take_drop_middle _ _ _ Hk) as Hrs. rewrite !Hi, delete_take_drop.
    revert Hrs. generalize (take k rs), (drop (S k) rs). intros rs1 rs2 <-.
    destruct (zops flat raw d partial p !! n) as [o|] eqn:Ho; [|intros [= <-]; by eapply zip_ends].
    destruct (exec_zop denied o s) as [[[]|e|what] s'] eqn:Ex; [| |done]; intros [= <-]; [by eapply zip_op|by eapply zip_fails].
Qed.

Lemma zip_final w w' : zs_queue w = [] → zs_running w = [] → ¬ zip_step flat raw d partial denied parallel w w'.
Proof.
  intros Hq Hr Hs. destruct Hs as [p q rs ds s Hl|p n o q rs1 rs2 ds s s' Ho Hx|p n o e q rs1 rs2 ds s s' Ho Hx|p n q rs1 rs2 ds s Ho];
    simpl in *; [done|by destruct rs1..].
Qed.

Fixpoint zip_exec_all (w : zip_state) (evs : list zip_event) : option zip_state :=
  match evs with
  | [] => Some w
  | ev :: evs => zip_exec w ev ≫= λ w, zip_exec_all w evs
  end.

Lemma zip_exec_nsteps w evs w' :
  zip_exec_all w evs = Some w' → nsteps (zip_step flat raw d partial denied parallel) (length evs) w w'.
Proof.
  revert w. induction evs as [|ev evs IH]; intros w; cbn [zip_exec_all]; [intros [= <-]; constructor|].
  intros (w1 & H1%zip_exec_step & H2%IH)%bind_Some. by econstructor.
Qed.
End exec.

(** ** Examples *)

Definition sample_events : list zip_event :=
  [ZStarts; ZStarts; ZTurn 1; ZTurn 0; ZTurn 1; ZTurn 0; ZTurn 0; ZTurn 1; ZTurn 1; ZTurn 0].

Lemma sample_roomy : roomy false true "/out" sample_recorded empty_fs.
Proof.
  split.
  - apply empty_fs_wf.
  - done.
  - done.
  - intros p Hp. repeat (apply elem_of_cons in Hp as [->|Hp]).
    + split; [by compute_decide|]. exists true, ["out"; "vic1"; "mma"; "2020"; "001"; "00"]. by split; [compute_decide|].
    + split; [by compute_decide|]. exists true, ["out"; "lrsd"; "mma"; "2020"; "001"; "00"]. by split; [compute_decide|].
    + by apply elem_of_nil in Hp.
  - done.
  - assert (Forall (λ p, Forall (λ p', Forall (λ q, q ∉ ancestors (zip_dir false "/out" p')) (owns false true "/out" p)) sample_recorded)
      sample_recorded) as H by by compute_decide.
    intros p p' q Hp Hp' Hq. rewrite Forall_forall in H. specialize (H p Hp). rewrite Forall_forall in H. specialize (H p' Hp').
    rewrite Forall_forall in H. by apply H.
  - by compute_decide.
  - intros p Hp. repeat (apply elem_of_cons in Hp as [->|Hp]; [done|]). by apply elem_of_nil in Hp.
Qed.

