(* ===== verification/Plugins.v ===== *)
(** * Plugins: what the broker's modules do with a packet
      (src/plugins/svs/svs.go, src/plugins/mon/mon.go,
      src/plugins/xxhsum/sum.go)

    A module is a shared object with a constructor and a [Process] that the
    broker calls for every packet.  The TOML files of the constructors are
    parsed by a third-party package: their fields are arguments. *)

From S2P Require Import Prelude Bytes GoStd Text Panda Fs Storage Files Science.
From Stdlib Require Import ZArith Lia Ascii.

(** ** svs: measures beside the archive *)

Section svs.
Context {panda : PandaLib}.

Definition svs_origin : string := "90".

Record metadata : Type := mkMetadata {
  md_Magic : Z; md_Acquisition : Z; md_Sequence : Z; md_Auxiliary : Z; md_Source : Z;
  md_X : Z; md_Y : Z; md_Format : Z; md_Drop : Z;
  md_OffsetX : Z; md_SizeX : Z; md_OffsetY : Z; md_SizeY : Z;
  md_ScaleX : Z; md_ScaleY : Z; md_Ratio : Z; md_UPI : list byte;
}.

(** [binary.Read] of the struct: its 74 bytes are read at once. *)
Definition metadata_size : Z := 74.

Definition field (bs : list byte) (off n : nat) : Z := get_uint LittleEndian (take n (drop off bs)).

Definition read_metadata : rd metadata :=
  bs ← ReadFull metadata_size;
  mret (mkMetadata (field bs 0 1) (swrap 64 (field bs 1 8)) (field bs 9 4) (swrap 64 (field bs 13 8)) (field bs 21 1)
          (field bs 22 2) (field bs 24 2) (field bs 26 1) (field bs 27 2)
          (field bs 29 2) (field bs 31 2) (field bs 33 2) (field bs 35 2)
          (field bs 37 2) (field bs 39 2) (field bs 41 1) (drop 42 bs)).

(** [UPI.MarshalXML]: the text of the element. *)
Definition upi_text (m : metadata) : string := string_of (TrimNul (md_UPI m)).

(** [xml_Encode] is what the encoder writes of the metadata, with its error;
    [FormatFloat] as for [ExportSVSData]. *)
Context (FormatFloat : Z → string) (xml_Encode : metadata → list byte * option error).
Context (denied : string → option error).

Definition run_rd {A} (m : rd A) (r : reader) : result (A * reader) :=
  match m r with (Ok a, r') => Ok (a, r') | (Err e, _) => Err e | (Panic w, _) => Panic w end.

(** The reader is behind the metadata afterwards. *)
Definition processMeta (file : string) (r : reader) : io reader :=
  '(m, r) ← lift (run_rd read_metadata r);
  WriteFile denied (file +:+ ".xml") (xml_Encode m).1;;
  match (xml_Encode m).2 with Some e => io_fail e | None => mret r end.

(** The lines of [processData], as the exporters have them: what reaches the
    file and the error; [None] when the fuel is exhausted. *)
Definition svs_csv (fuel : nat) (r : reader) : result (option (option error * list byte)) :=
  match ReadUint BigEndian 1 r with
  | (Ok b, r) =>
      match read_uints LittleEndian 2 (Z.to_nat b) r with
      | (Ok vs, r) => Ok (export_loop fuel (svs_row FormatFloat (Z.to_nat b)) 0 r (csv_line ("t" :: (svs_header <$> vs))))
      | (Err e, _) => Ok (Some (Some e, []))
      | (Panic w, _) => Panic w
      end
  | (Err e, _) => Ok (Some (Some e, []))
  | (Panic w, _) => Panic w
  end.

Definition processData (fuel : nat) (file : string) (r : reader) : io (option ()) :=
  WriteFile denied (file +:+ ".csv") [];;
  o ← lift (svs_csv fuel r);
  match o with
  | None => mret None
  | Some (err, out) =>
      WriteFile denied (file +:+ ".csv") out;;
      match err with Some e => io_fail e | None => mret (Some ()) end
  end.

(** [raw[:len(raw)-4]] *)
Definition slice_short (raw : list byte) : result (list byte) :=
  if decide (length raw < 4) then Panic "slice bounds out of range" else Ok (take (length raw - 4) raw).

Definition processIntro (d : dirmaker) (i : Z) (p : HRPacket) : io () :=
  dir ← Prepare denied d i p;
  raw ← lift (slice_short (Payload p));
  WriteFile denied (Join [dir; Filename p +:+ ".ini"]) raw.

Definition svs_Process (fuel : nat) (d : dirmaker) (i : Z) (p : HRPacket) : io (option ()) :=
  if decide (hr_Version (info p) ≠ VMUProtocol2 ∨ Origin p ≠ svs_origin) then mret (Some ())
  else if decide (Sequence p = 1)%Z then processIntro d i p;; mret (Some ())
  else
    dir ← Prepare denied d i p;
    let file := Join [dir; Filename p] in
    r ← processMeta file (Reader (Payload p) EOF);
    processData fuel file r.
End svs.

(** ** mon: traffic per interval *)

(** A line of the log: its kind, the bounds of the interval, the bytes and the
    packets; the text of the times is left to the logger. *)
Record log_line : Type := mkLine { ln_kind : string; ln_first : Time; ln_last : Time; ln_size : Z; ln_count : Z }.

(** The lines of every log file, and the file that is open. *)
Record monitor : Type := mkMonitor {
  mo_datadir : string; mo_delta : Z;
  mo_first : Time; mo_last : Time; mo_starts : Z; mo_ends : Z;
  mo_size : Z; mo_count : Z;
  mo_file : string; mo_logs : gmap string (list log_line);
}.

Definition Timeout : Z := 5 * Second.

Section mon.
Context {panda : PandaLib} (VMUHeaderLength IDHeaderLengthV2 SDHeaderLengthV2 : Z).

(** [time.Format("20060102")] *)
Definition day_of (t : Time) : string :=
  let '(m, d) := month_day t in sprintf0 4 (Year t) +:+ sprintf0 2 m +:+ sprintf0 2 d.

Definition log_path (datadir : string) (t : Time) : string := Join [datadir; day_of t] +:+ ".log".

(** [New], for a directory and a file that can be made: the module and the
    period of the rotation, for which [NewTicker] panics unless it is
    positive. *)
Definition mon_New (datadir : string) (every rotate : Z) (now : Time) : result (monitor * Z) :=
  let t := if decide (0 < every)%Z then seconds every else Timeout in
  let p := log_path datadir now in
  let d := if decide (0 < rotate)%Z then seconds rotate else (3600 * Second)%Z in
  if decide (d ≤ 0)%Z then Panic "non-positive interval for NewTicker"
  else Ok (mkMonitor datadir t zero_time zero_time 0 0 0 0 p {[ p := [] ]}, d).

(** [m.logger.Printf] *)
Definition append_line (l : log_line) (logs : gmap string (list log_line)) (file : string) : gmap string (list log_line) :=
  <[file := default [] (logs !! file) ++ [l]]> logs.

Definition header_of (p : HRPacket) : option (VMUHeader * Z) :=
  match p with
  | Image _ v _ => Some (v, IDHeaderLengthV2)
  | Table _ v _ => Some (v, SDHeaderLengthV2)
  | OtherPacket _ => None
  end.

(** The two assignments before the interval is looked at. *)
Definition observe (v : VMUHeader) (m : monitor) : monitor :=
  let last := vh_Timestamp v in let ends := vh_Sequence v in
  let fresh := IsZero (mo_first m) in
  mkMonitor (mo_datadir m) (mo_delta m) (if fresh then last else mo_first m) last
    (if fresh then ends else mo_starts m) ends (mo_size m) (mo_count m) (mo_file m) (mo_logs m).

(** The condition of a report. *)
Definition reports (m : monitor) : bool :=
  let delta := wrap 32 (mo_ends m - mo_starts m) in
  let d := Sub (mo_last m) (mo_first m) in
  bool_decide (0 < d)%Z && bool_decide (mo_delta m < d)%Z && (bool_decide (1 < delta)%Z && bool_decide (mo_ends m < delta)%Z).

Definition report (m : monitor) : monitor :=
  mkMonitor (mo_datadir m) (mo_delta m) (mo_last m) (mo_last m) (mo_ends m) (mo_ends m) 0 0 (mo_file m)
    (append_line (mkLine "g" (mo_first m) (mo_last m) (mo_size m) (mo_count m)) (mo_logs m) (mo_file m)).

Definition count_in (hs : Z) (m : monitor) : monitor :=
  mkMonitor (mo_datadir m) (mo_delta m) (mo_first m) (mo_last m) (mo_starts m) (mo_ends m)
    (wrap 64 (mo_size m + wrap 64 (VMUHeaderLength + hs))) (wrap 64 (mo_count m + 1)) (mo_file m) (mo_logs m).

Definition mon_Process (p : HRPacket) (m : monitor) : result monitor :=
  if decide (hr_Version (info p) ≠ VMUProtocol2) then Ok m
  else match header_of p with
       | None => Panic "invalid memory address or nil pointer dereference"
       | Some (v, hs) => let m := observe v m in Ok (count_in hs (if reports m then report m else m))
       end.

(** The goroutine [rotate]: a tick of the fixed ticker, and one of the rotation
    when the file can be made. *)
Definition tick_aggregate (aggregate : bool) (m : monitor) : monitor :=
  if aggregate then
    mkMonitor (mo_datadir m) (mo_delta m) (mo_first m) (mo_last m) (mo_starts m) (mo_ends m) (mo_size m) (mo_count m)
      (mo_file m) (append_line (mkLine "a" (mo_first m) (mo_last m) (mo_size m) (mo_count m)) (mo_logs m) (mo_file m))
  else m.

Definition tick_rotate (n : Time) (created : bool) (m : monitor) : monitor :=
  let p := log_path (mo_datadir m) n in
  if created then
    mkMonitor (mo_datadir m) (mo_delta m) (mo_first m) (mo_last m) (mo_starts m) (mo_ends m) (mo_size m) (mo_count m)
      p (<[p := []]> (mo_logs m))
  else m.
End mon.

(** ** xxhsum: a line per packet

    The hash functions are third-party. *)
Inductive digest : Type :=
  | digest32 (seed : Z) (hash : list byte → Z → Z)
  | digest64 (seed : Z) (hash : list byte → Z → Z).

Definition xxh_New (seed alg : Z) (Sum32 Sum64 : list byte → Z → Z) : result digest :=
  if decide (alg = 32%Z) then Ok (digest32 (wrap 32 seed) Sum32)
  else if decide (alg = 64%Z) then Ok (digest64 (wrap 64 seed) Sum64)
  else Err (Errorf "unsupported algorithm: %d" [AInt alg]).

(** The line: the time, the sequence in eight columns and the sum in at least
    eight hexadecimal digits. *)
Definition pad_left (w : nat) (c : ascii) (s : string) : string :=
  String.concat "" (replicate (w - String.length s) (String c EmptyString)) +:+ s.

Fixpoint hex_digits (fuel : nat) (z : Z) (acc : string) : string :=
  match fuel with
  | O => acc
  | S fuel =>
      let d := Z.to_nat (z mod 16) in
      let acc := String (ascii_of_nat (if decide (d < 10) then 48 + d else 87 + d)) acc in
      if decide (z < 16)%Z then acc else hex_digits fuel (z / 16) acc
  end.

Definition sum_line (p : HRPacket) (sum : Z) : string :=
  Format_RFC3339 (Timestamp p) +:+ " | " +:+ pad_left 8 " "%char (Sprint (Sequence p)) +:+ " | " +:+
  pad_left 8 "0"%char (hex_digits 16 sum "") +:+ String newline EmptyString.

Definition digest_sum (d : digest) (bs : list byte) : Z :=
  match d with digest32 seed hash | digest64 seed hash => hash bs seed end.

Definition xxh_Process (d : digest) (p : HRPacket) : result string :=
  bs ← hr_Bytes (info p);
  if decide (length bs = 0) then Err (Errorf "empy payload" [])
  else Ok (sum_line p (digest_sum d bs)).

(** ** Theorems: svs *)

(** Writing a file twice leaves what was written last. *)
Lemma write_to_twice f a b s : writable s f → write_to f b (write_to f a s) = write_to f b s.
Proof.
  intros (_ & _ & Hsym). unfold write_to.
  destruct (fs_entries s !! f) as [[i|t]|] eqn:E; [|by destruct (Hsym t)|]; cbn [fs_entries fs_inodes fs_dirs fs_next].
  - by rewrite E, insert_insert_eq.
  - by rewrite lookup_insert_eq, insert_insert_eq.
Qed.

Lemma write_to_writable f g a s : f ≠ g → writable s g → writable (write_to f a s) g.
Proof. intros Hne (H1 & H2 & H3). split_and!; rewrite ?write_to_dirs; [done..|]. intros t. by rewrite write_to_entries. Qed.

Lemma write_to_writable_same f a s : writable s f → writable (write_to f a s) f.
Proof.
  intros (H1 & H2 & H3). split_and!; rewrite ?write_to_dirs; [done..|]. intros t. unfold write_to.
  destruct (fs_entries s !! f) as [[i|u]|] eqn:E; cbn [fs_entries]; [by rewrite E|by destruct (H3 u)|by rewrite lookup_insert_eq].
Qed.

(** A suffix of a file is a suffix of its name. *)
Lemma join_last segs f x : join "/" (segs ++ [f]) +:+ x = join "/" (segs ++ [f +:+ x]).
Proof.
  induction segs as [|a segs IH]; [done|]. cbn [app].
  assert (∀ g, join "/" (a :: segs ++ [g]) = a +:+ "/" +:+ join "/" (segs ++ [g])) as E by (by intros; destruct segs).
  by rewrite !E, <-IH, !str_app_assoc.
Qed.

Lemma join_suffix r dir segs f x :
  path_is r dir segs → simple_name f → simple_name (f +:+ x) → Join [dir; f] +:+ x = Join [dir; f +:+ x].
Proof.
  intros [Hs ->] Hf Hx. rewrite !Join_simple by done. unfold render. destruct r.
  - rewrite <-join_last. done.
  - rewrite <-join_last. by destruct segs.
Qed.

Section svs_theorems.
Context {panda : PandaLib} (FormatFloat : Z → string) (xml_Encode : metadata → list byte * option error).

(** The exporter of the server and the plugin read a table in the same way. *)
Lemma svs_csv_agrees fuel meta rest :
  length meta = metaLength → head meta = Some svsMagic →
  ExportSVSData FormatFloat fuel (meta ++ rest) = svs_csv FormatFloat fuel (Reader rest EOF).
Proof.
  intros Hl Hh. unfold ExportSVSData. destruct meta as [|m meta]; [done|]. injection Hh as ->.
  cbn [app]. rewrite decide_False by naive_solver.
  rewrite decide_False by (rewrite app_comm_cons, length_app, Hl; lia).
  by rewrite app_comm_cons, drop_app_len by done.
Qed.

(** The metadata in front of a table. *)
Definition metadata_of (bs : list byte) : metadata :=
  mkMetadata (field bs 0 1) (swrap 64 (field bs 1 8)) (field bs 9 4) (swrap 64 (field bs 13 8)) (field bs 21 1)
    (field bs 22 2) (field bs 24 2) (field bs 26 1) (field bs 27 2)
    (field bs 29 2) (field bs 31 2) (field bs 33 2) (field bs 35 2)
    (field bs 37 2) (field bs 39 2) (field bs 41 1) (drop 42 bs).

Lemma read_metadata_app meta rest e :
  length meta = metaLength → run_rd read_metadata (Reader (meta ++ rest) e) = Ok (metadata_of meta, Reader rest e).
Proof. intros Hl. unfold run_rd, read_metadata. by erewrite rd_bind_ok by (apply ReadFull_app; rewrite Hl; done). Qed.

Lemma xml_csv f : f +:+ ".xml" ≠ f +:+ ".csv".
Proof. induction f as [|a f IH]; [done|]. by intros [= E]. Qed.

(** A directory the two files of a table can be written to. *)
Record svs_ready (dir : string) (p : HRPacket) (s : fs) : Prop := {
  sr_wf : fs_wf s;
  sr_dirs : Forall (λ d, fs_entries s !! d = None) (ancestors dir);
  sr_plain : Forall (λ q, q ∉ fs_dirs s ∪ list_to_set (ancestors dir) ∧ ∀ t, fs_entries s !! q ≠ Some (Symbolic t))
               [Join [dir; Filename p +:+ ".xml"]; Join [dir; Filename p +:+ ".csv"]];
  sr_alias : unaliased s (Join [dir; Filename p +:+ ".xml"]) (Join [dir; Filename p +:+ ".csv"]);
}.

(** C15: the plugin and the server agree on a table of measures: when the server
    would export the payload as [out], the plugin leaves exactly [out] beside
    the archive, with the metadata of the table, in the directory of the packet,
    and touches no other file name; when the server would never end, neither
    does the plugin. *)
Theorem svs_converts fuel d i p meta rest res dir r segs s :
  hr_Version (info p) = VMUProtocol2 → Origin p = svs_origin → Sequence p ≠ 1%Z →
  Payload p = meta ++ rest → length meta = metaLength → head meta = Some svsMagic →
  (xml_Encode (metadata_of meta)).2 = None →
  directory_of d i p = dir → path_is r dir segs → simple_name (Filename p) → svs_ready dir p s →
  ExportSVSData FormatFloat fuel (Payload p) = Ok res → (∀ e out, res ≠ Some (Some e, out)) →
  let xml := Join [dir; Filename p +:+ ".xml"] in let csv := Join [dir; Filename p +:+ ".csv"] in
  ∃ s', svs_Process FormatFloat xml_Encode healthy fuel d i p s = (Ok (const () <$> res), s') ∧
    content s' xml = Some (xml_Encode (metadata_of meta)).1 ∧
    content s' csv = Some (default [] (snd <$> res)) ∧
    (∀ q, q ≠ xml → q ≠ csv → fs_entries s' !! q = fs_entries s !! q).
Proof.
  intros Hv Ho Hs Hp Hl Hh Hxml Hdir Hpath Hname [Hwf Hanc Hplain Halias] Hexp Hres. cbv zeta.
  assert (∀ x, 3 ≤ String.length x → str_mem slash x = false → simple_name (Filename p +:+ x)) as Hsuf
    by (intros; by apply suffixed_name).
  assert (simple_name (Filename p +:+ ".xml")) as Hxn by (by apply Hsuf; [simpl; lia|]).
  assert (simple_name (Filename p +:+ ".csv")) as Hcn by (by apply Hsuf; [simpl; lia|]).
  set (xml := Join [dir; Filename p +:+ ".xml"]) in *. set (csv := Join [dir; Filename p +:+ ".csv"]) in *.
  assert (xml ≠ csv) as Hne.
  { intros E. apply (join_name_inj r dir segs) in E; [|done..]. by apply xml_csv in E. }
  rewrite !Forall_cons in Hplain. destruct Hplain as ([Hx Hxt] & [Hc Hct] & _).
  set (s1 := mkFs (fs_dirs s ∪ list_to_set (ancestors dir)) (fs_entries s) (fs_inodes s) (fs_next s)).
  assert (MkdirAll healthy dir s = (Ok (), s1)) as Hmk by (by apply MkdirAll_healthy).
  assert (fs_wf s1) as Hwf1 by (pose proof (MkdirAll_wf healthy dir s Hwf) as H; by rewrite Hmk in H).
  assert (∀ f, simple_name f → Join [dir; f] ∉ fs_dirs s1 → (∀ t, fs_entries s !! Join [dir; f] ≠ Some (Symbolic t)) →
    writable s1 (Join [dir; f])) as Hw.
  { intros f Hf Hnd Hnt. split_and!; [|done..]. rewrite (parent_join r dir segs) by done.
    apply elem_of_union_r, elem_of_list_to_set. by eapply ancestors_self. }
  assert (writable s1 xml) as Hwx by (by apply Hw). assert (writable s1 csv) as Hwc by (by apply Hw).
  clear Hw. set (s2 := write_to xml (xml_Encode (metadata_of meta)).1 s1).
  assert (writable s2 csv) as Hwc2 by (by apply write_to_writable).
  assert (fs_wf s2) as Hwf2 by (by apply write_to_wf).
  assert (unaliased s2 csv xml) as Ha2.
  { intros j Hj Hj2. unfold s2 in Hj, Hj2. rewrite (write_to_entries xml csv) in Hj by done.
    by apply (write_to_regular xml csv (xml_Encode (metadata_of meta)).1 s1 j Hwf1 Hj2 Halias Hne). }
  exists (write_to csv (default [] (snd <$> res)) s2). split_and!.
  - unfold svs_Process. rewrite decide_False by naive_solver. rewrite decide_False by done.
    unfold Prepare. rewrite Hdir. unfold mbind, io_bind. rewrite Hmk. cbn [mret io_ret].
    unfold processMeta. rewrite Hp, !(join_suffix r dir segs) by done. fold xml csv.
    unfold lift, mbind, io_bind. rewrite read_metadata_app by done. rewrite WriteFile_healthy by done.
    rewrite Hxml. cbn [mret io_ret]. unfold processData. rewrite (join_suffix r dir segs) by done. fold csv s2.
    unfold lift, mbind, io_bind. rewrite WriteFile_healthy by done.
    rewrite Hp, svs_csv_agrees in Hexp by done. rewrite Hexp.
    destruct res as [[[e|] out]|]; [by destruct (Hres e out)| |done].
    rewrite WriteFile_healthy by (by apply write_to_writable_same). by rewrite write_to_twice.
  - rewrite write_to_other; [apply write_to_content|done..].
  - apply write_to_content.
  - intros q Hq1 Hq2. rewrite write_to_entries by done. unfold s2. by rewrite write_to_entries by done.
Qed.
End svs_theorems.

(** ** Theorems: mon *)

Section mon_theorems.
Context {panda : PandaLib} (VMUHeaderLength IDHeaderLengthV2 SDHeaderLengthV2 : Z).

#[local] Abbreviation Process := (mon_Process VMUHeaderLength IDHeaderLengthV2 SDHeaderLengthV2).

(** Fact: the counter of a packet is 32 bits wide, so the interval is reported
    exactly when it is longer than the configured time and the counter has
    gone back since its start, but for the step from the largest counter to
    zero; a counter that only grows never gives a report. *)
Theorem reports_iff m :
  in_width 32 (mo_starts m) → in_width 32 (mo_ends m) →
  reports m = true ↔
  (0 < Sub (mo_last m) (mo_first m))%Z ∧ (mo_delta m < Sub (mo_last m) (mo_first m))%Z ∧
  (mo_ends m < mo_starts m)%Z ∧ ¬ (mo_starts m = 2 ^ 32 - 1 ∧ mo_ends m = 0)%Z.
Proof.
  unfold in_width. change (2 ^ 32)%Z with 4294967296%Z. intros Hs He. unfold reports. cbv zeta.
  rewrite !andb_true_iff, !bool_decide_eq_true. unfold wrap. change (2 ^ 32)%Z with 4294967296%Z.
  destruct (decide (mo_ends m < mo_starts m)%Z) as [Hlt|Hge].
  - rewrite <-(Zmod_unique (mo_ends m - mo_starts m) 4294967296 (-1) (mo_ends m - mo_starts m + 4294967296)) by lia. lia.
  - rewrite Z.mod_small by lia. lia.
Qed.

(** What the reports of a log account for. *)
Definition reported (f : log_line → Z) (ls : list log_line) : Z :=
  foldr (λ l z, (f l + z)%Z) 0%Z (filter (λ l, ln_kind l = "g") ls).

Definition open_log (m : monitor) : list log_line := default [] (mo_logs m !! mo_file m).

(** The packets that are counted, and their bytes. *)
Definition counted (ps : list HRPacket) : list HRPacket := filter (λ p, hr_Version (info p) = VMUProtocol2) ps.

Definition header_bytes (p : HRPacket) : Z :=
  match p with Image _ _ _ => VMUHeaderLength + IDHeaderLengthV2 | Table _ _ _ => VMUHeaderLength + SDHeaderLengthV2 | _ => 0 end.

Fixpoint process_all (ps : list HRPacket) (m : monitor) : result monitor :=
  match ps with [] => Ok m | p :: ps => m ← Process p m; process_all ps m end.

Lemma reported_snoc f ls l : reported f (ls ++ [l]) = (reported f ls + if decide (ln_kind l = "g") then f l else 0)%Z.
Proof.
  unfold reported. rewrite filter_app, filter_cons, filter_nil, foldr_app.
  assert (∀ ks z, foldr (λ l z, (f l + z)%Z) z ks = (foldr (λ l z, (f l + z)%Z) 0 ks + z)%Z) as E
    by (intros ks z; induction ks as [|k ks IH]; simpl; lia).
  rewrite E. case_decide; simpl; lia.
Qed.

(** The packets and the bytes a module has accounted for. *)
Definition packets_in (m : monitor) : Z := reported ln_count (open_log m) + mo_count m.
Definition bytes_in (m : monitor) : Z := reported ln_size (open_log m) + mo_size m.

Lemma report_accounts m : packets_in (report m) = packets_in m ∧ bytes_in (report m) = bytes_in m.
Proof.
  unfold packets_in, bytes_in, open_log, report, append_line; cbn [mo_logs mo_file mo_count mo_size].
  rewrite lookup_insert_eq. cbn [from_option]. unfold id. rewrite !reported_snoc. simpl. lia.
Qed.

Lemma count_in_accounts hs m :
  wrap 64 (packets_in (count_in VMUHeaderLength hs m)) = wrap 64 (packets_in m + 1) ∧
  wrap 64 (bytes_in (count_in VMUHeaderLength hs m)) = wrap 64 (bytes_in m + (VMUHeaderLength + hs)).
Proof.
  unfold packets_in, bytes_in, open_log, count_in; cbn [mo_logs mo_file mo_count mo_size].
  split; rewrite wrap_add_r, Z.add_assoc; [done|apply wrap_add_r].
Qed.

Lemma observe_accounts v m : packets_in (observe v m) = packets_in m ∧ bytes_in (observe v m) = bytes_in m.
Proof. done. Qed.

Lemma Process_accounts p m m' :
  Process p m = Ok m' →
  wrap 64 (packets_in m') = wrap 64 (packets_in m + Z.of_nat (length (counted [p]))) ∧
  wrap 64 (bytes_in m') = wrap 64 (bytes_in m + if decide (hr_Version (info p) = VMUProtocol2) then header_bytes p else 0).
Proof.
  unfold mon_Process, counted. rewrite filter_cons, filter_nil. intros H.
  destruct (decide (hr_Version (info p) = VMUProtocol2)) as [Hv|Hv].
  2: { rewrite decide_True in H by done. injection H as <-. simpl. by rewrite !Z.add_0_r. }
  rewrite decide_False in H by naive_solver. destruct (header_of _ _ p) as [[v hs]|] eqn:Hh; [|done].
  injection H as <-. assert (header_bytes p = VMUHeaderLength + hs)%Z as -> by (destruct p; simpl in *; by simplify_eq).
  destruct (count_in_accounts hs (if reports (observe v m) then report (observe v m) else observe v m)) as [-> ->].
  destruct (observe_accounts v m) as [H1 H2], (report_accounts (observe v m)) as [H3 H4].
  destruct (reports _); [rewrite H3, H4|]; rewrite H1, H2; done.
Qed.

(** C34: between two rotations no packet is lost from the accounts: the packets
    and header bytes of the reports in the log and of the running interval
    add up to those of the packets of the second version, modulo 2^64. *)
Theorem mon_accounts ps m m' :
  process_all ps m = Ok m' →
  wrap 64 (packets_in m') = wrap 64 (packets_in m + Z.of_nat (length (counted ps))) ∧
  wrap 64 (bytes_in m') = wrap 64 (bytes_in m + foldr (λ p z, header_bytes p + z)%Z 0%Z (counted ps)).
Proof.
  revert m. induction ps as [|p ps IH]; intros m; cbn [process_all].
  { intros [= <-]. simpl. by rewrite !Z.add_0_r. }
  intros H. apply result_bind_ok in H as (m1 & H1 & H2).
  destruct (IH m1 H2) as [-> ->], (Process_accounts p m m1 H1) as [E1 E2].
  rewrite (wrap_add_step 64 _ _ _ _ E1), (wrap_add_step 64 _ _ _ _ E2).
  unfold counted. rewrite (filter_cons _ p ps), (filter_cons _ p []), filter_nil.
  case_decide; simpl; split; f_equal; lia.
Qed.

(** Fact: the rotation names the log after the day, so that a rotation within
    the day truncates it: all the reports of the day are lost. *)
Theorem mon_rotation_truncates n m :
  mo_file m = log_path (mo_datadir m) n →
  open_log (tick_rotate n true m) = [] ∧ mo_file (tick_rotate n true m) = mo_file m ∧
  packets_in (tick_rotate n true m) = mo_count m.
Proof.
  intros Hf. unfold packets_in, open_log, tick_rotate; cbn [mo_logs mo_file mo_count].
  by rewrite lookup_insert_eq, Hf.
Qed.
End mon_theorems.

(** ** Theorems: xxhsum *)

Definition nibble (a : ascii) : Z :=
  let n := Z.of_nat (nat_of_ascii a) in if decide (n < 58)%Z then (n - 48)%Z else (n - 87)%Z.

(** The number a line of hexadecimal digits stands for. *)
Fixpoint hex_value (acc : Z) (s : string) : Z :=
  match s with EmptyString => acc | String a s => hex_value (16 * acc + nibble a) s end.

Lemma nibble_digit d : d < 16 → nibble (ascii_of_nat (if decide (d < 10) then 48 + d else 87 + d)) = Z.of_nat d.
Proof. intros Hd. do 16 (destruct d as [|d]; [done|]). lia. Qed.

Lemma hex_digits_value fuel z acc :
  (0 ≤ z < 16 ^ Z.of_nat fuel)%Z → hex_value 0 (hex_digits fuel z acc) = hex_value z acc.
Proof.
  revert z acc. induction fuel as [|fuel IH]; intros z acc Hz; [by assert (z = 0%Z) as -> by (simpl in Hz; lia)|].
  cbn [hex_digits]. assert (Z.to_nat (z mod 16) < 16) as Hd by (pose proof (Z.mod_pos_bound z 16); lia).
  assert (∀ y, hex_value y (String (ascii_of_nat (if decide (Z.to_nat (z mod 16) < 10) then 48 + Z.to_nat (z mod 16)
    else 87 + Z.to_nat (z mod 16))) acc) = hex_value (16 * y + z mod 16) acc) as E.
  { intros y. cbn [hex_value]. rewrite nibble_digit, Z2Nat.id by (done || apply Z.mod_pos_bound; lia). done. }
  destruct (decide (z < 16)%Z) as [Hs|Hs].
  - rewrite E, Z.mod_small by lia. done.
  - rewrite Nat2Z.inj_succ, Z.pow_succ_r in Hz by lia. rewrite IH.
    + rewrite E. f_equal. pose proof (Z.div_mod z 16). lia.
    + split; [apply Z.div_pos; lia|apply Z.div_lt_upper_bound; lia].
Qed.

Lemma hex_value_pad w s : hex_value 0 (pad_left w "0"%char s) = hex_value 0 s.
Proof.
  unfold pad_left. induction (w - String.length s) as [|n IH]; [done|].
  destruct n as [|n]; [done|]. exact IH.
Qed.

(** Fact: the checksum plugin prints a line for every packet with bytes, and the
    digits of the line are the sum the hash gives for them under the
    configured seed, cut to its width; another packet is an error. *)
Theorem xxh_prints seed alg Sum32 Sum64 p :
  (alg = 32 ∨ alg = 64)%Z →
  ∃ d, xxh_New seed alg Sum32 Sum64 = Ok d ∧
    let sum bs := if decide (alg = 32)%Z then Sum32 bs (wrap 32 seed) else Sum64 bs (wrap 64 seed) in
    match hr_Bytes (info p) with
    | Ok [] => xxh_Process d p = Err (Errorf "empy payload" [])
    | Ok bs =>
        (0 ≤ sum bs < 2 ^ 64)%Z →
        ∃ digits, xxh_Process d p = Ok (Format_RFC3339 (Timestamp p) +:+ " | " +:+ pad_left 8 " "%char (Sprint (Sequence p)) +:+
                                        " | " +:+ digits +:+ String newline EmptyString) ∧ hex_value 0 digits = sum bs
    | Err e => xxh_Process d p = Err e
    | Panic w => xxh_Process d p = Panic w
    end.
Proof.
  intros Halg. unfold xxh_New.
  assert (∀ s, 0 ≤ s < 2 ^ 64 → hex_value 0 (pad_left 8 "0"%char (hex_digits 16 s "")) = s)%Z as Hv.
  { intros s Hs. rewrite hex_value_pad, hex_digits_value by (change (16 ^ Z.of_nat 16)%Z with (2 ^ 64)%Z; lia). done. }
  destruct Halg as [-> | ->]; [rewrite decide_True by done|rewrite decide_False, decide_True by done];
    eexists; (split; [done|]); cbv zeta; unfold xxh_Process; destruct (hr_Bytes (info p)) as [[|b bs]|e|w]; try done;
    intros Hs; eexists; (split; [done|]); cbn [digest_sum] in *; by apply Hv.
Qed.

(** ** Examples *)

Definition sample_svs (seq : Z) (payload : list byte) : HRPacket :=
  Table (mkHRInfo 2 "90" 3 seq true (time_Unix 0 1577836800) None "svs.dat" "svs" payload (Ok payload) (Ok payload) (Ok payload))
    (sample_vmu 3) (mkSDH OtherSDH None).

Definition sample_xml (m : metadata) : list byte * option error := (bytes_of (upi_text m), None).

Definition sample_table_bytes : list byte :=
  sample_meta ++ put_uint BigEndian 1 1 ++ wire_uints LittleEndian 2 [10%Z] ++ wire_uints LittleEndian 4 [7%Z].

Definition sample_tail : list byte :=
  put_uint BigEndian 1 1 ++ wire_uints LittleEndian 2 [10%Z] ++ wire_uints LittleEndian 4 [7%Z].

Definition sample_dirmaker : dirmaker := NewDirectory "/data" "" [] 0.

Lemma svs_converts_witness :
  ∃ s', svs_Process Sprint sample_xml healthy 5 sample_dirmaker 255 (sample_svs 2 sample_table_bytes) empty_fs = (Ok (Some ()), s') ∧
    content s' "/data/OPS/sciences/realtime/90/2020/006/00/svs.dat.csv" =
    Some (csv_line ["t"; "g2(t, 10)"] ++ csv_line ["0"; "7"]).
Proof.
  destruct (svs_converts Sprint sample_xml 5 sample_dirmaker 255 (sample_svs 2 sample_table_bytes) sample_meta sample_tail
    (Some (None, csv_line ["t"; "g2(t, 10)"] ++ csv_line ["0"; "7"]))
    "/data/OPS/sciences/realtime/90/2020/006/00" true ["data"; "OPS"; "sciences"; "realtime"; "90"; "2020"; "006"; "00"] empty_fs)
    as (s' & H & _ & Hc & _).
  - done.
  - done.
  - done.
  - done.
  - done.
  - done.
  - done.
  - by vm_compute.
  - split; [by compute_decide|done].
  - by compute_decide.
  - split; [apply empty_fs_wf|by compute_decide| |].
    + do 2 (apply Forall_cons; split; [split; [by compute_decide|by vm_compute]|]). constructor.
    + by intros i Hi.
  - by vm_compute.
  - by intros e out [=].
  - exists s'. split; [exact H|exact Hc].
Defined.

Definition sample_monitor (starts ends elapsed : Z) : monitor :=
  mkMonitor "/log" Timeout (time_Unix 0 1000) (time_Unix 0 (1000 + elapsed)) starts ends 96 4 "/log/19700101.log"
    {[ "/log/19700101.log" := [] ]}.

Lemma reports_iff_witness : reports (sample_monitor 17 3 6) = true ∧ reports (sample_monitor 3 17 6) = false.
Proof.
  split; [apply reports_iff; by compute_decide|].
  apply not_true_is_false. rewrite reports_iff by compute_decide. by intros (_ & _ & Hlt & _).
Defined.

Lemma mon_accounts_witness :
  ∃ m', process_all 24 40 32 [sample_svs 2 []; sample_image "OPS" 3 true []] (sample_monitor 3 3 0) = Ok m' ∧
    wrap 64 (packets_in m') = 6%Z ∧ wrap 64 (bytes_in m') = 216%Z.
Proof.
  destruct (process_all 24 40 32 [sample_svs 2 []; sample_image "OPS" 3 true []] (sample_monitor 3 3 0)) as [m'| |] eqn:E;
    [|by vm_compute in E..].
  exists m'. split; [done|]. apply mon_accounts in E as [-> ->]. by vm_compute.
Defined.

Lemma mon_rotation_truncates_witness :
  open_log (tick_rotate (time_Unix 0 7200) true (report (sample_monitor 17 3 6))) = [] ∧
  open_log (report (sample_monitor 17 3 6)) ≠ [].
Proof.
  split; [|by vm_compute]. by destruct (mon_rotation_truncates (time_Unix 0 7200) (report (sample_monitor 17 3 6)) eq_refl).
Defined.

Lemma xxh_prints_witness :
  ∃ digits, xxh_Process (digest32 1 (λ bs seed, byte_val (default x00 (head bs)) + seed)%Z) (sample_svs 2 [xfe]) =
    Ok ("2020-01-01T00:00:00Z |        2 | " +:+ digits +:+ String newline EmptyString) ∧ hex_value 0 digits = 255%Z.
Proof.
  destruct (xxh_prints (2 ^ 32 + 1) 32 (λ bs seed, byte_val (default x00 (head bs)) + seed)%Z (λ _ _, 0%Z) (sample_svs 2 [xfe]))
    as (d & Hd & H); [by left|].
  injection Hd as <-. cbn [sample_svs info hr_Bytes] in H. cbv zeta in H.
  destruct H as (digits & E & Hv); [vm_compute; split; [intros [=]|reflexivity]|]. exists digits. split; [exact E|exact Hv].
Defined.
