(* ===== verification/Sender.v ===== *)
(** * Sender: the replay command (runReplay, walkPaths and walk of
      src/cmd/hadock/replay.go)

    One goroutine per directory scans its archives, another one joins the
    directories, and the command writes what they find to the broker.  The
    channels between them are not buffered and nothing else is shared, so the
    command sees the packets of the directories one after the other. *)

From S2P Require Import Prelude Bytes SortSearch Proto Replay Scanner.
From Stdlib Require Import ZArith Lia.

(** ** The archives *)

(** What [filepath.Walk] passes to its function: an error, a directory, or a
    file with the result of opening it. *)
Inductive archive_visit : Type :=
  | WalkError (e : error)
  | WalkDir
  | WalkFile (f : result (list byte)).

Section walk.
Context (split : SplitFunc) (max : nat).

(** [walk]: the tokens it sends, and how its goroutine ends; an error ends the
    walk and is logged, a panic ends the program. *)
Inductive walk : list archive_visit → list (list byte) → scan_end → Prop :=
  | walk_done : walk [] [] (Finished None)
  | walk_error e vs : walk (WalkError e :: vs) [] (Finished (Some e))
  | walk_dir vs ts how : walk vs ts how → walk (WalkDir :: vs) ts how
  | walk_closed e vs : walk (WalkFile (Err e) :: vs) [] (Finished (Some e))
  | walk_file f vs ts ts' how :
      scans split max f ts (Finished None) → walk vs ts' how → walk (WalkFile (Ok f) :: vs) (ts ++ ts') how
  | walk_file_ends f vs ts how :
      scans split max f ts how → how ≠ Finished None → walk (WalkFile (Ok f) :: vs) ts how.

(** [walkPaths]: the directories in turn. *)
Inductive walkPaths : list (list archive_visit) → list (list byte) → scan_end → Prop :=
  | paths_done : walkPaths [] [] (Finished None)
  | paths_dir vs ds ts ts' err how :
      walk vs ts (Finished err) → walkPaths ds ts' how → walkPaths (vs :: ds) (ts ++ ts') how
  | paths_panic vs ds ts why : walk vs ts (Panicked why) → walkPaths (vs :: ds) ts (Panicked why).
End walk.

(** *** runDispatch (src/cmd/hadock/dispatch.go)

    It walks one directory of the broker's archives and looks at every packet;
    the structure it decodes has no field, so that [binary.Read] takes no byte
    and cannot fail. *)
Definition dispatch_limit : nat := Nat.mul 8 (Nat.pow 2 20).

Inductive runDispatch (vs : list archive_visit) : scan_end → Prop :=
  | dispatched ts how : walk scanPackets dispatch_limit vs ts how → runDispatch vs how.

(** ** The command *)

Section sender.
Context (Sum1071Bis : list byte → Z) {W : Type} (Copy : list byte → W → (Z * option error) * W).
(** A network error that is not temporary. *)
Context (permanent : error → bool).

Record sending : Type := mkSending {
  sd_count : Z;        (* uint64 *)
  sd_size : Z;         (* uint64 *)
  sd_replay : replay;
  sd_conn : W;
}.

(** The loop of [runReplay] over what the channel gives until it is closed; an
    empty token takes a turn, and a packet is counted although its write
    failed. *)
Fixpoint runReplay_loop (num i : Z) (queue : list (list byte)) (s : sending) : sending :=
  match queue with
  | [] => s
  | bs :: queue =>
      if decide (num ≤ 0 ∨ i < num)%Z then
        if decide (length bs = 0) then runReplay_loop num (i + 1) queue s
        else
          let '(((_, err), w), r) := replay_Write Sum1071Bis Copy (sd_replay s) bs (sd_conn s) in
          if match err with Some e => permanent e | None => false end then mkSending (sd_count s) (sd_size s) r w
          else runReplay_loop num (i + 1) queue
                 (mkSending (wrap 64 (sd_count s + 1)) (wrap 64 (sd_size s + Z.of_nat (length bs))) r w)
      else s
  end.

Definition runReplay (block vmu mode num : Z) (queue : list (list byte)) (w : W) : sending :=
  runReplay_loop num 0 queue (mkSending 0 0 (Replay block vmu mode) w).
End sender.

(** ** Lemmas *)

(** The turns the limit allows, and the packets among them. *)
Definition turns_of (num : Z) (queue : list (list byte)) : list (list byte) :=
  if decide (num ≤ 0)%Z then queue else take (Z.to_nat num) queue.

Definition packets_of (queue : list (list byte)) : list (list byte) := filter (λ bs, length bs ≠ 0) queue.

Definition bump (r : replay) (n : nat) : replay :=
  mkReplay (rp_size r) (wrap 16 (rp_counter r + Z.of_nat n)) (rp_version r).

(** What a connection that takes everything has got. *)
Fixpoint sent_all (Sum1071Bis : list byte → Z) (r : replay) (ps : list (list byte)) : list (list byte) :=
  match ps with
  | [] => []
  | bs :: ps => sent Sum1071Bis r bs :: sent_all Sum1071Bis (mkReplay (rp_size r) (wrap 16 (rp_counter r + 1)) (rp_version r)) ps
  end.

Lemma writePacket_sink f r bs w : writePacket f sink r bs w = ((Z.of_nat (length bs), None), w ++ sent f r bs).
Proof.
  unfold sent, writePacket. case_decide; [done|]. by rewrite !write_fragments_sink.
Qed.

Section sink.
Context (f : list byte → Z) (permanent : error → bool).

Lemma runReplay_loop_sink num i queue s :
  (0 ≤ i)%Z →
  let ps := packets_of (if decide (num ≤ 0)%Z then queue else take (Z.to_nat (num - i)) queue) in
  let s' := runReplay_loop f sink permanent num i queue s in
  sd_conn s' = sd_conn s ++ concat (sent_all f (sd_replay s) ps) ∧
  wrap 64 (sd_count s') = wrap 64 (sd_count s + Z.of_nat (length ps)) ∧
  wrap 64 (sd_size s') = wrap 64 (sd_size s + Z.of_nat (length (concat ps))).
Proof.
  revert i s. induction queue as [|bs queue IH]; intros i s Hi; cbv zeta.
  { rewrite take_nil. cbn [runReplay_loop]. case_decide; simpl; rewrite app_nil_r, !Z.add_0_r; done. }
  cbn [runReplay_loop]. destruct (decide (num ≤ 0 ∨ i < num)%Z) as [Hn|Hn].
  2: { rewrite decide_False by lia. replace (Z.to_nat (num - i)) with 0 by lia.
       simpl. by rewrite app_nil_r, !Z.add_0_r. }
  assert ((if decide (num ≤ 0)%Z then bs :: queue else take (Z.to_nat (num - i)) (bs :: queue)) =
    bs :: (if decide (num ≤ 0)%Z then queue else take (Z.to_nat (num - (i + 1))) queue)) as ->.
  { case_decide; [done|]. by replace (Z.to_nat (num - i)) with (S (Z.to_nat (num - (i + 1)))) by lia. }
  unfold packets_of. rewrite filter_cons. fold (packets_of (if decide (num ≤ 0)%Z then queue else take (Z.to_nat (num - (i + 1))) queue)).
  destruct (decide (length bs = 0)) as [Hz|Hz].
  { rewrite decide_False by naive_solver. apply IH. lia. }
  rewrite decide_True by done. unfold replay_Write. rewrite writePacket_sink.
  match goal with |- context [runReplay_loop _ _ _ _ _ _ ?s] => destruct (IH (i + 1)%Z s) as (-> & Hc & Hs); [lia|] end.
  cbn [sd_conn sd_count sd_size sd_replay] in *. rewrite Hc, Hs, !wrap_add_l. cbn [sent_all concat length].
  rewrite length_app, <-app_assoc. split_and!; [done|f_equal; lia..].
Qed.
End sink.

(** *** What the archives give *)

(** A file of whole records, and the packets in it. *)
Definition archive_of (split : SplitFunc) (max : nat) (file : list byte) (toks : list (list byte)) : Prop :=
  ∃ frames, file = concat frames ∧ Forall2 (framing split) frames toks ∧ Forall (λ f, length f ≤ max) frames.

(** A directory of such files, with directories among them. *)
Inductive archives (split : SplitFunc) (max : nat) : list archive_visit → list (list (list byte)) → Prop :=
  | archives_nil : archives split max [] []
  | archives_dir vs tokss : archives split max vs tokss → archives split max (WalkDir :: vs) tokss
  | archives_file f toks vs tokss :
      archive_of split max f toks → archives split max vs tokss → archives split max (WalkFile (Ok f) :: vs) (toks :: tokss).

(** The scanner ends every file with an empty token. *)
Definition with_ends (tokss : list (list (list byte))) : list (list byte) := concat ((λ toks, toks ++ [[]]) <$> tokss).

Section archived.
Context (split : SplitFunc) (max : nat).
Context (split_eof : ∀ b, split b true = Ok (Z.of_nat (length b), Some b, Some ErrFinalToken)) (Hmax : 0 < max).

Lemma archive_scans f toks :
  archive_of split max f toks →
  (∃ ts how, scans split max f ts how) ∧ ∀ ts how, scans split max f ts how → ts = toks ++ [[]] ∧ how = Finished None.
Proof. intros (frames & -> & Hf & Hm). by apply scan_all. Qed.

Lemma walk_archives vs tokss :
  archives split max vs tokss →
  (∃ ts how, walk split max vs ts how) ∧ ∀ ts how, walk split max vs ts how → ts = with_ends tokss ∧ how = Finished None.
Proof.
  induction 1 as [|vs tokss _ [(ts & how & Hex) IH]|f toks vs tokss Hf _ [(ts & how & Hex) IH]].
  - split; [do 2 eexists; constructor|]. intros ts how H. by inversion H.
  - split; [do 2 eexists; by constructor|]. intros ts' how' H. inversion H; subst. by apply IH.
  - apply archive_scans in Hf as [(ts1 & how1 & Hex1) Hall]. destruct (Hall _ _ Hex1) as [-> ->]. split.
    + do 2 eexists. by apply walk_file.
    + intros ts' how' H. inversion H as [| | | |f' vs' ts2 ts3 how2 Hs Hw|f' vs' ts2 how2 Hs Hne]; subst.
      * destruct (Hall _ _ Hs) as [-> _], (IH _ _ Hw) as [-> ->]. by split.
      * by destruct (Hall _ _ Hs) as [_ ?].
Qed.

Lemma paths_archives ds tokss :
  Forall2 (archives split max) ds tokss →
  (∃ queue how, walkPaths split max ds queue how) ∧
  ∀ queue how, walkPaths split max ds queue how → queue = concat (with_ends <$> tokss) ∧ how = Finished None.
Proof.
  induction 1 as [|vs toks ds tokss Hd _ [(q & how & Hex) IH]].
  - split; [do 2 eexists; constructor|]. intros q how H. by inversion H.
  - apply walk_archives in Hd as [(ts1 & how1 & Hex1) Hall]. destruct (Hall _ _ Hex1) as [-> ->]. split.
    + do 2 eexists. by eapply paths_dir.
    + intros q' how' H. inversion H as [|vs' ds' ts ts' err how2 Hw Hp|vs' ds' ts why Hw]; subst.
      * destruct (Hall _ _ Hw) as [-> _], (IH _ _ Hp) as [-> ->]. by split.
      * by destruct (Hall _ _ Hw) as [_ ?].
Qed.
End archived.

Lemma packets_of_ends tokss :
  Forall (λ bs, length bs ≠ 0) (concat tokss) → packets_of (with_ends tokss) = concat tokss.
Proof.
  unfold packets_of, with_ends. induction tokss as [|toks tokss IH]; intros H; [done|].
  cbn [fmap list_fmap concat] in *. apply Forall_app in H as [H1 H2].
  rewrite !filter_app, IH by done. cbn [filter list_filter]. rewrite decide_False by naive_solver.
  rewrite app_nil_r. f_equal. by apply filter_all.
Qed.

Lemma packets_of_paths tokss :
  Forall (λ bs, length bs ≠ 0) (concat (concat tokss)) →
  packets_of (concat (with_ends <$> tokss)) = concat (concat tokss).
Proof.
  induction tokss as [|toks tokss IH]; intros H; [done|]. cbn [fmap list_fmap concat] in *.
  rewrite concat_app in H |- *. apply Forall_app in H as [H1 H2].
  unfold packets_of. rewrite filter_app. fold (packets_of (with_ends toks)).
  rewrite packets_of_ends by done. f_equal. by apply IH.
Qed.

(** *** What the broker reads *)

Section broker.
Context {sorter : SliceSorter} (f : list byte → Z) (permanent : error → bool).

Lemma sent_all_decoded s t m r ps :
  replay_of s t m r → in_width 4 t → in_width 8 m → Forall (sendable s) ps →
  ∃ pks, Forall2 decodes_as (sent_all f r ps) pks ∧ pkt_Payload <$> pks = ps ∧
    Forall (λ p, pkt_Version p = t ∧ pkt_Instance p = m) pks ∧
    pkt_Sequence <$> pks = (λ k, wrap 16 (rp_counter r + Z.of_nat k)) <$> seq 0 (length ps).
Proof.
  intros Hr Ht Hm Hps. revert r Hr. induction Hps as [|bs ps Hbs _ IH]; intros r Hr.
  { exists []. by repeat split. }
  destruct (sent_decoded f s t m r bs) as (p & Hp & Hv & Hi & Hq & Hb); [done..|].
  set (r' := mkReplay (rp_size r) (wrap 16 (rp_counter r + 1)) (rp_version r)).
  destruct (IH r') as (pks & H1 & H2 & H3 & H4).
  { destruct Hr as (H1 & H2 & H3). split_and!; [done..|]. by apply wrap_range. }
  exists (p :: pks). cbn [sent_all fmap list_fmap length seq]. split_and!.
  - by constructor.
  - by rewrite Hb, H2.
  - by constructor.
  - rewrite H4, Hq, Z.add_0_r. f_equal; [by symmetry; apply wrap_small, Hr|].
    rewrite <-fmap_S_seq, <-list_fmap_compose. apply list_fmap_ext. intros i k _. simpl.
    rewrite wrap_add_l. f_equal. lia.
Qed.

End broker.

(** Fact: the limit of the client counts turns and not packets: the empty token
    at the end of every file takes one, so that fewer packets are sent than
    the archives could give. *)
Theorem replay_limit f permanent s t m num queue :
  (0 < num)%Z →
  let s' := runReplay f sink permanent s t m num queue [] in
  wrap 64 (sd_count s') = wrap 64 (Z.of_nat (length (packets_of (take (Z.to_nat num) queue)))) ∧
  sd_conn s' = concat (sent_all f (Replay s t m) (packets_of (take (Z.to_nat num) queue))).
Proof.
  intros Hn. unfold runReplay.
  destruct (runReplay_loop_sink f permanent num 0 queue (mkSending 0 0 (Replay s t m) [])) as (Hc & Hcount & _); [done|].
  rewrite decide_False, Z.sub_0_r in Hc, Hcount by lia. by rewrite Hc, Hcount.
Qed.

(** Dispatching archives of whole packets reads them all and ends without an
    error, and in no other way. *)
Lemma dispatch_ends vs tokss how :
  archives scanPackets dispatch_limit vs tokss →
  (∃ how, runDispatch vs how) ∧ (runDispatch vs how → how = Finished None).
Proof.
  intros H. assert (0 < dispatch_limit) as Hmax.
  { unfold dispatch_limit. apply Nat.mul_pos_pos; [lia|]. apply Nat.neq_0_lt_0, Nat.pow_nonzero. lia. }
  destruct (walk_archives scanPackets dispatch_limit (λ b, eq_refl) Hmax vs tokss H) as [(ts & how' & Hw) Hall].
  split; [exists how'; by econstructor|]. intros [ts' how'' Hw']. by apply Hall in Hw' as [_ ?].
Qed.

(** ** Examples *)

Definition sample_body : list (list byte) := [[x61; x62; x63]; [x64; x65; x66; x67; x68]].

Lemma sample_archive bodies :
  Forall (λ body, length body ≤ 1000) bodies →
  archive_of (scanVMUPackets 2 1) 1024 (concat (hrdp_record [x01; x02] [x03] <$> bodies)) bodies.
Proof.
  intros H. exists (hrdp_record [x01; x02] [x03] <$> bodies). split; [done|].
  induction H as [|b bodies Hb _ [IH1 IH2]]; cbn; [done|]. split; constructor; try done.
  - apply scanVMUPackets_framing; [done..|]. unfold in_width. change (2 ^ 32)%Z with 4294967296%Z. simpl. lia.
  - unfold hrdp_record. autorewrite with lengths. simpl. lia.
Qed.

Definition sample_archives : list (list archive_visit) :=
  [[WalkDir; WalkFile (Ok (concat (hrdp_record [x01; x02] [x03] <$> take 1 sample_body)))];
   [WalkFile (Ok (concat (hrdp_record [x01; x02] [x03] <$> drop 1 sample_body)))]].

Lemma sample_archives_ok :
  Forall2 (archives (scanVMUPackets 2 1) 1024) sample_archives [[take 1 sample_body]; [drop 1 sample_body]].
Proof.
  constructor; [|constructor; [|constructor]].
  - apply archives_dir, archives_file; [|apply archives_nil]. apply sample_archive. by compute_decide.
  - apply archives_file; [|apply archives_nil]. apply sample_archive. by compute_decide.
Qed.


Lemma replay_limit_witness :
  let s' := runReplay sample_sum sink (λ _, true) 0 2 255 2 [[x61]; []; [x62]; []] [] in
  wrap 64 (sd_count s') = 1%Z ∧ sd_conn s' = sent sample_sum (Replay 0 2 255) [x61].
Proof.
  destruct (replay_limit sample_sum (λ _, true) 0 2 255 2 [[x61]; []; [x62]; []]) as [H1 H2]; [done|].
  split; [by rewrite H1|by rewrite H2].
Defined.
