(* ===== verification/Distrib.v ===== *)
(** * Distrib: the HTTP side of the archive (src/cmd/hadock/distrib.go, with
      the handlers of src/distrib/browse.go and src/distrib/monitor.go)

    [runDistrib] puts its handlers behind a [http.ServeMux], two of them behind
    [http.StripPrefix] with the paths of files below the archive.  JSON and
    XML are written by the standard library's encoders: parameters. *)

From S2P Require Import Prelude Bytes GoStd Text Panda Notifier Fs Fetch Browse Monitor.
From Stdlib Require Import ZArith Lia Ascii.

(** ** Routing *)

Inductive handler : Type := HBrowse | HMonitor | HProducts | HArchives.

#[global] Instance handler_eq_dec : EqDecision handler.
Proof. solve_decision. Defined.

(** The patterns, in the order they are registered; none is a prefix of
    another. *)
Definition patterns : list (string * handler) :=
  [("/browse/", HBrowse); ("/monitor/", HMonitor); ("/products/", HProducts); ("/archives/", HArchives)].

(** The path the multiplexer wants: rooted, clean, with its last slash. *)
Definition cleanPath (p : string) : string :=
  if decide (p = "") then "/"
  else
    let p := if is_rooted p then p else String slash p in
    let np := GoStd.Clean p in
    if HasSuffix p "/" && bool_decide (np ≠ "/") then np +:+ "/" else np.

Inductive routed : Type :=
  | Redirect (path : string)
  | Handle (h : handler) (path : string)
  | PageNotFound.

(** The patterns that are registered: [up] tells whose constructor succeeded,
    the others are logged. *)
Definition registered (up : handler → bool) : list (string * handler) :=
  filter (λ x : string * handler, up x.2 = true) patterns.

(** [mux.handler] and [StripPrefix]. *)
Definition matched (ps : list (string * handler)) (path : string) : routed :=
  match head (filter (λ x, HasPrefix path x.1 = true) ps) with
  | None => PageNotFound
  | Some (pre, HMonitor) => Handle HMonitor path
  | Some (pre, h) => Handle h (TrimPrefix path pre)
  end.

(** The mux: of a CONNECT request the path is used as it is, of every other it
    must be clean.  No handler looks at the method. *)
Definition route (up : handler → bool) (method path : string) : routed :=
  let ps := registered up in
  if decide (method = "CONNECT") then
    if decide (path +:+ "/" ∈ ps.*1) then Redirect (path +:+ "/") else matched ps path
  else
    let p := cleanPath path in
    if decide (p +:+ "/" ∈ ps.*1) then Redirect (p +:+ "/")
    else if decide (p ≠ path) then Redirect p
    else matched ps path.

(** ** Mounting the handlers *)

Section mount.
Context (denied : string → option error).

(** [Browse], [Fetch] and [Download]: the archive is a directory. *)
Definition archive_dir (d : string) : io string :=
  i ← Stat denied d;
  if decide (i = IsDir) then mret d else io_fail (Errorf "not a directory" [AStr d]).

(** What [net.ResolveUDPAddr] and [net.ListenMulticastUDP] say of a group. *)
Context (listen_group : string → option error).

(** [Monitor]: the groups joined before one that cannot be are still read. *)
Fixpoint monitor_groups (gs : list string) : result () :=
  match gs with
  | [] => Ok ()
  | g :: gs => match listen_group g with Some e => Err e | None => monitor_groups gs end
  end.

(** The constructors of [runDistrib]; those that fail are logged. *)
Definition mount (raw : string) (groups : list string) : io (handler → bool) :=
  i ← Stat denied raw;
  if decide (i = IsDir) then
    browse ← try_io (archive_dir raw);
    products ← try_io (archive_dir raw);
    archives ← try_io (archive_dir raw);
    mret (λ h, match h with
               | HBrowse => bool_decide (is_Some browse)
               | HMonitor => is_Ok (monitor_groups groups)
               | HProducts => bool_decide (is_Some products)
               | HArchives => bool_decide (is_Some archives)
               end)
  else io_fail (Errorf "%s not a directory" [AStr raw]).
End mount.

(** ** The listing *)

Record reply : Type := mkReply { rp_status : Z; rp_body : list byte }.

Definition StatusNoContent : Z := 204.

Section handlers.
Context (Json Xml : list Browse.info → result (list byte)).

Definition csv_rows_of (l : list Browse.info) : list byte :=
  concat ((λ i, csv_line [in_Name i; Format_RFC3339 (in_Mod i); Sprint (in_Size i)]) <$> l).

(** What [http.Error] writes. *)
Definition http_Error (e : error) (render : error → list byte) (code : Z) : reply := mkReply code (render e).

Context (render_error : error → list byte).

(** [browser.ServeHTTP] for what [ioutil.ReadDir] gives. *)
Definition browser_ServeHTTP (infos : result (list dir_entry)) (a : string) : result reply :=
  match infos with
  | Panic w => Panic w
  | Err _ => Ok (mkReply StatusNotFound [])
  | Ok infos =>
      l ← readDir infos;
      let answer r :=
        match r with
        | Ok body => Ok (mkReply StatusOK body)
        | Err e => Ok (http_Error e render_error StatusBadRequest)
        | Panic w => Panic w
        end in
      if isAcceptable a ["application/json"] then answer (Json l)
      else if isAcceptable a ["application/xml"] then answer (Xml l)
      else if isAcceptable a ["text/csv"] then answer (Ok (csv_rows_of l))
      else Ok (mkReply StatusNotAcceptable [])
  end.

(** ** The messages *)

(** [encoding/xml] does not write maps. *)
Definition ErrUnsupportedType : error := ErrExternal "xml: unsupported type: map[monkey]*pool".

(** The lists by key; [sort.Slice] gets a comparison that is not strict, so
    that of its result only the elements are known. *)
Definition monitor_data (sort : list Monitor.message → list Monitor.message) (m : Monitor.monitor) :
    list (string * list Monitor.message) :=
  prod_map id sort <$> filter (λ x, x.2 ≠ []) (served m).

Definition monitor_ServeHTTP (sort : list Monitor.message → list Monitor.message)
    (JsonMap : list (string * list Monitor.message) → result (list byte)) (m : Monitor.monitor) (a : string) : result reply :=
  if decide (Monitor.mo_messages m = ∅) then Ok (mkReply StatusNoContent [])
  else
    let answer r :=
      match r with
      | Ok body => Ok (mkReply StatusOK body)
      | Err e => Ok (http_Error e render_error StatusInternalServerError)
      | Panic w => Panic w
      end in
    if isAcceptable a ["application/json"] then answer (JsonMap (monitor_data sort m))
    else if isAcceptable a ["application/xml"] then answer (Err ErrUnsupportedType)
    else Ok (mkReply StatusNotAcceptable []).
End handlers.

(** ** Theorems: routing *)

(** Segments of a clean path: names, and nothing around the slashes. *)
Definition plain_seg (s : string) : Prop := s = "" ∨ simple_name s.

Lemma Split_no_slash p : Forall (λ s, str_mem slash s = false) (Split slash p).
Proof.
  induction p as [|a p IH]; [by repeat constructor|]. cbn [Split]. case_decide as Ha; [by constructor|].
  destruct (Split slash p) as [|x xs]; [apply Forall_singleton; simpl; by rewrite bool_decide_false|].
  apply Forall_cons in IH as [Hx Hxs]. constructor; [|done]. cbn [str_mem]. rewrite Hx.
  by rewrite bool_decide_false.
Qed.

Lemma clean_loop_rooted stack l :
  Forall simple_name stack → Forall (λ s, str_mem slash s = false) l → Forall simple_name (clean_loop true stack l).
Proof.
  intros Hst Hl. revert stack Hst. induction Hl as [|s l Hs _ IH]; intros stack Hst; cbn [clean_loop].
  { by apply Forall_rev. }
  destruct (decide (s = "" ∨ s = ".")) as [|Hn]; [by apply IH|].
  destruct (decide (s = "..")) as [->|Hd].
  - destruct Hst as [|top stack Htop Hst]; [by apply IH|]. rewrite decide_False by apply Htop. by apply IH.
  - apply IH. constructor; [|done]. split_and!; naive_solver.
Qed.

(** Names and empty pieces are only added. *)
Lemma clean_loop_plain stack l :
  Forall plain_seg l → clean_loop true stack l = rev stack ++ filter (λ s, s ≠ "") l.
Proof.
  intros Hl. revert stack. induction Hl as [|s l Hs _ IH]; intros stack; cbn [clean_loop]; [by rewrite app_nil_r|].
  rewrite filter_cons. destruct Hs as [->|(H1 & H2 & H3 & _)].
  - rewrite decide_True by (by left). by rewrite IH, decide_False by naive_solver.
  - rewrite (decide_False (P := s = "" ∨ _)) by naive_solver. rewrite (decide_False (P := s = "..")) by done.
    rewrite (decide_True (P := s ≠ "")) by done. rewrite IH. simpl. by rewrite <-app_assoc.
Qed.

Lemma filter_plain l : Forall plain_seg l → Forall simple_name (filter (λ s, s ≠ "") l).
Proof.
  induction 1 as [|s l Hs _ IH]; [constructor|]. rewrite filter_cons. case_decide; [|done].
  constructor; [|done]. by destruct Hs.
Qed.

Lemma Split_render segs : Forall simple_name segs → Forall plain_seg (Split slash (render true segs)).
Proof.
  intros Hs. change (render true segs) with ("" +:+ String slash (join "/" segs)).
  rewrite Split_app_gen. apply Forall_app. split; [by repeat constructor; left|].
  destruct segs as [|s segs]; [by repeat constructor; left|]. rewrite (Split_join slash) by
    (done || (eapply Forall_impl; [done|]; by intros x (_ & _ & _ & ?))).
  eapply Forall_impl; [done|]. by right.
Qed.

Lemma cleanPath_plain p : Forall plain_seg (Split slash (cleanPath p)).
Proof.
  unfold cleanPath. case_decide as Hp; [by repeat constructor; left|].
  set (q := if is_rooted p then p else String slash p).
  assert (is_rooted q = true) as Hq by (unfold q; by destruct (is_rooted p) eqn:E).
  assert (Forall plain_seg (Split slash (GoStd.Clean q))) as Hc.
  { unfold GoStd.Clean, clean_segs. rewrite Hq. apply Split_render, clean_loop_rooted; [constructor|apply Split_no_slash]. }
  cbv zeta. destruct (_ && _); [|done].
  change (GoStd.Clean q +:+ "/") with (GoStd.Clean q +:+ String slash ""). rewrite Split_app_gen.
  apply Forall_app. split; [done|]. by repeat constructor; left.
Qed.

Lemma HasPrefix_split s p : HasPrefix s p = true → ∃ x, s = p +:+ x.
Proof.
  unfold HasPrefix. revert s. induction p as [|a p IH]; intros s H; [by exists s|].
  destruct s as [|b s]; [done|]. cbn [String.prefix] in H. destruct (ascii_dec a b) as [->|]; [|done].
  apply IH in H as [x ->]. by exists x.
Qed.

Lemma TrimPrefix_app p x : TrimPrefix (p +:+ x) p = x.
Proof.
  unfold TrimPrefix, HasPrefix. rewrite prefix_app, str_length_app.
  replace (String.length p + String.length x - String.length p) with (String.length x) by lia.
  induction p as [|a p IH]; [|exact IH]. simpl. pose proof (substring_app x "") as H.
  by rewrite str_app_nil_r in H.
Qed.

Lemma route_inv up method path h p :
  method ≠ "CONNECT" → route up method path = Handle h p → h ≠ HMonitor →
  up h = true ∧ ∃ pre, (pre +:+ "/", h) ∈ patterns ∧ path = (pre +:+ "/") +:+ p ∧ Forall plain_seg (Split slash path).
Proof.
  intros Hmeth. unfold route. rewrite (decide_False (P := method = _)) by done. cbv zeta. intros H Hh.
  case_decide; [done|]. case_decide as Hc; [done|]. unfold matched, registered in H.
  destruct (head _) as [[pre h']|] eqn:Hhd; [|done].
  apply head_Some in Hhd as [l' Hl]. assert ((pre, h') ∈ (pre, h') :: l') as Hin by left. rewrite <-Hl in Hin.
  apply list_elem_of_filter in Hin as [Hpre Hin]. apply list_elem_of_filter in Hin as [Hup Hin]. simpl in *.
  apply HasPrefix_split in Hpre as [x Hx].
  assert (∃ pre', pre = pre' +:+ "/") as [pre' ->].
  { unfold patterns in Hin. rewrite !elem_of_cons in Hin.
    destruct Hin as [[= -> ->]|[[= -> ->]|[[= -> ->]|[[= -> ->]|Hin]]]]; [by exists "/browse"|by exists "/monitor"|
      by exists "/products"|by exists "/archives"|by apply not_elem_of_nil in Hin]. }
  assert (h' = h ∧ p = TrimPrefix path (pre' +:+ "/")) as [-> ->] by (destruct h'; by simplify_eq).
  split; [done|]. exists pre'. split; [done|]. rewrite Hx, TrimPrefix_app. split; [done|]. rewrite <-Hx, <-Hc. apply cleanPath_plain.
Qed.

(** The pages of the products. *)
Lemma str_rev_involutive p : str_rev (str_rev p) = p.
Proof. unfold str_rev. by rewrite bytes_of_string_of, rev_involutive, string_of_bytes_of. Qed.

Lemma HasSuffix_slash segs s :
  Forall simple_name segs → simple_name s → HasSuffix (render true (segs ++ [s])) "/" = false.
Proof.
  intros Hs Hn. apply not_true_is_false. unfold HasSuffix. intros [x Hx]%HasPrefix_split.
  apply (f_equal str_rev) in Hx. rewrite str_rev_involutive, str_rev_app in Hx. change (str_rev (str_rev "/")) with "/" in Hx.
  change (render true (segs ++ [s])) with ("" +:+ String slash (join "/" (segs ++ [s]))) in Hx.
  change (str_rev x +:+ "/") with (str_rev x +:+ String slash "") in Hx.
  apply (f_equal (Split slash)) in Hx. rewrite !Split_app_gen, (Split_join slash) in Hx.
  - rewrite app_assoc in Hx. apply app_inj_tail in Hx as [_ ->]. by destruct Hn.
  - by destruct segs.
  - apply Forall_app. split; [|by apply Forall_singleton, Hn]. eapply Forall_impl; [done|]. by intros y (_ & _ & _ & ?).
Qed.

Lemma cleanPath_render segs s :
  Forall simple_name segs → simple_name s → cleanPath (render true (segs ++ [s])) = render true (segs ++ [s]).
Proof.
  intros Hs Hn. unfold cleanPath. rewrite decide_False by done. cbv zeta.
  assert (is_rooted (render true (segs ++ [s])) = true) as -> by done. rewrite HasSuffix_slash by done. cbn [andb]. apply Clean_render. apply Forall_app. by rewrite Forall_singleton.
Qed.

(** As many dots as there are segments lead to the root. *)
Lemma clean_loop_up segs :
  Forall simple_name segs → clean_loop true (rev segs) (replicate (length segs) "..") = [].
Proof.
  induction segs as [|s segs IH] using rev_ind; [done|]. intros [Hs Hn]%Forall_app.
  rewrite rev_app_distr, length_app, Nat.add_comm. cbn [rev app length replicate Nat.add clean_loop].
  rewrite decide_False by naive_solver. rewrite (decide_True (P := ".." = "..")) by done.
  rewrite Forall_singleton in Hn. rewrite decide_False by apply Hn. by apply IH.
Qed.

Lemma registered_plain up x : x +:+ "/" ∈ (registered up).*1 → ∃ h, (x +:+ "/", h) ∈ patterns.
Proof. intros ([q h] & -> & [_ Hin]%list_elem_of_filter)%list_elem_of_fmap. by exists h. Qed.

Lemma matched_products up x :
  up HProducts = true → matched (registered up) ("/products/" +:+ x) = Handle HProducts x.
Proof.
  intros Hup. unfold matched.
  assert (filter (λ y, HasPrefix ("/products/" +:+ x) y.1 = true) (registered up) = [("/products/", HProducts)]) as ->.
  { unfold registered, patterns. rewrite !filter_cons, filter_nil. cbn [snd]. rewrite Hup, (decide_True (P := true = true)) by done.
    repeat case_decide; rewrite !filter_cons, ?filter_nil; cbn [fst]; repeat (rewrite decide_False by done);
      rewrite decide_True by (by destruct x); repeat (rewrite decide_False by done); done. }
  cbn [head]. by rewrite TrimPrefix_app.
Qed.

(** A page of the products is no prefix of another handler. *)
Lemma products_not_registered up x : x ≠ "" → ("/products/" +:+ x) +:+ "/" ∉ (registered up).*1.
Proof.
  intros Hx (h & Hin)%registered_plain. rewrite <-str_app_assoc in Hin. unfold patterns in Hin. rewrite !elem_of_cons in Hin.
  destruct x as [|a x]; [done|].
  destruct Hin as [Hin|[Hin|[Hin|[Hin|Hin]]]]; [by injection Hin..|by apply not_elem_of_nil in Hin].
Qed.

Lemma route_products up method more :
  method ≠ "CONNECT" → Forall simple_name more → more ≠ [] → up HProducts = true →
  route up method (render true ("products" :: more)) = Handle HProducts (join "/" more).
Proof.
  intros Hmeth Hm Hne Hup. unfold route. rewrite (decide_False (P := method = _)) by done. cbv zeta.
  assert (cleanPath (render true ("products" :: more)) = render true ("products" :: more)) as ->.
  { destruct more as [|s more _] using rev_ind; [done|]. rewrite app_comm_cons.
    apply Forall_app in Hm as [Hm Hs]. apply cleanPath_render; [|by rewrite Forall_singleton in Hs].
    constructor; [by compute_decide|done]. }
  assert (join "/" more ≠ "") as Hj.
  { destruct Hm as [|s more [Hs _] _]; [done|]. destruct s; [done|]. by destruct more. }
  assert (render true ("products" :: more) = "/products/" +:+ join "/" more) as -> by (by destruct more).
  rewrite decide_False by by apply products_not_registered.
  rewrite (decide_False (P := _ ≠ _)) by naive_solver. by apply matched_products.
Qed.

(** C8: no request leaves the archive, CONNECT requests aside: what the
    multiplexer hands to a handler of files, joined to the directory of the
    archive, is a path below it, whatever the request asked for; and every path
    of names below the archive can be asked for.  A CONNECT request leaves it:
    its path is not cleaned and no handler looks at the method, so that a page
    of the products can be any path of names of the whole file system. *)
Theorem requests_confined up raw segs method :
  path_is true raw segs →
  (method ≠ "CONNECT" →
     (∀ path h p, route up method path = Handle h p → h ≠ HMonitor →
        ∃ more, Forall simple_name more ∧ path_is true (Join [raw; p]) (segs ++ more)) ∧
     (∀ more, Forall simple_name more → more ≠ [] → up HProducts = true →
        ∃ p, route up method (render true ("products" :: more)) = Handle HProducts p ∧ path_is true (Join [raw; p]) (segs ++ more))) ∧
  (method = "CONNECT" →
     ∀ more, Forall simple_name more → more ≠ [] → up HProducts = true →
       ∃ path p, route up method path = Handle HProducts p ∧ path_is true (Join [raw; p]) more).
Proof.
  intros [Hsegs ->].
  assert (∀ more, Forall simple_name more → Forall (λ s, str_mem slash s = false) more) as Hns.
  { intros more Hm. eapply Forall_impl; [done|]. by intros x (_ & _ & _ & ?). }
  split; [intros Hmeth; split|intros ->].
  - intros path h p Hr Hh. apply route_inv in Hr as (_ & pre & _ & -> & Hplain); [|done..].
    rewrite <-str_app_assoc in Hplain. change ("/" +:+ p) with (String slash p) in Hplain. rewrite Split_app_gen in Hplain.
    apply Forall_app in Hplain as [_ Hp]. exists (filter (λ s, s ≠ "") (Split slash p)).
    split; [by apply filter_plain|]. split; [apply Forall_app; split; [done|by apply filter_plain]|].
    rewrite Join_render, clean_loop_plain, rev_involutive by done. done.
  - intros more Hm Hne Hup. exists (join "/" more).
    assert (Join [render true segs; join "/" more] = render true (segs ++ more)) as ->.
    { rewrite Join_render, (Split_join slash), clean_loop_simple, rev_involutive by (done || by apply Hns). done. }
    split; [|split; [by apply Forall_app|done]]. by apply route_products.
  - intros more Hm Hne Hup. set (x := join "/" (replicate (length segs) ".." ++ more)).
    assert (replicate (length segs) ".." ++ more ≠ []) as Hne'. { by intros [_ ?]%app_eq_nil. }
    exists ("/products/" +:+ x), x. split.
    + unfold route. rewrite decide_True by done. cbv zeta. rewrite decide_False; [by apply matched_products|].
      apply products_not_registered. unfold x. destruct Hm as [|s more [Hs _] _]; [done|].
      destruct (length segs) as [|[|k]]; [|done..]. destruct s; [done|]. by destruct more.
    + assert (Join [render true segs; x] = render true more) as ->; [|done].
      rewrite Join_render by done. unfold x. rewrite (Split_join slash); [|done|].
      2: { apply Forall_app. split; [by apply Forall_replicate|by apply Hns]. }
      f_equal. rewrite clean_loop_app, clean_loop_up by done. by rewrite clean_loop_simple.
Qed.

(** ** Theorems: mounting *)

Lemma monitor_groups_spec listen_group gs :
  is_Ok (monitor_groups listen_group gs) = true ↔ Forall (λ g, listen_group g = None) gs.
Proof.
  induction gs as [|g gs IH]; [by split|]. cbn [monitor_groups]. rewrite Forall_cons.
  destruct (listen_group g); [naive_solver|]. rewrite IH. naive_solver.
Qed.

Lemma Stat_spec denied p s :
  denied p = None ∧ p ∈ fs_dirs s ∧ Stat denied p s = (Ok IsDir, s) ∨
  (p ∉ fs_dirs s ∨ is_Some (denied p)) ∧ ∃ m, Stat denied p s = (m, s) ∧
    match m with Ok IsDir | Panic _ => False | _ => True end.
Proof.
  unfold Stat, guarded. destruct (denied p) as [e|] eqn:Ed; [right; split; [right; by eexists|by eexists]|].
  destruct (decide (p ∈ fs_dirs s)) as [Hd|Hd]; [by left|right]. split; [by left|].
  destruct (resolve max_links s p); by eexists.
Qed.

(** Fact: the archive is served, with all its handlers of files, exactly when
    it is a directory the system shows, whatever the groups of the monitor;
    the monitor is served when every one of them can be joined. *)
Theorem mount_serves denied listen_group raw groups s :
  match mount denied listen_group raw groups s with
  | (Ok up, s') => s' = s ∧ denied raw = None ∧ raw ∈ fs_dirs s ∧
      up HBrowse = true ∧ up HProducts = true ∧ up HArchives = true ∧
      (up HMonitor = true ↔ Forall (λ g, listen_group g = None) groups)
  | (Err _, s') => s' = s ∧ (raw ∉ fs_dirs s ∨ is_Some (denied raw))
  | (Panic _, _) => False
  end.
Proof.
  destruct (Stat_spec denied raw s) as [(Ed & Hd & Hs)|(Hno & m & Hs & Hm)].
  - assert (archive_dir denied raw s = (Ok raw, s)) as Ha.
    { unfold archive_dir, mbind, io_bind. rewrite Hs. by rewrite decide_True. }
    assert (mount denied listen_group raw groups s = (Ok (λ h, match h with
      | HMonitor => is_Ok (monitor_groups listen_group groups) | _ => true end), s)) as ->.
    { unfold mount, mbind, io_bind, try_io. rewrite Hs, decide_True by done. by rewrite !Ha. }
    split_and!; try done. apply monitor_groups_spec.
  - unfold mount, mbind, io_bind. rewrite Hs. destruct m as [[]|e|w]; [by destruct Hm|by cbn; split|by cbn; split|done].
Qed.

(** ** Theorems: the answers *)

Lemma isAcceptable_one a t : isAcceptable a [t] = Contains a t.
Proof.
  unfold isAcceptable, accept. rewrite decide_False by done. rewrite filter_cons, filter_nil.
  case_decide as H; cbn [head]; [by rewrite H|by destruct (Contains a t)].
Qed.

(** Fact: a client that asks for CSV gets a line for every file and directory of
    the listing but the metadata, in the order of the directory: its name, the
    time of its last change and its size. *)
Theorem browser_lists Json Xml render_error infos a :
  Forall listable infos →
  Contains a "application/json" = false → Contains a "application/xml" = false → Contains a "text/csv" = true →
  browser_ServeHTTP Json Xml render_error (Ok infos) a =
  Ok (mkReply StatusOK (concat ((λ i, csv_line [Base (de_Name i); Format_RFC3339 (de_ModTime i); Sprint (de_Size i)]) <$>
    filter (λ i, Ext (de_Name i) ≠ ".xml") infos))).
Proof.
  intros Hl Hj Hx Hc. unfold browser_ServeHTTP. destruct (readDir_ok infos Hl) as (q & -> & Hq).
  cbn [mbind result_bind]. rewrite !isAcceptable_one, Hj, Hx, Hc. unfold csv_rows_of. do 3 f_equal.
  induction Hq as [|i x l q (Hn & Hm & Hs & _) _ IH]; [done|]. by rewrite !fmap_cons, Hn, Hm, Hs, IH.
Qed.

(** *** The messages *)

Lemma shown_ring {panda : PandaLib} n w (r : Time * list (nat * Monitor.message)) :
  shows n w r → omap id (po_ms w) = omap (newest n r.2) (seq 0 n).
Proof.
  intros [_ ->]. generalize (seq 0 n). intros l. induction l as [|j l IH]; [done|]. cbn.
  destruct (newest n r.2 j); cbn; [f_equal|]; apply IH.
Qed.

Lemma monitor_data_has sort m k w :
  Monitor.mo_messages m !! k = Some w → omap id (po_ms w) ≠ [] →
  (monkey_String k, sort (omap id (po_ms w))) ∈ monitor_data sort m.
Proof.
  intros Hw Hne. unfold monitor_data. apply list_elem_of_fmap. exists (monkey_String k, omap id (po_ms w)).
  split; [done|]. apply list_elem_of_filter. split; [done|].
  unfold served. apply list_elem_of_fmap. exists (k, w). split; [done|]. by apply elem_of_map_to_list.
Qed.

Lemma monitor_data_inv sort m s l :
  (s, l) ∈ monitor_data sort m →
  ∃ k w, s = monkey_String k ∧ l = sort (omap id (po_ms w)) ∧ Monitor.mo_messages m !! k = Some w.
Proof.
  intros ([s' l'] & [= -> ->] & [_ Hin]%list_elem_of_filter)%list_elem_of_fmap.
  apply list_elem_of_fmap in Hin as ([k w] & [= -> ->] & Hin). exists k, w. split_and!; [done..|]. by apply elem_of_map_to_list.
Qed.

(** C21: a monitor of any number of groups, whatever the interleaving of their
    goroutines and of the cleaning: a client that asks for JSON gets, for every
    origin, mode and instance that has a ring, the newest message at each place
    of the ring, among those put there since the ring was last removed, and
    nothing else; the place is the number of the message in its own group,
    modulo the size of the rings.  Without a ring there is no content, and XML
    is never answered.  All datagrams are messages that fit the buffer of a
    reader. *)
Theorem monitor_answers {panda : PandaLib} n groups hs e render_error sort JsonMap a :
  Forall (λ h, match h with
    | Announces j _ _ g => j < groups ∧ message_fits g ∧ length (encodeMessage g) ≤ Monitor.buffer_size
    | Sweeps _ => True
    end) hs →
  (∀ l, sort l ≡ₚ l) → (∀ d, is_Ok (JsonMap d) = true) →
  let m := mg_state (monitor_run n (joined groups hs e) (event_of <$> hs)) in
  let visible (r : Time * list (nat * Monitor.message)) := omap (newest n r.2) (seq 0 n) in
  ((∀ k, ring_after k (history hs) = None) →
     monitor_ServeHTTP render_error sort JsonMap m a = Ok (mkReply StatusNoContent [])) ∧
  ∀ k r, ring_after k (history hs) = Some r →
    (Contains a "application/json" = true →
       ∃ d body, JsonMap d = Ok body ∧ monitor_ServeHTTP render_error sort JsonMap m a = Ok (mkReply StatusOK body) ∧
         (visible r ≠ [] → ∃ l, (monkey_String k, l) ∈ d ∧ l ≡ₚ visible r) ∧
         ∀ s l, (s, l) ∈ d → ∃ k' r', ring_after k' (history hs) = Some r' ∧ s = monkey_String k' ∧ l ≡ₚ visible r') ∧
    (Contains a "application/json" = false → Contains a "application/xml" = true →
       monitor_ServeHTTP render_error sort JsonMap m a = Ok (mkReply StatusInternalServerError (render_error ErrUnsupportedType))).
Proof.
  intros Hhs Hsort Hjson. cbv zeta. pose proof (joined_rings n groups hs e Hhs) as Hrings. unfold rings_are in Hrings. cbn beta in Hrings.
  set (m := mg_state _) in *. split.
  - intros Hnone. assert (Monitor.mo_messages m = ∅) as Hm.
    { apply map_empty. intros k. specialize (Hrings k). rewrite Hnone in Hrings. by destruct (Monitor.mo_messages m !! k). }
    unfold monitor_ServeHTTP. by rewrite decide_True.
  - intros k r Hr. assert (Monitor.mo_messages m ≠ ∅) as Hm.
    { intros E. specialize (Hrings k). by rewrite E, lookup_empty, Hr in Hrings. }
    unfold monitor_ServeHTTP. rewrite decide_False by done. rewrite !isAcceptable_one. split; [|by intros -> ->].
    intros ->. specialize (Hjson (monitor_data sort m)). destruct (JsonMap _) as [body| |] eqn:E; [|done..].
    exists (monitor_data sort m), body. split_and!; [done..| |].
    + intros Hv. specialize (Hrings k). rewrite Hr in Hrings. destruct (Monitor.mo_messages m !! k) as [w|] eqn:Hw; [|done].
      exists (sort (omap id (po_ms w))). rewrite (shown_ring _ _ _ Hrings). split; [|by rewrite Hsort].
      rewrite <-(shown_ring _ _ _ Hrings). by apply monitor_data_has; [|rewrite (shown_ring _ _ _ Hrings)].
    + intros s l (k' & w & -> & -> & Hw)%monitor_data_inv. specialize (Hrings k'). rewrite Hw in Hrings.
      destruct (ring_after k' (history hs)) as [r'|] eqn:Hr'; [|done]. exists k', r'.
      split_and!; [done..|]. by rewrite Hsort, (shown_ring _ _ _ Hrings).
Qed.

(** ** Examples *)

Lemma requests_confined_witness :
  route (λ _, true) "GET" "/products/../secret" = Redirect "/secret" ∧
  (∃ p, route (λ _, true) "GET" "/products/OPS/a.dat" = Handle HProducts p ∧ path_is true (Join ["/data"; p]) ["data"; "OPS"; "a.dat"]) ∧
  route (λ _, true) "CONNECT" "/products/../etc/passwd" = Handle HProducts "../etc/passwd" ∧
  ∃ path p, route (λ _, true) "CONNECT" path = Handle HProducts p ∧ path_is true (Join ["/data"; p]) ["etc"; "passwd"].
Proof.
  split; [by vm_compute|].
  assert (path_is true "/data" ["data"]) as Hd by by split; [compute_decide|].
  destruct (requests_confined (λ _, true) "/data" ["data"] "GET" Hd) as [H _].
  destruct (requests_confined (λ _, true) "/data" ["data"] "CONNECT" Hd) as [_ H']. split; [|split; [by vm_compute|]].
  - assert ("GET" ≠ "CONNECT") as Hm by done. destruct (H Hm) as [_ H1].
    apply (H1 ["OPS"; "a.dat"]); [by compute_decide|done|done].
  - apply (H' eq_refl ["etc"; "passwd"]); [by compute_decide|done|done].
Defined.

Lemma browser_lists_witness :
  browser_ServeHTTP (λ _, Ok []) (λ _, Ok []) (λ _, []) (Ok [sample_entry "51" true; sample_entry "51_7_20200101_000000.mma" false]) "text/csv" =
  Ok (mkReply 200 (bytes_of "51,0001-01-01T00:00:00Z,10" ++ [x0a] ++ bytes_of "51_7_20200101_000000.mma,0001-01-01T00:00:00Z,10" ++ [x0a])).
Proof. rewrite browser_lists by first [by compute_decide|by vm_compute]. by vm_compute. Defined.

(** Two groups announce the same origin; the second message takes the place of
    the first, although the ring has room for both. *)
Definition sample_happenings : list happening :=
  [Announces 0 zero_time "a" sample_message; Announces 1 zero_time "b" sample_message; Sweeps zero_time].

Lemma monitor_answers_witness :
  let m := mg_state (monitor_run 2 (joined 2 sample_happenings EOF) (event_of <$> sample_happenings)) in
  ∃ (d : list (string * list Monitor.message)) body, monitor_ServeHTTP (λ _, []) id (λ _, Ok []) m "application/json" = Ok (mkReply StatusOK body) ∧
    ∃ l, (monkey_String (monkey_of (adjust sample_message)), l) ∈ d ∧ l = [mkStored "b" 2 (adjust sample_message)].
Proof.
  destruct (monitor_answers 2 2 sample_happenings EOF (λ _, []) id (λ _, Ok []) "application/json") as (_ & H);
    [|done..|].
  { do 2 (apply Forall_cons; split; [split_and!; [lia|by compute_decide|by compute_decide]|]). by repeat constructor. }
  destruct (H (monkey_of (adjust sample_message))
    (zero_time, [(0, mkStored "a" 1 (adjust sample_message)); (0, mkStored "b" 2 (adjust sample_message))])) as [Hj _]; [by vm_compute|].
  destruct Hj as (d & body & _ & Ha & Hd & _); [by vm_compute|]. exists d, body. split; [exact Ha|].
  destruct Hd as (l & Hin & Hl); [by vm_compute|]. exists l. split; [done|].
  by apply Permutation_singleton_r in Hl.
Defined.
