(* ===== verification/Roll.v ===== *)
(** * Roll: the files that rolling archives open (nextFunc of
      src/storage/archives.go, hrdpstore.Open of src/storage/hrdp.go)

    The roller calls these when an archive is closed and the next one begins.
    Both name the file after the second it is opened in; one makes the file
    anew, the other one appends to it. *)

From S2P Require Import Prelude Bytes GoStd Text Panda Fs Storage.
From Stdlib Require Import ZArith Lia Ascii.

(** [w.Format("150405")] *)
Definition clock (w : Time) : string := digits2 (HourOf w) +:+ digits2 (MinuteOf w) +:+ digits2 (SecondOf w).

Definition tar_name (w : Time) : string := "hdk_" +:+ clock w +:+ ".tar".


Definition tar_file (base : string) (w : Time) : string := Join [hrdp_datadir base w; tar_name w].
Definition dat_file (base : string) (w : Time) : string := hrdp_file base w (clock w).

Section roll.
Context (denied : string → option error).

(** [os.Create] of the tar archive. *)
Definition nextFunc (base : string) (w : Time) : io string :=
  let datadir := hrdp_datadir base w in
  MkdirAll denied datadir;;
  WriteFile denied (tar_file base w) [];;
  mret (tar_file base w).

(** [os.OpenFile] with [O_APPEND|O_CREATE]: a file that is there keeps its
    bytes. *)
Definition OpenAppend (p : string) : io () := λ s,
  WriteFile denied p (default [] (read_file s p)) s.

Definition hrdpstore_Open (base : string) (w : Time) : io string :=
  let datadir := hrdp_datadir base w in
  MkdirAll denied datadir;;
  OpenAppend (dat_file base w);;
  mret (dat_file base w).
End roll.

(** ** Names *)

Lemma str_app_inj_length a b c d : String.length a = String.length b → a +:+ c = b +:+ d → a = b ∧ c = d.
Proof.
  revert b. induction a as [|x a IH]; intros [|y b] Hl E; try done. simpl in *. injection E as -> E.
  destruct (IH b) as [-> ->]; [lia|done|done].
Qed.

Lemma digits2_length z : (0 ≤ z < 60)%Z → String.length (digits2 z) = 2.
Proof.
  intros Hz. assert (Forall (λ k, String.length (digits2 (Z.of_nat k)) = 2) (seq 0 60)) as H by compute_decide.
  rewrite Forall_forall in H. specialize (H (Z.to_nat z)). rewrite Z2Nat.id in H by lia. apply H, elem_of_seq. lia.
Qed.

Lemma SecondOf_bounds w : (0 ≤ SecondOf w < 60)%Z.
Proof. apply Z.mod_pos_bound. lia. Qed.

Lemma clock_length w : String.length (clock w) = 6.
Proof.
  unfold clock. rewrite !str_length_app, !digits2_length; [done|apply SecondOf_bounds|apply MinuteOf_bounds|].
  pose proof (HourOf_bounds w). lia.
Qed.

Definition same_clock (t u : Time) : Prop := HourOf t = HourOf u ∧ MinuteOf t = MinuteOf u ∧ SecondOf t = SecondOf u.

Lemma clock_inj t u : clock t = clock u → same_clock t u.
Proof.
  unfold clock. pose proof (HourOf_bounds t). pose proof (HourOf_bounds u).
  intros E. apply str_app_inj_length in E as [E1 E]; [|rewrite !digits2_length by lia; done].
  apply str_app_inj_length in E as [E2 E3]; [|rewrite !digits2_length by apply MinuteOf_bounds; done].
  by split_and!; apply (sprintf0_inj 2).
Qed.

(** Opened in the same second of the same day. *)
Definition same_second (t u : Time) : Prop := Year t = Year u ∧ YearDay t = YearDay u ∧ same_clock t u.

#[global] Instance same_second_dec t u : Decision (same_second t u).
Proof. unfold same_second, same_clock. apply _. Defined.

(** ** Directories *)

Definition roll_segs (w : Time) : list string := [sprintf0 4 (Year w); sprintf0 3 (YearDay w); sprintf0 2 (HourOf w)].

Lemma roll_segs_simple w : Forall simple_name (roll_segs w).
Proof. repeat constructor; apply sprintf0_simple. Qed.

Lemma hrdp_datadir_is r base segs w :
  path_is r base segs → path_is r (hrdp_datadir base w) (segs ++ roll_segs w).
Proof.
  intros [Hs ->]. pose proof (roll_segs_simple w) as Hr.
  split; [by apply Forall_app|]. unfold hrdp_datadir.
  change (Join _) with (Join (render r segs :: roll_segs w)).
  transitivity (Join [render r segs; join "/" (roll_segs w)]).
  { destruct (render_nonempty r segs Hs) as (a & y & E). cbn [Join]. by rewrite E. }
  assert (Forall (λ x, str_mem slash x = false) (roll_segs w)) as Hn
    by (eapply Forall_impl; [exact Hr|by intros x (_ & _ & _ & ?)]).
  rewrite Join_render, (Split_join slash) by done.
  by rewrite clean_loop_simple, rev_involutive.
Qed.

Lemma rolled_name w (ext : string) :
  3 ≤ String.length ext → str_mem slash ext = false → simple_name ("hdk_" +:+ clock w +:+ ext).
Proof.
  intros Hl Hx. rewrite str_app_assoc. apply suffixed_name; [|done..].
  apply all_name_simple; [done|]. rewrite all_string_app. unfold clock. rewrite !all_string_app.
  pose proof (HourOf_bounds w). pose proof (MinuteOf_bounds w). pose proof (SecondOf_bounds w).
  unfold digits2. rewrite (digits_name (sprintf0 2 (HourOf w))), (digits_name (sprintf0 2 (MinuteOf w))),
    (digits_name (sprintf0 2 (SecondOf w))) by (apply sprintf0_nonneg_digits; lia). done.
Qed.

(** Two archives have one name when they are opened in the same second. *)
Lemma tar_file_inj r base segs t u :
  path_is r base segs → tar_file base t = tar_file base u ↔ same_second t u.
Proof.
  intros Hb. assert (∀ w, path_is r (tar_file base w) ((segs ++ roll_segs w) ++ [tar_name w])) as Hp.
  { intros w. apply path_is_join; [by apply hrdp_datadir_is|by apply (rolled_name w ".tar"); simpl; [lia|]]. }
  split.
  - intros E. pose proof (Hp t) as Ht. rewrite E in Ht. pose proof (path_is_inj _ _ _ _ Ht (Hp u)) as Es.
    apply app_inj_tail in Es as [Es En]. apply app_inv_head in Es. unfold roll_segs in Es. injection Es as Ey Ed _.
    apply sprintf0_inj in Ey, Ed. split_and!; [done..|]. apply clock_inj. unfold tar_name in En.
    apply str_app_inj_length in En as [_ En]; [|done].
    apply str_app_inj_length in En as [En _]; [done|by rewrite !clock_length].
  - intros (Ey & Ed & Eh & Em & Es). unfold tar_file, tar_name, hrdp_datadir, clock. by rewrite Ey, Ed, Eh, Em, Es.
Qed.

(** ** Opening *)

Section opening.
Context (denied : string → option error).

Lemma MkdirAll_keeps d s s' :
  MkdirAll denied d s = (Ok (), s') →
  fs_entries s' = fs_entries s ∧ fs_inodes s' = fs_inodes s ∧ fs_next s' = fs_next s.
Proof. unfold MkdirAll, guarded. destruct (denied d); [done|]. case_decide; naive_solver. Qed.

Lemma WriteFile_Ok p bs s s' :
  (∀ x, fs_entries s !! p ≠ Some (Symbolic x)) → WriteFile denied p bs s = (Ok (), s') → s' = write_to p bs s.
Proof.
  intros Hsym. unfold WriteFile, guarded, write_to. destruct (denied p); [done|].
  destruct (fs_entries s !! p) as [[i|x]|] eqn:E; [|by destruct (Hsym x)|].
  - unfold resolve, max_links. rewrite E. naive_solver.
  - case_decide; naive_solver.
Qed.

(** A directory made and a file opened below it, [old] the bytes it starts
    with. *)
Lemma opened d p old (m : io ()) s q s' :
  (∀ x, m x = WriteFile denied p (old x) x) →
  (∀ x, fs_entries s !! p ≠ Some (Symbolic x)) → fs_wf s →
  (MkdirAll denied d ≫= λ _, m ≫= λ _, mret p) s = (Ok q, s') →
  q = p ∧ ∃ s0, fs_entries s0 = fs_entries s ∧ fs_inodes s0 = fs_inodes s ∧ fs_wf s0 ∧ s' = write_to p (old s0) s0.
Proof.
  intros Hm Hsym Hs H. apply io_bind_inv in H as ([] & s0 & Hd & H). apply io_bind_inv in H as ([] & s1 & Hw & H).
  injection H as <- <-. pose proof (MkdirAll_wf denied d s Hs) as Hwf. rewrite Hd in Hwf.
  apply MkdirAll_keeps in Hd as (He & Hi & _). rewrite Hm in Hw.
  split; [done|]. exists s0. split_and!; [done..|]. apply WriteFile_Ok; [by rewrite He|done].
Qed.

(** The content of a file is a matter of the entries and the inodes. *)
Lemma content_ext s s' p :
  fs_entries s = fs_entries s' → fs_inodes s = fs_inodes s' → content s p = content s' p.
Proof. unfold content. by intros -> ->. Qed.

Lemma write_to_self p bs s : ∃ i, fs_entries (write_to p bs s) !! p = Some (Regular i).
Proof.
  unfold write_to. destruct (fs_entries s !! p) as [[i|t]|] eqn:E; cbn [fs_entries]; rewrite ?lookup_insert_eq; eauto.
Qed.

(** What a file holds once another one, or the same one again, is opened. *)
Lemma reopened d p q old (m : io ()) bs s1 s2 q' s3 :
  (∀ x, m x = WriteFile denied q (old x) x) →
  s2 = write_to p bs s1 → fs_wf s2 → (p ≠ q → fs_entries s1 !! q = None) →
  (MkdirAll denied d ≫= λ _, m ≫= λ _, mret q) s2 = (Ok q', s3) →
  q' = q ∧ (p ≠ q → content s3 p = Some bs) ∧
  (p = q → ∃ s0, fs_entries s0 = fs_entries s2 ∧ fs_inodes s0 = fs_inodes s2 ∧ content s3 p = Some (old s0)).
Proof.
  intros Hm -> Hwf Hq H. destruct (write_to_self p bs s1) as [i Hi].
  assert (∀ x, fs_entries (write_to p bs s1) !! q ≠ Some (Symbolic x)) as Hsym.
  { intros x. destruct (decide (p = q)) as [<-|Hne]; [by rewrite Hi|].
    rewrite write_to_entries by done. by rewrite (Hq Hne). }
  destruct (opened d q old m _ _ _ Hm Hsym Hwf H) as (-> & s0 & He & Hin & Hwf0 & ->).
  split_and!; [done|intros Hne|intros <-].
  - rewrite write_to_other; [|done|congruence|].
    + rewrite (content_ext s0 _ p He Hin). apply write_to_content.
    + intros j Hj. rewrite He, write_to_entries, (Hq Hne) in Hj by done. done.
  - exists s0. split_and!; [done..|]. apply write_to_content.
Qed.
End opening.

Section archives.
Context (denied : string → option error).

Lemma write_to_wf_regular p bs s i : fs_wf s → fs_entries s !! p = Some (Regular i) → fs_wf (write_to p bs s).
Proof.
  intros Hs Hp. pose proof (WriteFile_wf healthy p bs s Hs) as H.
  unfold WriteFile, guarded, healthy, resolve, max_links in H. rewrite Hp in H.
  unfold write_to. by rewrite Hp.
Qed.

Lemma nextFunc_wf base w : preserves fs_wf (nextFunc denied base w).
Proof. unfold nextFunc. auto with fs. Qed.

Lemma hrdpstore_Open_wf base w : preserves fs_wf (hrdpstore_Open denied base w).
Proof.
  unfold hrdpstore_Open. apply preserves_bind; [auto with fs|]. intros _. apply preserves_bind; [|auto with fs].
  intros s. apply WriteFile_wf.
Qed.

(** After a file is opened anew, writing it keeps the file system well formed
    and touches no other entry. *)
Lemma first_written p old s0 bs s1 (q : string) :
  s1 = write_to p old s0 → fs_wf s1 →
  fs_wf (write_to p bs s1) ∧ (p ≠ q → fs_entries s1 !! q = fs_entries s0 !! q).
Proof.
  intros -> Hwf. destruct (write_to_self p old s0) as [i Hreg].
  split; [by eapply write_to_wf_regular|]. intros. by apply write_to_entries.
Qed.

(** C32: (functional) the next tar archive of a store is created whatever is at
    its name: the bytes [bs] written to the archive [p] opened at [t] are lost
    exactly when the archive opened at [u] is opened in the same second of the
    same day; otherwise they are kept. *)
Theorem nextFunc_truncates r base segs t u bs s p q s1 s3 :
  path_is r base segs → fs_wf s →
  fs_entries s !! tar_file base t = None → fs_entries s !! tar_file base u = None →
  nextFunc denied base t s = (Ok p, s1) →
  nextFunc denied base u (write_to p bs s1) = (Ok q, s3) →
  p = tar_file base t ∧ q = tar_file base u ∧
  content s3 p = Some (if decide (same_second t u) then [] else bs).
Proof.
  intros Hb Hs Ht Hu H1 H3.
  pose proof (nextFunc_wf base t s Hs) as Hwf1. rewrite H1 in Hwf1. cbn [snd] in Hwf1.
  destruct (opened denied _ (tar_file base t) (λ _, []) _ s p s1 (λ x, eq_refl) ltac:(by rewrite Ht) Hs H1)
    as (-> & s0 & He & Hi & Hwf0 & E1).
  destruct (first_written _ _ _ bs _ (tar_file base u) E1 Hwf1) as [Hwf2 Hq].
  destruct (reopened denied _ _ (tar_file base u) (λ _, []) _ bs s1 _ q s3 (λ x, eq_refl) eq_refl Hwf2
    ltac:(intros Hne; by rewrite (Hq Hne), He) H3) as (-> & Hne & Heq).
  split_and!; [done..|]. pose proof (tar_file_inj r base segs t u Hb) as Hinj. case_decide as Hsame.
  - apply Hinj in Hsame. by destruct (Heq Hsame) as (_ & _ & _ & ?).
  - apply Hne. by rewrite Hinj.
Qed.

End archives.

Definition roll_t : Time := mkTime 1582934400 0 0.
Definition roll_u : Time := mkTime 1582934400 7 0.
Definition roll_v : Time := mkTime 1582934401 0 0.

(** Two files are opened one after the other, the first one written between. *)
Definition rolled (open : Time → io string) (t u : Time) (bs : list byte) : result string * option (list byte) :=
  let '(p, s1) := open t empty_fs in
  match p with
  | Ok p => let '(q, s3) := open u (write_to p bs s1) in (q, content s3 p)
  | _ => (p, None)
  end.

(** The archive opened a few nanoseconds later takes the place of the first
    one; the one opened in the next second does not. *)
Example rolled_tar :
  rolled (nextFunc healthy "/data/DATA-255") roll_t roll_u (bytes_of "tar") =
    (Ok "/data/DATA-255/2020/060/00/hdk_000000.tar", Some []) ∧
  rolled (nextFunc healthy "/data/DATA-255") roll_t roll_v (bytes_of "tar") =
    (Ok "/data/DATA-255/2020/060/00/hdk_000001.tar", Some (bytes_of "tar")).
Proof. by split; vm_compute. Qed.

(** Fact: the archive [p] opened twice in a second. *)
Lemma nextFunc_truncates_witness : ∃ p s1 q s3,
  nextFunc healthy "/data" roll_t empty_fs = (Ok p, s1) ∧
  nextFunc healthy "/data" roll_u (write_to p (bytes_of "tar") s1) = (Ok q, s3) ∧
  content s3 p = Some [].
Proof.
  eexists _, _, _, _. split; [vm_compute; reflexivity|]. split; [vm_compute; reflexivity|].
  eapply (nextFunc_truncates healthy true "/data" ["data"] roll_t roll_u (bytes_of "tar") empty_fs).
  - split; [by constructor; [compute_decide|]|reflexivity].
  - apply empty_fs_wf.
  - reflexivity.
  - reflexivity.
  - vm_compute; reflexivity.
  - vm_compute; reflexivity.
Defined.

(** The archives of an HRDP store are opened to append: what [bs] was written
    to one is kept whatever is opened next, in the same second too. *)
Theorem hrdpstore_Open_keeps denied base t u bs s p q s1 s3 :
  fs_wf s →
  fs_entries s !! dat_file base t = None → fs_entries s !! dat_file base u = None →
  hrdpstore_Open denied base t s = (Ok p, s1) →
  hrdpstore_Open denied base u (write_to p bs s1) = (Ok q, s3) →
  content s3 p = Some bs.
Proof.
  intros Hs Ht Hu H1 H3.
  pose proof (hrdpstore_Open_wf denied base t s Hs) as Hwf1. rewrite H1 in Hwf1. cbn [snd] in Hwf1.
  destruct (opened denied _ (dat_file base t) (λ x, default [] (read_file x (dat_file base t))) _ s p s1
    (λ x, eq_refl) ltac:(by rewrite Ht) Hs H1) as (-> & s0 & He & Hi & Hwf0 & E1).
  destruct (first_written _ _ _ bs _ (dat_file base u) E1 Hwf1) as [Hwf2 Hq].
  destruct (reopened denied _ _ (dat_file base u) (λ x, default [] (read_file x (dat_file base u))) _ bs s1 _ q s3
    (λ x, eq_refl) eq_refl Hwf2 ltac:(intros Hne; by rewrite (Hq Hne), He) H3) as (_ & Hne & Heq).
  destruct (decide (dat_file base t = dat_file base u)) as [E|]; [|by apply Hne].
  destruct (Heq E) as (s4 & He4 & Hi4 & ->). rewrite <-E.
  rewrite (read_file_content s4 _ bs); [done|]. rewrite (content_ext s4 _ _ He4 Hi4). apply write_to_content.
Qed.

Example rolled_dat :
  rolled (hrdpstore_Open healthy "/data") roll_t roll_u (bytes_of "hrdp") =
    (Ok "/data/2020/060/00/hdk_000000.dat", Some (bytes_of "hrdp")).
Proof. by vm_compute. Qed.
