(* ===== verification/Gateway.v ===== *)
(** * Gateway: messages of several groups on one queue
      ([channel.Run] of src/cmd/hdk2udp/main.go, [readMessages] of
      src/cmd/hadock/misc.go)

    Both programs start one goroutine per multicast group and read them all
    through one queue.  This is what [ListenPackets] does with its
    connections, and the step relation of Server.v is theirs too: a group that
    is subscribed to is a connection that is accepted, and the datagrams its
    goroutine reads are what the connection yields. *)

From S2P Require Import Prelude Bytes SortSearch GoStd Panda Proto Notifier Vmu Storage Hdk2udp Server.
From Stdlib Require Import ZArith Lia.

(** ** hdk2udp: channel.Run

    [subscribe] is called for the groups in turn; when it fails for one of
    them, [Run] returns and its deferred call closes the queue, the goroutines
    of the groups before it still at work: [AcceptFails]. *)
Section channel.
Context {panda : PandaLib} (loc : Z) (Marshal : parameter_data → result (list byte)).

Definition channel_capacity : nat := 100.

(** A run of the channel on the datagrams every group receives. *)
Definition channel_run (c : channel) (groups : list (list (list byte))) (evs : list (event Message))
    (s : server Message) : Prop :=
  trace channel_capacity new_server evs s ∧ accepted evs = Run loc c <$> groups.

(** What [sendTo] writes of the messages it received, [now] the times it reads
    the clock at. *)
Definition channel_link (c : channel) (now : nat → Z) (s : server Message) : list (list byte) :=
  sendTo Marshal (ch_Name c) 0 (imap (λ k m, (now k, m)) (sv_received s)).
End channel.

(** ** hadock monitor: readMessages

    One [io.Copy] per group writes to one pipe, which takes one write at a
    time and is never closed; a datagram longer than the buffer of [io.Copy]
    is cut by the read. *)
Definition copy_buffer : nat := 32 * 1024.

Definition copied (datagram : list byte) : list byte := take copy_buffer datagram.

Definition readMessages_run (groups : list (list (list byte))) (evs : list (event (list byte)))
    (s : server (list byte)) : Prop :=
  trace 1 new_server evs s ∧ accepted evs = (λ ds : list (list byte), copied <$> ds) <$> groups.

(** The bytes [runMonitor] has read so far. *)
Definition piped (s : server (list byte)) : list byte := concat (sv_received s).

(** ** Theorems *)

Lemma imap_imap {A B C} (f : nat → B → C) (g : nat → A → B) l : imap f (imap g l) = imap (λ k x, f k (g k x)) l.
Proof.
  revert f g. induction l as [|x l IH]; intros f g; [done|]. cbn [imap]. f_equal. apply IH.
Qed.

Section channel_theorems.
Context {panda : PandaLib} (loc : Z) (Marshal : parameter_data → result (list byte)).

(** A message whose reference is the path of its file. *)
Definition referenced (c : channel) (m : Message) : Message :=
  mkMessage (m_Origin m) (m_Sequence m) (m_Instance m) (m_Channel m) (m_Realtime m)
    (m_Count m) (m_Elapsed m) (m_Generated m) (m_Acquired m) (channel_Prepare loc c m) (m_UPI m).

(** A message that arrives whole in a datagram. *)
Definition sendable (m : Message) : Prop := message_fits m ∧ length (encodeMessage m) ≤ receive_buffer.

#[global] Instance sendable_dec m : Decision (sendable m).
Proof. unfold sendable. apply _. Defined.

Lemma encodeMessage_nonempty m : 0 < length (encodeMessage m).
Proof. unfold encodeMessage, write_string, u16. rewrite binary_Write_scalar. autorewrite with lengths. lia. Qed.

Lemma receive_message c m : sendable m → receive_datagram loc c (encodeMessage m) = Some (referenced c m).
Proof.
  intros [Hfit Hlen]. unfold receive_datagram. rewrite take_ge by done.
  rewrite decide_False by (pose proof (encodeMessage_nonempty m); lia).
  by rewrite <-(app_nil_r (encodeMessage m)), decode_encode_message.
Qed.

Lemma Run_messages c ms : Forall sendable ms → Run loc c (encodeMessage <$> ms) = referenced c <$> ms.
Proof.
  unfold Run. induction 1 as [|m ms Hm _ IH]; [done|]. cbn [fmap list_fmap omap list_omap].
  rewrite receive_message by done. by rewrite <-IH.
Qed.

(** C18: when the goroutines of the groups have read their datagrams and the
    queue is empty, the link got every message of every group once, with the
    path of its file, those of one group in their order, whatever the
    interleaving; the numbers of the parameter packets count them from 1
    modulo 2^16. *)
Theorem channel_delivers c mss evs s now :
  Forall (Forall sendable) mss →
  channel_run loc c ((λ ms : list Message, encodeMessage <$> ms) <$> mss) evs s →
  sv_queue s = [] → Forall (λ l, l = []) (sv_conns s) →
  ∃ ms, ms ≡ₚ referenced c <$> concat mss ∧ Forall (λ l : list Message, referenced c <$> l `sublist_of` ms) mss ∧
    channel_link Marshal c now s =
    omap id (imap (λ k m, match Marshal (parameters (now k) m (ch_Name c) (wrap 16 (Z.of_nat k + 1))) with
                          | Ok bs => Some bs | _ => None end) ms).
Proof.
  intros Hms [Htr Hacc] Hq Hc. destruct (drained _ _ _ Htr Hq Hc) as [Hall Hsub].
  assert (accepted evs = (λ ms : list Message, referenced c <$> ms) <$> mss) as E.
  { rewrite Hacc, <-list_fmap_compose. apply list_fmap_ext. intros k ms Hk. simpl.
    apply Run_messages. by apply (Forall_lookup_1 _ _ k _ Hms). }
  rewrite E in Hall, Hsub. exists (sv_received s). split_and!.
  - rewrite Hall. by rewrite <-(concat_map (referenced c)).
  - by rewrite Forall_fmap in Hsub.
  - unfold channel_link. rewrite sendTo_numbers by (by compute_decide). by rewrite imap_imap.
Qed.
End channel_theorems.

(** The message of a datagram. *)
Definition decoded (bs : list byte) : Message :=
  match DecodeMessage (Reader bs EOF) with (Ok m, _) => m | _ => mkMessage "" 0 0 0 false 0 0 0 0 "" "" end.

(** C19: the monitor command prints the messages of all the groups it listens
    to, each once, those of one group in the order they were sent; nothing of
    one group ends up in the message of another one. *)
Theorem readMessages_multiplexed mss evs s fuel e :
  Forall (Forall (λ m, message_fits m ∧ length (encodeMessage m) ≤ copy_buffer)) mss →
  readMessages_run ((λ ms : list Message, encodeMessage <$> ms) <$> mss) evs s →
  sv_queue s = [] → Forall (λ l, l = []) (sv_conns s) →
  length (piped s) < fuel →
  ∃ ms er, runMonitor fuel (Reader (piped s) e) = (ms, Some er) ∧
    ms ≡ₚ concat mss ∧ Forall (λ l, l `sublist_of` ms) mss.
Proof.
  intros Hms [Htr Hacc] Hq Hc Hf. destruct (drained _ _ _ Htr Hq Hc) as [Hall Hsub].
  assert (accepted evs = (λ ms : list Message, encodeMessage <$> ms) <$> mss) as E.
  { rewrite Hacc, <-list_fmap_compose. apply list_fmap_ext. intros k ms Hk. simpl.
    pose proof (Forall_lookup_1 _ _ k _ Hms Hk) as Hm. clear -Hm.
    induction Hm as [|m ms [_ Hl] _ IH]; [done|]. cbn [fmap list_fmap]. rewrite IH. f_equal. by apply take_ge. }
  rewrite E in Hall, Hsub. rewrite <-(concat_map encodeMessage) in Hall.
  apply Permutation_map_inv in Hall as (ms & Hrec & Hperm).
  assert (Forall message_fits ms) as Hfits.
  { rewrite <-Hperm. apply Forall_concat. eapply Forall_impl; [exact Hms|]. intros l Hl. simpl in Hl.
    eapply Forall_impl; [exact Hl|]. by intros m []. }
  assert (piped s = concat (encodeMessage <$> ms) ++ []) as Hp by (unfold piped; by rewrite Hrec, app_nil_r).
  destruct (run_stream ms [] fuel e Hfits (or_introl eq_refl)) as [er Hrun]; [by rewrite <-Hp|].
  exists ms, er. rewrite Hp. split_and!; [done|by symmetry|].
  rewrite Forall_fmap in Hsub. apply Forall_forall. intros l Hl.
  pose proof (proj1 (Forall_forall _ _) Hsub l Hl) as Hs. rewrite Hrec in Hs.
  assert (∀ ms, Forall message_fits ms → decoded <$> (encodeMessage <$> ms) = ms) as Hd.
  { clear. induction 1 as [|m ms Hm _ IH]; [done|]. cbn [fmap list_fmap]. f_equal; [|exact IH].
    unfold decoded. by rewrite <-(app_nil_r (encodeMessage m)), decode_encode_message. }
  rewrite <-(Hd ms), <-(Hd l); [by apply fmap_sublist|..|done].
  eapply Forall_impl; [exact (proj1 (Forall_forall _ _) Hms l Hl)|]. by intros m [].
Qed.

(** ** Examples *)

Definition sample_playback : Message :=
  mkMessage "39" 4 1 3 false 1 0 1262304000 1577836800 "0039_1_4.dat" "TEST".

(** Two groups, the second one read between the datagrams of the first. *)
Definition sample_turns {P} (a b d : P) : list (event P) :=
  [Accepts [a; b]; Accepts [d]; Sends 0 a; Receives a; Sends 1 d; Receives d; Sends 0 b; Receives b].

Definition sample_end {P} (a b d : P) : server P := mkServer true false [[]; []] [] [a; d; b] false.

Lemma channel_delivers_witness :
  let Marshal pd := Ok [byte_of (pd_SeqNum pd)] in
  ∃ ms, ms ≡ₚ referenced 0 sample_channel <$> concat [[sample_sent; sample_playback]; [sample_playback]] ∧
    Forall (λ l : list Message, referenced 0 sample_channel <$> l `sublist_of` ms)
      [[sample_sent; sample_playback]; [sample_playback]] ∧
    [[x01]; [x02]; [x03]] =
    omap id (imap (λ k m, match Marshal (parameters 0 m "/CUST" (wrap 16 (Z.of_nat k + 1))) with
                          | Ok bs => Some bs | _ => None end) ms).
Proof.
  intros Marshal.
  set (f := referenced 0 sample_channel).
  apply (channel_delivers 0 Marshal sample_channel [[sample_sent; sample_playback]; [sample_playback]]
    (sample_turns (f sample_sent) (f sample_playback) (f sample_playback))
    (sample_end (f sample_sent) (f sample_playback) (f sample_playback)) (λ _, 0%Z)).
  - compute_decide.
  - split; [|vm_compute; reflexivity]. apply exec_trace. vm_compute. reflexivity.
  - reflexivity.
  - repeat constructor.
Defined.

Lemma readMessages_multiplexed_witness :
  let d m := encodeMessage m in
  ∃ ms er, runMonitor 400 (Reader (d sample_sent ++ d sample_message ++ d sample_playback) EOF) = (ms, Some er) ∧
    ms ≡ₚ [sample_sent; sample_playback; sample_message] ∧
    Forall (λ l, l `sublist_of` ms) [[sample_sent; sample_playback]; [sample_message]].
Proof.
  intros d.
  pose (evs := sample_turns (d sample_sent) (d sample_playback) (d sample_message)).
  pose (s := sample_end (d sample_sent) (d sample_playback) (d sample_message)).
  assert (piped s = d sample_sent ++ d sample_message ++ d sample_playback) as <- by (vm_compute; reflexivity).
  apply (readMessages_multiplexed [[sample_sent; sample_playback]; [sample_message]] evs s).
  - compute_decide.
  - split; [|vm_compute; reflexivity]. apply exec_trace. vm_compute. reflexivity.
  - reflexivity.
  - repeat constructor.
  - by compute_decide.
Defined.

(** The address of the second group cannot be resolved: the queue is closed
    while the first group is read, and its next message panics. *)
Example channel_closed :
  ∃ s, trace channel_capacity new_server [Accepts [sample_sent]; AcceptFails; SendsClosed 0] s ∧ sv_panicked s = true.
Proof. eexists. split; [by apply exec_trace|done]. Qed.
