(* ===== verification/Catalogue.v ===== *)
(** * Catalogue: the stored packets in the listing of their directory

    What [browse] answers for a directory of the archive is read from the file
    system the storages leave: this file composes Fs.v, Files.v, Browse.v and
    Distrib.v.  The times of the files, and what the system says is the size
    of a directory, are parameters. *)

From S2P Require Import Prelude Bytes SortSearch GoStd Text Panda Notifier Fs Storage Files Fetch Browse Tools Distrib.
From Stdlib Require Import ZArith Lia.

Section catalogue.
Context (mtime : string → Time) (dirsize : string → Z).

(** ** [ioutil.ReadDir]

    The entries of a directory, in the order of their names; of a symbolic
    link the size is the length of what it points to. *)
Definition paths_of (s : fs) : list string := elements (dom (fs_entries s) ∪ fs_dirs s).

Definition names_in (s : fs) (dir : string) : list string :=
  (λ q, default "" (last (clean_segs q))) <$> filter (λ q, parent q = dir ∧ clean_segs q ≠ []) (paths_of s).

Definition size_of (s : fs) (q : string) : Z :=
  match fs_entries s !! q with
  | Some (Regular i) => Z.of_nat (length (default [] (fs_inodes s !! i)))
  | Some (Symbolic t) => Z.of_nat (String.length t)
  | None => dirsize q
  end.

Definition entry_at (s : fs) (dir name : string) : dir_entry :=
  let q := Join [dir; name] in mkDirEntry name (size_of s q) (mtime q) (bool_decide (q ∈ fs_dirs s)).

Definition ReadDir (denied : string → option error) (s : fs) (dir : string) : result (list dir_entry) :=
  match denied dir with
  | Some e => Err e
  | None => if decide (dir ∈ fs_dirs s) then Ok (entry_at s dir <$> sort_strings (names_in s dir))
            else Err (ErrExternal "no such directory")
  end.

(** The answer to a request for a directory below [root]. *)
Definition browse (Json Xml : list Browse.info → result (list byte)) (render_error : error → list byte)
    (denied : string → option error) (root : string) (s : fs) (path a : string) : result reply :=
  browser_ServeHTTP Json Xml render_error (ReadDir denied s (Join [root; path])) a.

Lemma sort_strings_perm l : sort_strings l ≡ₚ l.
Proof. apply merge_sort_Permutation. Qed.

(** A file of a directory is one of its entries. *)
Lemma ReadDir_has s dir r segs f bs l :
  path_is r dir segs → simple_name f → fs_wf s → content s (Join [dir; f]) = Some bs →
  ReadDir healthy s dir = Ok l →
  mkDirEntry f (Z.of_nat (length bs)) (mtime (Join [dir; f])) false ∈ l.
Proof.
  intros Hd Hf Hwf Hc. unfold ReadDir, healthy. case_decide; [|done]. intros [= <-].
  unfold content in Hc. destruct (fs_entries s !! Join [dir; f]) as [[i|t]|] eqn:E; [|done..].
  apply list_elem_of_fmap. exists f. split.
  - unfold entry_at, size_of. rewrite E, Hc. f_equal. symmetry. apply bool_decide_false. intros Hin.
    apply (wf_dirs s Hwf) in Hin. congruence.
  - rewrite sort_strings_perm. apply list_elem_of_fmap. exists (Join [dir; f]). split.
    { destruct (path_is_join r dir segs f Hd Hf) as [Hs ->]. by rewrite clean_segs_render, last_snoc. }
    apply list_elem_of_filter. split.
    + split; [by eapply parent_join|]. destruct (path_is_join r dir segs f Hd Hf) as [Hs ->].
      rewrite clean_segs_render by done. by intros [_ ?]%app_eq_nil.
    + unfold paths_of. apply elem_of_elements, elem_of_union_l, elem_of_dom. by rewrite E.
Qed.

Lemma Base_simple f : simple_name f → Base f = f.
Proof. intros (H1 & _ & _ & H4). destruct f as [|c f]; [done|]. unfold Base. by rewrite Split_simple, filter_cons_True by done. Qed.

(** A listed directory has what its entries are. *)
Lemma listed_entry infos q i :
  Forall2 listed (filter (λ i, Ext (de_Name i) ≠ ".xml") infos) q → i ∈ infos → Ext (de_Name i) ≠ ".xml" →
  ∃ n, n ∈ q ∧ listed i n.
Proof.
  intros H Hi Hx. assert (i ∈ filter (λ i, Ext (de_Name i) ≠ ".xml") infos) as Hin by by apply list_elem_of_filter.
  apply list_elem_of_lookup in Hin as [k Hk]. destruct (Forall2_lookup_l _ _ _ _ _ H Hk) as (n & Hn & Hl).
  exists n. split; [|done]. by eapply list_elem_of_lookup_2.
Qed.

(** Fact: end to end: a packet that was stored is in the listing of its directory,
    under its name and with its size, when the names of all the files there
    have five parts; its metadata is not. *)
Theorem stored_is_listed Json Xml render_error encodeMetadata fl i p r dir segs s bs ms root path a :
  Can (Some (fl_Control fl)) p = true → directory_of (fl_data fl) i p = dir → path_is r dir segs →
  simple_name (Filename p) → ready p dir s → fl_links fl = [] → Ext (Filename p) ≠ BAD → Ext (Filename p) ≠ XML →
  encode fl p = Ok bs → encodeMetadata p = Ok ms → ms ≠ [] →
  Join [root; path] = dir → Contains a "application/json" = true →
  ∃ s', filestore_Store healthy encodeMetadata fl i p s = (Ok (), s') ∧
    ∀ infos, ReadDir healthy s' dir = Ok infos → Forall listable infos →
      ∃ l n, n ∈ l ∧ in_Name n = Filename p ∧ in_Size n = Z.of_nat (length bs) ∧ in_Regular n = true ∧
        (∀ n', n' ∈ l → ∃ f, in_Name n' = Base f ∧ Ext f ≠ XML) ∧
        browse Json Xml render_error healthy root s' path a =
        match Json l with
        | Ok body => Ok (mkReply StatusOK body)
        | Err e => Ok (mkReply StatusBadRequest (render_error e))
        | Panic w => Panic w
        end.
Proof.
  intros Hcan Hdir Hpath Hname Hs Hl Hext Hxml He Hm Hne Hp Ha.
  destruct (stores_packet encodeMetadata fl i p r dir segs Hcan Hdir Hpath Hname s bs ms Hs Hl Hext He Hm Hne) as
    (s' & Hst & _ & _ & _ & _ & _ & Hwf & Hc).
  exists s'. split; [done|]. intros infos Hin Hlist. destruct (readDir_ok infos Hlist) as (l & Hl' & Hn).
  pose proof (ReadDir_has s' dir r segs _ bs infos Hpath Hname Hwf Hc Hin) as Hhas.
  destruct (listed_entry infos l _ Hn Hhas Hxml) as (n & Hnl & H1 & _ & H3 & H4). exists l, n.
  split; [done|]. split. { rewrite H1. cbn [de_Name]. by apply Base_simple. }
  split; [by rewrite H3|]. split; [by rewrite H4|]. split.
  - intros n' [k Hk]%list_elem_of_lookup. destruct (Forall2_lookup_r _ _ _ _ _ Hn Hk) as (e & He' & (Hb & _)).
    apply list_elem_of_lookup_2, list_elem_of_filter in He' as [Hx _]. by exists (de_Name e).
  - unfold browse, browser_ServeHTTP. rewrite Hp, Hin, Hl'. cbn [mbind result_bind].
    unfold isAcceptable, accept. rewrite decide_False by done. rewrite filter_cons_True by done. cbn [head].
    rewrite bool_decide_true by by eexists. by destruct (Json l).
Qed.
End catalogue.

(** ** Examples *)

Lemma stored_is_listed_witness :
  ∃ s', filestore_Store healthy sample_metadata (sample_filestore "/data" []) 255 sample_good sample_fs = (Ok (), s') ∧
    browse (λ _, zero_time) (λ _, 4096%Z) (λ l, Ok (concat ((λ n, bytes_of (in_Name n)) <$> l))) (λ _, Ok []) (λ _, [])
      healthy "/data" s' "OPS/images/realtime/51/2020/006/00" "application/json" =
    Ok (mkReply StatusOK (bytes_of (Filename sample_good))).
Proof.
  destruct (stored_is_listed (λ _, zero_time) (λ _, 4096%Z) (λ l, Ok (concat ((λ n, bytes_of (in_Name n)) <$> l))) (λ _, Ok [])
    (λ _, []) sample_metadata (sample_filestore "/data" []) 255 sample_good true sample_dir
    ["data"; "OPS"; "images"; "realtime"; "51"; "2020"; "006"; "00"] sample_fs
    (match encodeRawPacket sample_good with Ok bs => bs | _ => [] end) [x3c; x3e]
    "/data" "OPS/images/realtime/51/2020/006/00" "application/json") as (s' & Hs & H).
  - by vm_compute.
  - by vm_compute.
  - apply sample_dir_path.
  - by compute_decide.
  - apply sample_ready; [apply sample_fs_wf|by right|by compute_decide| |by left; vm_compute].
    do 2 (apply Forall_cons; split; [split; [by compute_decide|by vm_compute]|]). constructor.
  - done.
  - by vm_compute.
  - by vm_compute.
  - by vm_compute.
  - done.
  - done.
  - by vm_compute.
  - by vm_compute.
  - exists s'. split; [done|].
    assert (s' = (filestore_Store healthy sample_metadata (sample_filestore "/data" []) 255 sample_good sample_fs).2) as ->
      by by rewrite Hs.
    match goal with |- context [browse _ _ _ _ _ _ _ ?s _ _] => set (s' := s) in * end.
    destruct (H (match ReadDir (λ _, zero_time) (λ _, 4096%Z) healthy s' sample_dir with Ok l => l | _ => [] end))
      as (l & n & _ & _ & _ & _ & _ & Hb); [by vm_compute|vm_compute; repeat constructor; by intros|]. by vm_compute.
Defined.
