(* ===== verification/Walk.v ===== *)
(** * Walk: downloads of what the storages leave (src/distrib/archive.go)

    [filepath.Walk] on the file system of Fs.v: a directory is visited before
    what is in it, in the order of the names.  This file composes Files.v,
    Catalogue.v and Browse.v: what a client that downloads a directory gets of
    the packets that were stored below it. *)

From S2P Require Import Prelude Bytes SortSearch GoStd Text Panda Fs Storage Files Browse Tools Distrib Catalogue.
From Stdlib Require Import ZArith Lia.

Section walk.
Context (dirsize : string → Z).

(** ** [filepath.Walk]

    A path that is neither a directory nor an entry has no [Lstat].  What
    opens a link is the file behind it; the storages link files only. *)
Fixpoint walk_tree (fuel : nat) (s : fs) (p : string) : option (list visit) :=
  match fuel with
  | O => None
  | S fuel =>
      if decide (p ∈ fs_dirs s) then
        vss ← mapM (λ n, walk_tree fuel s (Join [p; n])) (sort_strings (names_in s p));
        Some (VisitDir p :: concat vss)
      else match fs_entries s !! p with
           | Some _ => Some [VisitFile p (size_of dirsize s p) (read_file s p)]
           | None => Some [VisitError (ErrNotExist p)]
           end
  end.

(** The segments of the longest path: no directory is deeper. *)
Definition depth (s : fs) : nat := max_list ((λ q, length (clean_segs q)) <$> paths_of s).

Definition Walk (s : fs) (root : string) : option (list visit) := walk_tree (S (depth s)) s root.

(** ** Names of entries *)

Lemma clean_loop_pieces r stack l :
  Forall (λ s, s ≠ "" ∧ str_mem slash s = false) stack → Forall (λ s, str_mem slash s = false) l →
  Forall (λ s, s ≠ "" ∧ str_mem slash s = false) (clean_loop r stack l).
Proof.
  intros Hst Hl. revert stack Hst. induction Hl as [|s l Hs _ IH]; intros stack Hst; cbn [clean_loop].
  { by apply Forall_rev. }
  destruct (decide (s = "" ∨ s = ".")) as [|Hn]; [by apply IH|].
  assert (s ≠ "" ∧ str_mem slash s = false) as Hp by naive_solver.
  case_decide; [|by apply IH; constructor]. destruct stack as [|top stack].
  - apply IH. destruct r; [constructor|by apply Forall_singleton].
  - apply Forall_cons in Hst as [Ht Hst]. case_decide; apply IH; [|done]. by do 2 (constructor; [done|]).
Qed.

(** Of a path that is not rooted no directory is. *)
Lemma parent_rooted q : is_rooted (parent q) = is_rooted q.
Proof.
  unfold parent. destruct (is_rooted q) eqn:E; [done|].
  pose proof (clean_loop_pieces false [] (Split slash q) (Forall_nil_2 _) (Split_no_slash q)) as H.
  unfold clean_segs. rewrite E. revert H. generalize (clean_loop false [] (Split slash q)). intros l H.
  destruct l as [|x [|y l]]; [done..|]. apply Forall_cons in H as [[Hne Hs] _].
  change (removelast (x :: y :: l)) with (x :: removelast (y :: l)). destruct x as [|a x]; [done|]. cbn [str_mem] in Hs. apply orb_false_iff in Hs as [Ha _].
  transitivity (bool_decide (a = slash)); [|done].
  generalize (removelast (y :: l)). intros [|z k]; [done|]. unfold render. cbn [join]. by rewrite str_app_cons.
Qed.

(** What a listed name is, where the directory is a clean rooted path. *)
Lemma names_in_inv s p segs n :
  path_is true p segs → n ∈ names_in s p → simple_name n ∧ S (length segs) ≤ depth s.
Proof.
  intros [Hs ->] (q & -> & [[Hp Hne] Hq]%list_elem_of_filter)%list_elem_of_fmap.
  assert (is_rooted q = true) as Hr. { rewrite <-parent_rooted, Hp. done. }
  assert (Forall simple_name (clean_segs q)) as Hc.
  { unfold clean_segs. rewrite Hr. apply clean_loop_rooted; [constructor|apply Split_no_slash]. }
  assert (length (clean_segs q) ≤ depth s) as Hlen.
  { apply max_list_elem_of_le, list_elem_of_fmap. by exists q. }
  unfold parent in Hp. rewrite Hr in Hp. revert Hp Hlen Hc Hne. generalize (clean_segs q). clear -Hs.
  intros l. destruct l as [|n l _] using rev_ind; [done|]. rewrite removelast_last, last_snoc, length_app. simpl.
  intros Hp Hlen [Hl Hn]%Forall_app _. rewrite Forall_singleton in Hn. split; [done|].
  assert (l = segs) as ->.
  { apply (path_is_inj true (render true segs)); [split; [done|exact (eq_sym Hp)]|by split]. }
  lia.
Qed.

(** ** The walk ends *)
Lemma walk_tree_ends fuel s p segs :
  path_is true p segs → S (depth s - length segs) ≤ fuel → is_Some (walk_tree fuel s p).
Proof.
  revert p segs. induction fuel as [|fuel IH]; intros p segs Hp Hf; [lia|]. cbn [walk_tree].
  case_decide; [|by case_match]. assert (is_Some (mapM (λ n, walk_tree fuel s (Join [p; n])) (sort_strings (names_in s p)))) as [vss ->].
  { apply mapM_is_Some. apply Forall_forall. intros n Hn. rewrite sort_strings_perm in Hn.
    destruct (names_in_inv s p segs n Hp Hn) as [Hsim Hle]. apply (IH _ (segs ++ [n])); [by apply path_is_join|].
    rewrite length_app. simpl. lia. }
  by eexists.
Qed.

Lemma Walk_ends s root segs : path_is true root segs → is_Some (Walk s root).
Proof. intros Hr. eapply walk_tree_ends; [done|lia]. Qed.

(** ** What is visited *)

(** The names on the way from a directory, which are directories but for the
    last. *)
Definition below_dirs (s : fs) (segs more : list string) : Prop :=
  Forall simple_name more ∧ ∀ k, k < length more → render true (segs ++ take k more) ∈ fs_dirs s.

(** Every entry is, where the directories on the way to it are there. *)
Lemma walk_tree_visits fuel s p segs more vs e :
  fs_wf s → path_is true p segs → Forall simple_name more → walk_tree fuel s p = Some vs →
  (∀ k, k < length more → render true (segs ++ take k more) ∈ fs_dirs s) →
  let q := render true (segs ++ more) in
  fs_entries s !! q = Some e → VisitFile q (size_of dirsize s q) (read_file s q) ∈ vs.
Proof.
  intros Hwf. cbv zeta. revert p segs more vs. induction fuel as [|fuel IH]; intros p segs more vs Hp Hm Hw Hd He; [done|].
  cbn [walk_tree] in Hw. destruct Hm as [|n more Hn Hm].
  - rewrite app_nil_r in *. destruct Hp as [_ ->]. rewrite decide_False in Hw.
    2: { intros Hin%(wf_dirs s Hwf). congruence. }
    rewrite He in Hw. injection Hw as <-. by left.
  - assert (p ∈ fs_dirs s) as Hin. { destruct Hp as [_ ->]. specialize (Hd 0). simpl in Hd. rewrite app_nil_r in Hd. apply Hd. lia. }
    rewrite decide_True in Hw by done. destruct (mapM _ _) as [vss|] eqn:Ev; [|done]. injection Hw as <-.
    apply mapM_Some in Ev. assert (n ∈ sort_strings (names_in s p)) as Hnin.
    { rewrite sort_strings_perm. apply list_elem_of_fmap. pose proof (path_is_join true p segs n Hp Hn) as [Hs Hj].
      exists (Join [p; n]). split; [by rewrite Hj, clean_segs_render, last_snoc|].
      apply list_elem_of_filter. split; [split|].
      - by eapply parent_join.
      - rewrite Hj, clean_segs_render by done. by intros [_ ?]%app_eq_nil.
      - unfold paths_of. apply elem_of_elements, elem_of_union. rewrite Hj. destruct more as [|m more].
        + left. apply elem_of_dom. by eexists.
        + right. specialize (Hd 1). simpl in Hd. apply Hd. lia. }
    apply list_elem_of_lookup in Hnin as [i Hi]. destruct (Forall2_lookup_l _ _ _ _ _ Ev Hi) as (vs' & Hvs' & Hw').
    right. apply list_elem_of_In, in_concat. exists vs'. rewrite <-!list_elem_of_In. split; [by eapply list_elem_of_lookup_2|].
    replace (segs ++ n :: more) with ((segs ++ [n]) ++ more) in * by by rewrite <-(assoc_L app).
    eapply IH; [by apply path_is_join|done..| |done]. intros k Hk. specialize (Hd (S k)). cbn [take] in Hd.
    rewrite <-(assoc_L app). apply Hd. simpl. lia.
Qed.

(** Nothing else is: a file that is visited is an entry below the root, with
    its size and its bytes. *)
Lemma walk_tree_sound fuel s p segs vs q z c :
  path_is true p segs → walk_tree fuel s p = Some vs → VisitFile q z c ∈ vs →
  is_Some (fs_entries s !! q) ∧ z = size_of dirsize s q ∧ c = read_file s q ∧ ∃ more, path_is true q (segs ++ more).
Proof.
  revert p segs vs. induction fuel as [|fuel IH]; intros p segs vs Hp Hw Hin; [done|]. cbn [walk_tree] in Hw. case_decide.
  - destruct (mapM _ _) as [vss|] eqn:Ev; [|done]. injection Hw as <-. apply elem_of_cons in Hin as [|Hin]; [done|].
    apply list_elem_of_In, in_concat in Hin as (vs' & Hv & Hin). rewrite <-list_elem_of_In in Hv. rewrite <-list_elem_of_In in Hin.
    apply mapM_Some in Ev. apply list_elem_of_lookup in Hv as [i Hi]. destruct (Forall2_lookup_r _ _ _ _ _ Ev Hi) as (n & Hn & Hw).
    apply list_elem_of_lookup_2 in Hn. rewrite sort_strings_perm in Hn. destruct (names_in_inv s p segs n Hp Hn) as [Hsim _].
    destruct (IH _ _ _ (path_is_join _ _ _ _ Hp Hsim) Hw Hin) as (H1 & H2 & H3 & more & H4).
    split_and!; [done..|]. exists (n :: more). by rewrite <-(assoc_L app) in H4.
  - destruct (fs_entries s !! p) eqn:E; injection Hw as <-; apply list_elem_of_singleton in Hin; [|done].
    injection Hin as -> -> ->. split_and!; [by eexists|done..|]. exists []. by rewrite app_nil_r.
Qed.
End walk.

(** ** End to end *)
Section stored.
Context {panda : PandaLib} (dirsize : string → Z).

Lemma stored_is_visited encodeMetadata fl i p dir rsegs more s bs ms root :
  Can (Some (fl_Control fl)) p = true → directory_of (fl_data fl) i p = dir → path_is true dir (rsegs ++ more) →
  simple_name (Filename p) → ready p dir s → fl_links fl = [] → Ext (Filename p) ≠ BAD →
  encode fl p = Ok bs → encodeMetadata p = Ok ms → ms ≠ [] → path_is true root rsegs →
  ∃ s' vs, filestore_Store healthy encodeMetadata fl i p s = (Ok (), s') ∧ Walk dirsize s' root = Some vs ∧
    VisitFile (Join [dir; Filename p]) (Z.of_nat (length bs)) (Some bs) ∈ vs.
Proof.
  intros Hcan Hdir Hpath Hname Hs Hl Hext He Hm Hne Hroot.
  destruct (stores_packet encodeMetadata fl i p true dir (rsegs ++ more) Hcan Hdir Hpath Hname s bs ms Hs Hl Hext He Hm Hne) as
    (s' & Hst & Hread & _ & _ & _ & Hdirs & Hwf & Hc).
  destruct (Walk_ends dirsize s' root rsegs Hroot) as [vs Hvs]. exists s', vs. split_and!; [done..|].
  pose proof (path_is_join _ _ _ _ Hpath Hname) as [Hall Hfile]. rewrite <-(assoc_L app) in Hall, Hfile.
  apply Forall_app in Hall as [_ Hmore].
  unfold content in Hc. destruct (fs_entries s' !! Join [dir; Filename p]) as [[j|t]|] eqn:E; [|done..].
  assert (size_of dirsize s' (Join [dir; Filename p]) = Z.of_nat (length bs)) as Hsize by by (unfold size_of; rewrite E, Hc).
  rewrite <-Hsize, <-Hread. rewrite Hfile in *. eapply walk_tree_visits; [done..| |done].
  intros k Hk. rewrite length_app in Hk. simpl in Hk. rewrite Hdirs. cbn [with_dirs fs_dirs].
  apply elem_of_union_r, elem_of_list_to_set. unfold ancestors. apply list_elem_of_fmap.
  exists (length rsegs + k). destruct Hpath as [Hd ->]. rewrite clean_segs_render, is_rooted_render by done. split.
  - f_equal. rewrite !take_app. f_equal; [by rewrite take_ge by lia|].
    replace (k - length more) with 0 by lia. rewrite take_0, app_nil_r. f_equal. lia.
  - apply elem_of_seq. rewrite length_app. lia.
Qed.

End stored.

(** ** Examples *)

Definition sample_form : list (string * string) := [("type", "zip"); ("filename", "images")].

