(* ===== verification/Startup.v ===== *)
(** * Startup: from a configuration file to a running command
      (src/cmd/hadock, src/cmd/hdk2udp/main.go, the New functions of
      src/plugins)

    What a command does before its loop, and in which order: a later step that
    fails leaves what the earlier ones did.  A configuration is what the TOML
    package decodes from the bytes of a file, a parameter. *)

From S2P Require Import Prelude Bytes GoStd Text Panda Proto Notifier Fs Storage Files Archive Listen Server.
From S2P Require Import Hdk2udp Fetch Browse Distrib Plugins.
From Stdlib Require Import ZArith Lia Ascii.

(** ** The commands of hadock

    The table [main] gives to the package that chooses one of them and parses
    its flags. *)
Inductive runner : Type := RunReplay | RunListen | RunDistrib | RunMonitor | RunDispatch.

Record command : Type := mkCommand { cm_Usage : string; cm_Short : string; cm_Run : runner }.

Definition commands : list command :=
  [mkCommand "replay [-r] [-s] [-m] [-t] <host:port> <archive...>" "send VMU packets throught the network from a HRDP archive" RunReplay;
   mkCommand "listen <hdk.toml>" "store packets in archive" RunListen;
   mkCommand "distrib <hdk.toml>" "distribute files stored in archive" RunDistrib;
   mkCommand "monitor <group...>" "monitor hadock activities" RunMonitor;
   mkCommand "dispatch <directory>" "" RunDispatch].

(** ** Reading a configuration *)

Section load.
Context (denied : string → option error).

(** [os.Open] and the decoder on what it reads; a directory is opened, and its
    read fails. *)
Definition load {C} (toml : list byte → result C) (p : string) : io C := guarded denied p (λ s,
  if decide (p ∈ fs_dirs s) then (Err (ErrExternal "is a directory"), s)
  else match read_file s p with
       | Some bs => (toml bs, s)
       | None => (Err (ErrNotExist p), s)
       end).

(** It changes no file. *)
Lemma load_pure {C} (toml : list byte → result C) p s : (load toml p s).2 = s.
Proof. unfold load, guarded. destruct (denied p); [done|]. case_decide; [done|]. by destruct (read_file s p). Qed.

(** ** hadock listen *)

Record listen_config : Type := mkListenConfig {
  lc_Addr : string;
  lc_Mode : string;
  lc_Buffer : Z;                       (* uint *)
  lc_Proxy : string * Z;
  lc_Instances : list Z;
  lc_Stores : list Options;
  lc_Pool : pool_config;
  lc_Modules : list module_config;
}.

(** What the loop of [runListen] is started with. *)
Record started {M : Type} : Type := mkStarted {
  sd_stores : list store;
  sd_pool : option (Pool notifier);
  sd_decode : decodeFunc;
  sd_instances : list Z;
  sd_queue : Z;                        (* the queue of the connections *)
  sd_modules : option (list M);
  sd_buffer : Z;                       (* the queues of Convert and of the plugins *)
}.
Arguments started : clear implicits.

Section listen.
Context {panda : PandaLib} (Roll Dial Create Listen_tcp : string → option error).
Context {M : Type} (Lookup : string → result (plugin_symbol M)) (toml : list byte → result listen_config).

(** [int(c.Buffer)] and the queue made of it. *)
Definition listen_queue (addr : string) (buffer : Z) : result Z :=
  match Listen_tcp addr with
  | Some e => Err e
  | None => let n := queue_size (swrap 64 buffer) in if decide (n < 0)%Z then Panic "makechan: size out of range" else Ok n
  end.

Definition start_listen (arg : string) : io (started M) :=
  c ← load toml arg;
  fs ← setupStorage denied Roll (lc_Stores c);
  pool ← lift (setupPool Dial Create (lc_Pool c));
  df ← lift (Decode (lc_Mode c));
  q ← lift (listen_queue (lc_Addr c) (lc_Buffer c));
  ms ← lift (setupModules Lookup (lc_Modules c));
  mret (mkStarted M fs pool df (lc_Instances c) q ms (swrap 64 (lc_Buffer c))).

(** A result of [lift] does not depend on the files. *)
Lemma lift_snd {A} (r : result A) s : (lift r s).2 = s.
Proof. done. Qed.

(** Fact: whatever goes wrong behind them, the storages have been set up when the
    configuration could be read: the directories of a broker that then refuses
    its mode, or cannot listen, are there. *)
Theorem start_listen_files arg c s :
  load toml arg s = (Ok c, s) →
  (start_listen arg s).2 = (setupStorage denied Roll (lc_Stores c) s).2.
Proof.
  intros Hl. unfold start_listen, mbind at 1, io_bind at 1. rewrite Hl. unfold mbind at 1, io_bind at 1.
  destruct (setupStorage _ _ _ s) as [[fs|e|w] s']; [|done..].
  unfold mbind, io_bind, lift. destruct (setupPool _ _ _) as [p|e|w]; [|done..].
  destruct (Decode _) as [df|e|w]; [|done..]. destruct (listen_queue _ _) as [q|e|w]; [|done..].
  by destruct (setupModules _ _).
Qed.

(** Fact: a broker that starts has a storage for every entry with a type, a mode
    it knows, a queue with room for a packet, and the instances it was
    configured with. *)
Theorem start_listen_starts arg s sd s' :
  start_listen arg s = (Ok sd, s') →
  ∃ c, load toml arg s = (Ok c, s) ∧
    Forall2 (λ v st, so_Scheme v ∈ store_schemes st) (filter (λ v, so_Scheme v ≠ "") (lc_Stores c)) (sd_stores sd) ∧
    lc_Mode c ∈ match sd_decode sd with CompressedPackets => ["rfc1952"; "gzip"] | BinaryPackets => ["binary"; ""] end ∧
    (1 ≤ sd_queue sd)%Z ∧ (0 ≤ sd_buffer sd)%Z ∧ sd_instances sd = lc_Instances c ∧
    (sd_modules sd = None ↔ lc_Modules c = []).
Proof.
  intros H. apply io_bind_inv in H as (c & s1 & Hl & H). pose proof (load_pure toml arg s) as Hp. rewrite Hl in Hp. simpl in Hp. subst s1.
  apply io_bind_inv in H as (fs & s1 & Hst & H). apply io_bind_inv in H as (pool & s2 & _ & H).
  apply io_bind_inv in H as (df & s3 & Hdf & H). apply io_bind_inv in H as (q & s4 & Hq & H).
  apply io_bind_inv in H as (ms & s5 & Hm & H). injection H as <- _. exists c. cbn.
  injection Hdf as Hdf _. injection Hq as Hq _. injection Hm as Hm _.
  split; [done|]. split; [by destruct (setupStorage_stores _ _ _ _ _ _ Hst)|]. split.
  { unfold Decode in Hdf. repeat case_decide; simplify_eq; set_solver. }
  unfold listen_queue in Hq. destruct (Listen_tcp _); [done|]. case_decide as Hn; [done|]. injection Hq as <-.
  unfold queue_size in *. split_and!; [repeat case_decide; lia..|done|].
  unfold setupModules in Hm. destruct (lc_Modules c); [by simplify_eq/=|]. rewrite decide_False in Hm by done.
  apply result_bind_ok in Hm as (ps & _ & [= <-]). done.
Qed.
End listen.

(** ** hadock distrib and hadock dispatch *)

Record distrib_config : Type := mkDistribConfig {
  dc_Address : string; dc_Rate : Z; dc_Rawdir : string; dc_Datadir : string; dc_Groups : list string;
}.

(** The address, the limit and the handlers that are up; then the command
    serves for ever. *)
Definition start_distrib (toml : list byte → result distrib_config) (listen_group : string → option error) (arg : string) :
    io (string * Z * (handler → bool)) :=
  c ← load toml arg;
  up ← mount denied listen_group (dc_Rawdir c) (dc_Groups c);
  mret (dc_Address c, dc_Rate c, up).

(** [Fetch] and [Download]: handlers of a directory. *)
Definition Fetch (r d : string) : io (string * string) :=
  i ← Stat denied r;
  if decide (i = IsDir) then mret (r, d) else io_fail (Errorf "not a directory" [AStr r]).

Definition Download (d : string) : io string :=
  i ← Stat denied d;
  if decide (i = IsDir) then mret d else io_fail (Errorf "not a directory" [AStr d]).

(** [fetcher.copyFile], which no handler calls: the bytes it would write. *)
Definition copyFile (datadir p : string) (s : fs) : option (list byte) :=
  match Fetch.Open denied s (Join [datadir; p]) with
  | OpenFile bs => Some bs
  | OpenDir => Some []
  | NotExist | OpenFailed _ => None
  end.

Record dispatch_config : Type := mkDispatchConfig { pc_In : string; pc_Out : string }.

(** The directory [runDispatch] walks. *)
Definition start_dispatch (toml : list byte → result dispatch_config) (arg : string) : io string :=
  c ← load toml arg; mret (pc_In c).

(** *** The handlers that are up

    The three handlers of files look at the same directory, which the command
    has looked at before: when the server starts, they are up. *)
Lemma Stat_again p s m s' : Stat denied p s = (Ok m, s') → s' = s.
Proof.
  unfold Stat, guarded. destruct (denied p); [done|]. case_decide; [by intros [= _ <-]|].
  destruct (resolve _ s p); by intros [= _ <-].
Qed.

(** Fact: a server that starts serves the listings, the files and the downloads;
    only the monitor may be missing, when one of its groups cannot be joined. *)
Theorem start_distrib_serves toml listen_group arg s addr n up s' :
  start_distrib toml listen_group arg s = (Ok (addr, n, up), s') →
  s' = s ∧ ∃ c, load toml arg s = (Ok c, s) ∧ up HBrowse = true ∧ up HProducts = true ∧ up HArchives = true ∧
    (up HMonitor = true ↔ Forall (λ g, listen_group g = None) (dc_Groups c)).
Proof.
  intros H. apply io_bind_inv in H as (c & s1 & Hl & H). pose proof (load_pure toml arg s) as Hp. rewrite Hl in Hp. simpl in Hp. subst s1.
  apply io_bind_inv in H as (u & s1 & Hm & H). injection H as _ _ -> ->.
  unfold mount in Hm. apply io_bind_inv in Hm as (i & s2 & Hi & Hm). pose proof (Stat_again _ _ _ _ Hi) as ->.
  case_decide as Hdir; [|done]. subst i.
  assert (try_io (archive_dir denied (dc_Rawdir c)) s = (Ok (Some (dc_Rawdir c)), s)) as Ha.
  { unfold try_io, archive_dir, mbind, io_bind. rewrite Hi. by rewrite decide_True. }
  unfold mbind, io_bind in Hm. rewrite !Ha in Hm. injection Hm as <- <-. split; [done|]. exists c. split_and!; [done..|].
  clear. induction (dc_Groups c) as [|g gs IH]; cbn [monitor_groups]; [done|].
  destruct (listen_group g) as [e|] eqn:E; [split; [done|by intros [? _]%Forall_cons; congruence]|].
  rewrite IH, Forall_cons. naive_solver.
Qed.

(** ** The plugins *)

(** [New] of svs: the maker of directories of its configuration. *)
Record svs_config : Type := mkSvsConfig { vc_Datadir : string; vc_Epoch : string; vc_Interval : Z; vc_Levels : list string }.

Definition svs_New (toml : list byte → result svs_config) (f : string) : io dirmaker :=
  c ← load toml f; mret (NewDirectory (vc_Datadir c) (vc_Epoch c) (vc_Levels c) (vc_Interval c)).

(** [New] of xxhsum. *)
Definition xxhsum_New (toml : list byte → result (Z * Z)) (Sum32 Sum64 : list byte → Z → Z) (f : string) : io digest :=
  '(seed, alg) ← load toml f; lift (xxh_New seed alg Sum32 Sum64).

(** [New] of mon: the directory and the log of the day are made before the
    goroutine that rotates the log is started. *)
Record mon_config : Type := mkMonConfig {
  mc_Datadir : string; mc_Every : Z; mc_Rotate : Z; mc_Aggregate : bool; mc_Channels : list Z;
}.

Definition mon_Start (toml : list byte → result mon_config) (now : Time) (f : string) : io (Plugins.monitor * Z) :=
  c ← load toml f;
  MkdirAll denied (mc_Datadir c);;
  WriteFile denied (log_path (mc_Datadir c) now) [];;
  lift (mon_New (mc_Datadir c) (mc_Every c) (mc_Rotate c) now).
End load.

(** [rotate]: the ticks of its two tickers, between the packets. *)
Inductive mon_event : Type :=
  | MonPacket (p : HRPacket)
  | MonAggregates
  | MonRotates (n : Time) (created : bool).

Section rotate.
Context {panda : PandaLib} (VMUHeaderLength IDHeaderLengthV2 SDHeaderLengthV2 : Z).

Definition mon_step (aggregate : bool) (ev : mon_event) (m : Plugins.monitor) : result Plugins.monitor :=
  match ev with
  | MonPacket p => mon_Process VMUHeaderLength IDHeaderLengthV2 SDHeaderLengthV2 p m
  | MonAggregates => Ok (tick_aggregate aggregate m)
  | MonRotates n created => Ok (tick_rotate n created m)
  end.

Fixpoint mon_run (aggregate : bool) (evs : list mon_event) (m : Plugins.monitor) : result Plugins.monitor :=
  match evs with
  | [] => Ok m
  | ev :: evs => m ← mon_step aggregate ev m; mon_run aggregate evs m
  end.

(** The ticks do not touch the interval that is being counted. *)
Definition interval (m : Plugins.monitor) : Time * Time * Z * Z * Z * Z :=
  (mo_first m, mo_last m, mo_starts m, mo_ends m, mo_size m, mo_count m).

Lemma tick_interval aggregate ev m m' :
  match ev with MonPacket _ => False | _ => True end → mon_step aggregate ev m = Ok m' → interval m' = interval m.
Proof.
  destruct ev as [p| |n created]; [done|..]; intros _; cbn [mon_step]; intros [= <-];
    [unfold tick_aggregate; by destruct aggregate|unfold tick_rotate; by destruct created].
Qed.

(** What a packet does to the interval depends on nothing else. *)
Lemma packet_interval p m n :
  interval m = interval n → mo_delta m = mo_delta n →
  match mon_Process VMUHeaderLength IDHeaderLengthV2 SDHeaderLengthV2 p m,
        mon_Process VMUHeaderLength IDHeaderLengthV2 SDHeaderLengthV2 p n with
  | Ok m', Ok n' => interval m' = interval n' ∧ mo_delta m' = mo_delta n'
  | Panic _, Panic _ => True
  | _, _ => False
  end.
Proof.
  intros Hi Hd. destruct m, n. unfold interval in Hi. simpl in Hi, Hd. simplify_eq.
  unfold mon_Process. case_decide; [done|]. destruct (header_of _ _ p) as [[v hs]|]; [|done].
  unfold observe, reports, report, count_in, interval; cbn. by case_match.
Qed.

Lemma packet_ok p m m' : mon_Process VMUHeaderLength IDHeaderLengthV2 SDHeaderLengthV2 p m = Ok m' → mo_delta m' = mo_delta m.
Proof.
  unfold mon_Process. case_decide; [by intros [= <-]|]. destruct (header_of _ _ p) as [[v hs]|]; [|done].
  intros [= <-]. unfold observe, reports, report, count_in; cbn. by case_match.
Qed.

Definition mon_packets (evs : list mon_event) : list HRPacket :=
  omap (λ ev, match ev with MonPacket p => Some p | _ => None end) evs.

(** Fact: the rotations and the lines of the ticker never change what is counted:
    the running interval is the one the packets alone would give. *)
Theorem mon_ticks_neutral aggregate evs m m' :
  mon_run aggregate evs m = Ok m' →
  ∃ n, process_all VMUHeaderLength IDHeaderLengthV2 SDHeaderLengthV2 (mon_packets evs) m = Ok n ∧ interval m' = interval n.
Proof.
  assert (∀ n, interval m = interval n → mo_delta m = mo_delta n → mon_run aggregate evs m = Ok m' →
    ∃ n', process_all VMUHeaderLength IDHeaderLengthV2 SDHeaderLengthV2 (mon_packets evs) n = Ok n' ∧ interval m' = interval n') as H;
    [|by apply H].
  revert m. induction evs as [|ev evs IH]; intros m n Hi Hd; cbn [mon_run]; [intros [= <-]; by exists n|].
  intros (m1 & H1 & H2)%result_bind_ok. destruct ev as [p| |t created].
  - cbn [mon_packets omap list_omap process_all]. cbn [mon_step] in H1. pose proof (packet_interval p m n Hi Hd) as Hp. rewrite H1 in Hp.
    destruct (mon_Process _ _ _ p n) as [n1|e|w]; [|done..]. destruct Hp as [Hi1 Hd1]. by apply (IH m1).
  - apply (IH m1); [|cbn in H1; injection H1 as <-; unfold tick_aggregate; by destruct aggregate|done].
    by rewrite (tick_interval aggregate MonAggregates m m1).
  - apply (IH m1); [|cbn in H1; injection H1 as <-; unfold tick_rotate; by destruct created|done].
    by rewrite (tick_interval aggregate (MonRotates t created) m m1).
Qed.
End rotate.

(** ** hdk2udp *)

Record group : Type := mkGroup { gr_Addr : string; gr_Ifi : string }.

Section hdk2udp.
(** What the system says of an address, of an interface, and of joining a
    group. *)
Context (Dial Resolve Interface : string → option error) (Join_group : option string → string → option error).

(** The connection has the address it was made for. *)
Definition connect (a : string) : result string := match Dial a with Some e => Err e | None => Ok a end.

(** An interface nobody knows is no error: the system chooses one. *)
Definition subscribe (a i : string) : result (option string * string) :=
  match Resolve a with
  | Some e => Err e
  | None =>
      let ifi := match Interface i with None => Some i | Some _ => None end in
      match Join_group ifi a with Some e => Err e | None => Ok (ifi, a) end
  end.

Fixpoint subscribe_all (gs : list group) : list (option string * string) * option error :=
  match gs with
  | [] => ([], None)
  | g :: gs =>
      match subscribe (gr_Addr g) (gr_Ifi g) with
      | Ok s => let '(ss, e) := subscribe_all gs in (s :: ss, e)
      | Err e => ([], Some e)
      | Panic w => ([], None)
      end
  end.

(** [channel.Run] up to its wait: the groups that are read, and the error with
    which it returns at once. *)
Definition Run_start (c : channel) (gs : list group) : list (option string * string) * option error :=
  match connect (ch_Link c) with
  | Err e => ([], Some e)
  | Panic w => ([], None)
  | Ok _ => subscribe_all gs
  end.

(** [main]: the channels it runs, each in a goroutine of an error group. *)
Definition hdk2udp_main (denied : string → option error) (toml : list byte → result (list (channel * list group))) (arg : string) :
    io (list (channel * list group)) :=
  cs ← load denied toml arg; mret (prod_map with_default_levels id <$> cs).

(** A channel reads all its groups, or returns with the error of the first that
    cannot be joined. *)
Lemma Run_start_groups c gs :
  match Run_start c gs with
  | (ss, None) => length ss = length gs ∧ Dial (ch_Link c) = None
  | (ss, Some e) => ss = [] ∧ Dial (ch_Link c) = Some e ∨ length ss < length gs
  end.
Proof.
  unfold Run_start, connect. destruct (Dial (ch_Link c)) as [e|]; [by left|].
  assert (match subscribe_all gs with (ss, None) => length ss = length gs | (ss, Some _) => length ss < length gs end) as H.
  { induction gs as [|g gs IH]; [done|]. cbn [subscribe_all]. unfold subscribe at 1.
    destruct (Resolve (gr_Addr g)) as [e|]; [simpl; lia|]. cbv zeta.
    destruct (Join_group _ (gr_Addr g)) as [e|]; [simpl; lia|].
    destruct (subscribe_all gs) as [ss [e|]]; simpl; lia. }
  destruct (subscribe_all gs) as [ss [e|]]; [by right|done].
Qed.

(** Every channel that runs has levels. *)
Lemma main_levels denied toml arg s cs s' :
  hdk2udp_main denied toml arg s = (Ok cs, s') → Forall (λ x, ch_Levels x.1 ≠ []) cs.
Proof.
  intros H. apply io_bind_inv in H as (c & s1 & _ & H). injection H as <- _. apply Forall_fmap, Forall_forall.
  intros [ch gs] _. cbn. unfold with_default_levels. case_decide as Hl; [done|]. by destruct (ch_Levels ch).
Qed.
End hdk2udp.

(** ** Subscribers of the pool, and what is written of an image *)

(** [NewExternalNotifier]; [NewDebuggerNotifier] never fails. *)
Definition NewExternalNotifier (Dial : string → string → option error) (p a : string) (o : Notifier.Options) : result notifier :=
  match Dial p a with Some e => Err e | None => Ok (External a o) end.

Definition NewDebuggerNotifier (location : string) (o : Notifier.Options) : result notifier := Ok (Debugger location o).

(** [encodeMetadata]: what it gives to the XML encoder. *)
Record image_metadata : Type := mkImageMetadata { im_Version : Z; im_When : Time; im_IDH : IDH }.

Definition encodeMetadata (Xml : image_metadata → result (list byte)) (h : HRInfo) (v : VMUHeader) (i : IDH) : result (list byte) :=
  Xml (mkImageMetadata (hr_Version h) (vh_Timestamp v) i).

(** The storages are given it for images only. *)
Definition metadata_of_packet (Xml : image_metadata → result (list byte)) (p : HRPacket) : result (list byte) :=
  match p with Image h v i => encodeMetadata Xml h v i | _ => Err (ErrExternal "not an image") end.

(** ** Examples *)

(** An unknown mode is found out when the directory has been made. *)
Example late_mode :
  let c := mkListenConfig ":10000" "udp" 1 ("", 0%Z) [] [sample_options "file"] (mkPoolConfig 0 0 []) [] in
  let s := (WriteFile healthy "/hdk.toml" [] (MkdirAll healthy "/" empty_fs).2).2 in
  let r := start_listen healthy (λ _, None) (λ _, None) (λ _, None) (λ _, None) (M:=unit) (λ _, Ok NewOther) (λ _, Ok c) "/hdk.toml" s in
  r.1 = Err (Errorf "unsupported working mode %s" [AStr "udp"]) ∧ so_Location (sample_options "file") ∈ fs_dirs r.2.
Proof. vm_compute. split; [done|by compute_decide]. Qed.
