(* ===== verification/Debug.v ===== *)
(** * Debug: the lines of messages (debugger.Notify of src/notifier.go, the log
      of runMonitor in src/cmd/hadock/misc.go)

    Both print a message as a line of columns.  Floating-point numbers, what
    [%6.3f] and [%6.3g] make of them and [Duration.String] are parameters. *)

From S2P Require Import Prelude Bytes GoStd Text Panda Notifier Science Plugins.
From Stdlib Require Import ZArith Lia Ascii.

(** [%*d] and [%*s]: padded with spaces on the left. *)
Definition column (w : nat) (s : string) : string :=
  String.concat "" (replicate (w - RuneCountInString s) " ") +:+ s.

Section lines.
Context {panda : PandaLib} (UNIX : Time) (Duration_String : Z → string) (loc : Z).
Context {F : Type} (float64 Seconds : Z → F) (div : F → F → F) (positive : F → bool) (show3f show3g : F → string).

Definition columns (cs : list string) : string := join " | " cs.

(** [rate] *)
Definition debug_rate (m : Message) : F :=
  let secs := Seconds (m_Elapsed m) in
  if positive secs then div (float64 (m_Count m)) secs else float64 (m_Count m).

Definition debug_line (m : Message) : string :=
  "| " +:+ columns
    [column 3 (Sprint (m_Instance m));
     column 6 (m_Origin m);
     column 6 (Sprint (m_Sequence m));
     column 3 (Sprint (m_Channel m));
     column 6 (Sprint (m_Count m));
     column 16 (Duration_String (m_Elapsed m));
     column 6 (show3f (debug_rate m));
     Format_RFC3339 (AdjustGenerationTime (m_Generated m));
     Format_RFC3339 (Add UNIX (seconds (m_Acquired m)));
     column 32 (m_UPI m);
     m_Reference m].

(** The lines the logger gets, and the error. *)
Definition debugger_Notify (o : option Options) (m : Message) : list string * option error :=
  match Accept o m with
  | Some _ => ([], None)
  | None => ([debug_line m], None)
  end.

Definition monitor_line (m : Message) : string :=
  let mode := if m_Realtime m then "realtime" else "playback" in
  columns
    [m_Origin m;
     column 9 (Sprint (m_Sequence m));
     column 3 (Sprint (m_Instance m));
     Sprint (m_Channel m);
     column 18 mode;
     column 9 (Sprint (m_Count m));
     column 12 (Duration_String (m_Elapsed m));
     column 6 (show3g (div (float64 (m_Count m)) (Seconds (m_Elapsed m))));
     Format_RFC3339 (AdjustGenerationTime (m_Generated m));
     Format_RFC3339 (time_Unix loc (m_Acquired m));
     m_Reference m].

(** What the monitor command has printed when its stream ends. *)
Definition monitor_lines (fuel : nat) (r : reader) : list string := monitor_line <$> (runMonitor fuel r).1.

(** A debugger prints a line for the messages a connection with the same
    options is sent, and for no other. *)
Lemma debugger_like_notifier o send m :
  ((debugger_Notify o m).1 = [] ↔ (notifier_Notify o send m).1 = []) ∧ (debugger_Notify o m).2 = None.
Proof.
  unfold debugger_Notify, notifier_Notify. destruct (Accept o m); [done|]. split; [|done]. split; [done|].
  intros E. apply (f_equal length) in E. revert E. cbn [fst].
  unfold encodeMessage, write_string, u16. rewrite binary_Write_scalar. autorewrite with lengths. simpl. lia.
Qed.

(** The command prints one line per message of the stream, in order. *)
Lemma monitor_lines_stream ms fuel e :
  Forall message_fits ms → length (concat (encodeMessage <$> ms)) < fuel →
  monitor_lines fuel (Reader (concat (encodeMessage <$> ms)) e) = monitor_line <$> ms.
Proof.
  intros Hms Hf. unfold monitor_lines. rewrite <-(app_nil_r (concat _)) in Hf |- *.
  by destruct (run_stream ms [] fuel e Hms (or_introl eq_refl) Hf) as [er ->].
Qed.
End lines.
