(* ===== verification/Announce.v ===== *)
(** * Announce: from stored packets to the parameter that names their file

    The pool groups the items the storage was given and announces each group;
    [hdk2udp] computes the path of the file from the announcement.  The three
    programs meet in no code, only in what a message says of a packet: this
    file composes Files.v, Notifier.v and Hdk2udp.v. *)

From S2P Require Import Prelude Bytes SortSearch GoStd Panda Proto Notifier Vmu Fs Storage Files Hdk2udp.
From Stdlib Require Import ZArith Lia.

Section announce.
Context {sorter : SliceSorter} {panda : PandaLib}.

(** The storage makes a time of the seconds of the VMU header, [hdk2udp] of the
    seconds in the message, each with a function of the library: that the two
    are the same, to the second, is asked of the packets and not of the
    library. *)
Definition same_generation (announced : Z) (p : HRPacket) : Prop :=
  same_clock (time_Unix 0 (Z.quot (GenerationTimeFromEpoch announced) 1000)) (getVMUTime p).

(** A packet that can be announced: its channel agrees with its type, the time
    it was generated at is the one of its VMU header, and it was acquired at a
    time in UTC. *)
Record decoded_packet (p : HRPacket) : Prop := {
  dp_stream : match p with
              | Image _ _ _ => Stream p = 1 ∨ Stream p = 2
              | Table _ _ _ => Stream p = 3
              | OtherPacket _ => Stream p ≠ 1 ∧ Stream p ≠ 2 ∧ Stream p ≠ 3
              end%Z;
  dp_generated : ∃ g, hr_Generated (info p) = Some g ∧ same_generation (t_sec g) p;
  dp_acquired : t_off (Timestamp p) = 0%Z ∧ (0 ≤ t_nsec (Timestamp p) < Second)%Z;
}.

(** The message of a group describes one of its packets, one with the least
    sequence number. *)
Lemma group_describes k ps :
  ps ≠ [] → in_swidth 32 k.2 →
  Forall (λ p, decoded_packet p ∧ IsRealtime p = k.1.1 ∧ Origin p = k.1.2) ps →
  ∃ m first, group_message k ps = Ok m ∧ first ∈ ps ∧ (∀ hp, hp ∈ ps → (Sequence first ≤ Sequence hp)%Z) ∧
    describes m k.2 first ∧ m_Reference m = Filename first ∧ m_Sequence m = Sequence first ∧
    m_Count m = wrap 32 (Z.of_nat (length ps)).
Proof.
  intros Hne Hk Hps. unfold group_message. pose proof (length_sort_slice Sequence ps) as Hlen.
  destruct (sort_slice Sequence ps) as [|first l] eqn:E.
  { destruct ps; [done|]. by simpl in Hlen. }
  destruct (last (first :: l)) as [lst|] eqn:El; [|by apply last_None in El].
  assert (first ∈ ps) as Hin by (rewrite <-(sort_slice_perm Sequence ps), E; by left).
  rewrite Forall_forall in Hps. destruct (Hps first Hin) as ([Hs (g & Hg & Hgs) [Hoff Hns]] & Hr & Ho).
  eexists _, first. split; [done|]. split_and!; [done|by eapply sort_slice_head| |done|done|by rewrite <-Hlen].
  split; cbn [m_Instance m_Realtime m_Origin m_Channel]; [|done..|exact Hs| |].
  - apply swrap_small; [lia|done].
  - unfold vmu_time. cbn [m_Generated]. rewrite Hg. exact Hgs.
  - by unfold acq_time, getACQTime, time_Unix, same_clock.
Qed.

End announce.

(** ** Examples *)

Definition sample_generated (seq : Z) : HRPacket :=
  match sample_image "OPS" seq true [x01; x02] with
  | Image h v i =>
      Image (mkHRInfo (hr_Version h) (hr_Origin h) (hr_Stream h) seq true (hr_Timestamp h) (Some (time_Unix 0 1262304000))
               (hr_Filename h) (hr_Format h) (hr_Payload h) (hr_Export h) (hr_ExportRaw h) (hr_Bytes h)) v i
  | p => p
  end.

Definition sample_key : key := (true, "51", 255%Z).

