(* ===== verification/Report.v ===== *)
(** * Report: what vmucat prints and what both tools are asked (main of
      src/cmd/vmucat/vmucat.go, the options and Packets of
      src/cmd/vmuzip/vmuzip.go)

    vmucat prints a line for every packet when it is asked for a list, then the
    totals, and a line for every origin of every user packet information
    otherwise.  Go's maps are ranged over in any order: the order is a
    parameter. *)

From S2P Require Import Prelude Bytes SortSearch GoStd Text Panda Plugins Debug Storage Tools.
From Stdlib Require Import ZArith Lia Ascii.

(** ** Asking for the packets of an archive

    [decode] and [walk] are what the library's [DecodeHR] and [Walk] answer. *)
Definition open_archive (decode walk : option error) (q : list HRPacket * option error) : result (list HRPacket * option error) :=
  match decode with
  | Some e => Err e
  | None => match walk with Some e => Err e | None => Ok q end
  end.

Section options.
Context {panda : PandaLib} {sorter : SliceSorter}.

Definition cat_Packets_of (decode walk : option error) (mode src : string) (cs : list Z) (rs : list outcome) :=
  open_archive decode walk (Packets (cat_selects mode src cs) rs).

Definition zip_Packets_of (decode walk : option error) (s : string) (fs : list string) (cs : list Z) (rs : list outcome) :=
  open_archive decode walk (Packets (zip_selects s fs cs) rs).

(** The options of vmuzip repeat those of vmucat. *)
Definition zip_channels_Set (vs : string) (cs : list Z) : option error * list Z :=
  match append_channels (Split ","%char vs) cs with
  | (Some e, cs) => (Some e, cs)
  | (None, cs) => (None, sort_channels cs)
  end.

Definition zip_source_Set (v : string) : result string :=
  if decide (v ∈ ["realtime"; "playback"; ""; "*"]) then Ok v else Err (Errorf "unknown source %q" [AStr v]).
End options.

(** ** Lines *)

(** 2006-01-02T15:04:05.000Z: the fraction is cut, the last letter is a
    letter. *)
Definition Format_millis (t : Time) : string :=
  let '(m, d) := month_day t in
  sprintf0 4 (Year t) +:+ "-" +:+ digits2 m +:+ "-" +:+ digits2 d +:+ "T" +:+
  digits2 (HourOf t) +:+ ":" +:+ digits2 (MinuteOf t) +:+ ":" +:+ digits2 (SecondOf t) +:+
  "." +:+ sprintf0 3 (t_nsec t / 1000000) +:+ "Z".

(** [%-*s] *)
Definition column_left (w : nat) (s : string) : string :=
  s +:+ String.concat "" (replicate (w - RuneCountInString s) " ").

Definition Sprint_bool (b : bool) : string := if b then "true" else "false".

(** The maps of the counters, in the order they are ranged over. *)
Class MapOrder : Type := {
  range {A} : gmap string A → list (string * A);
  range_perm {A} (m : gmap string A) : range m ≡ₚ map_to_list m;
}.

#[export] Instance sample_order : MapOrder := {| range A m := map_to_list m; range_perm A m := reflexivity _ |}.

Section vmucat.
Context {panda : PandaLib} {order : MapOrder}.
(** [v.Stream()] of a VMU header as it is printed, and [panda.Valid]. *)
Context (vmu_Stream : VMUHeader → string) (Valid : HRPacket → bool).

Definition vmu_of (p : HRPacket) : option VMUHeader :=
  match p with Table _ v _ | Image _ v _ => Some v | OtherPacket _ => None end.

Definition list_line (v : VMUHeader) (upi : string) (p : HRPacket) : string :=
  columns
    [Origin p;
     Format_millis (vh_Timestamp v);
     column 4 (vmu_Stream v);
     column 6 (Sprint_bool (IsRealtime p));
     column 6 (Sprint (vh_Sequence v));
     column 6 (Sprint (Sequence p));
     column 7 (Sprint (Z.of_nat (length (Payload p))));
     column_left 56 (Filename p);
     column_left 6 (hr_Format (info p));
     Format_RFC3339 (Timestamp p);
     column 16 upi;
     if Valid p then "-" else "corrupted"].

(** The line of a packet that is counted. *)
Definition packet_line (only : string) (p : HRPacket) : option string :=
  match vmu_of p, upi_of p with
  | Some v, Some upi => if decide (0 < String.length only ∧ upi ≠ only) then None else Some (list_line v upi p)
  | _, _ => None
  end.

Definition megabytes (size : Z) : string := Sprint (Z.shiftr size 20) +:+ "MB".

Definition summary_line (t : tally) : string :=
  Sprint (ta_count t) +:+ " packets found (" +:+ megabytes (ta_size t) +:+ ")".

Definition report_line (upi origin : string) (z : Z * Z) : string :=
  column 4 origin +:+ ": " +:+ column 32 upi +:+ ": " +:+ column 12 (Sprint z.1) +:+ " -> " +:+
  column 12 (Sprint (Z.shiftr z.2 20)) +:+ "MB".

Definition report (t : tally) : list string :=
  '(upi, c) ← range (ta_counter t); '(s, z) ← range c; [report_line upi s z].

(** [main] behind [Packets]: the lines it prints. *)
Definition vmucat (listing : bool) (only : string) (ps : list HRPacket) : list string :=
  let t := tally_all only ps in
  (if listing then omap (packet_line only) ps else []) ++ [summary_line t] ++ (if listing then [] else report t).

(** The archive ends or the program does: the goroutine of [Packets] ends it on
    an error, when [main] has handled some of the packets sent before. *)
Definition vmucat_main (decode walk : option error) (mode src : string) (cs : list Z) (listing : bool) (only : string)
    (handled : nat) (rs : list outcome) : list string * option error :=
  match cat_Packets_of decode walk mode src cs rs with
  | Err e => ([], Some e)
  | Panic w => ([], None)
  | Ok (ps, None) => (vmucat listing only ps, None)
  | Ok (ps, Some e) => (if listing then omap (packet_line only) (take handled ps) else [], Some e)
  end.

(** ** Theorems *)

Definition keyed : Type := string * string.

(** The lines of the counters, with what they say. *)
Definition entries (t : tally) : list (keyed * (Z * Z)) :=
  '(upi, c) ← map_to_list (ta_counter t); (λ '(s, z), ((upi, s), z)) <$> map_to_list c.

Lemma elem_of_entries t u s z : ((u, s), z) ∈ entries t ↔ ta_counter t !! u ≫= (λ c, c !! s) = Some z.
Proof.
  unfold entries. rewrite list_elem_of_bind. split.
  - intros ([u' c] & H & Hc%elem_of_map_to_list). apply list_elem_of_fmap in H as ([s' z'] & [= -> -> ->] & H%elem_of_map_to_list).
    by rewrite Hc.
  - intros (c & Hc & Hz)%bind_Some. exists (u, c). split; [|by apply elem_of_map_to_list].
    apply list_elem_of_fmap. exists (s, z). split; [done|by apply elem_of_map_to_list].
Qed.

Lemma NoDup_entries t : NoDup (entries t).
Proof.
  unfold entries. pose proof (NoDup_fst_map_to_list (ta_counter t)) as H.
  induction (map_to_list (ta_counter t)) as [|[u c] l IH]; [constructor|].
  cbn [mbind list_bind fmap list_fmap fst] in *. apply NoDup_cons in H as [Hu H]. apply NoDup_app. split_and!; [| |by apply IH].
  - apply NoDup_fmap_2_strong; [|apply NoDup_map_to_list]. intros [s z] [s' z'] _ _ [= -> ->]. done.
  - intros [[u' s] z] Hin. apply list_elem_of_fmap in Hin as ([s' z'] & [= -> -> ->] & _).
    rewrite list_elem_of_bind. intros ([u2 c2] & Hin & Hl). apply list_elem_of_fmap in Hin as ([s2 z2] & [= <- <- <-] & _).
    apply Hu. by apply (list_elem_of_fmap_2 fst _ (u, c2)).
Qed.

Lemma report_entries t : report t ≡ₚ (λ '((u, s), z), report_line u s z) <$> entries t.
Proof.
  unfold report, entries. rewrite range_perm.
  induction (map_to_list (ta_counter t)) as [|[u c] l IH]; [done|]. cbn [mbind list_bind]. rewrite fmap_app, <-IH.
  f_equiv. rewrite range_perm. clear. induction (map_to_list c) as [|[s z] l IH]; [done|]. csimpl. by rewrite IH.
Qed.

(** The user packet information and origin of the packets that are counted,
    each once. *)
Definition counted_keys (only : string) (ps : list HRPacket) : list keyed :=
  remove_dups (omap (λ p, (λ u, (u, Origin p)) <$> upi_of p) (filter (counts only) ps)).

Lemma elem_of_keys only ps u s : (u, s) ∈ counted_keys only ps ↔ line_of only u s ps ≠ [].
Proof.
  unfold counted_keys, line_of. rewrite elem_of_remove_dups, list_elem_of_omap. split.
  - intros (p & [Hc Hp]%list_elem_of_filter & H). destruct (upi_of p) as [v|] eqn:E; [|done]. injection H as -> <-. intros Hnil.
    assert (p ∈ (@nil HRPacket)) as Hin; [|by apply elem_of_nil in Hin]. rewrite <-Hnil. by apply list_elem_of_filter.
  - intros Hne. destruct (filter _ ps) as [|p l] eqn:E; [done|].
    assert (p ∈ filter (λ p, counts only p ∧ upi_of p = Some u ∧ Origin p = s) ps) as Hin by (rewrite E; by left).
    apply list_elem_of_filter in Hin as [(Hc & Hu & Ho) Hp]. exists p. rewrite list_elem_of_filter, Hu, Ho. done.
Qed.

(** Fact: the report has a line for every user packet information and origin
    that was counted, once, with the number of its packets and their megabytes,
    modulo 2^64; nothing else, in some order. *)
Theorem report_complete only ps :
  report (tally_all only ps) ≡ₚ
  (λ '(u, s), let ms := line_of only u s ps in report_line u s (wrap 64 (Z.of_nat (length ms)), wrap 64 (total_size ms)))
    <$> counted_keys only ps.
Proof.
  rewrite report_entries.
  set (value := λ k : keyed, let ms := line_of only k.1 k.2 ps in (wrap 64 (Z.of_nat (length ms)), wrap 64 (total_size ms))).
  assert (entries (tally_all only ps) ≡ₚ (λ k, (k, value k)) <$> counted_keys only ps) as ->.
  { apply NoDup_Permutation; [apply NoDup_entries|apply NoDup_fmap_2; [by intros ? ? [= ->]|apply NoDup_remove_dups]|].
    intros [[u s] z]. rewrite elem_of_entries, tally_lines, list_elem_of_fmap. cbv zeta. case_decide as Hm; split.
    - done.
    - intros ([u' s'] & [= <- <- _] & Hk%elem_of_keys). done.
    - intros [= <-]. exists (u, s). split; [done|by apply elem_of_keys].
    - intros ([u' s'] & [= <- <- ->] & _). done. }
  rewrite <-list_fmap_compose. apply Permutation_refl', list_fmap_ext. by intros i [u s] _.
Qed.

(** The totals are those of the packets that are counted. *)
Lemma tally_totals only ps :
  ta_count (tally_all only ps) = wrap 64 (Z.of_nat (length (filter (counts only) ps))) ∧
  ta_size (tally_all only ps) = wrap 64 (total_size (filter (counts only) ps)).
Proof.
  induction ps as [|p ps [IH1 IH2]] using rev_ind; [done|]. unfold tally_all in *. rewrite foldl_app. cbn [foldl].
  set (t := foldl _ _ ps) in *. rewrite filter_app, filter_cons, filter_nil. unfold count_packet.
  destruct (upi_of p) as [u|] eqn:Hu.
  2: { rewrite (decide_False (P := counts only p)), app_nil_r by (intros [[? ?] _]; congruence). done. }
  destruct (decide (counts only p)) as [Hc|Hc].
  2: { rewrite decide_True by (by apply (counts_iff _ p)). by rewrite app_nil_r. }
  rewrite decide_False by (intros Hn; by apply (counts_iff _ p) in Hn). cbn [ta_count ta_size].
  rewrite IH1, IH2, !wrap_add_l, length_app, total_size_app. split; f_equal; simpl; [lia|]. by rewrite Z.add_0_r.
Qed.

(** A packet has a line in the list exactly when it is counted. *)
Lemma packet_line_counts only p : is_Some (packet_line only p) ↔ counts only p.
Proof.
  unfold packet_line. destruct (upi_of p) as [u|] eqn:Hu.
  - assert (∃ v, vmu_of p = Some v) as [v ->] by (destruct p; [by eexists..|done]).
    destruct (decide (counts only p)) as [Hc|Hc].
    + rewrite decide_False by (intros Hn; by apply (counts_iff _ p) in Hn). split; [done|by eexists].
    + rewrite decide_True by (by apply (counts_iff _ p)). split; [by intros []|done].
  - destruct (vmu_of p); (split; [by intros []|intros [[? ?] _]; congruence]).
Qed.

(** Fact: the lister prints a line for every packet that is counted, in the order
    of the archive, and then the totals, or the totals and the report. *)
Theorem vmucat_prints listing only ps :
  ∃ lines, vmucat listing only ps =
    (if listing then lines else []) ++
    [Sprint (wrap 64 (Z.of_nat (length (filter (counts only) ps)))) +:+ " packets found (" +:+
     megabytes (wrap 64 (total_size (filter (counts only) ps))) +:+ ")"] ++
    (if listing then [] else report (tally_all only ps)) ∧
  Forall2 (λ l p, packet_line only p = Some l) lines (filter (counts only) ps).
Proof.
  exists (omap (packet_line only) ps). unfold vmucat, summary_line. destruct (tally_totals only ps) as [-> ->]. split; [done|].
  induction ps as [|p ps IH]; [constructor|]. rewrite filter_cons. cbn [omap list_omap].
  destruct (decide (counts only p)) as [Hc|Hc].
  - destruct (packet_line only p) as [l|] eqn:E; [by constructor|].
    apply (packet_line_counts only p) in Hc as [l Hl]. congruence.
  - destruct (packet_line only p) as [l|] eqn:E; [|done]. exfalso. apply Hc, packet_line_counts. by rewrite E.
Qed.
End vmucat.

(** ** Examples *)

Example vmucat_report :
  vmucat (λ _, "lrsd") (λ _, true) false "" sample_recorded =
  ["2 packets found (0MB)";
   "  51:                              OPS:            1 ->            0MB";
   "  51:                              SIM:            1 ->            0MB"].
Proof. by vm_compute. Qed.

Example vmucat_list :
  vmucat (λ _, "lrsd") (λ _, true) true "SIM" sample_recorded =
  ["51 | 2010-01-01T00:00:00.000Z | lrsd |   true |     17 |      2 |       1 | 0051_mma_1_7_20200101_000000.dat                         | mma    | 2020-01-01T00:00:00Z |              SIM | -";
   "1 packets found (0MB)"].
Proof. by vm_compute. Qed.
